(** * GazeTracker: detection decode, iris localisation, gaze normalisation
      and calibration

    A shallow embedding of

    - [TensorFlowProcessor.kt] (Kotlin, [Float] = IEEE-754 binary32,
      [Int] = 32-bit two's complement),
    - [CalibrationScreen.tsx] and [CalibrationService.ts] (TypeScript,
      [number] = IEEE-754 binary64),

    together with the properties of the pipeline
    detection-decode -> iris-localise -> gaze-normalise -> calibrate,

    and of what surrounds it: the life cycle of the model and its input
    buffer ([TensorFlowProcessor.kt]), the frame event ([CameraModule.kt],
    [NativeCameraModule.ts]) and its second consumer, the recording
    session ([SessionManager.ts], [App.tsx]).

    Floating-point values are [spec_float] values of the standard library's
    [SpecFloat], whose operations are the IEEE-754 ones (round to nearest,
    ties to even) for a given precision and exponent range.  The Kotlin
    functions are written once over an interface of the [Float] operations
    they use; the interface has the binary32 instance, which is what the
    JVM executes.  Where a property compares a computed float with the
    real number it approximates, the float is read as the rational number
    it denotes ([FloatValue.value]) and the rounding of each operation is
    accounted for. *)

From Stdlib Require Import ZArith List Bool Lia QArith Qpower Qabs Lqa SpecFloat.
From Stdlib Require String DecimalString.
Import ListNotations.
Import String.StringSyntax.
Delimit Scope string_scope with string.

Set Implicit Arguments.

Local Open Scope Z_scope.

(* ===================================================================== *)
(** * IEEE-754 helpers over [spec_float]                                  *)
(* ===================================================================== *)

Module IEEE.

Definition isNaN (x : spec_float) : bool :=
  match x with S754_nan => true | _ => false end.

(** Zero, subnormal or normal: neither an infinity nor NaN. *)
Definition isFinite (x : spec_float) : bool :=
  match x with S754_zero _ | S754_finite _ _ _ => true | _ => false end.

Definition isZero (x : spec_float) : bool :=
  match x with S754_zero _ => true | _ => false end.

Definition isNegativeZero (x : spec_float) : bool :=
  match x with S754_zero true => true | _ => false end.

(** [java.lang.Math.max] on floating-point arguments (also what
    [kotlin.math.max] and JavaScript's two-argument [Math.max] compute):
<<
    if (a != a) return a;                       // a is NaN
    if (a == 0.0 && b == 0.0 && a is -0.0) return b;
    return (a >= b) ? a : b;
>>
    so that a NaN on either side gives NaN. *)
Definition max (a b : spec_float) : spec_float :=
  if isNaN a then a
  else if isZero a && isZero b && isNegativeZero a then b
  else if SFleb b a then a else b.

(** [java.lang.Math.min], symmetrically:
<<
    if (a != a) return a;
    if (a == 0.0 && b == 0.0 && b is -0.0) return b;
    return (a <= b) ? a : b;
>> *)
Definition min (a b : spec_float) : spec_float :=
  if isNaN a then a
  else if isZero a && isZero b && isNegativeZero b then b
  else if SFleb a b then a else b.

(** The integer part of a finite float, rounded toward zero. *)
Definition truncate (x : spec_float) : Z :=
  match x with
  | S754_finite s m e => cond_Zopp s (Z.shiftl (Zpos m) e)
  | _ => 0
  end.

(** Conversion between formats: the value is kept and rounded to the
    target precision ([prec], [emax]). *)
Definition convert (prec emax : Z) (x : spec_float) : spec_float :=
  match x with
  | S754_finite s m e => binary_normalize prec emax (cond_Zopp s (Zpos m)) e s
  | _ => x
  end.

End IEEE.

(* ===================================================================== *)
(** * 32-bit [Int]                                                        *)
(* ===================================================================== *)

Module Int32.

Definition MIN_VALUE : Z := - 2 ^ 31.
Definition MAX_VALUE : Z := 2 ^ 31 - 1.

(** Two's complement wrap-around of an integer result. *)
Definition wrap (z : Z) : Z := (z + 2 ^ 31) mod 2 ^ 32 - 2 ^ 31.

Definition add (a b : Z) : Z := wrap (a + b).
Definition sub (a b : Z) : Z := wrap (a - b).
Definition mul (a b : Z) : Z := wrap (a * b).
(** Kotlin's [/] on [Int] truncates toward zero. *)
Definition div (a b : Z) : Z := wrap (Z.quot a b).

(** Saturation, as in the narrowing of [Float.toInt()]. *)
Definition saturate (z : Z) : Z := Z.max MIN_VALUE (Z.min MAX_VALUE z).

End Int32.

(* ===================================================================== *)
(** * The [Float] operations used by [TensorFlowProcessor.kt]             *)
(* ===================================================================== *)

Class FloatOps (F : Type) : Type := {
  plus : F -> F -> F;
  minus : F -> F -> F;
  times : F -> F -> F;
  divide : F -> F -> F;
  unaryMinus : F -> F;
  (** [lt a b] is [a < b]; [a > b] is [lt b a]. *)
  lt : F -> F -> bool;
  (** [kotlin.math.max], [kotlin.math.min], [Math.max], [Math.min]. *)
  mathMax : F -> F -> F;
  mathMin : F -> F -> F;
  (** [Int.toFloat()], also the implicit widening of an [Int] operand. *)
  toFloat : Z -> F;
  (** [Float.toInt()]. *)
  toInt : F -> Z
}.

Declare Scope float_scope.
Delimit Scope float_scope with flt.
Infix "+" := plus : float_scope.
Infix "-" := minus : float_scope.
Infix "*" := times : float_scope.
Infix "/" := divide : float_scope.
Notation "- x" := (unaryMinus x) : float_scope.
Notation "a < b" := (lt a b) : float_scope.
Notation "a > b" := (lt b a) : float_scope.

(** A decimal literal [n/d] written in the source, such as [0.35f] =
    [decimal 35 100]: both [n] and [d] are exactly representable and IEEE
    division rounds correctly, so in binary32 this is the float nearest to
    the decimal, which is how the compiler reads the literal. *)
Definition decimal {F : Type} {ops : FloatOps F} (n d : Z) : F :=
  (toFloat n / toFloat d)%flt.

(** ** Binary32: what the JVM executes *)

Module Binary32.

Definition prec : Z := 24.
Definition emax : Z := 128.

Abbreviation float32 := spec_float.

Definition ofInt (z : Z) : float32 := binary_normalize prec emax z 0 false.

(** [Float.MAX_VALUE] *)
Definition MAX_VALUE : float32 := SFmax_float prec emax.

(** [Float.toInt()]: NaN gives 0, otherwise round toward zero and saturate
    to the [Int] range. *)
Definition toInt (x : float32) : Z :=
  match x with
  | S754_nan => 0
  | S754_infinity s => if s then Int32.MIN_VALUE else Int32.MAX_VALUE
  | _ => Int32.saturate (IEEE.truncate x)
  end.

End Binary32.

#[export] Instance Float32 : FloatOps Binary32.float32 | 0 := {|
  plus := SFadd Binary32.prec Binary32.emax;
  minus := SFsub Binary32.prec Binary32.emax;
  times := SFmul Binary32.prec Binary32.emax;
  divide := SFdiv Binary32.prec Binary32.emax;
  unaryMinus := SFopp;
  lt := SFltb;
  mathMax := IEEE.max;
  mathMin := IEEE.min;
  toFloat := Binary32.ofInt;
  toInt := Binary32.toInt
|}.

(** ** The rational number a float denotes *)

Module FloatValue.

Definition pow2 (e : Z) : Q := (2 # 1) ^ e.

(** The magnitude and the value of a finite float; 0 for the others. *)
Definition magnitude (x : spec_float) : Q :=
  match x with
  | S754_finite _ m e => inject_Z (Zpos m) * pow2 e
  | _ => 0
  end.

Definition value (x : spec_float) : Q :=
  match x with
  | S754_finite true m e => - (inject_Z (Zpos m) * pow2 e)
  | S754_finite false m e => inject_Z (Zpos m) * pow2 e
  | _ => 0
  end.

Definition signed (s : bool) (q : Q) : Q := if s then (- q)%Q else q.

(** A float of the format that is neither an infinity nor NaN. *)
Definition representable (prec emax : Z) (x : spec_float) : Prop :=
  IEEE.isFinite x = true /\ valid_binary prec emax x = true.

(** The bound on the error of one rounding of the exact result [v]: a
    relative error of [2^(1 - prec)], or the gap between subnormal
    numbers. *)
Definition roundingError (prec emax : Z) (v : Q) : Q :=
  pow2 (1 - prec) * Qabs v + pow2 (emin prec emax).

(** The float made of a rounded mantissa [m2 <= 2 ^ prec] at the exponent
    [E]: what [binary_round_aux] returns. *)
Definition encode (prec emax : Z) (s : bool) (m2 E : Z) : spec_float :=
  if m2 =? 0 then S754_zero s
  else if m2 =? 2 ^ prec then
    if E + 1 <=? emax - prec
    then S754_finite s (Z.to_pos (2 ^ (prec - 1))) (E + 1)
    else S754_infinity s
  else if E <=? emax - prec then S754_finite s (Z.to_pos m2) E
  else S754_infinity s.

(** In binary32: the relative error of one rounding, [2^-23], and the
    least positive number, [2^-149]. *)
Definition u : Q := 1 # 8388608.
Definition eta : Q := 1 # 713623846352979940529142984724747568191373312.

End FloatValue.

(* ===================================================================== *)
(** * [kotlin.math.exp] on [Float]                                        *)
(* ===================================================================== *)

(** [kotlin.math.exp(x: Float)] is [Math.exp(x.toDouble()).toFloat()].
    [java.lang.Math.exp] belongs to the platform, not to this repository.
    Every theorem below that involves the sigmoid is stated for an arbitrary
    function in its place.  [JavaMath.exp] is an executable stand-in used
    only to evaluate the pipeline on concrete tensors: it has the special
    cases the Java documentation fixes (NaN to NaN, +infinity to +infinity,
    -infinity to +0) and computes [e^x] in 160-bit fixed point before
    rounding to binary64. *)

Module JavaMath.

Definition fixP : Z := 160.

(** [ln 2 = 1/(1*2) + 1/(2*4) + 1/(3*8) + ...], scaled by [2^fixP]. *)
Fixpoint ln2_series (fuel : nat) (k : Z) (acc : Z) : Z :=
  match fuel with
  | O => acc
  | S fuel' => ln2_series fuel' (k + 1) (acc + Z.shiftl 1 (fixP - k) / k)
  end.

Definition ln2 : Z := Eval vm_compute in ln2_series 170 1 0.

(** [1 + r + r^2/2! + ...] for a fixed-point [r]; [term] is [r^(i-1)/(i-1)!]. *)
Fixpoint exp_series (fuel : nat) (i : Z) (term acc r : Z) : Z :=
  match fuel with
  | O => acc
  | S fuel' =>
      let term' := term * r / (i * 2 ^ fixP) in
      exp_series fuel' (i + 1) term' (acc + term') r
  end.

Definition exp64 (x : spec_float) : spec_float :=
  match x with
  | S754_nan => S754_nan
  | S754_infinity false => S754_infinity false
  | S754_infinity true => S754_zero false
  | S754_zero _ => binary_normalize 53 1024 1 0 false
  | S754_finite s m e =>
      if 11 <=? Zpos (digits2_pos m) + e
      then (if s then S754_zero false else S754_infinity false)
      else
        let X := cond_Zopp s (Z.shiftl (Zpos m) (e + fixP)) in
        let k := (2 * X + ln2) / (2 * ln2) in
        let r := X - k * ln2 in
        binary_normalize 53 1024
          (exp_series 48 1 (2 ^ fixP) (2 ^ fixP) r) (k - fixP) false
  end.

Definition exp (x : Binary32.float32) : Binary32.float32 :=
  IEEE.convert Binary32.prec Binary32.emax (exp64 (IEEE.convert 53 1024 x)).

End JavaMath.

(* ===================================================================== *)
(** * Exceptions                                                          *)
(* ===================================================================== *)

(** A computation that either returns a value or throws; the exception
    carries no data, as no handler in the modelled code inspects it. *)
Inductive Try (A : Type) : Type :=
| Returns (a : A)
| Throws.

Arguments Returns {A} a.
Arguments Throws {A}.

Definition bindTry {A B : Type} (c : Try A) (k : A -> Try B) : Try B :=
  match c with
  | Returns a => k a
  | Throws => Throws
  end.

Notation "x <- c ;; k" := (bindTry c (fun x => k))
  (at level 61, c at next level, right associativity).
Notation "' p <- c ;; k" := (bindTry c (fun p => k))
  (at level 61, p pattern, c at next level, right associativity).

(** Array read [a[i]]: [ArrayIndexOutOfBoundsException] outside the array. *)
Definition arrayGet {A : Type} (a : list A) (i : Z) : Try A :=
  if i <? 0 then Throws
  else match nth_error a (Z.to_nat i) with
       | Some v => Returns v
       | None => Throws
       end.

(** [lo until hi] *)
Definition until (lo hi : Z) : list Z :=
  map (fun i => lo + Z.of_nat i) (seq 0 (Z.to_nat (hi - lo))).

(* ===================================================================== *)
(** * TensorFlowProcessor.kt                                              *)
(* ===================================================================== *)

Module TensorFlowProcessor.

(** [android.graphics.Bitmap]: [getPixel] returns the ARGB colour as an
    [Int] and throws [IllegalArgumentException] outside the bitmap. *)
Record Bitmap : Type := {
  width : Z;
  height : Z;
  pixels : Z -> Z -> Z
}.

Definition getPixel (bitmap : Bitmap) (px py : Z) : Try Z :=
  if (0 <=? px) && (px <? width bitmap) && (0 <=? py) && (py <? height bitmap)
  then Returns (pixels bitmap px py)
  else Throws.

Section Processor.

Context {F : Type} {ops : FloatOps F}.

(** [kotlin.math.exp] *)
Variable exp : F -> F.

Local Open Scope float_scope.

Definition INPUT_SIZE : Z := 128.
Definition NUM_DETECTIONS : Z := 896.
Definition NUM_COORDS : Z := 4.

(** ** Data classes *)

Record Point : Type := { x : F; y : F }.

Record EyeData : Type := {
  iris : Point;
  innerCorner : Point;
  outerCorner : Point
}.

(** [GazeData.confidence] is named [gazeConfidence] here, to keep it apart
    from [EyeLandmarks.confidence]. *)
Record GazeData : Type := {
  normalizedGazeX : F;
  rawGazeX : F;
  leftEyeX : F;
  rightEyeX : F;
  gazeConfidence : F
}.

Record EyeLandmarks : Type := {
  leftEye : EyeData;
  rightEye : EyeData;
  confidence : F;
  timestamp : Z;
  highResTimestamp : Z;
  gazeData : option GazeData
}.

(** ** [createNoFaceResult]

    [now] and [nano] are the readings of [System.currentTimeMillis()] and
    [System.nanoTime()]. *)
Definition createNoFaceResult (now nano : Z) : EyeLandmarks := {|
  leftEye := {| iris := {| x := toFloat 0; y := toFloat 0 |};
                innerCorner := {| x := toFloat 0; y := toFloat 0 |};
                outerCorner := {| x := toFloat 0; y := toFloat 0 |} |};
  rightEye := {| iris := {| x := toFloat 0; y := toFloat 0 |};
                 innerCorner := {| x := toFloat 0; y := toFloat 0 |};
                 outerCorner := {| x := toFloat 0; y := toFloat 0 |} |};
  confidence := toFloat 0;
  timestamp := now;
  highResTimestamp := nano;
  gazeData := None
|}.

(** ** [detectIrisInEyeRegion] *)

(** The eye region bounds [(left, top, right, bottom)], clipped to the
    bitmap. *)
Definition eyeRegionBounds (bitmap : Bitmap)
    (eyeCenterX eyeCenterY eyeRegionSize : F) : Z * Z * Z * Z :=
  let regionHalfSize := eyeRegionSize / toFloat 2 in
  let left := Z.max 0 (toInt (eyeCenterX - regionHalfSize)) in
  let top := Z.max 0 (toInt (eyeCenterY - regionHalfSize)) in
  let right := Z.min (width bitmap) (toInt (eyeCenterX + regionHalfSize)) in
  let bottom := Z.min (height bitmap) (toInt (eyeCenterY + regionHalfSize)) in
  (left, top, right, bottom).

(** The body of the inner loop, for the pixel at [(px, scanY)]; the state
    is [(darkestX, darkestIntensity)]. *)
Definition scanPixel (bitmap : Bitmap) (scanY : Z)
    (st : Try (F * F)) (px : Z) : Try (F * F) :=
  '(darkestX, darkestIntensity) <- st ;;
  pixel <- getPixel bitmap px scanY ;;
  let red := Z.land (Z.shiftr pixel 16) 255 in
  let green := Z.land (Z.shiftr pixel 8) 255 in
  let blue := Z.land pixel 255 in
  let intensity :=
    toFloat red * decimal 3 10 + toFloat green * decimal 3 10
    + toFloat blue * decimal 4 10 in
  if intensity < darkestIntensity
  then Returns (toFloat px, intensity)
  else Returns (darkestX, darkestIntensity).

(** The body of the outer loop, for scan line [lineIdx]. *)
Definition scanLine (bitmap : Bitmap) (left top right bottom lineSpacing : Z)
    (st : Try (F * F)) (lineIdx : Z) : Try (F * F) :=
  let scanY := Int32.add top (Int32.mul lineSpacing (Int32.add lineIdx 1)) in
  if (top <=? scanY) && (scanY <? bottom)
  then fold_left (scanPixel bitmap scanY) (until left right) st
  else st.

Definition detectIrisInEyeRegion (bitmap : Bitmap)
    (eyeCenterX eyeCenterY eyeRegionSize : F) : F :=
  let '(left_, top_, right_, bottom_) :=
    eyeRegionBounds bitmap eyeCenterX eyeCenterY eyeRegionSize in
  if (right_ <=? left_) || (bottom_ <=? top_) then eyeCenterX
  else
    let scanLines := 3 in
    let lineSpacing :=
      Z.max 1 (Int32.div (Int32.sub bottom_ top_) (Int32.add scanLines 1)) in
    match fold_left (scanLine bitmap left_ top_ right_ bottom_ lineSpacing)
                    (until 0 scanLines)
                    (Returns (eyeCenterX, toFloat 255)) with
    | Returns (darkestX, _) =>
        let maxMovement := eyeRegionSize * decimal 5 10 in
        let movement := darkestX - eyeCenterX in
        eyeCenterX + mathMax (- maxMovement) (mathMin maxMovement movement)
    | Throws => eyeCenterX
    end.

(** ** [calculateNormalizedGaze] *)

Definition calculateNormalizedGaze (irisX leftEyeX rightEyeX confidence : F)
    : GazeData :=
  let actualLeftX := mathMin leftEyeX rightEyeX in
  let actualRightX := mathMax leftEyeX rightEyeX in
  let eyeSpan := actualRightX - actualLeftX in
  let normalizedGazeX :=
    if eyeSpan > decimal 1 1000 then
      let rawNormalized :=
        toFloat 2 * ((irisX - actualLeftX) / eyeSpan) - toFloat 1 in
      mathMax (- toFloat 1) (mathMin (toFloat 1) rawNormalized)
    else toFloat 0 in
  {| normalizedGazeX := normalizedGazeX;
     rawGazeX := irisX;
     leftEyeX := actualLeftX;
     rightEyeX := actualRightX;
     gazeConfidence := confidence |}.

(** ** [processBlazeFaceDetections]

    [classificators] is the tensor [classificators[0]] of shape [N x 1],
    given by its logits [classificators[0][i][0]]; [regressors] is
    [regressors[0]], one row of floats per detection. *)

Definition confidenceThreshold : F := decimal 1 100.

Definition sigmoid (logit : F) : F :=
  toFloat 1 / (toFloat 1 + exp (- logit)).

(** The loop over [classificators[0].indices], from index [i] on. *)
Fixpoint scanDetections (logits : list F) (i : Z)
    (bestDetectionIndex : Z) (bestConfidence : F) : Z * F :=
  match logits with
  | [] => (bestDetectionIndex, bestConfidence)
  | logit :: rest =>
      let confidence := sigmoid logit in
      if confidence > bestConfidence then
        scanDetections rest (i + 1)
          (if confidence > confidenceThreshold then i else bestDetectionIndex)
          confidence
      else scanDetections rest (i + 1) bestDetectionIndex bestConfidence
  end.

(** The face bounding box in image space, with a top-left origin. *)
Record FaceBox : Type := {
  faceLeft : F;
  faceTop : F;
  faceWidth : F;
  faceHeight : F
}.

Definition decodeFaceBox (coords : list F) (imageWidth imageHeight : Z)
    : Try FaceBox :=
  let scaleX := toFloat imageWidth / toFloat INPUT_SIZE in
  let scaleY := toFloat imageHeight / toFloat INPUT_SIZE in
  c0 <- arrayGet coords 0 ;;
  c1 <- arrayGet coords 1 ;;
  c2 <- arrayGet coords 2 ;;
  c3 <- arrayGet coords 3 ;;
  let faceX := c0 * scaleX in
  let faceY := c1 * scaleY in
  let faceWidth := c2 * scaleX in
  let faceHeight := c3 * scaleY in
  Returns {| faceLeft := faceX - faceWidth / toFloat 2;
             faceTop := faceY - faceHeight / toFloat 2;
             faceWidth := faceWidth;
             faceHeight := faceHeight |}.

(** First part of [processBlazeFaceDetections]: the best detection, if one
    is accepted, as its box and confidence. *)
Definition detectFace (regressors : list (list F)) (classificators : list F)
    (imageWidth imageHeight : Z) : Try (option (FaceBox * F)) :=
  let '(bestDetectionIndex, bestConfidence) :=
    scanDetections classificators 0 (-1) (toFloat 0) in
  if bestDetectionIndex =? -1 then Returns None
  else
    coords <- arrayGet regressors bestDetectionIndex ;;
    box <- decodeFaceBox coords imageWidth imageHeight ;;
    Returns (Some (box, bestConfidence)).

(** Second part of [processBlazeFaceDetections]: eye regions, iris
    positions and gaze from the accepted face. *)
Definition eyeLandmarksOfFace (bitmap : Bitmap) (box : FaceBox)
    (bestConfidence : F) (now nano : Z) : EyeLandmarks :=
  let eyeY := faceTop box + faceHeight box * decimal 35 100 in
  let leftEyeX := faceLeft box + faceWidth box * decimal 3 10 in
  let rightEyeX := faceLeft box + faceWidth box * decimal 7 10 in
  let eyeSpacing := faceWidth box * decimal 8 100 in
  let leftIrisX :=
    detectIrisInEyeRegion bitmap leftEyeX eyeY (faceWidth box * decimal 15 100) in
  let rightIrisX :=
    detectIrisInEyeRegion bitmap rightEyeX eyeY (faceWidth box * decimal 15 100) in
  let averageIrisX := (leftIrisX + rightIrisX) / toFloat 2 in
  let leftEyeOuterX := leftEyeX - eyeSpacing in
  let rightEyeOuterX := rightEyeX + eyeSpacing in
  let gazeData :=
    calculateNormalizedGaze averageIrisX leftEyeOuterX rightEyeOuterX
      bestConfidence in
  {| leftEye := {| iris := {| x := leftIrisX; y := eyeY |};
                   innerCorner := {| x := leftEyeX + eyeSpacing; y := eyeY |};
                   outerCorner := {| x := leftEyeOuterX; y := eyeY |} |};
     rightEye := {| iris := {| x := rightIrisX; y := eyeY |};
                    innerCorner := {| x := rightEyeX - eyeSpacing; y := eyeY |};
                    outerCorner := {| x := rightEyeOuterX; y := eyeY |} |};
     confidence := bestConfidence;
     timestamp := now;
     highResTimestamp := nano;
     gazeData := Some gazeData |}.

Definition processBlazeFaceDetections (regressors : list (list F))
    (classificators : list F) (bitmap : Bitmap) (imageWidth imageHeight : Z)
    (now nano : Z) : Try EyeLandmarks :=
  detection <- detectFace regressors classificators imageWidth imageHeight ;;
  match detection with
  | None => Returns (createNoFaceResult now nano)
  | Some (box, bestConfidence) =>
      Returns (eyeLandmarksOfFace bitmap box bestConfidence now nano)
  end.

(** ** [processFrame] *)

(** A camera frame: its size and what [imageProcessor.imageToBitmap] makes
    of it ([null] when the conversion fails). *)
Record Image : Type := {
  imageWidth : Z;
  imageHeight : Z;
  imageToBitmap : option Bitmap
}.

(** The TensorFlow Lite interpreter on the preprocessed bitmap: it fills
    the two output tensors or throws. *)
Record Interpreter : Type := {
  runForMultipleInputsOutputs : Bitmap -> Try (list (list F) * list F)
}.

(** The mutable fields of the class. *)
Record Processor : Type := {
  interpreter : option Interpreter;
  inputBuffer : option unit;
  isModelLoaded : bool
}.

Definition runInference (this : Processor) (bitmap : Bitmap)
    : Try (list (list F) * list F) :=
  match interpreter this with
  | None => Throws
  | Some interpreter => runForMultipleInputsOutputs interpreter bitmap
  end.

(** [try { ... } catch (e: Exception) { return null }] *)
Definition catchNull {A : Type} (body : Try (option A)) : Try (option A) :=
  match body with
  | Returns r => Returns r
  | Throws => Returns None
  end.

Definition processFrame (this : Processor) (image : Image) (now nano : Z)
    : Try (option EyeLandmarks) :=
  if negb (isModelLoaded this)
     || match interpreter this with None => true | Some _ => false end
     || match inputBuffer this with None => true | Some _ => false end
  then Returns None
  else
    catchNull
      match imageToBitmap image with
      | None => Returns None
      | Some bitmap =>
          '(regressors, classificators) <- runInference this bitmap ;;
          landmarks <- processBlazeFaceDetections regressors classificators
                         bitmap (imageWidth image) (imageHeight image)
                         now nano ;;
          Returns (Some landmarks)
      end.

(** ** [loadModel], [cleanup], [reinitializeModel]

    [created] is the outcome of [loadModelFile()] followed by
    [Interpreter(modelBuffer, options)]; [closed] is the outcome of
    [interpreter.close()]. *)

Definition loadModel (this : Processor) (created : Try Interpreter)
    : Processor :=
  match created with
  | Returns newInterpreter =>
      {| interpreter := Some newInterpreter;
         inputBuffer := Some tt;
         isModelLoaded := true |}
  | Throws =>
      {| interpreter := interpreter this;
         inputBuffer := inputBuffer this;
         isModelLoaded := false |}
  end.

(** The constructor: the initial values of the fields, then the [init]
    block, which calls [loadModel]. *)
Definition newTensorFlowProcessor (created : Try Interpreter) : Processor :=
  loadModel {| interpreter := None; inputBuffer := None;
               isModelLoaded := false |}
            created.

(** [interpreter?.close()] is called only when there is an interpreter;
    when it throws, [isModelLoaded] keeps its value. *)
Definition cleanup (this : Processor) (closed : Try unit) : Processor :=
  match interpreter this, closed with
  | Some _, Throws => this
  | _, _ =>
      {| interpreter := interpreter this;
         inputBuffer := inputBuffer this;
         isModelLoaded := false |}
  end.

Definition reinitializeModel (this : Processor) (created : Try Interpreter)
    : Processor :=
  if negb (isModelLoaded this) then loadModel this created else this.

(** The states a processor goes through: constructed, then any number of
    [cleanup] and [reinitializeModel] calls. *)
Inductive Lifecycle : Processor -> Prop :=
| Lifecycle_new (created : Try Interpreter) :
    Lifecycle (newTensorFlowProcessor created)
| Lifecycle_cleanup (this : Processor) (closed : Try unit) :
    Lifecycle this -> Lifecycle (cleanup this closed)
| Lifecycle_reinitialize (this : Processor) (created : Try Interpreter) :
    Lifecycle this -> Lifecycle (reinitializeModel this created).

End Processor.

End TensorFlowProcessor.

(* ===================================================================== *)
(** * [ImageProcessor.bitmapToInputBuffer]                                *)
(* ===================================================================== *)

Module ImageProcessor.

Section Buffer.

Context {F : Type} {ops : FloatOps F}.

Local Open Scope float_scope.

(** A [java.nio.ByteBuffer] that is written with [putFloat] only: its
    float slots, four bytes each, and the position counted in floats. *)
Record ByteBuffer : Type := {
  slots : list F;
  position : nat
}.

(** [ByteBuffer.allocateDirect(capacity)]: [capacity] zero bytes. *)
Definition allocateDirect (capacity : Z) : ByteBuffer :=
  {| slots := repeat (toFloat 0) (Z.to_nat (capacity / 4)); position := 0 |}.

(** The capacity that [loadModel] allocates,
    [INPUT_SIZE * INPUT_SIZE * 3 * 4] bytes, and the length of
    [intValues], [IntArray(128 * 128)]. *)
Definition inputBufferCapacity : Z :=
  TensorFlowProcessor.INPUT_SIZE * TensorFlowProcessor.INPUT_SIZE * 3 * 4.
Definition intValuesLength : Z := 128 * 128.

Definition rewind (buffer : ByteBuffer) : ByteBuffer :=
  {| slots := slots buffer; position := 0 |}.

Fixpoint setSlot (slots : list F) (index : nat) (value : F) : list F :=
  match slots, index with
  | [], _ => []
  | _ :: rest, O => value :: rest
  | slot :: rest, S index' => slot :: setSlot rest index' value
  end.

(** [putFloat]: [BufferOverflowException] when no slot remains. *)
Definition putFloat (buffer : Try ByteBuffer) (value : F) : Try ByteBuffer :=
  b <- buffer ;;
  if (position b <? length (slots b))%nat
  then Returns {| slots := setSlot (slots b) (position b) value;
                  position := S (position b) |}
  else Throws.

(** The three floats put for one pixel. *)
Definition channels (pixelValue : Z) : list F :=
  let r := toFloat (Z.land (Z.shiftr pixelValue 16) 255) / toFloat 255 in
  let g := toFloat (Z.land (Z.shiftr pixelValue 8) 255) / toFloat 255 in
  let b := toFloat (Z.land pixelValue 255) / toFloat 255 in
  [r; g; b].

(** [bitmapToInputBuffer], from the array [intValues] that
    [bitmap.getPixels] has filled. *)
Definition bitmapToInputBuffer (intValues : list Z) (inputBuffer : ByteBuffer)
    : Try ByteBuffer :=
  fold_left (fun buffer pixelValue =>
               fold_left putFloat (channels pixelValue) buffer)
            intValues (Returns (rewind inputBuffer)).

End Buffer.

End ImageProcessor.

(* ===================================================================== *)
(** * JavaScript [number]                                                 *)
(* ===================================================================== *)

Module Number.

Definition prec : Z := 53.
Definition emax : Z := 1024.

Abbreviation number := spec_float.

(** An integer value as a [number] (integer literals, [Array.length]). *)
Definition ofZ (z : Z) : number := binary_normalize prec emax z 0 false.

Definition add : number -> number -> number := SFadd prec emax.
Definition sub : number -> number -> number := SFsub prec emax.
Definition mul : number -> number -> number := SFmul prec emax.
Definition div : number -> number -> number := SFdiv prec emax.
Definition neg : number -> number := SFopp.
Definition ltb : number -> number -> bool := SFltb.

(** The global functions [isNaN] and [isFinite]. *)
Definition isNaN : number -> bool := IEEE.isNaN.
Definition isFinite : number -> bool := IEEE.isFinite.

Definition Infinity : number := S754_infinity false.

(** [Number.MAX_VALUE] *)
Definition MAX_VALUE : number := SFmax_float prec emax.

(** [Math.abs], and [Math.max(...values)] and [Math.min(...values)]: NaN as
    soon as one value is NaN, minus and plus infinity without values. *)
Definition Math_abs : number -> number := SFabs.
Definition Math_max (values : list number) : number :=
  fold_left IEEE.max values (neg Infinity).
Definition Math_min (values : list number) : number :=
  fold_left IEEE.min values Infinity.

(** [array.reduce((acc, v) => f(acc, v), init)] *)
Definition reduce {A B : Type} (f : B -> A -> B) (array : list A) (init : B) : B :=
  fold_left f array init.

End Number.

Declare Scope number_scope.
Delimit Scope number_scope with num.
Infix "+" := Number.add : number_scope.
Infix "-" := Number.sub : number_scope.
Infix "*" := Number.mul : number_scope.
Infix "/" := Number.div : number_scope.
Notation "- x" := (Number.neg x) : number_scope.
Notation "a < b" := (Number.ltb a b) : number_scope.
Notation "a > b" := (Number.ltb b a) : number_scope.

(* ===================================================================== *)
(** * CalibrationScreen.tsx                                               *)
(* ===================================================================== *)

Module CalibrationScreen.

Import Number.
Local Open Scope number_scope.

(** ['left' | 'center' | 'right'] *)
Inductive Position : Type := Left | Center | Right.

Definition Position_eqb (p q : Position) : bool :=
  match p, q with
  | Left, Left | Center, Center | Right, Right => true
  | _, _ => false
  end.

Record CalibrationPoint : Type := {
  position : Position;
  gazeValues : list number;
  targetValue : number
}.

Record LinearTransform : Type := {
  slope : number;
  intercept : number
}.

Record CalibrationData : Type := {
  points : list CalibrationPoint;
  timestamp : Z;
  isComplete : bool;
  linearTransform : option LinearTransform
}.

(** ** The frame subscription of the collection effect *)

(** The fields of [CameraFrame] (NativeCameraModule.ts) that the callback
    reads: [frame.eyeLandmarks?.gazeData], [frame.eyeLandmarks.confidence]
    and [gazeData.normalizedGazeX]. *)
Record EyeLandmarks : Type := {
  confidence : number;
  gazeData : option number
}.

Record CameraFrame : Type := {
  eyeLandmarks : option EyeLandmarks
}.

(** [stepConfig[step].targetValue] *)
Definition targetValueOf (step : Position) : number :=
  match step with
  | Left => ofZ (-1)
  | Center => ofZ 0
  | Right => ofZ 1
  end.

(** The state of a fresh or reset component. *)
Definition initialCalibrationData (now : Z) : CalibrationData :=
  {| points := []; timestamp := now; isComplete := false;
     linearTransform := None |}.

(** The updater passed to [setCalibrationData] for a gaze value collected
    at [currentStep]. *)
Definition addGazeValue (currentStep : Position) (gazeValue : number)
    (prev : CalibrationData) : CalibrationData :=
  match find (fun p => Position_eqb (position p) currentStep) (points prev) with
  | Some _ =>
      let updatedPoints :=
        map (fun p =>
               if Position_eqb (position p) currentStep
               then {| position := position p;
                       gazeValues := gazeValues p ++ [gazeValue];
                       targetValue := targetValue p |}
               else p)
            (points prev) in
      {| points := updatedPoints;
         timestamp := timestamp prev;
         isComplete := isComplete prev;
         linearTransform := linearTransform prev |}
  | None =>
      {| points := points prev
                   ++ [{| position := currentStep;
                          gazeValues := [gazeValue];
                          targetValue := targetValueOf currentStep |}];
         timestamp := timestamp prev;
         isComplete := isComplete prev;
         linearTransform := linearTransform prev |}
  end.

(** The callback of [subscribeToFrames] while collecting at [currentStep]. *)
Definition onFrame (currentStep : Position) (frame : CameraFrame)
    (prev : CalibrationData) : CalibrationData :=
  match eyeLandmarks frame with
  | Some landmarks =>
      match gazeData landmarks with
      | Some normalizedGazeX =>
          if confidence landmarks > ofZ 3 / ofZ 10
          then addGazeValue currentStep normalizedGazeX prev
          else prev
      | None => prev
      end
  | None => prev
  end.

(** The calibration data a component can hold: fresh, or after one more
    frame at some step. *)
Inductive Collected : CalibrationData -> Prop :=
| Collected_initial (now : Z) : Collected (initialCalibrationData now)
| Collected_frame (step : Position) (frame : CameraFrame)
    (data : CalibrationData) :
    Collected data -> Collected (onFrame step frame data).

(** ** [calculateLinearTransform] *)

(** The elements of [averages]. *)
Record Average : Type := {
  target : number;
  measured : number
}.

(** [{ slope: 1, intercept: 0 }] *)
Definition identityTransform : LinearTransform :=
  {| slope := ofZ 1; intercept := ofZ 0 |}.

(** [1e-10] *)
Definition epsilon : number := ofZ 1 / ofZ (10 ^ 10).

Definition averagesOf (points : list CalibrationPoint) : list Average :=
  map (fun point =>
         {| target := targetValue point;
            measured :=
              reduce (fun sum val => sum + val) (gazeValues point) (ofZ 0)
              / ofZ (Z.of_nat (length (gazeValues point))) |})
      points.

Definition validAveragesOf (averages : list Average) : list Average :=
  filter (fun avg => negb (isNaN (measured avg)) && isFinite (measured avg))
         averages.

Definition calculateLinearTransform (points : list CalibrationPoint)
    : LinearTransform :=
  if negb (length points =? 3)%nat then identityTransform
  else
    let averages := averagesOf points in
    let validAverages := validAveragesOf averages in
    if (length validAverages <? 2)%nat then identityTransform
    else
      let n := ofZ (Z.of_nat (length validAverages)) in
      let sumX := reduce (fun sum p => sum + measured p) validAverages (ofZ 0) in
      let sumY := reduce (fun sum p => sum + target p) validAverages (ofZ 0) in
      let sumXY :=
        reduce (fun sum p => sum + measured p * target p) validAverages (ofZ 0) in
      let sumX2 :=
        reduce (fun sum p => sum + measured p * measured p) validAverages (ofZ 0) in
      let denominator := n * sumX2 - sumX * sumX in
      if Math_abs denominator < epsilon then
        let measuredRange :=
          Math_max (map measured validAverages)
          - Math_min (map measured validAverages) in
        let slope := if measuredRange > ofZ 0 then ofZ 2 / measuredRange else ofZ 1 in
        let intercept := - sumX / n * slope in
        {| slope := slope; intercept := intercept |}
      else
        let slope := (n * sumXY - sumX * sumY) / denominator in
        let intercept := (sumY - slope * sumX) / n in
        if negb (isFinite slope) || negb (isFinite intercept)
        then identityTransform
        else {| slope := slope; intercept := intercept |}.

(** ** [completeCalibration] *)

(** [AsyncStorage], reduced to the item under the key ['gazeCalibration'].
    The item is kept as the record handed to [JSON.stringify]; what
    [JSON.parse] makes of the stored text when it is read back is
    [CalibrationService.JSON_parse_stringify].  [failing] says that the
    next storage operation rejects. *)
Record AsyncStorage : Type := {
  gazeCalibration : option CalibrationData;
  failing : bool
}.

Definition setItem (storage : AsyncStorage) (value : CalibrationData)
    : Try AsyncStorage :=
  if failing storage then Throws
  else Returns {| gazeCalibration := Some value; failing := false |}.

Definition getItem (storage : AsyncStorage) : Try (option CalibrationData) :=
  if failing storage then Throws else Returns (gazeCalibration storage).

(** The calls of [Alert.alert], by their title. *)
Inductive Alert : Type :=
| IncompleteCalibration (missingPositions : list Position)
| InsufficientData (insufficientPositions : list Position)
| CalibrationComplete (transform : LinearTransform)
| ErrorAlert.

Definition requiredPositions : list Position := [Left; Center; Right].

(** [completeCalibration] in a render whose state has [isCompleting] and
    [calibrationData]; [now] is the reading of [Date.now()].  The result is
    the alert shown, if any, and the storage afterwards. *)
Definition completeCalibration (isCompleting : bool)
    (calibrationData : CalibrationData) (now : Z) (storage : AsyncStorage)
    : option Alert * AsyncStorage :=
  if isCompleting then (None, storage)
  else
    let collectedPositions := map position (points calibrationData) in
    let missingPositions :=
      filter (fun pos => negb (existsb (Position_eqb pos) collectedPositions))
             requiredPositions in
    if (0 <? length missingPositions)%nat
    then (Some (IncompleteCalibration missingPositions), storage)
    else
      let insufficientPoints :=
        filter (fun p => (length (gazeValues p) <? 5)%nat)
               (points calibrationData) in
      if (0 <? length insufficientPoints)%nat
      then (Some (InsufficientData (map position insufficientPoints)), storage)
      else
        let transform := calculateLinearTransform (points calibrationData) in
        let finalCalibrationData :=
          {| points := points calibrationData;
             isComplete := true;
             linearTransform := Some transform;
             timestamp := now |} in
        match setItem storage finalCalibrationData with
        | Returns storage' => (Some (CalibrationComplete transform), storage')
        | Throws => (Some ErrorAlert, storage)
        end.

(** ** The progress display *)

Definition FRAMES_PER_POSITION : nat := 15.

(** The number of points counted as completed by [getProgressText]. *)
Definition completedPoints (calibrationData : CalibrationData) : nat :=
  length (filter (fun p => (FRAMES_PER_POSITION <=? length (gazeValues p))%nat)
                 (points calibrationData)).

(** [`Step ${completed + 1} of 3`] *)
Definition getProgressText (calibrationData : CalibrationData)
    : String.string :=
  let completed := completedPoints calibrationData in
  String.append "Step "
    (String.append
       (DecimalString.NilEmpty.string_of_uint (Nat.to_uint (completed + 1)))
       " of 3").

(** The width of the progress bar, in percent:
    [(calibrationData.points.length / 3) * 100]. *)
Definition progressWidth (calibrationData : CalibrationData) : number :=
  ofZ (Z.of_nat (length (points calibrationData))) / ofZ 3 * ofZ 100.

End CalibrationScreen.

(* ===================================================================== *)
(** * CalibrationService.ts                                               *)
(* ===================================================================== *)

Module CalibrationService.

Import Number.
Import CalibrationScreen.
Local Open Scope number_scope.

(** The fields of the singleton; [CalibrationData] is the interface that
    both files declare. *)
Record CalibrationService : Type := {
  calibrationData : option CalibrationData;
  isLoaded : bool
}.

(** [new CalibrationService()] *)
Definition instance : CalibrationService :=
  {| calibrationData := None; isLoaded := false |}.

(** ** The stored text

    The item is stored as the text [JSON.stringify(finalCalibrationData)]
    and read with [JSON.parse].  In the text a finite [number] is written
    in the shortest decimal form that reads back as the same [number],
    except that [-0] is written [0]; NaN and the infinities are written
    [null]. *)

(** What [JSON.parse] reads where [JSON.stringify] has written a
    [number]: a number, or [None] for [null]. *)
Definition JSON_number (value : number) : option number :=
  match value with
  | S754_zero _ => Some (S754_zero false)
  | S754_finite _ _ _ => Some value
  | S754_infinity _ | S754_nan => None
  end.

(** [this.calibrationData = JSON.parse(storedData)] puts the entries read
    into a record whose fields are declared as [number]s.  The functions of
    the service test no such entry: they pass it on or make it an operand
    of [*] and [+], which take [null] as [+0] ([ToNumber]).  The record is
    kept with [+0] where the text has [null]. *)
Definition JSON_entry (value : number) : number :=
  match JSON_number value with
  | Some read => read
  | None => S754_zero false
  end.

(** [JSON.parse(JSON.stringify(data))] *)
Definition JSON_parse_stringify (data : CalibrationData) : CalibrationData :=
  {| points :=
       map (fun point =>
              {| position := position point;
                 gazeValues := map JSON_entry (gazeValues point);
                 targetValue := JSON_entry (targetValue point) |})
           (points data);
     timestamp := timestamp data;
     isComplete := isComplete data;
     linearTransform :=
       option_map (fun transform =>
                     {| slope := JSON_entry (slope transform);
                        intercept := JSON_entry (intercept transform) |})
                  (linearTransform data) |}.

(** [loadCalibration]: the service afterwards and the promised value.
    [getItem] gives the record whose text is stored. *)
Definition loadCalibration (this : CalibrationService) (storage : AsyncStorage)
    : CalibrationService * bool :=
  match getItem storage with
  | Returns (Some storedData) =>
      let parsed := JSON_parse_stringify storedData in
      ({| calibrationData := Some parsed; isLoaded := true |},
       isComplete parsed)
  | Returns None => (this, false)
  | Throws => (this, false)
  end.

Definition isCalibrated (this : CalibrationService) : bool :=
  isLoaded this
  && match calibrationData this with
     | Some data => Bool.eqb (isComplete data) true
     | None => false
     end
  && match calibrationData this with
     | Some data =>
         match linearTransform data with Some _ => true | None => false end
     | None => false
     end.

(** [this.calibrationData?.linearTransform] *)
Definition loadedTransform (this : CalibrationService) : option LinearTransform :=
  match calibrationData this with
  | Some data => linearTransform data
  | None => None
  end.

Definition applyCalibratedGaze (this : CalibrationService) (rawGazeX : number)
    : number :=
  if negb (isCalibrated this)
     || match loadedTransform this with None => true | Some _ => false end
  then rawGazeX
  else
    match loadedTransform this with
    | Some transform =>
        let slope := slope transform in
        let intercept := intercept transform in
        let calibratedGaze := slope * rawGazeX + intercept in
        Math_max [ofZ (-1); Math_min [ofZ 1; calibratedGaze]]
    | None => rawGazeX
    end.

(** [AsyncStorage.removeItem('gazeCalibration')] *)
Definition removeItem (storage : AsyncStorage) : Try AsyncStorage :=
  if failing storage then Throws
  else Returns {| gazeCalibration := None; failing := false |}.

(** The object returned by [getCalibrationInfo]. *)
Record CalibrationInfo : Type := {
  infoIsCalibrated : bool;
  transform : option LinearTransform;
  infoTimestamp : option Z;
  pointsCount : option nat
}.

Definition getCalibrationInfo (this : CalibrationService) : CalibrationInfo :=
  {| infoIsCalibrated := isCalibrated this;
     transform := loadedTransform this;
     infoTimestamp := option_map timestamp (calibrationData this);
     pointsCount :=
       option_map (fun data => length (points data)) (calibrationData this) |}.

(** [clearCalibration]: the service and the storage afterwards; when the
    removal rejects, the error is thrown again and both are as before. *)
Definition clearCalibration (this : CalibrationService) (storage : AsyncStorage)
    : Try (CalibrationService * AsyncStorage) :=
  storage' <- removeItem storage ;;
  Returns ({| calibrationData := None; isLoaded := false |}, storage').

Definition reloadCalibration (this : CalibrationService) (storage : AsyncStorage)
    : CalibrationService * bool :=
  loadCalibration {| calibrationData := None; isLoaded := false |} storage.

End CalibrationService.

(* ===================================================================== *)
(** * NativeCameraModule.ts and CameraModule.kt                           *)
(* ===================================================================== *)

(** The frame event: what [CameraModule.processFrame] puts into the map
    that it emits as ['onCameraFrame'], under the keys of the interfaces
    of NativeCameraModule.ts, which is how the subscribers read it. *)
Module NativeCameraModule.

Import Number.

Record Point : Type := { x : number; y : number }.

Record EyeData : Type := {
  iris : Point;
  innerCorner : Point;
  outerCorner : Point
}.

(** [GazeData.confidence] is named [gazeConfidence] here. *)
Record GazeData : Type := {
  normalizedGazeX : number;
  rawGazeX : number;
  leftEyeX : number;
  rightEyeX : number;
  gazeConfidence : number
}.

Record EyeLandmarks : Type := {
  leftEye : EyeData;
  rightEye : EyeData;
  confidence : number;
  landmarkTimestamp : number;
  highResTimestamp : number;
  gazeData : option GazeData
}.

Record CameraFrame : Type := {
  timestamp : number;
  width : Z;
  height : Z;
  format : String.string;
  eyeLandmarks : option EyeLandmarks
}.

(** ** The frame subscription

    The class [NativeCameraModule], of which [nativeCameraModule] is the
    one instance, and the emitter [cameraEventEmitter], to which this
    class alone adds listeners.  A listener is kept with the number of its
    subscription; [Callback] is the type of the functions subscribed.  The
    fields of the frame-rate display are left out. *)
Section Subscription.

Variable Callback : Type.

Record NativeEventEmitter : Type := {
  listeners : list (nat * Callback);
  nextSubscription : nat
}.

Record NativeCameraModule : Type := {
  cameraEventEmitter : NativeEventEmitter;
  frameSubscription : option nat;
  onFrameCallback : option Callback
}.

(** [new NativeCameraModule()], with the emitter as it is created. *)
Definition nativeCameraModule : NativeCameraModule :=
  {| cameraEventEmitter := {| listeners := []; nextSubscription := 0 |};
     frameSubscription := None;
     onFrameCallback := None |}.

(** [cameraEventEmitter.addListener('onCameraFrame', callback)]: the
    emitter afterwards and the subscription. *)
Definition addListener (emitter : NativeEventEmitter) (callback : Callback)
    : NativeEventEmitter * nat :=
  ({| listeners := listeners emitter ++ [(nextSubscription emitter, callback)];
      nextSubscription := S (nextSubscription emitter) |},
   nextSubscription emitter).

(** [subscription.remove()] *)
Definition remove (emitter : NativeEventEmitter) (subscription : nat)
    : NativeEventEmitter :=
  {| listeners :=
       filter (fun listener => negb (fst listener =? subscription)%nat)
              (listeners emitter);
     nextSubscription := nextSubscription emitter |}.

Definition unsubscribeFromFrames (this : NativeCameraModule)
    : NativeCameraModule :=
  {| cameraEventEmitter :=
       match frameSubscription this with
       | Some subscription => remove (cameraEventEmitter this) subscription
       | None => cameraEventEmitter this
       end;
     frameSubscription := None;
     onFrameCallback := None |}.

Definition subscribeToFrames (this : NativeCameraModule) (callback : Callback)
    : NativeCameraModule :=
  let unsubscribed := unsubscribeFromFrames this in
  let '(emitter, subscription) :=
    addListener (cameraEventEmitter unsubscribed) callback in
  {| cameraEventEmitter := emitter;
     frameSubscription := Some subscription;
     onFrameCallback := Some callback |}.

(** The callbacks that the emitter calls for an ['onCameraFrame'] event,
    in the order of their subscription. *)
Definition called (this : NativeCameraModule) : list Callback :=
  map snd (listeners (cameraEventEmitter this)).

(** The states of the instance: as created, then after any number of
    calls of [subscribeToFrames] and [unsubscribeFromFrames]. *)
Inductive Subscribed : NativeCameraModule -> Prop :=
| Subscribed_new : Subscribed nativeCameraModule
| Subscribed_subscribe (this : NativeCameraModule) (callback : Callback) :
    Subscribed this -> Subscribed (subscribeToFrames this callback)
| Subscribed_unsubscribe (this : NativeCameraModule) :
    Subscribed this -> Subscribed (unsubscribeFromFrames this).

End Subscription.

Arguments nativeCameraModule {Callback}.

(** The part of a frame that the callback of CalibrationScreen.tsx
    reads. *)
Definition calibrationFrame (frame : CameraFrame)
    : CalibrationScreen.CameraFrame :=
  {| CalibrationScreen.eyeLandmarks :=
       option_map
         (fun landmarks =>
            {| CalibrationScreen.confidence := confidence landmarks;
               CalibrationScreen.gazeData :=
                 option_map normalizedGazeX (gazeData landmarks) |})
         (eyeLandmarks frame) |}.

End NativeCameraModule.

Module CameraModule.

Import TensorFlowProcessor.

(** [Float.toDouble()] and [Long.toDouble()] *)
Definition toDouble (value : Binary32.float32) : Number.number :=
  IEEE.convert Number.prec Number.emax value.
Definition longToDouble (value : Z) : Number.number := Number.ofZ value.

Definition pointMap (point : Point (F := Binary32.float32))
    : NativeCameraModule.Point :=
  {| NativeCameraModule.x := toDouble (x point);
     NativeCameraModule.y := toDouble (y point) |}.

Definition eyeMap (eye : EyeData (F := Binary32.float32))
    : NativeCameraModule.EyeData :=
  {| NativeCameraModule.iris := pointMap (iris eye);
     NativeCameraModule.innerCorner := pointMap (innerCorner eye);
     NativeCameraModule.outerCorner := pointMap (outerCorner eye) |}.

Definition gazeMap (gaze : GazeData (F := Binary32.float32))
    : NativeCameraModule.GazeData :=
  {| NativeCameraModule.normalizedGazeX := toDouble (normalizedGazeX gaze);
     NativeCameraModule.rawGazeX := toDouble (rawGazeX gaze);
     NativeCameraModule.leftEyeX := toDouble (leftEyeX gaze);
     NativeCameraModule.rightEyeX := toDouble (rightEyeX gaze);
     NativeCameraModule.gazeConfidence := toDouble (gazeConfidence gaze) |}.

Definition landmarksMap (landmarks : EyeLandmarks (F := Binary32.float32))
    : NativeCameraModule.EyeLandmarks :=
  {| NativeCameraModule.leftEye := eyeMap (leftEye landmarks);
     NativeCameraModule.rightEye := eyeMap (rightEye landmarks);
     NativeCameraModule.confidence := toDouble (confidence landmarks);
     NativeCameraModule.landmarkTimestamp := longToDouble (timestamp landmarks);
     NativeCameraModule.highResTimestamp :=
       longToDouble (highResTimestamp landmarks);
     NativeCameraModule.gazeData := option_map gazeMap (gazeData landmarks) |}.

(** [processFrame(image)]: the map handed to [sendFrameEvent], or [None]
    when the body throws and nothing is emitted.  [tensorFlowProcessor] is
    the field of that name, [null] when the processor could not be
    constructed; [frameNow] is the reading of [System.currentTimeMillis()]
    for the frame. *)
Definition processFrame (exp : Binary32.float32 -> Binary32.float32)
    (tensorFlowProcessor : option (Processor (F := Binary32.float32)))
    (image : Image) (now nano frameNow : Z)
    : option NativeCameraModule.CameraFrame :=
  match
    match tensorFlowProcessor with
    | Some processor => TensorFlowProcessor.processFrame exp processor image now nano
    | None => Returns None
    end
  with
  | Returns eyeLandmarks =>
      Some {| NativeCameraModule.timestamp := longToDouble frameNow;
              NativeCameraModule.width := imageWidth image;
              NativeCameraModule.height := imageHeight image;
              NativeCameraModule.format := "YUV_420_888"%string;
              NativeCameraModule.eyeLandmarks :=
                option_map landmarksMap eyeLandmarks |}
  | Throws => None
  end.

End CameraModule.

(* ===================================================================== *)
(** * SessionManager.ts                                                   *)
(* ===================================================================== *)

Module SessionManager.

Import Number CalibrationScreen CalibrationService.

(** ['recording' | 'paused' | 'completed'] *)
Inductive Status : Type := Recording | Paused | Completed.

Definition Status_eqb (s t : Status) : bool :=
  match s, t with
  | Recording, Recording | Paused, Paused | Completed, Completed => true
  | _, _ => false
  end.

(** [Date.now()] readings, durations and frame counts are integers well
    below [2^53], where [number] arithmetic is exact; they are held as
    integers. *)
Record SessionMetadata : Type := {
  session_id : String.string;
  start_timestamp : Z;
  end_timestamp : option Z;
  duration : option Z;
  total_frames : Z;
  calibration_used : option LinearTransform;
  status : Status;
  created_at : String.string
}.

(** [SessionDataPoint.session_id] and [SessionDataPoint.confidence] are
    named [pointSessionId] and [pointConfidence] here.  [timestamp] is
    read from [eyeLandmarks.timestamp], a key that [EyeLandmarks] does not
    have, hence [undefined]. *)
Record SessionDataPoint : Type := {
  pointSessionId : String.string;
  timestamp : option number;
  high_res_timestamp : number;
  gaze_raw : number;
  gaze_calibrated : option number;
  iris_position : number * number;
  eye_corners : number * number;
  pointConfidence : number;
  frame_number : Z
}.

(** The fields of the singleton.  [calibrationService] is the shared
    [CalibrationService] singleton, whose state at the time of a call is
    passed to the operations that read it. *)
Record SessionManager : Type := {
  currentSession : option SessionMetadata;
  sessionData : list SessionDataPoint;
  frameCounter : Z;
  cloudSyncEnabled : bool;
  uploadQueue : list SessionDataPoint;
  apiSessionCreated : bool
}.

(** [new SessionManager()] *)
Definition instance : SessionManager :=
  {| currentSession := None; sessionData := []; frameCounter := 0;
     cloudSyncEnabled := true; uploadQueue := []; apiSessionCreated := false |}.

Definition uploadBatchSize : nat := 50.

(** [session.status = newStatus] *)
Definition withStatus (session : SessionMetadata) (newStatus : Status)
    : SessionMetadata :=
  {| session_id := session_id session;
     start_timestamp := start_timestamp session;
     end_timestamp := end_timestamp session;
     duration := duration session;
     total_frames := total_frames session;
     calibration_used := calibration_used session;
     status := newStatus;
     created_at := created_at session |}.

(** [this.currentSession = session] *)
Definition withSession (this : SessionManager)
    (session : option SessionMetadata) : SessionManager :=
  {| currentSession := session;
     sessionData := sessionData this;
     frameCounter := frameCounter this;
     cloudSyncEnabled := cloudSyncEnabled this;
     uploadQueue := uploadQueue this;
     apiSessionCreated := apiSessionCreated this |}.

(** [this.currentSession?.status === 'recording'] *)
Definition isRecording (this : SessionManager) : bool :=
  match currentSession this with
  | Some session => Status_eqb (status session) Recording
  | None => false
  end.

(** [startSession]: [sessionId] is the value of [generateUUID()],
    [startTime] the reading of [Date.now()], [createdAt] the value of
    [new Date().toISOString()]; [cloudCreated] says that the device is
    online, the API reachable and the recording created there, which is
    when [initializeCloudSync] sets [apiSessionCreated].  The write of
    [saveSessionMetadata], here and in [pauseSession] and [resumeSession],
    changes no field of the manager, whatever its outcome. *)
Definition startSession (service : CalibrationService) (this : SessionManager)
    (sessionId : String.string) (startTime : Z) (createdAt : String.string)
    (cloudCreated : bool) : Try (SessionManager * String.string) :=
  if isRecording this then Throws
  else
    let calibrationInfo := getCalibrationInfo service in
    Returns
      ({| currentSession :=
            Some {| session_id := sessionId;
                    start_timestamp := startTime;
                    end_timestamp := None;
                    duration := None;
                    total_frames := 0;
                    status := Recording;
                    created_at := createdAt;
                    calibration_used :=
                      if infoIsCalibrated calibrationInfo
                      then transform calibrationInfo else None |};
          sessionData := [];
          frameCounter := 0;
          cloudSyncEnabled := cloudSyncEnabled this;
          uploadQueue := [];
          apiSessionCreated := cloudSyncEnabled this && cloudCreated |},
       sessionId).

Definition pauseSession (this : SessionManager) : Try SessionManager :=
  match currentSession this with
  | Some session =>
      if Status_eqb (status session) Recording
      then Returns (withSession this (Some (withStatus session Paused)))
      else Throws
  | None => Throws
  end.

Definition resumeSession (this : SessionManager) : Try SessionManager :=
  match currentSession this with
  | Some session =>
      if Status_eqb (status session) Paused
      then Returns (withSession this (Some (withStatus session Recording)))
      else Throws
  | None => Throws
  end.

(** ** Writes to the local storage

    [saveSessionMetadata] and [saveSessionData] call
    [AsyncStorage.setItem] inside [try { ... } catch (error) {
    console.error(...) }]: a write that is rejected is logged and goes no
    further, and the caller continues as after a write that resolved. *)

(** [saveSessionData]: the write it attempts, if any, as the id in the key
    [session_data_<id>] and the array handed to [JSON.stringify]. *)
Definition saveSessionData (this : SessionManager)
    : option (String.string * list SessionDataPoint) :=
  match currentSession this with
  | Some session =>
      if (length (sessionData this) =? 0)%nat then None
      else Some (session_id session, sessionData this)
  | None => None
  end.

(** [saveSessionMetadata]: the write it attempts, if any, under the key
    [session_meta_<id>]. *)
Definition saveSessionMetadata (this : SessionManager) : option SessionMetadata :=
  currentSession this.

(** What the storage holds after an attempted write whose outcome is
    [written]: the item when the write resolved, nothing of it when it was
    rejected or not attempted. *)
Definition stored {A : Type} (attempt : option A) (written : Try unit)
    : option A :=
  match attempt, written with
  | Some item, Returns _ => Some item
  | _, _ => None
  end.

(** [addDataPoint]: the manager afterwards and the write that the
    periodic [saveSessionData] attempts, every hundredth frame. *)
Definition addDataPoint (service : CalibrationService) (this : SessionManager)
    (eyeLandmarks : NativeCameraModule.EyeLandmarks)
    : SessionManager * option (String.string * list SessionDataPoint) :=
  match currentSession this with
  | Some session =>
      if negb (Status_eqb (status session) Recording) then (this, None)
      else
        match NativeCameraModule.gazeData eyeLandmarks with
        | Some gazeData =>
            let frameCounter' := frameCounter this + 1 in
            let rawGaze := NativeCameraModule.normalizedGazeX gazeData in
            let calibratedGaze := applyCalibratedGaze service rawGaze in
            let dataPoint :=
              {| pointSessionId := session_id session;
                 timestamp := None;
                 high_res_timestamp :=
                   NativeCameraModule.highResTimestamp eyeLandmarks;
                 gaze_raw := rawGaze;
                 gaze_calibrated :=
                   if isCalibrated service then Some calibratedGaze else None;
                 iris_position :=
                   (NativeCameraModule.rawGazeX gazeData, ofZ 0);
                 eye_corners :=
                   (NativeCameraModule.leftEyeX gazeData,
                    NativeCameraModule.rightEyeX gazeData);
                 pointConfidence := NativeCameraModule.confidence eyeLandmarks;
                 frame_number := frameCounter' |} in
            let this' :=
              {| currentSession := currentSession this;
                 sessionData := sessionData this ++ [dataPoint];
                 frameCounter := frameCounter';
                 cloudSyncEnabled := cloudSyncEnabled this;
                 uploadQueue :=
                   if cloudSyncEnabled this
                   then uploadQueue this ++ [dataPoint]
                   else uploadQueue this;
                 apiSessionCreated := apiSessionCreated this |} in
            (this', if frameCounter' mod 100 =? 0
                    then saveSessionData this' else None)
        | None => (this, None)
        end
  | None => (this, None)
  end.

(** ** Cloud upload *)

(** JavaScript's [a || b] on an optional [number]: [a] unless it is
    [undefined], zero or NaN. *)
Definition orElse (a : option number) (b : number) : number :=
  match a with
  | Some v => if IEEE.isZero v || isNaN v then b else v
  | None => b
  end.

(** [{ timestamp: point.timestamp, x: point.gaze_calibrated || point.gaze_raw }] *)
Definition apiPoint (point : SessionDataPoint) : option number * number :=
  (timestamp point, orElse (gaze_calibrated point) (gaze_raw point)).

(** [this.uploadQueue = queue] *)
Definition withQueue (this : SessionManager) (queue : list SessionDataPoint)
    : SessionManager :=
  {| currentSession := currentSession this;
     sessionData := sessionData this;
     frameCounter := frameCounter this;
     cloudSyncEnabled := cloudSyncEnabled this;
     uploadQueue := queue;
     apiSessionCreated := apiSessionCreated this |}.

(** [uploadDataBatch]: [online] is [networkService.getNetworkStatus()],
    [upload] is [apiService.uploadDataBatch] on the converted batch.  The
    result is the manager afterwards and the batch handed to the API, if
    any. *)
Definition uploadDataBatch (this : SessionManager) (online : bool)
    (upload : list (option number * number) -> Try bool)
    : SessionManager * option (list (option number * number)) :=
  if negb (cloudSyncEnabled this) || negb online
     || negb (apiSessionCreated this)
     || (length (uploadQueue this) =? 0)%nat
  then (this, None)
  else
    let batchSize := Nat.min uploadBatchSize (length (uploadQueue this)) in
    let batch := firstn batchSize (uploadQueue this) in
    let remaining := skipn batchSize (uploadQueue this) in
    let apiData := map apiPoint batch in
    match upload apiData with
    | Returns true => (withQueue this remaining, Some apiData)
    | Returns false => (withQueue this (batch ++ remaining), Some apiData)
    | Throws => (withQueue this remaining, Some apiData)
    end.

(** The loop of [finalizeCloudSync],
    [while (this.uploadQueue.length > 0) await this.uploadDataBatch()],
    run for at most [fuel] iterations: the manager when the loop ends and
    the batches handed to the API, in order. *)
Fixpoint drainUploadQueue (fuel : nat) (this : SessionManager) (online : bool)
    (upload : list (option number * number) -> Try bool)
    : option (SessionManager * list (list (option number * number))) :=
  if (length (uploadQueue this) =? 0)%nat then Some (this, [])
  else
    match fuel with
    | O => None
    | S fuel' =>
        let '(this', sent) := uploadDataBatch this online upload in
        match drainUploadQueue fuel' this' online upload with
        | Some (final, batches) =>
            Some (final, match sent with
                         | Some batch => batch :: batches
                         | None => batches
                         end)
        | None => None
        end
    end.

(** [finalizeCloudSync], as far as the upload queue is concerned. *)
Definition finalizeCloudSync (fuel : nat) (this : SessionManager)
    (online : bool) (upload : list (option number * number) -> Try bool)
    : option (SessionManager * list (list (option number * number))) :=
  if negb (cloudSyncEnabled this) || negb online
     || negb (apiSessionCreated this)
  then Some (this, [])
  else drainUploadQueue fuel this online upload.

(** The first statements of [stopSession]: the session marked as
    completed. *)
Definition completeSession (this : SessionManager) (endTime : Z)
    : Try SessionMetadata :=
  match currentSession this with
  | Some session =>
      if Status_eqb (status session) Completed then Throws
      else
        Returns {| session_id := session_id session;
                   start_timestamp := start_timestamp session;
                   end_timestamp := Some endTime;
                   duration := Some (endTime - start_timestamp session);
                   total_frames := frameCounter this;
                   calibration_used := calibration_used session;
                   status := Completed;
                   created_at := created_at session |}
  | None => Throws
  end.

(** What [stopSession] leaves behind: the metadata and the data that the
    local storage holds of its two writes, and the batches handed to the
    API. *)
Record StoppedSession : Type := {
  savedMetadata : option SessionMetadata;
  savedData : option (String.string * list SessionDataPoint);
  uploadedBatches : list (list (option number * number))
}.

(** [stopSession]: it throws without an active session; otherwise the
    result is [None] when the loop of [finalizeCloudSync] has not ended
    after [fuel] iterations, and else the manager afterwards together with
    what was saved.  [dataWritten] and [metadataWritten] are the outcomes
    of the writes of [saveSessionData] and [saveSessionMetadata]. *)
Definition stopSession (fuel : nat) (this : SessionManager) (endTime : Z)
    (online : bool) (upload : list (option number * number) -> Try bool)
    (dataWritten metadataWritten : Try unit)
    : Try (option (SessionManager * StoppedSession)) :=
  metadata <- completeSession this endTime ;;
  Returns
    match finalizeCloudSync fuel (withSession this (Some metadata))
                            online upload with
    | Some (this', batches) =>
        Some ({| currentSession := None;
                 sessionData := [];
                 frameCounter := 0;
                 cloudSyncEnabled := cloudSyncEnabled this';
                 uploadQueue := uploadQueue this';
                 apiSessionCreated := apiSessionCreated this' |},
              {| savedMetadata := stored (saveSessionMetadata this') metadataWritten;
                 savedData := stored (saveSessionData this') dataWritten;
                 uploadedBatches := batches |})
    | None => None
    end.

Definition setCloudSyncEnabled (this : SessionManager) (enabled : bool)
    : SessionManager :=
  {| currentSession := currentSession this;
     sessionData := sessionData this;
     frameCounter := frameCounter this;
     cloudSyncEnabled := enabled;
     uploadQueue := uploadQueue this;
     apiSessionCreated := apiSessionCreated this |}.

(** The states of the manager: the new singleton, then any number of
    calls, each running to its end before the next one starts.  (A frame
    that arrives while a call is waiting has the effect of a frame after
    it: what the calls do after their first [await] and what
    [addDataPoint] does concern different fields, or a session that is
    completed, for which [addDataPoint] does nothing.) *)
Inductive Reachable : SessionManager -> Prop :=
| Reachable_instance : Reachable instance
| Reachable_startSession (service : CalibrationService)
    (this this' : SessionManager) (sessionId createdAt : String.string)
    (startTime : Z) (cloudCreated : bool) :
    Reachable this ->
    startSession service this sessionId startTime createdAt cloudCreated
    = Returns (this', sessionId) ->
    Reachable this'
| Reachable_pauseSession (this this' : SessionManager) :
    Reachable this -> pauseSession this = Returns this' -> Reachable this'
| Reachable_resumeSession (this this' : SessionManager) :
    Reachable this -> resumeSession this = Returns this' -> Reachable this'
| Reachable_addDataPoint (service : CalibrationService) (this : SessionManager)
    (eyeLandmarks : NativeCameraModule.EyeLandmarks) :
    Reachable this ->
    Reachable (fst (addDataPoint service this eyeLandmarks))
| Reachable_uploadDataBatch (this : SessionManager) (online : bool)
    (upload : list (option number * number) -> Try bool) :
    Reachable this -> Reachable (fst (uploadDataBatch this online upload))
| Reachable_setCloudSyncEnabled (this : SessionManager) (enabled : bool) :
    Reachable this -> Reachable (setCloudSyncEnabled this enabled)
| Reachable_stopSession (fuel : nat) (this this' : SessionManager)
    (endTime : Z) (online : bool)
    (upload : list (option number * number) -> Try bool)
    (dataWritten metadataWritten : Try unit) (stopped : StoppedSession) :
    Reachable this ->
    stopSession fuel this endTime online upload dataWritten metadataWritten
    = Returns (Some (this', stopped)) ->
    Reachable this'.

End SessionManager.

(* ===================================================================== *)
(** * App.tsx: the frame subscription                                     *)
(* ===================================================================== *)

Module App.

(** The callback of [subscribeToFramesWithMonitoring], as far as the
    session manager is concerned. *)
Definition onCameraFrame (service : CalibrationService.CalibrationService)
    (manager : SessionManager.SessionManager)
    (frame : NativeCameraModule.CameraFrame) : SessionManager.SessionManager :=
  match NativeCameraModule.eyeLandmarks frame with
  | Some eyeLandmarks =>
      fst (SessionManager.addDataPoint service manager eyeLandmarks)
  | None => manager
  end.

(** The functions that the application subscribes to the frame event:
    the callback of the collection effect of the calibration screen, made
    in a render whose [currentStep] is [step], and the callback that
    [startCamera] hands to [subscribeToFramesWithMonitoring]. *)
Inductive FrameCallback : Type :=
| CalibrationCallback (step : CalibrationScreen.Position)
| TrackerCallback.

(** What the two callbacks write to: the state [calibrationData] of the
    calibration screen and the session manager. *)
Record Consumers : Type := {
  calibrationData : CalibrationScreen.CalibrationData;
  sessionManager : SessionManager.SessionManager
}.

Definition call (service : CalibrationService.CalibrationService)
    (frame : NativeCameraModule.CameraFrame)
    (consumers : Consumers) (callback : FrameCallback) : Consumers :=
  match callback with
  | CalibrationCallback step =>
      {| calibrationData :=
           CalibrationScreen.onFrame step
             (NativeCameraModule.calibrationFrame frame)
             (calibrationData consumers);
         sessionManager := sessionManager consumers |}
  | TrackerCallback =>
      {| calibrationData := calibrationData consumers;
         sessionManager :=
           onCameraFrame service (sessionManager consumers) frame |}
  end.

(** An ['onCameraFrame'] event: the emitter calls its listeners. *)
Definition emitFrame
    (module : NativeCameraModule.NativeCameraModule FrameCallback)
    (service : CalibrationService.CalibrationService)
    (frame : NativeCameraModule.CameraFrame) (consumers : Consumers)
    : Consumers :=
  fold_left (call service frame) (NativeCameraModule.called module) consumers.

End App.

(* ===================================================================== *)
(** * Vocabulary of the stated properties                                 *)
(* ===================================================================== *)

Module GazeVocabulary.

Import TensorFlowProcessor Binary32.

(** The sorted outer-corner span, [actualRightX - actualLeftX]. *)
Definition eyeSpan (leftEyeX rightEyeX : float32) : float32 :=
  (mathMax leftEyeX rightEyeX - mathMin leftEyeX rightEyeX)%flt.

(** [Point(0f, 0f)] *)
Definition origin : Point := {| x := S754_zero false; y := S754_zero false |}.

(** An iris search radius of 15% of the face width [w]. *)
Definition searchRadius (w : float32) : float32 := (w * decimal 15 100)%flt.

(** The intensity that [detectIrisInEyeRegion] gives to a pixel. *)
Definition intensityOf (pixel : Z) : float32 :=
  (toFloat (Z.land (Z.shiftr pixel 16) 255) * decimal 3 10
   + toFloat (Z.land (Z.shiftr pixel 8) 255) * decimal 3 10
   + toFloat (Z.land pixel 255) * decimal 4 10)%flt.

(** The pixels on the scan lines of a window: the columns of the window in
    the rows [top + k * lineSpacing], k = 1, 2, 3, that lie above
    [bottom], where [lineSpacing] is a quarter of the height of the
    window, and 1 for a window of fewer than four rows. *)
Definition onScanLine (window : Z * Z * Z * Z) (px py : Z) : Prop :=
  let '(left_, top_, right_, bottom_) := window in
  left_ <= px < right_ /\ top_ <= py < bottom_
  /\ exists k, 1 <= k <= 3
               /\ py = top_ + k * Z.max 1 ((bottom_ - top_) / 4).

(** The scan for the darkest pixel, which holds a column and an
    intensity, has not reached a pixel of intensity [target] yet: what it
    holds is brighter. *)
Definition scanBefore (target : float32) (st : Try (float32 * float32))
    : Prop :=
  exists darkestX darkestIntensity,
    st = Returns (darkestX, darkestIntensity)
    /\ SFltb target darkestIntensity = true.

(** The scan has passed that pixel, in the column [px], and holds it. *)
Definition scanAfter (px : Z) (target : float32)
    (st : Try (float32 * float32)) : Prop :=
  st = Returns (toFloat px, target).

(** Two bitmaps of the same size that agree on the pixels of a window
    [(left, top, right, bottom)]. *)
Definition agreeOn (b1 b2 : Bitmap) (window : Z * Z * Z * Z) : Prop :=
  let '(left_, top_, right_, bottom_) := window in
  width b1 = width b2 /\ height b1 = height b2
  /\ forall px py, left_ <= px < right_ -> top_ <= py < bottom_ ->
                   pixels b1 px py = pixels b2 px py.

End GazeVocabulary.

Module RegressionVocabulary.

Import Number CalibrationScreen.
Local Open Scope number_scope.

(** The valid [(targetValue, measuredMean)] triples of a run. *)
Definition validTriples (points : list CalibrationPoint) : list Average :=
  validAveragesOf (averagesOf points).

(** Sums over the valid triples, accumulated from 0 in list order. *)
Definition sigma (f : Average -> number) (valid : list Average) : number :=
  reduce (fun sum p => sum + f p) valid (ofZ 0).

Definition count (valid : list Average) : number :=
  ofZ (Z.of_nat (length valid)).

(** [n * Sxx - Sx * Sx] *)
Definition regressionDenominator (valid : list Average) : number :=
  count valid * sigma (fun p => measured p * measured p) valid
  - sigma measured valid * sigma measured valid.

(** [(n * Sxy - Sx * Sy) / (n * Sxx - Sx * Sx)] *)
Definition regressionSlope (valid : list Average) : number :=
  (count valid * sigma (fun p => measured p * target p) valid
   - sigma measured valid * sigma target valid)
  / regressionDenominator valid.

(** [(Sy - slope * Sx) / n] *)
Definition regressionIntercept (valid : list Average) : number :=
  (sigma target valid - regressionSlope valid * sigma measured valid)
  / count valid.

Definition measuredRange (valid : list Average) : number :=
  Math_max (map measured valid) - Math_min (map measured valid).

Definition meanMeasured (valid : list Average) : number :=
  sigma measured valid / count valid.

(** [clamp(v, lo, hi)] *)
Definition clamp (v lo hi : number) : number :=
  if v < lo then lo else if hi < v then hi else v.

(** A number with [-0] read as [+0]. *)
Definition unsignedZero (v : number) : number :=
  if IEEE.isZero v then S754_zero false else v.

(** A finite [number] of magnitude at most [B]. *)
Definition boundedBy (B : Q) (x : number) : Prop :=
  FloatValue.representable prec emax x /\ (Qabs (FloatValue.value x) <= B)%Q.

(** A gaze value as the native module emits it: [normalizedGazeX] is
    clamped to [-1, 1] by [calculateNormalizedGaze], or is NaN, and the
    bridge widens the [Float] to a double. *)
Definition normalizedGaze (v : number) : Prop :=
  isNaN v = true \/ boundedBy 1 v.

(** The points of a run as the screen collects them from the native
    module: the target of each is that of its position, its gaze values
    are normalized, and there are fewer than [2^32] of them, as in every
    JavaScript array. *)
Definition collectedFromProcessor (points : list CalibrationPoint) : Prop :=
  Forall (fun p => targetValue p = targetValueOf (position p)
                   /\ Forall normalizedGaze (gazeValues p)
                   /\ (Z.of_nat (length (gazeValues p)) < 2 ^ 32)%Z)
         points.

(** In binary64: the relative error of one rounding, [2^-52], and a
    bound, [2^-64], on the gap between subnormal numbers. *)
Definition u64 : Q := 1 # 4503599627370496.
Definition tiny : Q := 1 # 18446744073709551616.

End RegressionVocabulary.

Module PipelineVocabulary.

(** A scan state of [detectIrisInEyeRegion] whose darkest position, if
    the scan has not thrown, is not NaN. *)
Definition positioned (st : Try (Binary32.float32 * Binary32.float32)) : Prop :=
  match st with
  | Returns (darkestX, _) => IEEE.isNaN darkestX = false
  | Throws => True
  end.

(** A scan state of [detectIrisInEyeRegion] whose darkest position, if the
    scan has not thrown, satisfies [P]. *)
Definition scanHolds (P : Binary32.float32 -> Prop)
    (st : Try (Binary32.float32 * Binary32.float32)) : Prop :=
  match st with
  | Returns (darkestX, _) => P darkestX
  | Throws => True
  end.

(** A float within [[0, 1]]. *)
Definition unitRange (v : Binary32.float32) : bool :=
  SFleb (toFloat 0) v && SFleb v (toFloat 1).

(** The gaze values collected so far at [step]. *)
Definition samplesAt (step : CalibrationScreen.Position)
    (calibrationData : CalibrationScreen.CalibrationData)
    : list Number.number :=
  match find (fun p => CalibrationScreen.Position_eqb
                         (CalibrationScreen.position p) step)
             (CalibrationScreen.points calibrationData) with
  | Some point => CalibrationScreen.gazeValues point
  | None => []
  end.

(** Data points numbered 1, 2, ... in order. *)
Definition numbered (data : list SessionManager.SessionDataPoint) : Prop :=
  map SessionManager.frame_number data = map Z.of_nat (seq 1 (length data)).

(** The manager's record of the frames of the current session: the
    counter is the number of points, the points are numbered in order and
    carry the id of the session, and there are none without a session. *)
Definition consistent (this : SessionManager.SessionManager) : Prop :=
  SessionManager.frameCounter this
  = Z.of_nat (length (SessionManager.sessionData this))
  /\ numbered (SessionManager.sessionData this)
  /\ (SessionManager.currentSession this = None ->
      SessionManager.sessionData this = [])
  /\ Forall (fun point =>
               option_map SessionManager.session_id
                          (SessionManager.currentSession this)
               = Some (SessionManager.pointSessionId point))
            (SessionManager.sessionData this).

(** The frames given to the manager one after the other, each with the
    state of the calibration service at that time. *)
Definition addDataPoints (this : SessionManager.SessionManager)
    (frames : list (CalibrationService.CalibrationService
                    * NativeCameraModule.EyeLandmarks))
    : SessionManager.SessionManager :=
  fold_left (fun manager frame =>
               fst (SessionManager.addDataPoint (fst frame) manager (snd frame)))
            frames this.

End PipelineVocabulary.

(* ===================================================================== *)
(** * Concrete inputs                                                     *)
(* ===================================================================== *)

Module FrameSamples.

Import TensorFlowProcessor Binary32.

(** A white 640 x 480 bitmap. *)
Definition blankBitmap : Bitmap :=
  {| width := 640; height := 480; pixels := fun _ _ => -1 |}.

(** The same, but for one black pixel at (10, 10). *)
Definition spottedBitmap : Bitmap :=
  {| width := 640; height := 480;
     pixels := fun px py => if (px =? 10) && (py =? 10) then -16777216 else -1 |}.

(** A white 640 x 480 bitmap with one black pixel at (195, 98). *)
Definition darkSpotBitmap : Bitmap :=
  {| width := 640; height := 480;
     pixels := fun px py => if (px =? 195) && (py =? 98) then -16777216 else -1 |}.

Definition sampleImage : Image :=
  {| imageWidth := 640; imageHeight := 480; imageToBitmap := Some blankBitmap |}.

Definition sampleRows : list (list float32) :=
  [ [toFloat 10; toFloat 20; toFloat 30; toFloat 40];
    [toFloat 64; toFloat 64; toFloat 32; toFloat 32];
    [toFloat 1; toFloat 2; toFloat 3; toFloat 4] ].

(** A face 100 wide whose left eye is centered at (200, 100). *)
Definition sampleBox : FaceBox (F := float32) :=
  {| faceLeft := toFloat 170; faceTop := toFloat 65;
     faceWidth := toFloat 100; faceHeight := toFloat 100 |}.

(** A face one unit wide whose left edge is at 1e8, where neighbouring
    binary32 values are 8 apart. *)
Definition farBox : FaceBox (F := float32) :=
  {| faceLeft := toFloat 100000000; faceTop := (- decimal 5 10)%flt;
     faceWidth := toFloat 1; faceHeight := toFloat 1 |}.

(** A face at the left edge of the image whose width, 15339169 * 2^-33,
    is the least binary32 number above 0.001/0.56. *)
Definition thinBox : FaceBox (F := float32) :=
  {| faceLeft := toFloat 0; faceTop := toFloat 0;
     faceWidth := S754_finite false 15339169 (-33); faceHeight := toFloat 1 |}.

(** A loaded model whose interpreter throws on every input. *)
Definition failingProcessor : Processor (F := float32) :=
  {| interpreter := Some {| runForMultipleInputsOutputs := fun _ => Throws |};
     inputBuffer := Some tt;
     isModelLoaded := true |}.

(** A loaded model whose interpreter throws on the frames without a
    black pixel at (10, 10), and sees no face on the others. *)
Definition flakyProcessor : Processor (F := float32) :=
  {| interpreter :=
       Some {| runForMultipleInputsOutputs :=
                 fun bitmap =>
                   if pixels bitmap 10 10 =? -16777216
                   then Returns (sampleRows, [toFloat (-10)])
                   else Throws |};
     inputBuffer := Some tt;
     isModelLoaded := true |}.

Definition spottedImage : Image :=
  {| imageWidth := 640; imageHeight := 480; imageToBitmap := Some spottedBitmap |}.

(** The state after a failed [loadModel]. *)
Definition unloadedProcessor : Processor (F := float32) :=
  {| interpreter := None; inputBuffer := None; isModelLoaded := false |}.

End FrameSamples.

Module CalibrationSamples.

Import Number CalibrationScreen CalibrationService.
Local Open Scope number_scope.

Definition decimalNumber (n d : Z) : number := ofZ n / ofZ d.

Definition pointOf (p : Position) (samples : list number) (t : Z)
    : CalibrationPoint :=
  {| position := p; gazeValues := samples; targetValue := ofZ t |}.

Definition steady (v : number) : list number := [v; v; v; v; v].

(** Means close to -0.85, 0.01 and 0.90. *)
Definition typicalPoints : list CalibrationPoint :=
  [ pointOf Left (steady (decimalNumber (-85) 100)) (-1);
    pointOf Center (steady (decimalNumber 1 100)) 0;
    pointOf Right (steady (decimalNumber 90 100)) 1 ].

(** All means equal to 0.5. *)
Definition flatPoints : list CalibrationPoint :=
  [ pointOf Left (steady (decimalNumber 5 10)) (-1);
    pointOf Center (steady (decimalNumber 5 10)) 0;
    pointOf Right (steady (decimalNumber 5 10)) 1 ].

(** Means 0.5, 0.5000001 and 0.5000002. *)
Definition nearFlatPoints : list CalibrationPoint :=
  [ pointOf Left (steady (decimalNumber 5 10)) (-1);
    pointOf Center (steady (decimalNumber 5000001 10000000)) 0;
    pointOf Right (steady (decimalNumber 5000002 10000000)) 1 ].

(** Two of the three means are NaN. *)
Definition nanPoints : list CalibrationPoint :=
  [ pointOf Left (steady S754_nan) (-1);
    pointOf Center (steady S754_nan) 0;
    pointOf Right (steady (decimalNumber 9 10)) 1 ].

(** All samples, and so all means, equal to 0. *)
Definition zeroPoints : list CalibrationPoint :=
  [ pointOf Left (steady (ofZ 0)) (-1);
    pointOf Center (steady (ofZ 0)) 0;
    pointOf Right (steady (ofZ 0)) 1 ].

Definition emptyStorage : AsyncStorage :=
  {| gazeCalibration := None; failing := false |}.

(** A component state holding [points]. *)
Definition stateWith (points : list CalibrationPoint) : CalibrationData :=
  {| points := points; timestamp := 0; isComplete := false;
     linearTransform := None |}.

(** A frame of confidence 1 carrying the gaze value [v]. *)
Definition frameOf (v : number) : CameraFrame :=
  {| eyeLandmarks := Some {| confidence := ofZ 1; gazeData := Some v |} |}.

(** The frames of a run, each with the step at which it arrives. *)
Definition replay (frames : list (Position * CameraFrame))
    (data : CalibrationData) : CalibrationData :=
  fold_left (fun d sf => onFrame (fst sf) (snd sf) d) frames data.

(** Five frames per step, NaN at the first two steps, 0.9 at the third. *)
Definition nanRun : list (Position * CameraFrame) :=
  map (fun v => (Left, frameOf v)) (steady S754_nan)
  ++ map (fun v => (Center, frameOf v)) (steady S754_nan)
  ++ map (fun v => (Right, frameOf v)) (steady (decimalNumber 9 10)).

Definition doubling : LinearTransform :=
  {| slope := ofZ 2; intercept := ofZ 0 |}.

Definition completeData : CalibrationData :=
  {| points := []; timestamp := 0; isComplete := true;
     linearTransform := Some doubling |}.

Definition calibratedService : CalibrationService :=
  {| calibrationData := Some completeData; isLoaded := true |}.

End CalibrationSamples.

Module PipelineSamples.

Import TensorFlowProcessor.

(** An interpreter that gives the same tensors for every input. *)
Definition constantInterpreter (regressors : list (list Binary32.float32))
    (classificators : list Binary32.float32)
    : Interpreter (F := Binary32.float32) :=
  {| runForMultipleInputsOutputs :=
       fun _ => Returns (regressors, classificators) |}.

(** A loaded processor whose model sees no face. *)
Definition noFaceProcessor : Processor (F := Binary32.float32) :=
  newTensorFlowProcessor
    (Returns (constantInterpreter FrameSamples.sampleRows
                [toFloat (-10); toFloat (-20); toFloat (-5)])).

(** A loaded processor whose model sees one face, of confidence about
    0.12. *)
Definition faintFaceProcessor : Processor (F := Binary32.float32) :=
  newTensorFlowProcessor
    (Returns (constantInterpreter FrameSamples.sampleRows
                [toFloat (-10); toFloat (-2); toFloat (-5)])).

(** The landmarks it returns for [FrameSamples.sampleImage] at the times
    7 and 9: those of row 1 of [FrameSamples.sampleRows], scaled by 5 and
    3.75. *)
Definition faintFaceLandmarks : EyeLandmarks (F := Binary32.float32) :=
  eyeLandmarksOfFace FrameSamples.blankBitmap
    {| faceLeft := (toFloat 64 * toFloat 5 - toFloat 32 * toFloat 5 / toFloat 2)%flt;
       faceTop := (toFloat 64 * decimal 375 100
                   - toFloat 32 * decimal 375 100 / toFloat 2)%flt;
       faceWidth := (toFloat 32 * toFloat 5)%flt;
       faceHeight := (toFloat 32 * decimal 375 100)%flt |}
    (sigmoid JavaMath.exp (toFloat (-2))) 7 9.

Definition zeroPoint : NativeCameraModule.Point :=
  {| NativeCameraModule.x := Number.ofZ 0; NativeCameraModule.y := Number.ofZ 0 |}.

Definition zeroEye : NativeCameraModule.EyeData :=
  {| NativeCameraModule.iris := zeroPoint;
     NativeCameraModule.innerCorner := zeroPoint;
     NativeCameraModule.outerCorner := zeroPoint |}.

(** Landmarks of confidence [c] with the gaze [g]. *)
Definition landmarksOf (c g : Number.number) : NativeCameraModule.EyeLandmarks :=
  {| NativeCameraModule.leftEye := zeroEye;
     NativeCameraModule.rightEye := zeroEye;
     NativeCameraModule.confidence := c;
     NativeCameraModule.landmarkTimestamp := Number.ofZ 7;
     NativeCameraModule.highResTimestamp := Number.ofZ 9;
     NativeCameraModule.gazeData :=
       Some {| NativeCameraModule.normalizedGazeX := g;
               NativeCameraModule.rawGazeX := Number.ofZ 320;
               NativeCameraModule.leftEyeX := Number.ofZ 275;
               NativeCameraModule.rightEyeX := Number.ofZ 365;
               NativeCameraModule.gazeConfidence := c |} |}.

(** A session just started, with the cloud session created. *)
Definition startedManager : SessionManager.SessionManager :=
  match SessionManager.startSession CalibrationService.instance
          SessionManager.instance "session-1"%string 1000
          "2024-01-01T00:00:00.000Z"%string true with
  | Returns (started, _) => started
  | Throws => SessionManager.instance
  end.

(** The same after two frames. *)
Definition recordedTwice : SessionManager.SessionManager :=
  fst (SessionManager.addDataPoint CalibrationService.instance
         (fst (SessionManager.addDataPoint CalibrationService.instance
                 startedManager (landmarksOf (Number.ofZ 1) (Number.ofZ 1))))
         (landmarksOf (Number.ofZ 1) (Number.ofZ 0))).

(** An API that accepts every batch. *)
Definition accepting (batch : list (option Number.number * Number.number))
    : Try bool :=
  Returns true.

(** Fifteen frames of gaze [v] at [step]. *)
Definition fifteen (step : CalibrationScreen.Position) (v : Number.number)
    : list (CalibrationScreen.Position * CalibrationScreen.CameraFrame) :=
  repeat (step, CalibrationSamples.frameOf v) 15.

(** A whole run: fifteen frames at each step. *)
Definition fullRun
    : list (CalibrationScreen.Position * CalibrationScreen.CameraFrame) :=
  fifteen CalibrationScreen.Left (CalibrationSamples.decimalNumber (-85) 100)
  ++ fifteen CalibrationScreen.Center (CalibrationSamples.decimalNumber 1 100)
  ++ fifteen CalibrationScreen.Right (CalibrationSamples.decimalNumber 90 100).

End PipelineSamples.

(* ===================================================================== *)
(** * Facts about the IEEE-754 operations                                 *)
(* ===================================================================== *)

Unset Implicit Arguments.

Module IEEEFacts.
Import IEEE.

Section Comparison.

Lemma SFcompare_antisym (a b : spec_float) (c : comparison) :
  SFcompare a b = Some c -> SFcompare b a = Some (CompOpp c).
Proof.
  destruct a as [sa|sa| |sa ma ea], b as [sb|sb| |sb mb eb]; simpl;
    try discriminate;
    try (destruct sa); try (destruct sb);
    intros H; inversion H; subst; clear H; try reflexivity.
  all: rewrite (Z.compare_antisym ea eb);
    pose proof (Pos.compare_cont_antisym ma mb Eq) as A; simpl in A;
    destruct (ea ?= eb); simpl; rewrite <- ?A, ?CompOpp_involutive; reflexivity.
Qed.

Lemma SFcompare_None (a b : spec_float) :
  SFcompare a b = None -> isNaN a = true \/ isNaN b = true.
Proof.
  destruct a as [sa|sa| |sa ma ea], b as [sb|sb| |sb mb eb]; simpl; auto;
    try (destruct sa); try (destruct sb); discriminate.
Qed.

Lemma SFltb_asym (a b : spec_float) : SFltb a b = true -> SFltb b a = false.
Proof.
  unfold SFltb. destruct (SFcompare a b) as [c|] eqn:E; try discriminate.
  rewrite (SFcompare_antisym _ _ _ E). destruct c; simpl; congruence.
Qed.

Lemma SFleb_not_gt (a b : spec_float) : SFleb a b = true -> SFltb b a = false.
Proof.
  unfold SFleb, SFltb. destruct (SFcompare a b) as [c|] eqn:E; try discriminate.
  rewrite (SFcompare_antisym _ _ _ E). destruct c; simpl; congruence.
Qed.

Lemma SFleb_total (a b : spec_float) :
  isNaN a = false -> isNaN b = false -> SFleb a b = false -> SFleb b a = true.
Proof.
  intros Ha Hb. unfold SFleb.
  destruct (SFcompare a b) as [c|] eqn:E.
  - rewrite (SFcompare_antisym _ _ _ E). destruct c; simpl; congruence.
  - destruct (SFcompare_None _ _ E); congruence.
Qed.

Lemma SFltb_SFleb (a b : spec_float) : SFltb a b = true -> SFleb a b = true.
Proof.
  unfold SFltb, SFleb. destruct (SFcompare a b) as [[]|]; congruence.
Qed.

Lemma SFcompare_Eq_finite (s : bool) (m1 m2 : positive) (e1 e2 : Z) :
  SFcompare (S754_finite s m1 e1) (S754_finite s m2 e2) = Some Eq ->
  m1 = m2 /\ e1 = e2.
Proof.
  simpl. destruct s.
  - destruct (e1 ?= e2) eqn:E; try discriminate.
    intros H. apply Z.compare_eq in E. split; [|exact E].
    destruct (Pos.compare_cont Eq m1 m2) eqn:C; try discriminate.
    apply Pos.compare_eq in C. exact C.
  - destruct (e1 ?= e2) eqn:E; try discriminate.
    intros H. apply Z.compare_eq in E. split; [|exact E].
    destruct (Pos.compare_cont Eq m1 m2) eqn:C; try discriminate.
    apply Pos.compare_eq in C. exact C.
Qed.

End Comparison.

Section Rounding.

Variables prec emax : Z.

Lemma shr_1_nonneg (mrs : shr_record) : 0 <= shr_m mrs -> 0 <= shr_m (shr_1 mrs).
Proof.
  destruct mrs as [m r s]. simpl.
  destruct m as [|p|p]; simpl; try lia.
  - destruct p; simpl; lia.
Qed.

Lemma iter_shr_1_nonneg (p : positive) (mrs : shr_record) :
  0 <= shr_m mrs -> 0 <= shr_m (iter_pos shr_1 p mrs).
Proof.
  revert mrs. induction p as [p IH|p IH|]; intros mrs H; simpl.
  - apply IH, IH, shr_1_nonneg, H.
  - apply IH, IH, H.
  - apply shr_1_nonneg, H.
Qed.

Lemma shr_fexp_nonneg (m e : Z) (l : location) :
  0 <= m -> 0 <= shr_m (fst (shr_fexp prec emax m e l)).
Proof.
  intros H. unfold shr_fexp, shr.
  assert (H0 : 0 <= shr_m (shr_record_of_loc m l)).
  { destruct l as [|[]]; simpl; exact H. }
  destruct (fexp prec emax (Zdigits2 m + e) - e); simpl; try exact H0.
  apply iter_shr_1_nonneg, H0.
Qed.

Lemma round_nearest_even_nonneg (m : Z) (l : location) :
  0 <= m -> 0 <= round_nearest_even m l.
Proof.
  intros H. destruct l as [|[]]; simpl; try lia.
  destruct (Z.even m); lia.
Qed.

Lemma binary_round_aux_not_nan (s : bool) (m e : Z) (l : location) :
  0 <= m -> isNaN (binary_round_aux prec emax s m e l) = false.
Proof.
  intros H. unfold binary_round_aux.
  pose proof (shr_fexp_nonneg m e l H) as H1.
  destruct (shr_fexp prec emax m e l) as [mrs' e'] eqn:E1. simpl in H1.
  pose proof (shr_fexp_nonneg _ e' loc_Exact
                (round_nearest_even_nonneg _ (loc_of_shr_record mrs') H1)) as H2.
  destruct (shr_fexp prec emax _ e' loc_Exact) as [mrs'' e''] eqn:E2.
  simpl in H2.
  destruct (shr_m mrs'') as [|p|p]; try reflexivity; try lia.
  destruct (e'' <=? emax - prec); reflexivity.
Qed.

Lemma binary_round_not_nan (s : bool) (m : positive) (e : Z) :
  isNaN (binary_round prec emax s m e) = false.
Proof.
  unfold binary_round.
  destruct (shl_align m e _) as [mz ez].
  apply binary_round_aux_not_nan. lia.
Qed.

Lemma binary_normalize_not_nan (m e : Z) (szero : bool) :
  isNaN (binary_normalize prec emax m e szero) = false.
Proof.
  destruct m; simpl; try reflexivity; apply binary_round_not_nan.
Qed.

End Rounding.

Section Operations.

Variables prec emax : Z.

Lemma min_cases (a b : spec_float) : min a b = a \/ min a b = b.
Proof.
  unfold min. destruct (isNaN a); auto.
  destruct (isZero a && isZero b && isNegativeZero b); auto.
  destruct (SFleb a b); auto.
Qed.

Lemma max_cases (a b : spec_float) : max a b = a \/ max a b = b.
Proof.
  unfold max. destruct (isNaN a); auto.
  destruct (isZero a && isZero b && isNegativeZero a); auto.
  destruct (SFleb b a); auto.
Qed.

Lemma isFinite_not_nan (a : spec_float) : isFinite a = true -> isNaN a = false.
Proof. destruct a; simpl; congruence. Qed.

Lemma SFsub_finite_not_nan (a b : spec_float) :
  isFinite a = true -> isFinite b = true -> isNaN (SFsub prec emax a b) = false.
Proof.
  destruct a as [sa|sa| |sa ma ea], b as [sb|sb| |sb mb eb]; simpl;
    try discriminate; intros _ _; try reflexivity.
  - destruct sa, sb; reflexivity.
  - apply binary_normalize_not_nan.
Qed.

Lemma SFsub_not_nan_finite (a b : spec_float) :
  isNaN a = false -> isFinite b = true -> isNaN (SFsub prec emax a b) = false.
Proof.
  destruct a as [sa|sa| |sa ma ea], b as [sb|sb| |sb mb eb]; simpl;
    try discriminate; intros _ _; try reflexivity.
  - destruct sa, sb; reflexivity.
  - apply binary_normalize_not_nan.
Qed.

Lemma SFdiv_not_nan (a : spec_float) (s : bool) (m : positive) (e : Z) :
  isNaN a = false -> isNaN (SFdiv prec emax a (S754_finite s m e)) = false.
Proof.
  destruct a as [sa|sa| |sa ma ea]; simpl; try discriminate; intros _;
    try reflexivity.
  destruct (SFdiv_core_binary prec emax (Zpos ma) ea (Zpos m) e)
    as [[mz ez] lz] eqn:E.
  apply binary_round_aux_not_nan.
  unfold SFdiv_core_binary in E.
  destruct (Z.div_eucl _ (Zpos m)) as [q r] eqn:D in E.
  inversion E; subst; clear E.
  match type of D with Z.div_eucl ?n _ = _ =>
    assert (Hn : 0 <= n) by
      (destruct (ea - e - _); try lia; apply Z.shiftl_nonneg; lia);
    pose proof (Z.div_pos n (Zpos m) Hn ltac:(lia)) as Hq;
    unfold Z.div in Hq; rewrite D in Hq; exact Hq
  end.
Qed.

Lemma SFmul_not_nan (a : spec_float) (s : bool) (m : positive) (e : Z) :
  isNaN a = false -> isNaN (SFmul prec emax (S754_finite s m e) a) = false.
Proof.
  destruct a as [sa|sa| |sa ma ea]; simpl; try discriminate; intros _;
    try reflexivity.
  apply binary_round_aux_not_nan. lia.
Qed.

Lemma SFdiv_opp (a b : spec_float) :
  SFdiv prec emax (SFopp a) b = SFopp (SFdiv prec emax a b).
Proof.
  destruct a as [sa|sa| |sa ma ea], b as [sb|sb| |sb mb eb]; simpl;
    try reflexivity;
    try (destruct sa, sb; reflexivity).
  destruct (SFdiv_core_binary prec emax (Zpos ma) ea (Zpos mb) eb)
    as [[mz ez] lz].
  unfold binary_round_aux.
  destruct (shr_fexp prec emax mz ez lz) as [mrs' e'].
  destruct (shr_fexp prec emax _ e' loc_Exact) as [mrs'' e''].
  destruct (shr_m mrs''); simpl; try reflexivity;
    try (destruct sa, sb; reflexivity).
  destruct (e'' <=? emax - prec); simpl; destruct sa, sb; reflexivity.
Qed.

End Operations.

Section Clamp.

(** [max(lo, min(hi, v))] for two finite non-zero bounds [lo <= hi]. *)
Lemma clamp_in_range (lo hi v : spec_float) :
  isNaN lo = false -> isNaN hi = false ->
  isZero lo = false -> isZero hi = false ->
  SFleb lo hi = true ->
  isNaN v = false ->
  SFleb lo (max lo (min hi v)) = true /\ SFleb (max lo (min hi v)) hi = true.
Proof.
  intros Hlo Hhi Zlo Zhi Hle Hv.
  assert (Rlo : SFleb lo lo = true).
  { destruct (SFleb lo lo) eqn:E; auto.
    pose proof (SFleb_total _ _ Hlo Hlo E). congruence. }
  assert (Rhi : SFleb hi hi = true).
  { destruct (SFleb hi hi) eqn:E; auto.
    pose proof (SFleb_total _ _ Hhi Hhi E). congruence. }
  unfold min. rewrite Hhi, Zhi. simpl.
  destruct (SFleb hi v) eqn:E1.
  - unfold max. rewrite Hlo, Zlo. simpl.
    destruct (SFleb hi lo) eqn:E2; split; auto.
  - apply SFleb_total in E1; auto.
    unfold max. rewrite Hlo, Zlo. simpl.
    destruct (SFleb v lo) eqn:E2; split; auto.
    apply SFleb_total in E2; auto.
Qed.

End Clamp.

End IEEEFacts.

(* ===================================================================== *)
(** * GazeNormalizer: [calculateNormalizedGaze]                           *)
(* ===================================================================== *)

Module GazeNormalizerProps.

Import TensorFlowProcessor IEEE IEEEFacts Binary32 GazeVocabulary.

Lemma toFloat_1 : toFloat 1 = S754_finite false 8388608 (-23).
Proof. reflexivity. Qed.

Lemma toFloat_2 : toFloat 2 = S754_finite false 8388608 (-22).
Proof. reflexivity. Qed.

Lemma gt_epsilon_finite (v : float32) :
  (v > decimal 1 1000)%flt = true -> isFinite v = true ->
  exists m e, v = S754_finite false m e.
Proof.
  change ((v > decimal 1 1000)%flt) with (SFltb (S754_finite false 8589935 (-33)) v).
  destruct v as [s|s| |s m e]; simpl; try discriminate.
  destruct s; try discriminate. intros _ _. eauto.
Qed.

Lemma calculateNormalizedGaze_in_range
    (irisX leftEyeX rightEyeX confidence : float32) :
  let g := normalizedGazeX
             (calculateNormalizedGaze irisX leftEyeX rightEyeX confidence) in
  isFinite irisX = true -> isFinite leftEyeX = true ->
  isFinite rightEyeX = true -> isFinite (eyeSpan leftEyeX rightEyeX) = true ->
  SFleb (- toFloat 1)%flt g = true /\ SFleb g (toFloat 1) = true.
Proof.
  unfold calculateNormalizedGaze, eyeSpan; cbn [normalizedGazeX].
  cbn [plus minus times divide unaryMinus lt mathMax mathMin Float32].
  set (L := min leftEyeX rightEyeX). set (R := max leftEyeX rightEyeX).
  intros Hi Hl Hr Hs.
  match goal with |- context [if ?c then _ else _] => destruct c eqn:E end.
  - destruct (gt_epsilon_finite _ E Hs) as (m & e & Hspan).
    rewrite Hspan.
    apply clamp_in_range; try reflexivity.
    rewrite toFloat_1, toFloat_2.
    apply SFsub_not_nan_finite; [|reflexivity].
    apply SFmul_not_nan.
    apply SFdiv_not_nan.
    apply SFsub_finite_not_nan; [exact Hi|].
    unfold L. destruct (min_cases leftEyeX rightEyeX) as [-> | ->]; assumption.
  - split; reflexivity.
Qed.



End GazeNormalizerProps.

(* ===================================================================== *)
(** * DetectionDecoder: the first part of [processBlazeFaceDetections]    *)
(* ===================================================================== *)

Module DetectionDecoderProps.

Import TensorFlowProcessor IEEE IEEEFacts Binary32 GazeVocabulary FrameSamples.

Section Decoder.

(** Any function in the place of [kotlin.math.exp]. *)
Variable exp : float32 -> float32.

(** While no confidence seen exceeds the threshold, the index stays [-1]. *)
Lemma scanDetections_rejects (logits : list float32) :
  Forall (fun logit => SFleb (sigmoid exp logit) confidenceThreshold = true)
         logits ->
  forall (i : Z) (bestConfidence : float32),
    fst (scanDetections exp logits i (-1) bestConfidence) = -1.
Proof.
  induction 1 as [|logit rest Hle _ IH]; intros i best; cbn [scanDetections].
  - reflexivity.
  - cbn [lt Float32]. rewrite (SFleb_not_gt _ _ Hle).
    destruct (SFltb best (sigmoid exp logit)); apply IH.
Qed.

(** Entries that do not exceed the running maximum change nothing. *)
Lemma scanDetections_keeps (logits : list float32) (best : float32) :
  Forall (fun logit => (sigmoid exp logit > best)%flt = false) logits ->
  forall (i idx : Z), scanDetections exp logits i idx best = (idx, best).
Proof.
  induction 1 as [|logit rest Hle _ IH]; intros i idx; cbn [scanDetections].
  - reflexivity.
  - cbn [lt Float32] in *. rewrite Hle. apply IH.
Qed.

Lemma above_threshold_positive (c : float32) :
  (c > confidenceThreshold)%flt = true -> (c > toFloat 0)%flt = true.
Proof.
  change ((c > confidenceThreshold)%flt) with
    (SFltb (S754_finite false 10737418 (-30)) c).
  change ((c > toFloat 0)%flt) with (SFltb (S754_zero false) c).
  destruct c as [s|s| |s m e]; simpl; try discriminate;
    destruct s; try discriminate; reflexivity.
Qed.

(** The scan up to and including the first entry of maximal confidence. *)
Lemma scanDetections_selects (pre : list float32) (logit : float32)
    (post : list float32) :
  (sigmoid exp logit > confidenceThreshold)%flt = true ->
  Forall (fun l => (sigmoid exp l < sigmoid exp logit)%flt = true) pre ->
  Forall (fun l => (sigmoid exp l > sigmoid exp logit)%flt = false) post ->
  forall (i idx : Z) (best : float32),
    (best < sigmoid exp logit)%flt = true ->
    scanDetections exp (pre ++ logit :: post) i idx best
    = (i + Z.of_nat (length pre), sigmoid exp logit).
Proof.
  intros Hthr Hpre Hpost.
  induction Hpre as [|l pre Hl _ IH]; intros i idx best Hbest.
  - cbn [lt Float32 app scanDetections] in *. rewrite Hbest, Hthr.
    rewrite (scanDetections_keeps _ _ Hpost). cbn [length]. f_equal. lia.
  - cbn [app scanDetections].
    match goal with |- context [if ?c then _ else _] => destruct c end.
    + rewrite IH by exact Hl. cbn [length]. f_equal. lia.
    + rewrite IH by exact Hbest. cbn [length]. f_equal. lia.
Qed.

End Decoder.

(** C5.  When the confidence of every logit is at most the threshold
    [0.01f], [processBlazeFaceDetections] returns, without throwing, the
    result of [createNoFaceResult]: confidence [0f], every landmark at the
    origin, no gaze data.  This holds for any function in the place of
    [exp] and whatever the regressors are. *)
Theorem processBlazeFaceDetections_no_detection
    (exp : float32 -> float32) (regressors : list (list float32))
    (classificators : list float32) (bitmap : Bitmap)
    (imageWidth imageHeight now nano : Z) :
  Forall (fun logit => SFleb (sigmoid exp logit) confidenceThreshold = true)
         classificators ->
  processBlazeFaceDetections exp regressors classificators bitmap
    imageWidth imageHeight now nano
  = Returns (createNoFaceResult now nano)
  /\ createNoFaceResult now nano
     = {| leftEye := {| iris := origin; innerCorner := origin;
                        outerCorner := origin |};
          rightEye := {| iris := origin; innerCorner := origin;
                         outerCorner := origin |};
          confidence := S754_zero false;
          timestamp := now;
          highResTimestamp := nano;
          gazeData := None |}.
Proof.
  intros Hall. split; [|reflexivity].
  unfold processBlazeFaceDetections, detectFace.
  pose proof (scanDetections_rejects exp classificators Hall 0 (toFloat 0)) as Hidx.
  destruct (scanDetections exp classificators 0 (-1) (toFloat 0)) as [idx best].
  simpl in Hidx. subst idx. reflexivity.
Qed.

Lemma processBlazeFaceDetections_no_detection_witness :
  let classificators : list float32 :=
    [toFloat (-10); toFloat (-20); toFloat (-5)] in
  Forall (fun logit => SFleb (sigmoid JavaMath.exp logit) confidenceThreshold = true)
         classificators
  /\ processBlazeFaceDetections JavaMath.exp sampleRows classificators
       blankBitmap 640 480 7 9
     = Returns (createNoFaceResult 7 9).
Proof.
  assert (H : Forall (fun logit : float32 =>
                        SFleb (sigmoid JavaMath.exp logit) confidenceThreshold = true)
                     [toFloat (-10); toFloat (-20); toFloat (-5)]).
  { repeat apply Forall_cons; try apply Forall_nil; vm_compute; reflexivity. }
  split; [exact H|].
  exact (proj1 (processBlazeFaceDetections_no_detection JavaMath.exp sampleRows
                  [toFloat (-10); toFloat (-20); toFloat (-5)]
                  blankBitmap 640 480 7 9 H)).
Defined.

(** C6 (as amended).  When the confidence at index [k = length pre]
    exceeds the threshold, is strictly above every earlier confidence and
    is not exceeded by any later one, the decoded box is row [k] of the
    regressors: width and height scaled by [imageWidth/128] and
    [imageHeight/128], and the scaled center moved to the top-left corner by
    half the scaled width and height; the landmarks returned are those of
    this box. *)
Theorem detectFace_decodes_winning_row
    (exp : float32 -> float32) (regressors : list (list float32))
    (pre : list float32) (logit : float32) (post : list float32)
    (imageWidth imageHeight : Z) (c0 c1 c2 c3 : float32) (rest : list float32) :
  (sigmoid exp logit > confidenceThreshold)%flt = true ->
  Forall (fun l => (sigmoid exp l < sigmoid exp logit)%flt = true) pre ->
  Forall (fun l => (sigmoid exp l > sigmoid exp logit)%flt = false) post ->
  nth_error regressors (length pre) = Some (c0 :: c1 :: c2 :: c3 :: rest) ->
  let scaleX := (toFloat imageWidth / toFloat 128)%flt in
  let scaleY := (toFloat imageHeight / toFloat 128)%flt in
  let box := {| faceLeft := (c0 * scaleX - c2 * scaleX / toFloat 2)%flt;
                faceTop := (c1 * scaleY - c3 * scaleY / toFloat 2)%flt;
                faceWidth := (c2 * scaleX)%flt;
                faceHeight := (c3 * scaleY)%flt |} in
  detectFace exp regressors (pre ++ logit :: post) imageWidth imageHeight
  = Returns (Some (box, sigmoid exp logit))
  /\ forall (bitmap : Bitmap) (now nano : Z),
       processBlazeFaceDetections exp regressors (pre ++ logit :: post) bitmap
         imageWidth imageHeight now nano
       = Returns (eyeLandmarksOfFace bitmap box (sigmoid exp logit) now nano).
Proof.
  intros Hthr Hpre Hpost Hrow scaleX scaleY box.
  assert (Hface : detectFace exp regressors (pre ++ logit :: post)
                    imageWidth imageHeight
                  = Returns (Some (box, sigmoid exp logit))).
  { unfold detectFace.
    rewrite (scanDetections_selects exp pre logit post Hthr Hpre Hpost 0 (-1)
               (toFloat 0) (above_threshold_positive _ Hthr)).
    replace (0 + Z.of_nat (length pre) =? -1) with false
      by (symmetry; apply Z.eqb_neq; lia).
    unfold arrayGet at 1.
    replace (0 + Z.of_nat (length pre) <? 0) with false
      by (symmetry; apply Z.ltb_ge; lia).
    rewrite Z.add_0_l, Nat2Z.id, Hrow.
    reflexivity. }
  split; [exact Hface|].
  intros bitmap now nano. unfold processBlazeFaceDetections.
  rewrite Hface. reflexivity.
Qed.

Lemma detectFace_decodes_winning_row_witness :
  let pre : list float32 := [toFloat (-10)] in
  let logit : float32 := toFloat 3 in
  let post : list float32 := [toFloat 1] in
  let scaleX : float32 := (toFloat 640 / toFloat 128)%flt in
  let scaleY : float32 := (toFloat 480 / toFloat 128)%flt in
  (sigmoid JavaMath.exp logit > confidenceThreshold)%flt = true
  /\ detectFace JavaMath.exp sampleRows (pre ++ logit :: post) 640 480
     = Returns (Some ({| faceLeft := (toFloat 64 * scaleX - toFloat 32 * scaleX / toFloat 2)%flt;
                         faceTop := (toFloat 64 * scaleY - toFloat 32 * scaleY / toFloat 2)%flt;
                         faceWidth := (toFloat 32 * scaleX)%flt;
                         faceHeight := (toFloat 32 * scaleY)%flt |},
                      sigmoid JavaMath.exp logit)).
Proof.
  split; [vm_compute; reflexivity|].
  apply (fun H1 H2 H3 H4 =>
           proj1 (detectFace_decodes_winning_row JavaMath.exp sampleRows
                    [toFloat (-10)] (toFloat 3) [toFloat 1] 640 480
                    (toFloat 64) (toFloat 64) (toFloat 32) (toFloat 32) []
                    H1 H2 H3 H4)).
  - vm_compute; reflexivity.
  - repeat apply Forall_cons; try apply Forall_nil; vm_compute; reflexivity.
  - repeat apply Forall_cons; try apply Forall_nil; vm_compute; reflexivity.
  - reflexivity.
Defined.

(** Logits 20 and 30 on a 128 x 128 image: the single maximal logit is at
    index 1, but both confidences round to [1.0f] and the scan keeps the
    first, so the decoded box is that of row 0, not the box of row 1. *)
Lemma detectFace_saturated_confidence_tie :
  let classificators : list float32 := [toFloat 20; toFloat 30] in
  (toFloat 20 < toFloat 30)%flt = true
  /\ sigmoid JavaMath.exp (toFloat 20) = toFloat 1
  /\ sigmoid JavaMath.exp (toFloat 30) = toFloat 1
  /\ detectFace JavaMath.exp sampleRows classificators 128 128
     = Returns (Some ({| faceLeft := SFopp (toFloat 5); faceTop := toFloat 0;
                         faceWidth := toFloat 30; faceHeight := toFloat 40 |},
                      toFloat 1))
  /\ decodeFaceBox (F := float32)
       [toFloat 64; toFloat 64; toFloat 32; toFloat 32] 128 128
     = Returns {| faceLeft := toFloat 48; faceTop := toFloat 48;
                  faceWidth := toFloat 32; faceHeight := toFloat 32 |}.
Proof. repeat apply conj; vm_compute; reflexivity. Qed.

End DetectionDecoderProps.

(* ===================================================================== *)
(** * IrisLocalizer and the eye geometry                                  *)
(* ===================================================================== *)

Module EyeGeometryProps.

Import TensorFlowProcessor IEEE IEEEFacts GazeVocabulary FrameSamples.

Abbreviation float32 := Binary32.float32.

Section Window.

Context {F : Type} {ops : FloatOps F}.

Lemma In_until (lo hi px : Z) : In px (until lo hi) -> lo <= px < hi.
Proof.
  unfold until. intros H. apply in_map_iff in H.
  destruct H as (i & <- & Hi). apply in_seq in Hi. lia.
Qed.

Lemma fold_left_ext_in {A B : Type} (f g : A -> B -> A) (l : list B) :
  (forall a b, In b l -> f a b = g a b) ->
  forall a, fold_left f l a = fold_left g l a.
Proof.
  induction l as [|b l IH]; intros H a; simpl; [reflexivity|].
  rewrite (H a b (or_introl eq_refl)). apply IH.
  intros a' b' Hb'. apply H. right. exact Hb'.
Qed.

Lemma getPixel_agree (b1 b2 : Bitmap) (l t r b px py : Z) :
  agreeOn b1 b2 (l, t, r, b) -> l <= px < r -> t <= py < b ->
  getPixel b1 px py = getPixel b2 px py.
Proof.
  intros (Hw & Hh & Hp) Hx Hy. unfold getPixel.
  rewrite Hw, Hh, (Hp px py Hx Hy). reflexivity.
Qed.

(** [detectIrisInEyeRegion] reads the bitmap only inside the bounds of
    [eyeRegionBounds]. *)
Lemma detectIrisInEyeRegion_reads_window
    (b1 b2 : Bitmap) (eyeCenterX eyeCenterY eyeRegionSize : F) :
  agreeOn b1 b2 (eyeRegionBounds b1 eyeCenterX eyeCenterY eyeRegionSize) ->
  detectIrisInEyeRegion b1 eyeCenterX eyeCenterY eyeRegionSize
  = detectIrisInEyeRegion b2 eyeCenterX eyeCenterY eyeRegionSize.
Proof.
  intros H. unfold detectIrisInEyeRegion.
  assert (Hb : eyeRegionBounds b2 eyeCenterX eyeCenterY eyeRegionSize
               = eyeRegionBounds b1 eyeCenterX eyeCenterY eyeRegionSize).
  { unfold eyeRegionBounds.
    destruct (eyeRegionBounds b1 eyeCenterX eyeCenterY eyeRegionSize)
      as [[[l t] r] b].
    destruct H as (Hw & Hh & _). rewrite Hw, Hh. reflexivity. }
  rewrite Hb.
  destruct (eyeRegionBounds b1 eyeCenterX eyeCenterY eyeRegionSize)
    as [[[l t] r] b] eqn:E.
  destruct ((r <=? l) || (b <=? t)); [reflexivity|].
  match goal with
  | |- context [fold_left (scanLine b1 l t r b ?s)] =>
      rewrite (fold_left_ext_in (scanLine b1 l t r b s) (scanLine b2 l t r b s));
        [reflexivity|]
  end.
  intros st lineIdx _. unfold scanLine.
  destruct ((t <=? _) && (_ <? b)) eqn:Hy; [|reflexivity].
  apply andb_true_iff in Hy. destruct Hy as [Hy1 Hy2].
  apply Z.leb_le in Hy1. apply Z.ltb_lt in Hy2.
  apply fold_left_ext_in.
  intros st' px Hpx. apply In_until in Hpx.
  unfold scanPixel. destruct st' as [[darkestX darkestIntensity]|]; [|reflexivity].
  cbn [bindTry].
  rewrite (getPixel_agree b1 b2 l t r b px _ H Hpx (conj Hy1 Hy2)). reflexivity.
Qed.

End Window.

(** ** The scan of the window *)

Lemma wrap_small (z : Z) : - 2 ^ 31 <= z < 2 ^ 31 -> Int32.wrap z = z.
Proof.
  intros H. unfold Int32.wrap.
  change (2 ^ 31) with 2147483648 in *. change (2 ^ 32) with 4294967296.
  rewrite Z.mod_small; lia.
Qed.

Lemma wrap_beyond (z : Z) : 2 ^ 31 <= z < 2 ^ 32 -> Int32.wrap z < 0.
Proof.
  intros H. unfold Int32.wrap.
  change (2 ^ 31) with 2147483648 in *. change (2 ^ 32) with 4294967296 in *.
  replace (z + 2147483648) with (z - 2147483648 + 1 * 4294967296) by lia.
  rewrite Z.mod_add by lia. rewrite Z.mod_small; lia.
Qed.

Lemma toInt_range (v : float32) :
  Int32.MIN_VALUE <= toInt v <= Int32.MAX_VALUE.
Proof.
  cbn [toInt Float32]. unfold Binary32.toInt, Int32.saturate,
    Int32.MIN_VALUE, Int32.MAX_VALUE.
  change (2 ^ 31) with 2147483648.
  destruct v as [s|s| |s m e]; try lia; destruct s; lia.
Qed.

Lemma seq_from (n len : nat) :
  seq n len = map (fun i => (n + i)%nat) (seq 0 len).
Proof.
  induction n as [|n IH]; [symmetry; apply map_id|].
  rewrite <- seq_shift, IH, map_map. reflexivity.
Qed.

Lemma until_split (lo hi px : Z) :
  lo <= px < hi -> until lo hi = until lo px ++ px :: until (px + 1) hi.
Proof.
  intros H. unfold until.
  replace (Z.to_nat (hi - lo))
    with (Z.to_nat (px - lo) + S (Z.to_nat (hi - (px + 1))))%nat by lia.
  rewrite seq_app, map_app. f_equal.
  cbn [seq map Nat.add]. f_equal; [lia|].
  rewrite (seq_from (S _)), map_map. apply map_ext.
  intros i. lia.
Qed.

Section Scan.

Variable bitmap : Bitmap.
Variables left_ top_ right_ bottom_ : Z.
Variables px py : Z.

Hypothesis Hleft : 0 <= left_.
Hypothesis Hright : right_ <= width bitmap.
Hypothesis Htop : 0 <= top_.
Hypothesis Hbottom : bottom_ <= height bitmap.

Let window := (left_, top_, right_, bottom_).
Let target := intensityOf (pixels bitmap px py).

Hypothesis Hdarkest :
  forall qx qy, onScanLine window qx qy -> (qx, qy) <> (px, py) ->
                SFltb target (intensityOf (pixels bitmap qx qy)) = true.

Abbreviation before := (scanBefore target).
Abbreviation after := (scanAfter px target).

Lemma scanPixel_reads (qx qy : Z) (darkestX darkestIntensity : float32) :
  left_ <= qx < right_ -> top_ <= qy < bottom_ ->
  scanPixel bitmap qy (Returns (darkestX, darkestIntensity)) qx
  = if SFltb (intensityOf (pixels bitmap qx qy)) darkestIntensity
    then Returns (toFloat qx, intensityOf (pixels bitmap qx qy))
    else Returns (darkestX, darkestIntensity).
Proof.
  intros Hx Hy. unfold scanPixel. cbn [bindTry]. unfold getPixel.
  replace ((0 <=? qx) && (qx <? width bitmap) && (0 <=? qy)
           && (qy <? height bitmap)) with true.
  2:{ symmetry. repeat (apply andb_true_iff; split);
        try apply Z.leb_le; try apply Z.ltb_lt; lia. }
  cbn [bindTry]. reflexivity.
Qed.

Lemma scanPixel_before (qx qy : Z) (st : Try (float32 * float32)) :
  onScanLine window qx qy -> (qx, qy) <> (px, py) ->
  before st -> before (scanPixel bitmap qy st qx).
Proof.
  intros Hq Hne (dx & di & -> & Hlt).
  pose proof (Hdarkest qx qy Hq Hne) as Hd.
  destruct Hq as (Hx & Hy & _).
  rewrite (scanPixel_reads qx qy dx di Hx Hy).
  destruct (SFltb (intensityOf (pixels bitmap qx qy)) di);
    eexists; eexists; split; try reflexivity; assumption.
Qed.

Lemma scanPixel_target (st : Try (float32 * float32)) :
  left_ <= px < right_ -> top_ <= py < bottom_ ->
  before st -> after (scanPixel bitmap py st px).
Proof.
  intros Hx Hy (dx & di & -> & Hlt).
  rewrite (scanPixel_reads px py dx di Hx Hy).
  fold target. rewrite Hlt. reflexivity.
Qed.

Lemma scanPixel_after (qx qy : Z) (st : Try (float32 * float32)) :
  onScanLine window qx qy -> (qx, qy) <> (px, py) ->
  after st -> after (scanPixel bitmap qy st qx).
Proof.
  intros Hq Hne ->.
  pose proof (Hdarkest qx qy Hq Hne) as Hd.
  destruct Hq as (Hx & Hy & _).
  rewrite (scanPixel_reads qx qy _ _ Hx Hy).
  rewrite (SFltb_asym _ _ Hd). reflexivity.
Qed.

(** A stretch of a row that does not hold the pixel. *)
Lemma scanRow_other (P : Try (float32 * float32) -> Prop) (qy : Z)
    (columns : list Z) :
  (forall qx st, In qx columns -> P st -> P (scanPixel bitmap qy st qx)) ->
  forall st, P st -> P (fold_left (scanPixel bitmap qy) columns st).
Proof.
  induction columns as [|qx columns IH]; intros Hstep st Hst; cbn [fold_left].
  - exact Hst.
  - apply IH.
    + intros qx' st' Hin. apply Hstep. right. exact Hin.
    + apply Hstep; [left; reflexivity | exact Hst].
Qed.

Let lineSpacing := Z.max 1 ((bottom_ - top_) / 4).

Lemma scanRow_before (k : Z) (st : Try (float32 * float32)) :
  1 <= k <= 3 -> top_ + k * lineSpacing < bottom_ ->
  top_ + k * lineSpacing <> py ->
  before st ->
  before (fold_left (scanPixel bitmap (top_ + k * lineSpacing))
                    (until left_ right_) st).
Proof.
  intros Hk Hin Hne. apply scanRow_other.
  intros qx st' Hqx. apply In_until in Hqx.
  apply scanPixel_before.
  - repeat split; try lia. exists k. split; [lia|reflexivity].
  - intros E. inversion E. contradiction.
Qed.

Lemma scanRow_after (k : Z) (st : Try (float32 * float32)) :
  1 <= k <= 3 -> top_ + k * lineSpacing < bottom_ ->
  top_ + k * lineSpacing <> py ->
  after st ->
  after (fold_left (scanPixel bitmap (top_ + k * lineSpacing))
                   (until left_ right_) st).
Proof.
  intros Hk Hin Hne. apply scanRow_other.
  intros qx st' Hqx. apply In_until in Hqx.
  apply scanPixel_after.
  - repeat split; try lia. exists k. split; [lia|reflexivity].
  - intros E. inversion E. contradiction.
Qed.

Lemma scanRow_target (k : Z) (st : Try (float32 * float32)) :
  1 <= k <= 3 -> left_ <= px < right_ -> top_ <= py < bottom_ ->
  py = top_ + k * lineSpacing ->
  before st ->
  after (fold_left (scanPixel bitmap py) (until left_ right_) st).
Proof.
  intros Hk Hx Hy Hpy Hst.
  rewrite (until_split left_ right_ px Hx), fold_left_app. cbn [fold_left].
  apply scanRow_other.
  - intros qx st' Hqx. apply In_until in Hqx.
    apply scanPixel_after.
    + repeat split; try lia. exists k. split; [lia|exact Hpy].
    + intros E. inversion E. lia.
  - apply scanPixel_target; try assumption.
    apply scanRow_other; [|exact Hst].
    intros qx st' Hqx. apply In_until in Hqx.
    apply scanPixel_before.
    + repeat split; try lia. exists k. split; [lia|exact Hpy].
    + intros E. inversion E. lia.
Qed.

Hypothesis Hbottom31 : bottom_ <= Int32.MAX_VALUE.

(** The row of scan line [lineIdx], as [scanLine] computes it. *)
Lemma scanLine_row (lineIdx : Z) (st : Try (float32 * float32)) :
  0 <= lineIdx <= 2 -> top_ < bottom_ ->
  scanLine bitmap left_ top_ right_ bottom_ lineSpacing st lineIdx
  = if top_ + (lineIdx + 1) * lineSpacing <? bottom_
    then fold_left (scanPixel bitmap (top_ + (lineIdx + 1) * lineSpacing))
                   (until left_ right_) st
    else st.
Proof.
  intros Hi Hlt. unfold scanLine, Int32.add, Int32.mul.
  unfold Int32.MAX_VALUE in Hbottom31.
  change (2 ^ 31) with 2147483648 in Hbottom31.
  assert (Hs : 1 <= lineSpacing <= 536870912).
  { unfold lineSpacing.
    assert ((bottom_ - top_) / 4 < 536870912)
      by (apply Z.div_lt_upper_bound; lia).
    lia. }
  assert (H1 : Int32.wrap (lineIdx + 1) = lineIdx + 1)
    by (apply wrap_small; change (2 ^ 31) with 2147483648; lia).
  rewrite H1.
  assert (H2 : Int32.wrap (lineSpacing * (lineIdx + 1))
               = lineSpacing * (lineIdx + 1))
    by (apply wrap_small; change (2 ^ 31) with 2147483648; nia).
  rewrite H2.
  replace (lineSpacing * (lineIdx + 1)) with ((lineIdx + 1) * lineSpacing) by lia.
  set (y := top_ + (lineIdx + 1) * lineSpacing).
  assert (Hy : top_ < y < 4294967296) by (unfold y; nia).
  destruct (Z_lt_le_dec y 2147483648) as [Hsmall | Hbig].
  - rewrite (wrap_small y) by (change (2 ^ 31) with 2147483648; lia).
    replace (top_ <=? y) with true by (symmetry; apply Z.leb_le; lia).
    reflexivity.
  - pose proof (wrap_beyond y) as Hw.
    change (2 ^ 31) with 2147483648 in Hw.
    change (2 ^ 32) with 4294967296 in Hw.
    specialize (Hw (conj Hbig (proj2 Hy))).
    replace (top_ <=? Int32.wrap y) with false
      by (symmetry; apply Z.leb_gt; lia).
    replace (y <? bottom_) with false by (symmetry; apply Z.ltb_ge; lia).
    reflexivity.
Qed.

Lemma scanLine_before (lineIdx : Z) (st : Try (float32 * float32)) :
  0 <= lineIdx <= 2 -> top_ < bottom_ ->
  top_ + (lineIdx + 1) * lineSpacing <> py ->
  before st ->
  before (scanLine bitmap left_ top_ right_ bottom_ lineSpacing st lineIdx).
Proof.
  intros Hi Hlt Hne Hst. rewrite scanLine_row by assumption.
  destruct (_ <? bottom_) eqn:E; [|exact Hst].
  apply Z.ltb_lt in E. apply scanRow_before; try assumption. lia.
Qed.

Lemma scanLine_after (lineIdx : Z) (st : Try (float32 * float32)) :
  0 <= lineIdx <= 2 -> top_ < bottom_ ->
  top_ + (lineIdx + 1) * lineSpacing <> py ->
  after st ->
  after (scanLine bitmap left_ top_ right_ bottom_ lineSpacing st lineIdx).
Proof.
  intros Hi Hlt Hne Hst. rewrite scanLine_row by assumption.
  destruct (_ <? bottom_) eqn:E; [|exact Hst].
  apply Z.ltb_lt in E. apply scanRow_after; try assumption. lia.
Qed.

Lemma scanLine_target (lineIdx : Z) (st : Try (float32 * float32)) :
  0 <= lineIdx <= 2 -> left_ <= px < right_ -> top_ <= py < bottom_ ->
  py = top_ + (lineIdx + 1) * lineSpacing ->
  before st ->
  after (scanLine bitmap left_ top_ right_ bottom_ lineSpacing st lineIdx).
Proof.
  intros Hi Hx Hy Hpy Hst. rewrite scanLine_row by (try assumption; lia).
  rewrite <- Hpy.
  replace (py <? bottom_) with true by (symmetry; apply Z.ltb_lt; lia).
  apply (scanRow_target (lineIdx + 1)); try assumption. lia.
Qed.

(** The whole scan ends on the pixel. *)
Lemma scanLines_find (init : Try (float32 * float32)) :
  onScanLine window px py -> before init ->
  after (fold_left (scanLine bitmap left_ top_ right_ bottom_ lineSpacing)
                   (until 0 3) init).
Proof.
  intros (Hx & Hy & k & Hk & Hpy) Hinit.
  fold lineSpacing in Hpy.
  assert (Hs : 1 <= lineSpacing) by (unfold lineSpacing; lia).
  change (until 0 3) with [0; 1; 2]. cbn [fold_left].
  assert (Hcases : k = 1 \/ k = 2 \/ k = 3) by lia.
  destruct Hcases as [-> | [-> | ->]].
  - apply scanLine_after; try lia.
    apply scanLine_after; try lia.
    apply scanLine_target; try assumption; lia.
  - apply scanLine_after; try lia.
    apply (scanLine_target 1); try assumption; try lia.
    apply scanLine_before; try assumption; lia.
  - apply (scanLine_target 2); try assumption; try lia.
    apply scanLine_before; try lia.
    apply scanLine_before; try assumption; lia.
Qed.

End Scan.

(** The scan finds a pixel of the scan lines that is darker than 255 and
    strictly darker than every other pixel of the scan lines. *)
Lemma detectIrisInEyeRegion_finds_darkest
    (bitmap : Bitmap) (eyeCenterX eyeCenterY eyeRegionSize : float32)
    (px py : Z) :
  let window := eyeRegionBounds bitmap eyeCenterX eyeCenterY eyeRegionSize in
  let maxMovement := (eyeRegionSize * decimal 5 10)%flt in
  onScanLine window px py ->
  SFltb (intensityOf (pixels bitmap px py)) (toFloat 255) = true ->
  (forall qx qy, onScanLine window qx qy -> (qx, qy) <> (px, py) ->
                 SFltb (intensityOf (pixels bitmap px py))
                       (intensityOf (pixels bitmap qx qy)) = true) ->
  detectIrisInEyeRegion bitmap eyeCenterX eyeCenterY eyeRegionSize
  = (eyeCenterX
     + mathMax (- maxMovement) (mathMin maxMovement (toFloat px - eyeCenterX)))%flt.
Proof.
  intros window maxMovement Hon Hdark Hdarkest.
  unfold detectIrisInEyeRegion.
  assert (Hw : window
               = eyeRegionBounds bitmap eyeCenterX eyeCenterY eyeRegionSize)
    by reflexivity.
  unfold eyeRegionBounds in Hw.
  set (half := (eyeRegionSize / toFloat 2)%flt) in *.
  unfold eyeRegionBounds. fold half.
  set (l := Z.max 0 (toInt (eyeCenterX - half)%flt)) in *.
  set (t := Z.max 0 (toInt (eyeCenterY - half)%flt)) in *.
  set (r := Z.min (width bitmap) (toInt (eyeCenterX + half)%flt)) in *.
  set (b := Z.min (height bitmap) (toInt (eyeCenterY + half)%flt)) in *.
  rewrite Hw in Hon, Hdarkest.
  assert (Hon' := Hon). destruct Hon' as (Hx & Hy & _).
  replace ((r <=? l) || (b <=? t)) with false.
  2:{ symmetry. apply orb_false_iff. split; apply Z.leb_gt; lia. }
  assert (Hspacing : Z.max 1 (Int32.div (Int32.sub b t) (Int32.add 3 1))
                     = Z.max 1 ((b - t) / 4)).
  { pose proof (toInt_range (eyeCenterY + half)%flt) as Hb.
    unfold Int32.MIN_VALUE, Int32.MAX_VALUE in Hb.
    change (2 ^ 31) with 2147483648 in Hb.
    assert (Hb' : b <= 2147483647) by (unfold b; lia).
    assert (Ht' : 0 <= t) by (unfold t; lia).
    unfold Int32.div, Int32.sub, Int32.add.
    rewrite (wrap_small (3 + 1)) by (change (2 ^ 31) with 2147483648; lia).
    change (3 + 1) with 4.
    rewrite (wrap_small (b - t)) by (change (2 ^ 31) with 2147483648; lia).
    rewrite Z.quot_div_nonneg by lia.
    rewrite wrap_small; [reflexivity|].
    change (2 ^ 31) with 2147483648.
    assert (0 <= (b - t) / 4) by (apply Z.div_pos; lia).
    assert ((b - t) / 4 <= b - t) by (apply Z.div_le_upper_bound; lia).
    split; lia. }
  rewrite Hspacing.
  pose proof (scanLines_find bitmap l t r b px py) as Hfind.
  cbv zeta in Hfind.
  rewrite (Hfind ltac:(lia) ltac:(lia) ltac:(lia) ltac:(lia) Hdarkest
             ltac:(pose proof (toInt_range (eyeCenterY + half)%flt); lia)
             (Returns (eyeCenterX, toFloat 255)) Hon).
  - reflexivity.
  - eexists. eexists. split; [reflexivity|exact Hdark].
Qed.

(** C7 (as amended).  Both iris positions of an accepted face come from
    [detectIrisInEyeRegion] with [eyeRegionSize = faceWidth * 0.15f].  The
    window that it scans around an eye center extends by half of that
    size, [(faceWidth * 0.15f) / 2f], on each side of the center, each
    bound truncated to an [Int] and then clipped to the bitmap.  No pixel
    outside this window influences the result, and the window is scanned:
    a pixel on one of its scan lines that is darker than 255 and strictly
    darker than all other pixels of the scan lines is found, and the
    result is the center moved towards its column by at most
    [eyeRegionSize * 0.5f]. *)
Theorem eye_window_extends_half_region_size
    (bitmap : Bitmap) (box : FaceBox (F := float32)) (bestConfidence : float32)
    (now nano : Z) :
  let landmarks := eyeLandmarksOfFace bitmap box bestConfidence now nano in
  let eyeY := (faceTop box + faceHeight box * decimal 35 100)%flt in
  let leftEyeX := (faceLeft box + faceWidth box * decimal 3 10)%flt in
  let rightEyeX := (faceLeft box + faceWidth box * decimal 7 10)%flt in
  let eyeRegionSize := (faceWidth box * decimal 15 100)%flt in
  let halfSize := (eyeRegionSize / toFloat 2)%flt in
  let maxMovement := (eyeRegionSize * decimal 5 10)%flt in
  x (iris (leftEye landmarks))
  = detectIrisInEyeRegion bitmap leftEyeX eyeY eyeRegionSize
  /\ x (iris (rightEye landmarks))
     = detectIrisInEyeRegion bitmap rightEyeX eyeY eyeRegionSize
  /\ forall eyeCenterX eyeCenterY : float32,
       let window :=
         (Z.max 0 (toInt (eyeCenterX - halfSize)%flt),
          Z.max 0 (toInt (eyeCenterY - halfSize)%flt),
          Z.min (width bitmap) (toInt (eyeCenterX + halfSize)%flt),
          Z.min (height bitmap) (toInt (eyeCenterY + halfSize)%flt)) in
       (forall other : Bitmap,
          agreeOn bitmap other window ->
          detectIrisInEyeRegion bitmap eyeCenterX eyeCenterY eyeRegionSize
          = detectIrisInEyeRegion other eyeCenterX eyeCenterY eyeRegionSize)
       /\ (forall px py : Z,
             onScanLine window px py ->
             (intensityOf (pixels bitmap px py) < toFloat 255)%flt = true ->
             (forall qx qy : Z,
                onScanLine window qx qy -> (qx, qy) <> (px, py) ->
                (intensityOf (pixels bitmap px py)
                 < intensityOf (pixels bitmap qx qy))%flt = true) ->
             detectIrisInEyeRegion bitmap eyeCenterX eyeCenterY eyeRegionSize
             = (eyeCenterX
                + mathMax (- maxMovement)
                    (mathMin maxMovement (toFloat px - eyeCenterX)))%flt).
Proof.
  intros landmarks eyeY leftEyeX rightEyeX eyeRegionSize halfSize maxMovement.
  split; [reflexivity|]. split; [reflexivity|].
  intros eyeCenterX eyeCenterY window. split.
  - intros other H. apply detectIrisInEyeRegion_reads_window, H.
  - intros px py Hon Hdark Hdarkest.
    apply (detectIrisInEyeRegion_finds_darkest bitmap eyeCenterX eyeCenterY
             eyeRegionSize px py Hon Hdark Hdarkest).
Qed.

Lemma eye_window_extends_half_region_size_witness :
  let eyeRegionSize : float32 := (toFloat 100 * decimal 15 100)%flt in
  eyeRegionBounds darkSpotBitmap (toFloat 200) (toFloat 100) eyeRegionSize
  = (192, 92, 207, 107)
  /\ onScanLine (192, 92, 207, 107) 195 98
  /\ agreeOn blankBitmap spottedBitmap (192, 92, 207, 107)
  /\ detectIrisInEyeRegion blankBitmap (toFloat 200) (toFloat 100) eyeRegionSize
     = detectIrisInEyeRegion spottedBitmap (toFloat 200) (toFloat 100) eyeRegionSize
  /\ detectIrisInEyeRegion darkSpotBitmap (toFloat 200) (toFloat 100) eyeRegionSize
     = (toFloat 200
        + mathMax (- (eyeRegionSize * decimal 5 10))
            (mathMin (eyeRegionSize * decimal 5 10)
                     (toFloat 195 - toFloat 200)))%flt
  /\ detectIrisInEyeRegion darkSpotBitmap (toFloat 200) (toFloat 100) eyeRegionSize
     = toFloat 195.
Proof.
  intros eyeRegionSize.
  assert (Hagree : agreeOn blankBitmap spottedBitmap (192, 92, 207, 107)).
  { repeat apply conj; try reflexivity.
    intros px py Hx Hy. simpl.
    destruct (px =? 10) eqn:E; [apply Z.eqb_eq in E; lia | reflexivity]. }
  assert (Hon : onScanLine (192, 92, 207, 107) 195 98).
  { repeat split; try lia. exists 2. split; [lia|reflexivity]. }
  split; [vm_compute; reflexivity|]. split; [exact Hon|].
  split; [exact Hagree|].
  split.
  - apply (proj1 (proj2 (proj2
             (eye_window_extends_half_region_size blankBitmap sampleBox
                (toFloat 1) 7 9)) (toFloat 200) (toFloat 100)) spottedBitmap).
    exact Hagree.
  - assert (Hfound :
      detectIrisInEyeRegion darkSpotBitmap (toFloat 200) (toFloat 100)
        eyeRegionSize
      = (toFloat 200
         + mathMax (- (eyeRegionSize * decimal 5 10))
             (mathMin (eyeRegionSize * decimal 5 10)
                      (toFloat 195 - toFloat 200)))%flt).
    { apply (proj2 (proj2 (proj2
               (eye_window_extends_half_region_size darkSpotBitmap sampleBox
                  (toFloat 1) 7 9)) (toFloat 200) (toFloat 100)) 195 98).
      - exact Hon.
      - vm_compute. reflexivity.
      - intros qx qy _ Hne. cbn [pixels darkSpotBitmap].
        destruct ((qx =? 195) && (qy =? 98)) eqn:E.
        + apply andb_true_iff in E. destruct E as [E1 E2].
          apply Z.eqb_eq in E1. apply Z.eqb_eq in E2. subst.
          contradiction Hne. reflexivity.
        + vm_compute. reflexivity. }
    split; [exact Hfound|].
    rewrite Hfound. vm_compute. reflexivity.
Defined.

(** A face 100 wide and an eye centered at (200, 100) on a 640 x 480
    bitmap: a window reaching 15% of the face width to each side of the
    center would span the columns 185 to 215; the region scanned spans the
    columns 192 to 207 and the rows 92 to 107. *)
Lemma eye_window_is_not_twice_the_radius :
  let w : float32 := toFloat 100 in
  let eyeCenterX : float32 := toFloat 200 in
  let eyeCenterY : float32 := toFloat 100 in
  toInt (eyeCenterX - searchRadius w)%flt = 185
  /\ toInt (eyeCenterX + searchRadius w)%flt = 215
  /\ eyeRegionBounds blankBitmap eyeCenterX eyeCenterY (w * decimal 15 100)%flt
     = (192, 92, 207, 107).
Proof. repeat apply conj; vm_compute; reflexivity. Qed.

(** In binary32: the face [farBox] is one unit wide, far more than
    0.001/0.56, and is what the decoder yields for the regressor row
    (1e8, 0, 1, 1) on a 128 x 128 image.  Both outer corners round to 1e8,
    the span is 0, not 0.56, and the normalizer takes its degenerate
    branch. *)
Lemma outer_corner_span_collapses_in_binary32 :
  let landmarks := eyeLandmarksOfFace blankBitmap farBox (toFloat 1) 7 9 in
  detectFace JavaMath.exp
    [[toFloat 100000000; toFloat 0; toFloat 1; toFloat 1]] [toFloat 3] 128 128
  = Returns (Some (farBox, sigmoid JavaMath.exp (toFloat 3)))
  /\ (faceWidth farBox > decimal 1 1000 / decimal 56 100)%flt = true
  /\ x (outerCorner (leftEye landmarks)) = toFloat 100000000
  /\ x (outerCorner (rightEye landmarks)) = toFloat 100000000
  /\ eyeSpan (x (outerCorner (leftEye landmarks)))
             (x (outerCorner (rightEye landmarks)))
     = S754_zero false
  /\ (eyeSpan (x (outerCorner (leftEye landmarks)))
              (x (outerCorner (rightEye landmarks)))
      > decimal 1 1000)%flt = false
  /\ option_map normalizedGazeX (gazeData landmarks) = Some (S754_zero false).
Proof. repeat apply conj; vm_compute; reflexivity. Qed.

End EyeGeometryProps.

(* ===================================================================== *)
(** * [processFrame] when the model is unavailable                        *)
(* ===================================================================== *)

Module ProcessFrameProps.

Import TensorFlowProcessor Binary32 FrameSamples.

(** C8 (as amended).  A frame processed while the model is not loaded or
    the interpreter or the input buffer is missing, and a frame on whose
    bitmap inference throws, make [processFrame] return [null]: no
    [EyeLandmarks], neither an estimate nor the no-face result, and no
    exception. *)
Theorem processFrame_unavailable_returns_null
    (exp : float32 -> float32) (this : Processor) (image : Image)
    (now nano : Z) :
  isModelLoaded this = false
  \/ interpreter this = None
  \/ inputBuffer this = None
  \/ (exists bitmap, imageToBitmap image = Some bitmap
                     /\ runInference this bitmap = Throws) ->
  processFrame exp this image now nano = Returns None.
Proof.
  intros H. unfold processFrame.
  destruct (isModelLoaded this) eqn:Hloaded; [|reflexivity].
  destruct (interpreter this) as [interp|] eqn:Hinterp; [|reflexivity].
  destruct (inputBuffer this) as [buffer|] eqn:Hbuffer; [|reflexivity].
  cbn [negb orb].
  destruct H as [H | [H | [H | (bitmap & Hbitmap & H)]]]; try discriminate.
  rewrite Hbitmap, H. reflexivity.
Qed.

Lemma processFrame_unavailable_returns_null_witness :
  runInference flakyProcessor blankBitmap = Throws
  /\ (exists landmarks,
        processFrame JavaMath.exp flakyProcessor spottedImage 7 9
        = Returns (Some landmarks))
  /\ processFrame JavaMath.exp flakyProcessor sampleImage 7 9 = Returns None.
Proof.
  split; [reflexivity|]. split; [eexists; vm_compute; reflexivity|].
  apply (processFrame_unavailable_returns_null JavaMath.exp flakyProcessor
           sampleImage 7 9).
  right; right; right. exists blankBitmap. split; reflexivity.
Defined.

(** No call of [processFrame] throws. *)
Lemma processFrame_never_throws
    (exp : float32 -> float32) (this : Processor) (image : Image)
    (now nano : Z) :
  exists r, processFrame exp this image now nano = Returns r.
Proof.
  unfold processFrame.
  destruct (negb (isModelLoaded this) || _ || _); [eauto|].
  unfold catchNull.
  destruct (match imageToBitmap image with None => _ | Some _ => _ end); eauto.
Qed.

(** Inference throws, or the model was never loaded: [processFrame]
    returns normally, with [null]; nothing is thrown to the caller. *)
Lemma processFrame_failure_not_propagated :
  runInference failingProcessor blankBitmap = Throws
  /\ processFrame JavaMath.exp failingProcessor sampleImage 7 9 = Returns None
  /\ processFrame JavaMath.exp unloadedProcessor sampleImage 7 9 = Returns None
  /\ processFrame JavaMath.exp failingProcessor sampleImage 7 9 <> Throws
  /\ processFrame JavaMath.exp unloadedProcessor sampleImage 7 9 <> Throws.
Proof. repeat apply conj; try reflexivity; discriminate. Qed.

End ProcessFrameProps.

(* ===================================================================== *)
(** * CalibrationEngine: [calculateLinearTransform], [completeCalibration] *)
(* ===================================================================== *)

Module CalibrationEngineProps.

Import Number CalibrationScreen IEEEFacts RegressionVocabulary CalibrationSamples.
Local Open Scope number_scope.

(** ** The points of a calibration run *)

Lemma Position_eqb_eq (p q : Position) : Position_eqb p q = true <-> p = q.
Proof. destruct p, q; simpl; split; congruence. Qed.

Lemma addGazeValue_positions (step : Position) (v : number)
    (prev : CalibrationData) :
  (In step (map position (points prev))
   /\ map position (points (addGazeValue step v prev)) = map position (points prev))
  \/ (~ In step (map position (points prev))
      /\ map position (points (addGazeValue step v prev))
         = map position (points prev) ++ [step]).
Proof.
  unfold addGazeValue.
  destruct (find _ (points prev)) as [p|] eqn:E.
  - left. split.
    + apply find_some in E. destruct E as [Hin Heq].
      apply Position_eqb_eq in Heq. subst step.
      apply in_map, Hin.
    + cbn [points]. rewrite map_map. apply map_ext.
      intros q. destruct (Position_eqb (position q) step); reflexivity.
  - right. split.
    + intros Hin. apply in_map_iff in Hin. destruct Hin as (q & Hq & Hin).
      pose proof (find_none _ _ E q Hin) as Hne. cbn beta in Hne.
      rewrite Hq in Hne.
      assert (Position_eqb step step = true) by (apply Position_eqb_eq; reflexivity).
      congruence.
    + cbn [points]. rewrite map_app. reflexivity.
Qed.

(** One point per position. *)
Lemma Collected_distinct_positions (data : CalibrationData) :
  Collected data -> NoDup (map position (points data)).
Proof.
  induction 1 as [now | step frame data _ IH].
  - constructor.
  - unfold onFrame.
    destruct (eyeLandmarks frame) as [landmarks|]; [|exact IH].
    destruct (gazeData landmarks) as [v|]; [|exact IH].
    destruct (confidence landmarks > ofZ 3 / ofZ 10); [|exact IH].
    destruct (addGazeValue_positions step v data) as [[_ ->] | [Hnew ->]].
    + exact IH.
    + apply NoDup_app; [exact IH | repeat constructor; simpl; tauto |].
      intros q Hq [<- | []]. exact (Hnew Hq).
Qed.

(** A run in which all three positions were collected has exactly three
    points. *)
Lemma Collected_three_points (data : CalibrationData) :
  Collected data ->
  (forall pos, In pos (map position (points data))) ->
  length (points data) = 3%nat.
Proof.
  intros Hc Hall.
  pose proof (Collected_distinct_positions data Hc) as Hnodup.
  rewrite <- (length_map position).
  apply Nat.le_antisymm.
  - apply (NoDup_incl_length (l' := [Left; Center; Right]) Hnodup).
    intros [] _; simpl; auto.
  - apply (NoDup_incl_length (l := [Left; Center; Right])).
    + repeat constructor; simpl; intuition discriminate.
    + intros pos _. apply Hall.
Qed.

Lemma Collected_replay (frames : list (Position * CameraFrame))
    (data : CalibrationData) :
  Collected data -> Collected (replay frames data).
Proof.
  unfold replay. revert data.
  induction frames as [|[step frame] frames IH]; intros data H; simpl.
  - exact H.
  - apply IH. constructor. exact H.
Qed.

Lemma nanRun_collected : Collected (stateWith nanPoints).
Proof.
  change (stateWith nanPoints) with (replay nanRun (initialCalibrationData 0)).
  apply Collected_replay. constructor.
Qed.

(** For three calibration points (every run whose transform is computed
    has three, see [Collected_three_points]) with at least 2 valid triples
    and a regression denominator of magnitude at least [1e-10], whatever
    the samples: the transform is the closed-form least-squares fit when
    the slope and the intercept so computed are finite, and the identity
    otherwise. *)
Lemma calculateLinearTransform_guarded (points : list CalibrationPoint) :
  length points = 3%nat ->
  (2 <= length (validTriples points))%nat ->
  SFleb epsilon (Math_abs (regressionDenominator (validTriples points))) = true ->
  calculateLinearTransform points
  = if isFinite (regressionSlope (validTriples points))
       && isFinite (regressionIntercept (validTriples points))
    then {| slope := regressionSlope (validTriples points);
            intercept := regressionIntercept (validTriples points) |}
    else identityTransform.
Proof.
  intros Hlen Hvalid Hden.
  unfold calculateLinearTransform.
  rewrite Hlen. cbn [Nat.eqb negb].
  fold (validTriples points).
  replace (length (validTriples points) <? 2)%nat with false
    by (symmetry; apply Nat.ltb_ge; exact Hvalid).
  fold (count (validTriples points)).
  fold (sigma measured (validTriples points)).
  fold (sigma target (validTriples points)).
  fold (sigma (fun p => measured p * target p) (validTriples points)).
  fold (sigma (fun p => measured p * measured p) (validTriples points)).
  fold (regressionDenominator (validTriples points)).
  unfold ltb. rewrite (SFleb_not_gt _ _ Hden).
  fold (regressionSlope (validTriples points)).
  fold (regressionIntercept (validTriples points)).
  destruct (isFinite (regressionSlope (validTriples points))),
           (isFinite (regressionIntercept (validTriples points))); reflexivity.
Qed.

Lemma calculateLinearTransform_guarded_example :
  (2 <= length (validTriples typicalPoints))%nat
  /\ SFleb epsilon (Math_abs (regressionDenominator (validTriples typicalPoints))) = true
  /\ isFinite (regressionSlope (validTriples typicalPoints)) = true
  /\ isFinite (regressionIntercept (validTriples typicalPoints)) = true
  /\ calculateLinearTransform typicalPoints
     = {| slope := regressionSlope (validTriples typicalPoints);
          intercept := regressionIntercept (validTriples typicalPoints) |}.
Proof.
  split; [vm_compute; lia|]. split; [vm_compute; reflexivity|].
  split; [vm_compute; reflexivity|]. split; [vm_compute; reflexivity|].
  rewrite (calculateLinearTransform_guarded typicalPoints).
  - vm_compute; reflexivity.
  - reflexivity.
  - vm_compute; lia.
  - vm_compute; reflexivity.
Defined.

Lemma SFeqb_zero_not_gt (a : number) :
  SFeqb a (ofZ 0) = true -> (a > ofZ 0) = false.
Proof.
  change (ofZ 0) with (S754_zero false). unfold ltb.
  destruct a as [s|s| |s m e]; simpl; try discriminate; try reflexivity;
    destruct s; discriminate.
Qed.

(** C3.  For the three calibration points of a run with at least 2 valid
    triples (fewer is the case of C2) whose regression denominator has
    magnitude below [1e-10], the transform is the range-based fallback:
    slope [2 / measuredRange] when [measuredRange > 0], slope 1 when
    [measuredRange = 0], and intercept [-mean(measured) * slope]. *)
Theorem calculateLinearTransform_range_fallback (points : list CalibrationPoint) :
  length points = 3%nat ->
  (2 <= length (validTriples points))%nat ->
  (Math_abs (regressionDenominator (validTriples points)) < epsilon) = true ->
  exists s : number,
    calculateLinearTransform points
    = {| slope := s; intercept := - meanMeasured (validTriples points) * s |}
    /\ ((measuredRange (validTriples points) > ofZ 0) = true ->
        s = ofZ 2 / measuredRange (validTriples points))
    /\ (SFeqb (measuredRange (validTriples points)) (ofZ 0) = true ->
        s = ofZ 1).
Proof.
  intros Hlen Hvalid Hden.
  unfold calculateLinearTransform.
  rewrite Hlen. cbn [Nat.eqb negb].
  fold (validTriples points).
  replace (length (validTriples points) <? 2)%nat with false
    by (symmetry; apply Nat.ltb_ge; exact Hvalid).
  fold (count (validTriples points)).
  fold (sigma measured (validTriples points)).
  fold (sigma (fun p => measured p * measured p) (validTriples points)).
  fold (regressionDenominator (validTriples points)).
  rewrite Hden.
  fold (measuredRange (validTriples points)).
  eexists. split; [|split].
  - unfold meanMeasured, neg, div. rewrite <- SFdiv_opp. reflexivity.
  - intros Hpos. rewrite Hpos. reflexivity.
  - intros Hzero. rewrite (SFeqb_zero_not_gt _ Hzero). reflexivity.
Qed.

Lemma calculateLinearTransform_range_fallback_witness :
  ((Math_abs (regressionDenominator (validTriples flatPoints)) < epsilon) = true
   /\ SFeqb (measuredRange (validTriples flatPoints)) (ofZ 0) = true
   /\ calculateLinearTransform flatPoints
      = {| slope := ofZ 1;
           intercept := - meanMeasured (validTriples flatPoints) * ofZ 1 |})
  /\ ((Math_abs (regressionDenominator (validTriples nearFlatPoints)) < epsilon) = true
      /\ (measuredRange (validTriples nearFlatPoints) > ofZ 0) = true
      /\ calculateLinearTransform nearFlatPoints
         = {| slope := ofZ 2 / measuredRange (validTriples nearFlatPoints);
              intercept := - meanMeasured (validTriples nearFlatPoints)
                           * (ofZ 2 / measuredRange (validTriples nearFlatPoints)) |}).
Proof.
  split.
  - split; [vm_compute; reflexivity|]. split; [vm_compute; reflexivity|].
    destruct (calculateLinearTransform_range_fallback flatPoints)
      as (s & Hresult & _ & Hzero).
    + reflexivity.
    + vm_compute; lia.
    + vm_compute; reflexivity.
    + rewrite Hresult, Hzero by (vm_compute; reflexivity). reflexivity.
  - split; [vm_compute; reflexivity|]. split; [vm_compute; reflexivity|].
    destruct (calculateLinearTransform_range_fallback nearFlatPoints)
      as (s & Hresult & Hpos & _).
    + reflexivity.
    + vm_compute; lia.
    + vm_compute; reflexivity.
    + rewrite Hresult, Hpos by (vm_compute; reflexivity). reflexivity.
Defined.

(** ** [completeCalibration] with too few valid triples *)

Lemma calculateLinearTransform_insufficient (points : list CalibrationPoint) :
  (length (validTriples points) < 2)%nat ->
  calculateLinearTransform points = identityTransform.
Proof.
  intros H. unfold calculateLinearTransform.
  destruct (negb (length points =? 3)%nat); [reflexivity|].
  fold (validTriples points).
  replace (length (validTriples points) <? 2)%nat with true
    by (symmetry; apply Nat.ltb_lt; exact H).
  reflexivity.
Qed.

Lemma filter_none {A : Type} (f : A -> bool) (l : list A) :
  (forall a, In a l -> f a = false) -> filter f l = [].
Proof.
  induction l as [|a l IH]; intros H; simpl; [reflexivity|].
  rewrite (H a (or_introl eq_refl)). apply IH.
  intros b Hb. apply H. right. exact Hb.
Qed.

Lemma all_positions_collected (points : list CalibrationPoint) :
  map position points = [Left; Center; Right] ->
  forall pos, In pos (map position points).
Proof. intros -> pos. destruct pos; simpl; auto. Qed.

(** C2 (as amended).  When all three positions were collected with at
    least 5 samples each and fewer than 2 valid triples remain,
    [calculateLinearTransform] returns the identity transform and
    [completeCalibration], the storage accepting the write, persists it as
    a complete calibration and shows the alert 'Calibration Complete!'. *)
Theorem completeCalibration_persists_identity
    (calibrationData : CalibrationData) (now : Z) (storage : AsyncStorage) :
  failing storage = false ->
  (forall pos, In pos (map position (points calibrationData))) ->
  (forall p, In p (points calibrationData) -> (5 <= length (gazeValues p))%nat) ->
  (length (validTriples (points calibrationData)) < 2)%nat ->
  completeCalibration false calibrationData now storage
  = (Some (CalibrationComplete identityTransform),
     {| gazeCalibration :=
          Some {| points := points calibrationData;
                  timestamp := now;
                  isComplete := true;
                  linearTransform := Some identityTransform |};
        failing := false |}).
Proof.
  intros Hstorage Hall Hsamples Hvalid.
  unfold completeCalibration.
  rewrite filter_none.
  2:{ intros pos _. apply negb_false_iff, existsb_exists.
      exists pos. split; [apply Hall | apply Position_eqb_eq; reflexivity]. }
  cbn [length]. change (0 <? 0)%nat with false. cbv iota.
  rewrite filter_none.
  2:{ intros p Hp. apply Nat.ltb_ge, Hsamples, Hp. }
  cbn [length]. change (0 <? 0)%nat with false. cbv iota.
  rewrite (calculateLinearTransform_insufficient _ Hvalid).
  unfold setItem. rewrite Hstorage. reflexivity.
Qed.

Lemma completeCalibration_persists_identity_witness :
  (length (validTriples (points (stateWith nanPoints))) < 2)%nat
  /\ completeCalibration false (stateWith nanPoints) 1234 emptyStorage
     = (Some (CalibrationComplete identityTransform),
        {| gazeCalibration :=
             Some {| points := nanPoints;
                     timestamp := 1234;
                     isComplete := true;
                     linearTransform := Some identityTransform |};
           failing := false |}).
Proof.
  split; [vm_compute; lia|].
  apply (completeCalibration_persists_identity (stateWith nanPoints) 1234
           emptyStorage).
  - reflexivity.
  - apply all_positions_collected. reflexivity.
  - intros p Hp. simpl in Hp.
    destruct Hp as [<- | [<- | [<- | []]]]; simpl; lia.
  - vm_compute; lia.
Defined.

(** Five frames at each of the three positions, with NaN gaze values at
    two of them: one valid triple.  The run ends with the alert
    'Calibration Complete!' and with a complete record holding the identity
    transform in the storage, which was empty before. *)
Lemma completeCalibration_insufficient_data_is_persisted :
  Collected (stateWith nanPoints)
  /\ length (validTriples nanPoints) = 1%nat
  /\ gazeCalibration emptyStorage = None
  /\ fst (completeCalibration false (stateWith nanPoints) 1234 emptyStorage)
     = Some (CalibrationComplete identityTransform)
  /\ option_map linearTransform
       (gazeCalibration
          (snd (completeCalibration false (stateWith nanPoints) 1234 emptyStorage)))
     = Some (Some identityTransform)
  /\ option_map isComplete
       (gazeCalibration
          (snd (completeCalibration false (stateWith nanPoints) 1234 emptyStorage)))
     = Some true.
Proof.
  split; [exact nanRun_collected|].
  repeat apply conj; vm_compute; reflexivity.
Qed.

End CalibrationEngineProps.

(* ===================================================================== *)
(** * CalibrationApplier: [applyCalibratedGaze]                           *)
(* ===================================================================== *)

Module CalibrationApplierProps.

Import Number CalibrationScreen CalibrationService IEEEFacts.
Import RegressionVocabulary CalibrationSamples.
Local Open Scope number_scope.

(** [Math.max(-1, Math.min(1, v))] is the clamp of [v] to [[-1, 1]], NaN
    for NaN. *)
Lemma Math_max_min_is_clamp (v : number) :
  Math_max [ofZ (-1); Math_min [ofZ 1; v]] = clamp v (ofZ (-1)) (ofZ 1).
Proof.
  unfold Math_max, Math_min, clamp, ltb.
  change (ofZ 1) with (S754_finite false 4503599627370496 (-52)).
  change (ofZ (-1)) with (S754_finite true 4503599627370496 (-52)).
  cbn [fold_left].
  change (IEEE.min Infinity (S754_finite false 4503599627370496 (-52)))
    with (S754_finite false 4503599627370496 (-52)).
  change (IEEE.max (neg Infinity) (S754_finite true 4503599627370496 (-52)))
    with (S754_finite true 4503599627370496 (-52)).
  set (one := S754_finite false 4503599627370496 (-52)).
  set (mone := S754_finite true 4503599627370496 (-52)).
  destruct v as [s|s| |s m e]; try (destruct s; reflexivity); try reflexivity.
  unfold IEEE.min at 1. cbn [IEEE.isNaN IEEE.isZero andb one].
  unfold SFleb at 1, SFltb.
  destruct s.
  - change (SFcompare one (S754_finite true m e)) with (Some Gt).
    cbv iota.
    unfold IEEE.max. cbn [IEEE.isNaN IEEE.isZero andb mone]. unfold SFleb.
    destruct (SFcompare (S754_finite true m e) mone) as [[]|] eqn:C;
      try reflexivity.
    destruct (SFcompare_Eq_finite _ _ _ _ _ C) as [-> ->]. reflexivity.
  - change (SFcompare (S754_finite false m e) mone) with (Some Gt).
    cbv iota.
    destruct (SFcompare one (S754_finite false m e)) as [[]|] eqn:C;
      try reflexivity.
    destruct (SFcompare_Eq_finite _ _ _ _ _ C) as [<- <-]. reflexivity.
Qed.

(** C9.  [applyCalibratedGaze] returns the raw value unchanged when no
    complete transform is loaded (nothing loaded, no record, a record whose
    [isComplete] is not true or whose [linearTransform] is missing), and
    [clamp(slope * x + intercept, -1, 1)] when a complete transform is
    loaded. *)
Theorem applyCalibratedGaze_identity_or_clamp
    (this : CalibrationService) (rawGazeX : number) :
  (isLoaded this = false
   \/ calibrationData this = None
   \/ (exists data, calibrationData this = Some data
                    /\ (isComplete data = false \/ linearTransform data = None)) ->
   applyCalibratedGaze this rawGazeX = rawGazeX)
  /\ (forall data transform,
        isLoaded this = true ->
        calibrationData this = Some data ->
        isComplete data = true ->
        linearTransform data = Some transform ->
        applyCalibratedGaze this rawGazeX
        = clamp (slope transform * rawGazeX + intercept transform)
                (ofZ (-1)) (ofZ 1)).
Proof.
  split.
  - intros H. unfold applyCalibratedGaze, isCalibrated, loadedTransform.
    destruct H as [H | [H | (data & H & [Hc | Ht])]]; rewrite H.
    + reflexivity.
    + destruct (isLoaded this); reflexivity.
    + rewrite Hc. destruct (isLoaded this), (linearTransform data); reflexivity.
    + rewrite Ht. destruct (isLoaded this), (isComplete data); reflexivity.
  - intros data transform Hloaded Hdata Hcomplete Htransform.
    unfold applyCalibratedGaze, isCalibrated, loadedTransform.
    rewrite Hloaded, Hdata, Hcomplete, Htransform. cbn [Bool.eqb andb negb orb].
    apply Math_max_min_is_clamp.
Qed.

Lemma applyCalibratedGaze_identity_or_clamp_witness :
  applyCalibratedGaze instance (ofZ 3) = ofZ 3
  /\ applyCalibratedGaze calibratedService (ofZ 3)
     = clamp (ofZ 2 * ofZ 3 + ofZ 0) (ofZ (-1)) (ofZ 1)
  /\ applyCalibratedGaze calibratedService (ofZ 3) = ofZ 1.
Proof.
  split; [|split].
  - apply (proj1 (applyCalibratedGaze_identity_or_clamp instance (ofZ 3))).
    left. reflexivity.
  - apply (proj2 (applyCalibratedGaze_identity_or_clamp calibratedService (ofZ 3))
             completeData doubling); reflexivity.
  - reflexivity.
Defined.

End CalibrationApplierProps.

(* ===================================================================== *)
(** * The order on floats                                                 *)
(* ===================================================================== *)

Module IEEEOrder.

Import IEEE IEEEFacts.

Ltac order_cases :=
  repeat match goal with
  | H : context [Pos.compare_cont Eq ?a ?b] |- _ =>
      change (Pos.compare_cont Eq a b) with (Pos.compare a b) in H
  | |- context [Pos.compare_cont Eq ?a ?b] =>
      change (Pos.compare_cont Eq a b) with (Pos.compare a b)
  end;
  repeat match goal with
  | H : context [Z.compare ?a ?b] |- _ =>
      destruct (Z.compare_spec a b); try lia; subst
  | |- context [Z.compare ?a ?b] =>
      destruct (Z.compare_spec a b); try lia; subst
  | H : context [Pos.compare ?a ?b] |- _ =>
      destruct (Pos.compare_spec a b); try lia; subst
  | |- context [Pos.compare ?a ?b] =>
      destruct (Pos.compare_spec a b); try lia; subst
  end;
  simpl in *; try discriminate; try reflexivity; try lia.

Lemma SFltb_trans (a b c : spec_float) :
  SFltb a b = true -> SFltb b c = true -> SFltb a c = true.
Proof.
  unfold SFltb.
  destruct a as [sa|sa| |sa ma ea], b as [sb|sb| |sb mb eb],
           c as [sc|sc| |sc mc ec]; simpl;
    try discriminate; try reflexivity;
    try (destruct sa); try (destruct sb); try (destruct sc);
    simpl; try discriminate; try reflexivity; intros H1 H2; order_cases.
Qed.

Lemma SFleb_refl (a : spec_float) : isNaN a = false -> SFleb a a = true.
Proof.
  intros H. destruct (SFleb a a) eqn:E; auto.
  pose proof (SFleb_total _ _ H H E). congruence.
Qed.

Lemma SFleb_not_nan (a b : spec_float) :
  SFleb a b = true -> isNaN a = false /\ isNaN b = false.
Proof.
  destruct a as [sa|sa| |sa ma ea], b as [sb|sb| |sb mb eb]; simpl; auto;
  try (destruct sa; discriminate); discriminate.
Qed.

(** Floats that compare equal are the same, up to the sign of zero. *)
Lemma SFcompare_Eq (a b : spec_float) :
  SFcompare a b = Some Eq -> a = b \/ (isZero a = true /\ isZero b = true).
Proof.
  destruct a as [sa|sa| |sa ma ea], b as [sb|sb| |sb mb eb];
    try (destruct sa); try (destruct sb);
    try (simpl; discriminate);
    try (intros _; left; reflexivity);
    try (intros _; right; split; reflexivity).
  all: intros H; destruct (SFcompare_Eq_finite _ _ _ _ _ H) as [-> ->];
    left; reflexivity.
Qed.

Lemma min_comm (a b : spec_float) : min a b = min b a.
Proof.
  unfold min.
  destruct (isNaN a) eqn:Na, (isNaN b) eqn:Nb.
  - destruct a, b; try discriminate; reflexivity.
  - destruct a; try discriminate. destruct b; try discriminate; reflexivity.
  - destruct b; try discriminate. destruct a; try discriminate; reflexivity.
  - unfold SFleb.
    destruct (SFcompare a b) as [c|] eqn:E;
      [|destruct (SFcompare_None _ _ E); congruence].
    rewrite (SFcompare_antisym _ _ _ E).
    destruct c; cbn [CompOpp].
    + destruct (SFcompare_Eq _ _ E) as [-> | [Za Zb]];
        [destruct (_ && _); reflexivity|].
      destruct a as [[]| | |], b as [[]| | |]; try discriminate; reflexivity.
    + destruct a as [[]| | |], b as [[]| | |]; try discriminate; reflexivity.
    + destruct a as [[]| | |], b as [[]| | |]; try discriminate; reflexivity.
Qed.

Lemma max_comm (a b : spec_float) : max a b = max b a.
Proof.
  unfold max.
  destruct (isNaN a) eqn:Na, (isNaN b) eqn:Nb.
  - destruct a, b; try discriminate; reflexivity.
  - destruct a; try discriminate. destruct b; try discriminate; reflexivity.
  - destruct b; try discriminate. destruct a; try discriminate; reflexivity.
  - unfold SFleb.
    destruct (SFcompare a b) as [c|] eqn:E;
      [|destruct (SFcompare_None _ _ E); congruence].
    rewrite (SFcompare_antisym _ _ _ E).
    destruct c; cbn [CompOpp].
    + destruct (SFcompare_Eq _ _ E) as [-> | [Za Zb]];
        [destruct (_ && _); reflexivity|].
      destruct a as [[]| | |], b as [[]| | |]; try discriminate; reflexivity.
    + destruct a as [[]| | |], b as [[]| | |]; try discriminate; reflexivity.
    + destruct a as [[]| | |], b as [[]| | |]; try discriminate; reflexivity.
Qed.

Lemma min_le_max (a b : spec_float) :
  isNaN a = false -> isNaN b = false -> SFleb (min a b) (max a b) = true.
Proof.
  intros Na Nb. unfold min, max. rewrite Na.
  destruct (isZero a && isZero b && isNegativeZero b) eqn:Z1;
  destruct (isZero a && isZero b && isNegativeZero a) eqn:Z2;
    try (destruct a as [[]| | |], b as [[]| | |]; try discriminate; reflexivity).
  destruct (SFleb a b) eqn:E1, (SFleb b a) eqn:E2;
    auto using SFleb_refl.
Qed.

(** [max(lo, min(hi, v))] lies between the bounds, whatever their signs. *)
Lemma clamp_between (lo hi v : spec_float) :
  SFleb lo hi = true -> isNaN v = false ->
  SFleb lo (max lo (min hi v)) = true /\ SFleb (max lo (min hi v)) hi = true.
Proof.
  intros Hle Hv.
  destruct (SFleb_not_nan _ _ Hle) as [Hlo Hhi].
  pose proof (SFleb_refl _ Hlo) as Rlo.
  pose proof (SFleb_refl _ Hhi) as Rhi.
  assert (Hw : exists w, min hi v = w /\ isNaN w = false /\ SFleb w hi = true).
  { unfold min. rewrite Hhi.
    destruct (isZero hi && isZero v && isNegativeZero v) eqn:Z.
    - exists v. repeat split; auto.
      destruct hi, v; simpl in Z; try discriminate; try reflexivity;
        rewrite ?andb_false_r in Z; discriminate.
    - destruct (SFleb hi v) eqn:E.
      + exists hi. auto.
      + exists v. repeat split; auto. apply SFleb_total; auto. }
  destruct Hw as [w [-> [Hwn Hwh]]].
  unfold max. rewrite Hlo.
  destruct (isZero lo && isZero w && isNegativeZero lo) eqn:Z.
  - split; auto.
    destruct lo, w; simpl in Z; try discriminate; try reflexivity;
      rewrite ?andb_false_r in Z; discriminate.
  - destruct (SFleb w lo) eqn:E; split; auto.
    apply SFleb_total; auto.
Qed.

(** Rounding a value that is not negative gives a value that is not below
    its opposite. *)
Lemma binary_round_aux_symmetric (prec emax m e : Z) (l : location) :
  0 <= m ->
  SFleb (SFopp (binary_round_aux prec emax false m e l))
        (binary_round_aux prec emax false m e l) = true.
Proof.
  intros H. unfold binary_round_aux.
  pose proof (shr_fexp_nonneg prec emax m e l H) as H1.
  destruct (shr_fexp prec emax m e l) as [mrs' e'] eqn:E1. simpl in H1.
  pose proof (shr_fexp_nonneg prec emax _ e' loc_Exact
                (round_nearest_even_nonneg _ (loc_of_shr_record mrs') H1)) as H2.
  destruct (shr_fexp prec emax _ e' loc_Exact) as [mrs'' e''] eqn:E2.
  simpl in H2.
  destruct (shr_m mrs'') as [|p|p]; try reflexivity; try lia.
  destruct (e'' <=? emax - prec); reflexivity.
Qed.

(** [x - x] is a zero. *)
Lemma SFsub_diag (prec emax : Z) (x : spec_float) :
  isFinite x = true -> isZero (SFsub prec emax x x) = true.
Proof.
  destruct x as [s|s| |s m e]; try discriminate; intros _.
  - destruct s; reflexivity.
  - cbn [SFsub]. rewrite Z.sub_diag. reflexivity.
Qed.

End IEEEOrder.

(* ===================================================================== *)
(** * Rounding: the result of [binary_round_aux]                          *)
(* ===================================================================== *)

Module RoundingCases.


Import IEEE IEEEFacts.

(** ** The number of binary digits *)

Lemma digits2_pos_bounds (p : positive) :
  2 ^ (Zpos (digits2_pos p) - 1) <= Zpos p < 2 ^ Zpos (digits2_pos p).
Proof.
  induction p as [p IH|p IH|]; cbn [digits2_pos].
  - rewrite Pos2Z.inj_succ.
    replace (Z.succ (Zpos (digits2_pos p)) - 1)
      with (Z.succ (Zpos (digits2_pos p) - 1)) by lia.
    rewrite !Z.pow_succ_r by lia. lia.
  - rewrite Pos2Z.inj_succ.
    replace (Z.succ (Zpos (digits2_pos p)) - 1)
      with (Z.succ (Zpos (digits2_pos p) - 1)) by lia.
    rewrite !Z.pow_succ_r by lia. lia.
  - cbn. lia.
Qed.

Lemma Zdigits2_bounds (m : Z) :
  0 < m -> 2 ^ (Zdigits2 m - 1) <= m < 2 ^ Zdigits2 m.
Proof.
  destruct m as [|p|p]; try lia. intros _. apply digits2_pos_bounds.
Qed.

Lemma Zdigits2_pos (m : Z) : 0 < m -> 0 < Zdigits2 m.
Proof. destruct m; cbn; lia. Qed.

Lemma Zdigits2_le (m k : Z) : 0 < m -> 0 <= k -> m < 2 ^ k -> Zdigits2 m <= k.
Proof.
  intros Hm Hk H. pose proof (Zdigits2_bounds m Hm) as [Hlo _].
  pose proof (Zdigits2_pos m Hm).
  destruct (Z_le_gt_dec (Zdigits2 m) k) as [|Hgt]; [assumption|].
  assert (2 ^ k <= 2 ^ (Zdigits2 m - 1)) by (apply Z.pow_le_mono_r; lia).
  lia.
Qed.

Lemma Zdigits2_ge (m k : Z) : 0 <= k -> 2 ^ k <= m -> k + 1 <= Zdigits2 m.
Proof.
  intros Hk H.
  assert (Hm : 0 < m) by (pose proof (Z.pow_pos_nonneg 2 k); lia).
  pose proof (Zdigits2_bounds m Hm) as [_ Hhi].
  pose proof (Zdigits2_pos m Hm).
  destruct (Z_le_gt_dec (k + 1) (Zdigits2 m)) as [|Hgt]; [assumption|].
  assert (2 ^ Zdigits2 m <= 2 ^ k) by (apply Z.pow_le_mono_r; lia).
  lia.
Qed.

(** ** Shifting to the right *)

Lemma shr_1_m (mrs : shr_record) :
  0 <= shr_m mrs -> shr_m (shr_1 mrs) = shr_m mrs / 2.
Proof.
  destruct mrs as [m r s]. cbn [shr_m shr_1].
  destruct m as [|p|p]; try lia; intros _.
  - reflexivity.
  - destruct p as [p|p|]; cbn [shr_m].
    + rewrite Pos2Z.inj_xI. apply Z.div_unique with (r := 1); lia.
    + rewrite Pos2Z.inj_xO. apply Z.div_unique with (r := 0); lia.
    + reflexivity.
Qed.

Lemma iter_shr_1_m (p : positive) :
  forall mrs, 0 <= shr_m mrs ->
              shr_m (iter_pos shr_1 p mrs) = shr_m mrs / 2 ^ Zpos p.
Proof.
  induction p as [p IH|p IH|]; intros mrs H; cbn [iter_pos].
  - pose proof (shr_1_nonneg mrs H) as H1.
    pose proof (iter_shr_1_nonneg p _ H1) as H2.
    rewrite IH, IH, shr_1_m by assumption.
    rewrite !Z.div_div by (try apply Z.pow_pos_nonneg; lia).
    f_equal. rewrite Pos2Z.inj_xI.
    replace (2 * Zpos p + 1) with (1 + Zpos p + Zpos p) by lia.
    rewrite !Z.pow_add_r by lia. change (2 ^ 1) with 2. ring.
  - pose proof (iter_shr_1_nonneg p _ H) as H2.
    rewrite IH, IH by assumption.
    rewrite !Z.div_div by (try apply Z.pow_pos_nonneg; lia).
    f_equal. rewrite <- Z.pow_add_r by lia. f_equal. lia.
  - rewrite shr_1_m by assumption. reflexivity.
Qed.

Section Format.

Variables prec emax : Z.
Hypothesis Hprec : 0 < prec.
Hypothesis Hemax : prec < emax.

Lemma fexp_ge_emin (e : Z) : emin prec emax <= fexp prec emax e.
Proof. unfold fexp. lia. Qed.

Lemma fexp_mono (a b : Z) : a <= b -> fexp prec emax a <= fexp prec emax b.
Proof. unfold fexp. lia. Qed.

(** What [shr_fexp] gives for a mantissa that is not negative: the
    mantissa divided by [2 ^ n] and the exponent raised by [n], where [n]
    is the distance to the exponent of the format, when that is
    positive. *)
Lemma shr_fexp_shift (m e : Z) (l : location) :
  0 <= m -> 0 < fexp prec emax (Zdigits2 m + e) - e ->
  let n := fexp prec emax (Zdigits2 m + e) - e in
  shr_m (fst (shr_fexp prec emax m e l)) = m / 2 ^ n
  /\ snd (shr_fexp prec emax m e l) = e + n.
Proof.
  intros Hm Hn n. unfold shr_fexp, shr. fold n.
  destruct n as [|p|p] eqn:E; try lia. cbn [fst snd].
  split; [|reflexivity].
  rewrite iter_shr_1_m; destruct l as [|[]]; cbn [shr_record_of_loc shr_m];
    try reflexivity; exact Hm.
Qed.

Lemma shr_fexp_keep (m e : Z) (l : location) :
  fexp prec emax (Zdigits2 m + e) - e <= 0 ->
  shr_fexp prec emax m e l = (shr_record_of_loc m l, e).
Proof.
  intros Hn. unfold shr_fexp, shr.
  destruct (fexp prec emax (Zdigits2 m + e) - e); try lia; reflexivity.
Qed.

Lemma loc_of_shr_record_of_loc (m : Z) (l : location) :
  loc_of_shr_record (shr_record_of_loc m l) = l.
Proof. destruct l as [|[]]; reflexivity. Qed.

Lemma shr_m_of_loc (m : Z) (l : location) : shr_m (shr_record_of_loc m l) = m.
Proof. destruct l as [|[]]; reflexivity. Qed.

Lemma round_nearest_even_cases (m : Z) (l : location) :
  round_nearest_even m l = m \/ round_nearest_even m l = m + 1.
Proof.
  destruct l as [|[]]; cbn; auto. destruct (Z.even m); auto.
Qed.

Abbreviation encode := (FloatValue.encode prec emax).

Lemma second_shift (s : bool) (m2 E : Z) :
  0 <= m2 <= 2 ^ prec -> emin prec emax <= E ->
  (let '(mrs'', e'') := shr_fexp prec emax m2 E loc_Exact in
   match shr_m mrs'' with
   | 0 => S754_zero s
   | Zpos m => if e'' <=? emax - prec then S754_finite s m e''
               else S754_infinity s
   | Zneg _ => S754_nan
   end)
  = encode s m2 E.
Proof.
  intros Hm2 HE. unfold FloatValue.encode.
  assert (Hpow : 0 < 2 ^ prec) by (apply Z.pow_pos_nonneg; lia).
  destruct (Z.eqb_spec m2 0) as [-> | Hnz].
  - rewrite shr_fexp_keep.
    + reflexivity.
    + cbn [Zdigits2]. unfold fexp. unfold emin in *. lia.
  - destruct (Z.eqb_spec m2 (2 ^ prec)) as [-> | Hne].
    + assert (Hd : Zdigits2 (2 ^ prec) = prec + 1).
      { apply Z.le_antisymm.
        - apply Zdigits2_le; try lia.
          rewrite Z.pow_add_r by lia. change (2 ^ 1) with 2. lia.
        - apply Zdigits2_ge; lia. }
      pose proof (shr_fexp_shift (2 ^ prec) E loc_Exact) as Hs.
      rewrite Hd in Hs.
      assert (Hf : fexp prec emax (prec + 1 + E) = E + 1)
        by (unfold fexp; unfold emin in *; lia).
      rewrite Hf in Hs. replace (E + 1 - E) with 1 in Hs by lia.
      destruct Hs as [Hm He]; try lia.
      destruct (shr_fexp prec emax (2 ^ prec) E loc_Exact) as [mrs'' e''].
      cbn [fst snd] in Hm, He. rewrite Hm, He.
      change (2 ^ 1) with 2.
      replace (2 ^ prec / 2) with (2 ^ (prec - 1)).
      2:{ replace prec with (prec - 1 + 1) at 2 by lia.
          rewrite Z.pow_add_r by lia. change (2 ^ 1) with 2.
          rewrite Z.div_mul by lia. reflexivity. }
      assert (Hp1 : 0 < 2 ^ (prec - 1)) by (apply Z.pow_pos_nonneg; lia).
      destruct (2 ^ (prec - 1)) as [|p|p] eqn:Ep; try lia.
      reflexivity.
    + assert (Hd : Zdigits2 m2 <= prec) by (apply Zdigits2_le; lia).
      rewrite shr_fexp_keep.
      * cbn [shr_record_of_loc shr_m].
        destruct m2 as [|p|p]; try lia. reflexivity.
      * unfold fexp. unfold emin in *. lia.
Qed.

(** [binary_round_aux], by cases: the mantissa is divided by [2 ^ n],
    where [n] is the distance of the exponent to the exponent of the
    format, rounded down, and the result is this quotient or the next
    integer, at the exponent of the format. *)
Lemma binary_round_aux_cases (s : bool) (m e : Z) (l : location) :
  0 <= m ->
  let E := fexp prec emax (Zdigits2 m + e) in
  e <= E ->
  let M := m / 2 ^ (E - e) in
  M < 2 ^ prec
  /\ (E = emin prec emax \/ 2 ^ (prec - 1) <= M)
  /\ exists m2,
       (m2 = M \/ m2 = M + 1)
       /\ (l = loc_Exact -> E = e -> m2 = M)
       /\ binary_round_aux prec emax s m e l = encode s m2 E.
Proof.
  intros Hm E HE M.
  assert (Hpow : 0 < 2 ^ prec) by (apply Z.pow_pos_nonneg; lia).
  assert (Hpn : 0 < 2 ^ (E - e)) by (apply Z.pow_pos_nonneg; lia).
  assert (HM0 : 0 <= M) by (apply Z.div_pos; lia).
  assert (HMle : M * 2 ^ (E - e) <= m).
  { unfold M. rewrite Z.mul_comm. apply Z.mul_div_le. lia. }
  assert (HMlt : m < (M + 1) * 2 ^ (E - e)).
  { unfold M. rewrite Z.mul_comm.
    pose proof (Z.mul_succ_div_gt m (2 ^ (E - e)) Hpn). lia. }
  assert (Hemin : emin prec emax <= E) by apply fexp_ge_emin.
  (* the mantissa after the first shift *)
  assert (HMprec : M < 2 ^ prec).
  { destruct (Z.eq_dec m 0) as [-> | Hnz].
    - unfold M. rewrite Z.div_0_l by lia. lia.
    - pose proof (Zdigits2_bounds m ltac:(lia)) as [_ Hhi].
      pose proof (Zdigits2_pos m ltac:(lia)) as Hd.
      assert (Hn : Zdigits2 m - prec <= E - e) by (unfold E, fexp; lia).
      destruct (Z_le_gt_dec (Zdigits2 m) prec) as [Hsmall | Hbig].
      + assert (2 ^ Zdigits2 m <= 2 ^ prec) by (apply Z.pow_le_mono_r; lia).
        assert (M <= m) by (apply Z.div_le_upper_bound; nia).
        lia.
      + apply Z.div_lt_upper_bound; [lia|].
        assert (2 ^ Zdigits2 m <= 2 ^ (E - e) * 2 ^ prec).
        { rewrite <- Z.pow_add_r by lia. apply Z.pow_le_mono_r; lia. }
        lia. }
  assert (Hnorm : E = emin prec emax \/ 2 ^ (prec - 1) <= M).
  { destruct (Z.eq_dec E (emin prec emax)) as [|Hne]; [left; assumption|].
    right.
    assert (HEd : E = Zdigits2 m + e - prec) by (unfold E, fexp in *; lia).
    assert (Hmpos : 0 < m).
    { destruct (Z.eq_dec m 0) as [-> | ]; [|lia].
      cbn [Zdigits2] in HEd. lia. }
    pose proof (Zdigits2_bounds m Hmpos) as [Hlo _].
    apply Z.div_le_lower_bound; [lia|].
    replace (Zdigits2 m - 1) with (E - e + (prec - 1)) in Hlo by lia.
    rewrite Z.pow_add_r in Hlo by lia. lia. }
  split; [exact HMprec|]. split; [exact Hnorm|].
  unfold binary_round_aux.
  destruct (Z_le_gt_dec (E - e) 0) as [Hkeep | Hshift].
  - (* no shift *)
    assert (HEe : E = e) by lia.
    rewrite shr_fexp_keep by (fold E; lia).
    rewrite shr_m_of_loc, loc_of_shr_record_of_loc.
    assert (HMm : M = m).
    { unfold M. rewrite HEe, Z.sub_diag. change (2 ^ 0) with 1.
      apply Z.div_1_r. }
    exists (round_nearest_even m l).
    split; [rewrite HMm; apply round_nearest_even_cases|].
    split; [intros -> _; rewrite HMm; reflexivity|].
    rewrite <- HEe.
    apply second_shift; [|exact Hemin].
    destruct (round_nearest_even_cases m l) as [-> | ->]; lia.
  - (* a shift by [E - e] *)
    pose proof (shr_fexp_shift m e l Hm) as Hs. fold E in Hs.
    specialize (Hs ltac:(lia)). cbv zeta in Hs. destruct Hs as [Hsm Hse].
    destruct (shr_fexp prec emax m e l) as [mrs' e'].
    cbn [fst snd] in Hsm, Hse. rewrite Hsm, Hse. fold M.
    replace (e + (E - e)) with E by lia.
    exists (round_nearest_even M (loc_of_shr_record mrs')).
    split; [apply round_nearest_even_cases|].
    split; [intros _ HEe; lia|].
    apply second_shift; [|exact Hemin].
    destruct (round_nearest_even_cases M (loc_of_shr_record mrs')) as [-> | ->];
      lia.
Qed.

End Format.

End RoundingCases.

(* ===================================================================== *)
(** * Rounding: the value of a rounded result                             *)
(* ===================================================================== *)

Module FloatValueFacts.


Import IEEE IEEEFacts FloatValue RoundingCases.

(** ** Powers of two *)

Lemma pow2_pos (e : Z) : (0 < pow2 e)%Q.
Proof. apply Qpower_0_lt. reflexivity. Qed.

Lemma pow2_add (a b : Z) : (pow2 (a + b) == pow2 a * pow2 b)%Q.
Proof. apply Qpower_plus. discriminate. Qed.

Lemma pow2_le (a b : Z) : a <= b -> (pow2 a <= pow2 b)%Q.
Proof. intros H. apply Qpower_le_compat_l; [exact H|]. discriminate. Qed.

Lemma pow2_lt (a b : Z) : a < b -> (pow2 a < pow2 b)%Q.
Proof. intros H. apply Qpower_lt_compat_l; [exact H|]. reflexivity. Qed.

Lemma pow2_Z (k : Z) : 0 <= k -> (pow2 k == inject_Z (2 ^ k))%Q.
Proof. intros H. unfold pow2. rewrite Zpower_Qpower by exact H. reflexivity. Qed.

Lemma pow2_succ (a : Z) : (pow2 (a + 1) == 2 * pow2 a)%Q.
Proof. rewrite pow2_add. change (pow2 1) with (2 # 1). ring. Qed.

(** An integer inequality, scaled. *)
Lemma scaled_le (a b : Z) (e : Z) :
  a <= b -> (inject_Z a * pow2 e <= inject_Z b * pow2 e)%Q.
Proof.
  intros H. apply Qmult_le_r; [apply pow2_pos|].
  rewrite <- Zle_Qle. exact H.
Qed.

Lemma scaled_lt (a b : Z) (e : Z) :
  a < b -> (inject_Z a * pow2 e < inject_Z b * pow2 e)%Q.
Proof.
  intros H. apply Qmult_lt_r; [apply pow2_pos|].
  rewrite <- Zlt_Qlt. exact H.
Qed.

(** [a * 2^n * 2^e = a * 2^(e + n)] *)
Lemma scaled_shift (a n e : Z) :
  0 <= n ->
  (inject_Z (a * 2 ^ n) * pow2 e == inject_Z a * pow2 (e + n))%Q.
Proof.
  intros H. rewrite inject_Z_mult, pow2_add, <- (pow2_Z n H). ring.
Qed.

(** ** The value of a float *)

Lemma magnitude_nonneg (x : spec_float) : (0 <= magnitude x)%Q.
Proof.
  destruct x as [| | |s m e]; cbn; try lra.
  apply Qmult_le_0_compat; [|apply Qlt_le_weak, pow2_pos].
  change 0%Q with (inject_Z 0). rewrite <- Zle_Qle. lia.
Qed.

Lemma magnitude_pos (s : bool) (m : positive) (e : Z) :
  (0 < magnitude (S754_finite s m e))%Q.
Proof.
  cbn. apply Qmult_lt_0_compat; [|apply pow2_pos].
  change 0%Q with (inject_Z 0). rewrite <- Zlt_Qlt. lia.
Qed.

Lemma Qabs_value (x : spec_float) : (Qabs (value x) == magnitude x)%Q.
Proof.
  destruct x as [| | |s m e]; try reflexivity.
  pose proof (magnitude_pos s m e) as H. cbn in H.
  destruct s; cbn [value magnitude].
  - rewrite Qabs_opp. apply Qabs_pos. lra.
  - apply Qabs_pos. lra.
Qed.

Section Format.

Variables prec emax : Z.
Hypothesis Hprec : 0 < prec.
Hypothesis Hemax : prec < emax.

Abbreviation representable := (FloatValue.representable prec emax).
Abbreviation roundingError := (FloatValue.roundingError prec emax).

Lemma roundingError_pos (v : Q) : (0 < roundingError v)%Q.
Proof.
  unfold FloatValue.roundingError.
  pose proof (pow2_pos (1 - prec)). pose proof (pow2_pos (emin prec emax)).
  pose proof (Qabs_nonneg v).
  assert (0 <= pow2 (1 - prec) * Qabs v)%Q
    by (apply Qmult_le_0_compat; lra).
  lra.
Qed.

Lemma representable_zero (s : bool) : representable (S754_zero s).
Proof. split; reflexivity. Qed.

Lemma representable_canonical (s : bool) (m : positive) (e : Z) :
  representable (S754_finite s m e) ->
  fexp prec emax (Zpos (digits2_pos m) + e) = e /\ e <= emax - prec.
Proof.
  intros [_ H]. cbn in H. unfold bounded, canonical_mantissa in H.
  apply andb_true_iff in H. destruct H as [H1 H2].
  apply Z.eqb_eq in H1. apply Z.leb_le in H2. auto.
Qed.

Lemma representable_opp (x : spec_float) :
  representable x -> representable (SFopp x).
Proof. destruct x; intros [H1 H2]; split; auto. Qed.

Lemma value_opp (x : spec_float) : (value (SFopp x) == - value x)%Q.
Proof. destruct x as [| | |[] m e]; cbn; lra. Qed.

(** ** The result of [encode] *)

Lemma encode_value (s : bool) (m2 E : Z) :
  0 <= m2 <= 2 ^ prec ->
  (E = emin prec emax \/ 2 ^ (prec - 1) <= m2) ->
  emin prec emax <= E ->
  (inject_Z m2 * pow2 E < pow2 emax)%Q ->
  representable (encode prec emax s m2 E)
  /\ (magnitude (encode prec emax s m2 E) == inject_Z m2 * pow2 E)%Q
  /\ (value (encode prec emax s m2 E)
      == if s then - (inject_Z m2 * pow2 E) else inject_Z m2 * pow2 E)%Q.
Proof.
  intros Hm2 Hnorm Hemin Hmax. unfold FloatValue.encode.
  assert (Hpow : 0 < 2 ^ prec) by (apply Z.pow_pos_nonneg; lia).
  assert (Hpow1 : 0 < 2 ^ (prec - 1)) by (apply Z.pow_pos_nonneg; lia).
  assert (Hpp : 2 ^ prec = 2 * 2 ^ (prec - 1)).
  { replace prec with (prec - 1 + 1) at 1 by lia.
    rewrite Z.pow_add_r by lia. change (2 ^ 1) with 2. lia. }
  assert (Hlow : emin prec emax <= emax - prec) by (unfold emin; lia).
  destruct (Z.eqb_spec m2 0) as [-> | Hnz].
  - split; [apply representable_zero|].
    split; [cbn; ring | destruct s; cbn; ring].
  - (* the exponent is within the range *)
    assert (HE : E < emax - prec \/ (E <= emax - prec /\ m2 < 2 ^ prec)).
    { destruct (Z_lt_le_dec E (emax - prec)) as [|Hge]; [left; assumption|].
      destruct (Z.eq_dec E (emax - prec)) as [HEeq | HEne].
      - right. split; [lia|].
        destruct (Z.eq_dec m2 (2 ^ prec)) as [-> | Hne]; [|lia].
        exfalso. rewrite <- pow2_Z, <- pow2_add in Hmax by lia.
        replace (prec + E) with emax in Hmax by lia. lra.
      - destruct Hnorm as [-> | Hn]; [lia|].
        exfalso.
        assert (pow2 emax <= inject_Z m2 * pow2 E)%Q; [|lra].
        apply Qle_trans with (inject_Z (2 ^ (prec - 1)) * pow2 E)%Q;
          [|apply scaled_le; exact Hn].
        rewrite <- pow2_Z, <- pow2_add by lia. apply pow2_le. lia. }
    assert (HE' : m2 = 2 ^ prec -> E + 1 <= emax - prec).
    { intros ->. destruct HE as [|[_ ?]]; lia. }
    destruct (Z.eqb_spec m2 (2 ^ prec)) as [-> | Hne].
    + replace (E + 1 <=? emax - prec) with true
        by (symmetry; apply Z.leb_le; auto).
      assert (Hval : (inject_Z (Zpos (Z.to_pos (2 ^ (prec - 1)))) * pow2 (E + 1)
                      == inject_Z (2 ^ prec) * pow2 E)%Q).
      { rewrite Z2Pos.id by lia. rewrite Hpp, inject_Z_mult, pow2_succ.
        change (inject_Z 2) with 2%Q. ring. }
      split; [|split; [exact Hval | destruct s; cbn [value]; rewrite Hval;
                                    reflexivity]].
      split; [reflexivity|]. cbn. unfold bounded, canonical_mantissa.
      apply andb_true_iff. split; [|apply Z.leb_le; auto].
      apply Z.eqb_eq.
      assert (Hd : Zdigits2 (2 ^ (prec - 1)) = prec).
      { apply Z.le_antisymm.
        - apply Zdigits2_le; lia.
        - replace prec with (prec - 1 + 1) at 1 by lia.
          apply Zdigits2_ge; lia. }
      replace (Zpos (digits2_pos (Z.to_pos (2 ^ (prec - 1)))))
        with (Zdigits2 (2 ^ (prec - 1))).
      2:{ destruct (2 ^ (prec - 1)) as [|p|p]; try lia. reflexivity. }
      rewrite Hd. unfold fexp. lia.
    + assert (HEle : E <= emax - prec) by (destruct HE as [|[? _]]; lia).
      replace (E <=? emax - prec) with true by (symmetry; apply Z.leb_le; auto).
      assert (Hval : (inject_Z (Zpos (Z.to_pos m2)) * pow2 E
                      == inject_Z m2 * pow2 E)%Q)
        by (rewrite Z2Pos.id by lia; reflexivity).
      split; [|split; [exact Hval | destruct s; cbn [value]; rewrite Hval;
                                    reflexivity]].
      split; [reflexivity|]. cbn. unfold bounded, canonical_mantissa.
      apply andb_true_iff. split; [|apply Z.leb_le; auto].
      apply Z.eqb_eq.
      replace (Zpos (digits2_pos (Z.to_pos m2))) with (Zdigits2 m2).
      2:{ destruct m2 as [|p|p]; try lia. reflexivity. }
      assert (Hd : Zdigits2 m2 <= prec) by (apply Zdigits2_le; lia).
      destruct Hnorm as [-> | Hn].
      * unfold fexp. lia.
      * assert (prec - 1 + 1 <= Zdigits2 m2) by (apply Zdigits2_ge; lia).
        unfold fexp. lia.
Qed.

(** ** One rounding *)

(** [binary_round_aux] on a mantissa [m >= 0] at an exponent [e] that is
    not above the exponent of the format, when the exact result lies
    between [m 2^e] and [(m + 1) 2^e] and below [2^(emax - 1)]: the
    result is a float of the format within [2^E] of the exact result,
    where [E] is the exponent of the format. *)
Lemma binary_round_aux_value (s : bool) (m e : Z) (l : location) :
  0 <= m ->
  let E := fexp prec emax (Zdigits2 m + e) in
  e <= E ->
  (inject_Z (m + 1) * pow2 e <= pow2 (emax - 1))%Q ->
  let r := binary_round_aux prec emax s m e l in
  representable r
  /\ (value r == if s then - magnitude r else magnitude r)%Q
  /\ (inject_Z (m + 1) * pow2 e - pow2 E <= magnitude r)%Q
  /\ (magnitude r <= inject_Z m * pow2 e + pow2 E)%Q
  /\ (pow2 E <= roundingError (inject_Z m * pow2 e))%Q
  /\ (l = loc_Exact -> E = e -> magnitude r == inject_Z m * pow2 e)%Q.
Proof.
  intros Hm E HE Hmax r.
  destruct (binary_round_aux_cases prec emax Hprec s m e l Hm HE)
    as (HMprec & Hnorm & m2 & Hm2 & Hexact & Hr).
  fold E in HMprec, Hnorm, Hm2, Hexact, Hr.
  set (M := m / 2 ^ (E - e)) in *.
  assert (Hpn : 0 < 2 ^ (E - e)) by (apply Z.pow_pos_nonneg; lia).
  assert (HM0 : 0 <= M) by (apply Z.div_pos; lia).
  assert (HMle : M * 2 ^ (E - e) <= m).
  { unfold M. rewrite Z.mul_comm. apply Z.mul_div_le. lia. }
  assert (HMlt : m + 1 <= (M + 1) * 2 ^ (E - e)).
  { unfold M. rewrite Z.mul_comm.
    pose proof (Z.mul_succ_div_gt m (2 ^ (E - e)) Hpn). lia. }
  assert (Hemin : emin prec emax <= E) by apply fexp_ge_emin.
  assert (Hpow : 0 < 2 ^ prec) by (apply Z.pow_pos_nonneg; lia).
  assert (Hpow1 : 0 < 2 ^ (prec - 1)) by (apply Z.pow_pos_nonneg; lia).
  assert (Hpp : 2 ^ prec = 2 * 2 ^ (prec - 1)).
  { replace prec with (prec - 1 + 1) at 1 by lia.
    rewrite Z.pow_add_r by lia. change (2 ^ 1) with 2. lia. }
  (* the quotient and its successor, as values *)
  assert (QM : (inject_Z M * pow2 E <= inject_Z m * pow2 e)%Q).
  { replace E with (e + (E - e)) by lia.
    rewrite <- scaled_shift by lia. apply scaled_le. exact HMle. }
  assert (QM1 : (inject_Z (m + 1) * pow2 e <= inject_Z (M + 1) * pow2 E)%Q).
  { replace E with (e + (E - e)) at 1 by lia.
    rewrite <- scaled_shift by lia. apply scaled_le. exact HMlt. }
  assert (QS : (inject_Z (M + 1) * pow2 E == inject_Z M * pow2 E + pow2 E)%Q).
  { rewrite inject_Z_plus. change (inject_Z 1) with 1%Q. ring. }
  pose proof (pow2_pos E) as HpE.
  pose proof (pow2_pos e) as Hpe.
  assert (Qm : (inject_Z m * pow2 e < inject_Z (m + 1) * pow2 e)%Q)
    by (apply scaled_lt; lia).
  (* no overflow *)
  assert (Hfit : (inject_Z m2 * pow2 E < pow2 emax)%Q).
  { assert (Hhalf : (pow2 emax == 2 * pow2 (emax - 1))%Q).
    { replace emax with (emax - 1 + 1) at 1 by lia. apply pow2_succ. }
    pose proof (pow2_pos (emax - 1)) as Hpmax.
    destruct Hm2 as [-> | ->]; [lra|].
    destruct (Z.eq_dec M 0) as [HM | HM].
    - rewrite HM. cbn [Z.add]. rewrite Hhalf.
      assert (pow2 E <= pow2 (emax - 1))%Q; [|change (inject_Z 1) with 1%Q; lra].
      destruct Hnorm as [-> | Hn]; [apply pow2_le; unfold emin; lia | lia].
    - assert (inject_Z (M + 1) * pow2 E <= 2 * (inject_Z M * pow2 E))%Q.
      { rewrite QS.
        assert (pow2 E <= inject_Z M * pow2 E)%Q; [|lra].
        rewrite <- (Qmult_1_l (pow2 E)) at 1.
        apply Qmult_le_r; [exact HpE|].
        change 1%Q with (inject_Z 1). rewrite <- Zle_Qle. lia. }
      lra. }
  assert (Hnorm2 : E = emin prec emax \/ 2 ^ (prec - 1) <= m2)
    by (destruct Hnorm as [|Hn]; [left; assumption|];
        right; destruct Hm2 as [-> | ->]; lia).
  assert (Hm2r : 0 <= m2 <= 2 ^ prec) by (destruct Hm2 as [-> | ->]; lia).
  destruct (encode_value s m2 E Hm2r Hnorm2 Hemin Hfit) as (Hrep & Hmag & Hval).
  unfold r. rewrite Hr.
  split; [exact Hrep|].
  split; [rewrite Hval; destruct s; rewrite Hmag; reflexivity|].
  rewrite Hmag.
  split; [destruct Hm2 as [-> | ->]; lra|].
  split; [destruct Hm2 as [-> | ->]; lra|].
  split.
  - (* the gap *)
    unfold FloatValue.roundingError.
    pose proof (pow2_pos (emin prec emax)) as Hpemin.
    assert (Hnn : (0 <= inject_Z m * pow2 e)%Q).
    { apply Qmult_le_0_compat; [|lra].
      change 0%Q with (inject_Z 0). rewrite <- Zle_Qle. exact Hm. }
    rewrite (Qabs_pos _ Hnn).
    assert (Hrel : (0 <= pow2 (1 - prec) * (inject_Z m * pow2 e))%Q).
    { apply Qmult_le_0_compat; [apply Qlt_le_weak, pow2_pos | exact Hnn]. }
    destruct (Z.eq_dec E (emin prec emax)) as [-> | Hne]; [lra|].
    assert (HEd : E = Zdigits2 m + e - prec) by (unfold E, fexp in *; lia).
    assert (Hmpos : 0 < m).
    { destruct (Z.eq_dec m 0) as [-> | ]; [|lia].
      cbn [Zdigits2] in HEd. lia. }
    pose proof (Zdigits2_bounds m Hmpos) as [Hlo _].
    pose proof (Zdigits2_pos m Hmpos) as Hd.
    assert (pow2 E <= pow2 (1 - prec) * (inject_Z m * pow2 e))%Q; [|lra].
    apply Qle_trans
      with (pow2 (1 - prec) * (inject_Z (2 ^ (Zdigits2 m - 1)) * pow2 e))%Q.
    + rewrite <- pow2_Z, <- !pow2_add by lia. apply pow2_le. lia.
    + apply Qmult_le_l; [apply pow2_pos|]. apply scaled_le. exact Hlo.
  - intros Hl HEe. rewrite (Hexact Hl HEe). unfold M.
    rewrite HEe, Z.sub_diag. change (2 ^ 0) with 1.
    rewrite Z.div_1_r. reflexivity.
Qed.

End Format.

End FloatValueFacts.

(* ===================================================================== *)
(** * Rounding: sums, differences, products and the order                 *)
(* ===================================================================== *)

Module FloatOperations.


Import IEEE IEEEFacts FloatValue RoundingCases FloatValueFacts.

(** ** Alignment *)

Lemma iter_xO_value (m d : positive) :
  Zpos (Pos.iter xO m d) = Zpos m * 2 ^ Zpos d.
Proof.
  induction d as [|d IH] using Pos.peano_ind.
  - cbn. lia.
  - rewrite Pos.iter_succ, Pos2Z.inj_succ, Z.pow_succ_r by lia.
    rewrite Pos2Z.inj_xO, IH. ring.
Qed.

Lemma iter_xO_digits (m d : positive) :
  Zpos (digits2_pos (Pos.iter xO m d)) = Zpos (digits2_pos m) + Zpos d.
Proof.
  induction d as [|d IH] using Pos.peano_ind.
  - cbn. lia.
  - rewrite Pos.iter_succ. cbn [digits2_pos].
    rewrite Pos2Z.inj_succ, IH. lia.
Qed.

(** [shl_align] keeps the value and lowers the exponent to [e'] when that
    is below [e]. *)
Lemma shl_align_spec (m : positive) (e e' : Z) :
  let '(mz, ez) := shl_align m e e' in
  ez = Z.min e e'
  /\ Zpos mz = Zpos m * 2 ^ (e - ez)
  /\ Zpos (digits2_pos mz) = Zpos (digits2_pos m) + (e - ez).
Proof.
  unfold shl_align. destruct (e' - e) as [|d|d] eqn:Hd.
  - replace (Z.min e e') with e by lia. rewrite Z.sub_diag. cbn. lia.
  - replace (Z.min e e') with e by lia. rewrite Z.sub_diag. cbn. lia.
  - replace (Z.min e e') with e' by lia.
    replace (e - e') with (Zpos d) by lia.
    rewrite iter_xO_value, iter_xO_digits. auto.
Qed.

Lemma shl_align_value (m : positive) (e e' : Z) :
  (inject_Z (Zpos (fst (shl_align m e e'))) * pow2 (Z.min e e')
   == inject_Z (Zpos m) * pow2 e)%Q.
Proof.
  pose proof (shl_align_spec m e e') as H.
  destruct (shl_align m e e') as [mz ez]. destruct H as (Hez & Hmz & _).
  cbn [fst]. rewrite Hmz, Hez.
  rewrite scaled_shift by lia.
  replace (Z.min e e' + (e - Z.min e e')) with e by lia. reflexivity.
Qed.

(** ** Signs *)

Lemma value_signed (s : bool) (m : positive) (e : Z) :
  value (S754_finite s m e) = signed s (inject_Z (Zpos m) * pow2 e).
Proof. destruct s; reflexivity. Qed.

Lemma signed_diff (s : bool) (a b : Q) :
  (Qabs (signed s a - signed s b) == Qabs (a - b))%Q.
Proof.
  destruct s; cbn [signed]; [|reflexivity].
  rewrite <- (Qabs_opp (a - b)). apply Qabs_wd. ring.
Qed.

Lemma Qabs_signed (s : bool) (a : Q) : (0 <= a)%Q -> (Qabs (signed s a) == a)%Q.
Proof.
  intros H. destruct s; cbn [signed].
  - rewrite Qabs_opp. apply Qabs_pos. exact H.
  - apply Qabs_pos. exact H.
Qed.

Lemma signed_cond_Zopp (s : bool) (z : Z) (e : Z) :
  (inject_Z (cond_Zopp s z) * pow2 e == signed s (inject_Z z * pow2 e))%Q.
Proof.
  destruct s; cbn [cond_Zopp signed]; [|reflexivity].
  rewrite inject_Z_opp. ring.
Qed.

(** An integer multiple of [2^e] below [2^k] leaves room for one more. *)
Lemma scaled_succ_le (m e k : Z) :
  0 < m ->
  (inject_Z m * pow2 e < pow2 k)%Q ->
  (inject_Z (m + 1) * pow2 e <= pow2 k)%Q.
Proof.
  intros Hm H.
  destruct (Z_le_gt_dec e k) as [Hle | Hgt].
  - replace k with (e + (k - e)) in H |- * by lia.
    rewrite pow2_add in H |- *. rewrite (pow2_Z (k - e)) in H |- * by lia.
    rewrite (Qmult_comm (pow2 e)) in H |- *.
    apply Qmult_lt_r in H; [|apply pow2_pos].
    apply Qmult_le_r; [apply pow2_pos|].
    rewrite <- Zlt_Qlt in H. rewrite <- Zle_Qle. lia.
  - exfalso.
    assert (pow2 k < pow2 e)%Q by (apply pow2_lt; lia).
    assert (pow2 e <= inject_Z m * pow2 e)%Q; [|lra].
    rewrite <- (Qmult_1_l (pow2 e)) at 1.
    apply Qmult_le_r; [apply pow2_pos|].
    change 1%Q with (inject_Z 1). rewrite <- Zle_Qle. lia.
Qed.

Section Format.

Variables prec emax : Z.
Hypothesis Hprec : 0 < prec.
Hypothesis Hemax : prec < emax.

Abbreviation representable := (FloatValue.representable prec emax).
Abbreviation roundingError := (FloatValue.roundingError prec emax).

(** ** [binary_round_aux] on an exact product or sum *)

Lemma round_exact_value (s : bool) (m : positive) (e : Z) :
  e <= fexp prec emax (Zpos (digits2_pos m) + e) ->
  (inject_Z (Zpos m) * pow2 e < pow2 (emax - 1))%Q ->
  let r := binary_round_aux prec emax s (Zpos m) e loc_Exact in
  let v := signed s (inject_Z (Zpos m) * pow2 e) in
  representable r
  /\ (Qabs (value r - v) <= roundingError v)%Q
  /\ (e = fexp prec emax (Zpos (digits2_pos m) + e) -> value r == v)%Q.
Proof.
  intros HE Hmax r v.
  assert (Hm : 0 <= Zpos m) by lia.
  assert (Hmax' : (inject_Z (Zpos m + 1) * pow2 e <= pow2 (emax - 1))%Q)
    by (apply scaled_succ_le; [lia | exact Hmax]).
  destruct (binary_round_aux_value prec emax Hprec Hemax s (Zpos m) e loc_Exact
              Hm HE Hmax')
    as (Hrep & Hval & Hlo & Hhi & Hgap & Hexact).
  fold r in Hrep, Hval, Hlo, Hhi, Hexact.
  cbn [Zdigits2] in Hlo, Hhi, Hgap, Hexact.
  set (E := fexp prec emax (Zpos (digits2_pos m) + e)) in *.
  set (a := (inject_Z (Zpos m) * pow2 e)%Q) in *.
  assert (Ha : (0 <= a)%Q).
  { unfold a. apply Qmult_le_0_compat; [|apply Qlt_le_weak, pow2_pos].
    change 0%Q with (inject_Z 0). rewrite <- Zle_Qle. lia. }
  assert (Hstep : (inject_Z (Zpos m + 1) * pow2 e == a + pow2 e)%Q).
  { unfold a. rewrite inject_Z_plus. change (inject_Z 1) with 1%Q. ring. }
  pose proof (pow2_pos e) as Hpe.
  split; [exact Hrep|]. split.
  - assert (Hr : (value r == signed s (magnitude r))%Q)
      by (rewrite Hval; destruct s; reflexivity).
    rewrite Hr. unfold v. rewrite signed_diff.
    assert (Hv : (roundingError (signed s a) == roundingError a)%Q).
    { unfold FloatValue.roundingError. rewrite (Qabs_signed s a Ha).
      rewrite (Qabs_pos a Ha). reflexivity. }
    rewrite Hv. apply Qabs_Qle_condition. split; lra.
  - intros HEe. rewrite Hval. unfold v.
    destruct s; cbn [signed]; rewrite (Hexact eq_refl (eq_sym HEe));
      reflexivity.
Qed.

(** ** [binary_round] and [binary_normalize]: no error when the mantissa
    fits *)

Lemma binary_round_value (s : bool) (m : positive) (e : Z) :
  (inject_Z (Zpos m) * pow2 e < pow2 (emax - 1))%Q ->
  let r := binary_round prec emax s m e in
  let v := signed s (inject_Z (Zpos m) * pow2 e) in
  representable r /\ (Qabs (value r - v) <= roundingError v)%Q.
Proof.
  intros Hmax r v. unfold r, binary_round.
  pose proof (shl_align_spec m e (fexp prec emax (Zpos (digits2_pos m) + e)))
    as Hs.
  pose proof (shl_align_value m e (fexp prec emax (Zpos (digits2_pos m) + e)))
    as Hv.
  destruct (shl_align m e (fexp prec emax (Zpos (digits2_pos m) + e)))
    as [mz ez].
  destruct Hs as (Hez & Hmz & Hdz). cbn [fst] in Hv. rewrite <- Hez in Hv.
  assert (HE : ez <= fexp prec emax (Zpos (digits2_pos mz) + ez)).
  { rewrite Hdz.
    replace (Zpos (digits2_pos m) + (e - ez) + ez)
      with (Zpos (digits2_pos m) + e) by lia. lia. }
  assert (Hmax' : (inject_Z (Zpos mz) * pow2 ez < pow2 (emax - 1))%Q)
    by (rewrite Hv; exact Hmax).
  destruct (round_exact_value s mz ez HE Hmax') as (Hrep & Herr & _).
  split; [exact Hrep|].
  assert (Hvv : (signed s (inject_Z (Zpos mz) * pow2 ez) == v)%Q)
    by (unfold v; destruct s; cbn [signed]; rewrite Hv; reflexivity).
  unfold FloatValue.roundingError in *.
  rewrite Hvv in Herr. exact Herr.
Qed.

Lemma binary_normalize_value (z e : Z) :
  (Qabs (inject_Z z * pow2 e) < pow2 (emax - 1))%Q ->
  let r := binary_normalize prec emax z e false in
  let v := (inject_Z z * pow2 e)%Q in
  representable r /\ (Qabs (value r - v) <= roundingError v)%Q.
Proof.
  intros Hmax r v. unfold r, binary_normalize.
  destruct z as [|m|m].
  - split; [apply representable_zero|].
    unfold v. cbn [value].
    assert (H0 : (0 - inject_Z 0 * pow2 e == 0)%Q)
      by (change (inject_Z 0) with 0%Q; ring).
    rewrite H0. cbn [Qabs]. apply Qlt_le_weak, roundingError_pos.
  - assert (Hpos : (0 <= inject_Z (Zpos m) * pow2 e)%Q).
    { apply Qmult_le_0_compat; [|apply Qlt_le_weak, pow2_pos].
      change 0%Q with (inject_Z 0). rewrite <- Zle_Qle. lia. }
    rewrite (Qabs_pos _ Hpos) in Hmax.
    exact (binary_round_value false m e Hmax).
  - assert (Hneg : (inject_Z (Zneg m) * pow2 e
                    == - (inject_Z (Zpos m) * pow2 e))%Q).
    { change (Zneg m) with (- Zpos m). rewrite inject_Z_opp. ring. }
    assert (Hpos : (0 <= inject_Z (Zpos m) * pow2 e)%Q).
    { apply Qmult_le_0_compat; [|apply Qlt_le_weak, pow2_pos].
      change 0%Q with (inject_Z 0). rewrite <- Zle_Qle. lia. }
    rewrite Hneg, Qabs_opp, (Qabs_pos _ Hpos) in Hmax.
    destruct (binary_round_value true m e Hmax) as (Hrep & Herr).
    split; [exact Hrep|].
    cbn [signed] in Herr. unfold v, FloatValue.roundingError in *.
    rewrite Hneg. exact Herr.
Qed.

(** ** Multiplication *)

Lemma digits_mul (mx my : positive) :
  Zpos (digits2_pos mx) + Zpos (digits2_pos my) - 1
  <= Zpos (digits2_pos (mx * my)).
Proof.
  pose proof (digits2_pos_bounds mx) as [Hx _].
  pose proof (digits2_pos_bounds my) as [Hy _].
  assert (H : 2 ^ (Zpos (digits2_pos mx) - 1 + (Zpos (digits2_pos my) - 1))
              <= Zpos (mx * my)).
  { rewrite Z.pow_add_r by lia. rewrite Pos2Z.inj_mul.
    apply Z.mul_le_mono_nonneg; try lia;
      apply Z.lt_le_incl, Z.pow_pos_nonneg; lia. }
  apply Zdigits2_ge in H; [|lia]. cbn [Zdigits2] in H. lia.
Qed.

Theorem SFmul_value (x y : spec_float) :
  representable x -> representable y ->
  (Qabs (value x * value y) < pow2 (emax - 1))%Q ->
  representable (SFmul prec emax x y)
  /\ (Qabs (value (SFmul prec emax x y) - value x * value y)
      <= roundingError (value x * value y))%Q.
Proof.
  intros Hx Hy Hmax.
  assert (Hzero : forall s v : Q, (v == 0)%Q ->
            (Qabs (0 - v) <= roundingError v)%Q).
  { intros _ v Hv. assert (H0 : (0 - v == 0)%Q) by (rewrite Hv; ring).
    rewrite H0. cbn [Qabs]. apply Qlt_le_weak, roundingError_pos. }
  destruct x as [sx|sx| |sx mx ex]; try (destruct Hx as [Hx _]; discriminate);
  destruct y as [sy|sy| |sy my ey]; try (destruct Hy as [Hy _]; discriminate).
  - split; [apply representable_zero|]. apply (Hzero 0%Q). cbn. ring.
  - split; [apply representable_zero|]. apply (Hzero 0%Q). cbn [value]. ring.
  - split; [apply representable_zero|]. apply (Hzero 0%Q). cbn [value]. ring.
  - destruct (representable_canonical prec emax sx mx ex Hx) as [Hcx _].
    destruct (representable_canonical prec emax sy my ey Hy) as [Hcy _].
    assert (Hprod : (value (S754_finite sx mx ex) * value (S754_finite sy my ey)
                     == signed (xorb sx sy)
                          (inject_Z (Zpos (mx * my)) * pow2 (ex + ey)))%Q).
    { rewrite !value_signed, Pos2Z.inj_mul, inject_Z_mult.
      destruct sx, sy; cbn [signed xorb]; rewrite pow2_add; ring. }
    assert (HE : ex + ey
                 <= fexp prec emax (Zpos (digits2_pos (mx * my)) + (ex + ey))).
    { pose proof (digits_mul mx my). unfold fexp, emin in *. lia. }
    assert (Hpos : (0 <= inject_Z (Zpos (mx * my)) * pow2 (ex + ey))%Q).
    { apply Qmult_le_0_compat; [|apply Qlt_le_weak, pow2_pos].
      change 0%Q with (inject_Z 0). rewrite <- Zle_Qle. lia. }
    rewrite Hprod, Qabs_signed in Hmax by exact Hpos.
    destruct (round_exact_value (xorb sx sy) (mx * my) (ex + ey) HE Hmax)
      as (Hrep & Herr & _).
    split; [exact Hrep|].
    unfold FloatValue.roundingError in *. cbn [SFmul].
    rewrite Hprod. exact Herr.
Qed.

(** ** Addition and subtraction *)

Theorem SFadd_value (x y : spec_float) :
  representable x -> representable y ->
  (Qabs (value x + value y) < pow2 (emax - 1))%Q ->
  representable (SFadd prec emax x y)
  /\ (Qabs (value (SFadd prec emax x y) - (value x + value y))
      <= roundingError (value x + value y))%Q.
Proof.
  intros Hx Hy Hmax.
  assert (Hsame : forall r v : Q, (r == v)%Q ->
            (Qabs (r - v) <= roundingError v)%Q).
  { intros r v Hv. assert (H0 : (r - v == 0)%Q) by (rewrite Hv; ring).
    rewrite H0. cbn [Qabs]. apply Qlt_le_weak, roundingError_pos. }
  destruct x as [sx|sx| |sx mx ex]; try (destruct Hx as [Hx _]; discriminate);
  destruct y as [sy|sy| |sy my ey]; try (destruct Hy as [Hy _]; discriminate).
  - destruct sx, sy; (split; [apply representable_zero|]);
      apply Hsame; cbn; ring.
  - split; [exact Hy|]. apply Hsame. cbn [SFadd value]. destruct sy; ring.
  - split; [exact Hx|]. apply Hsame. cbn [SFadd value]. destruct sx; ring.
  - cbn [SFadd].
    set (ez := Z.min ex ey).
    set (z := cond_Zopp sx (Zpos (fst (shl_align mx ex ez)))
              + cond_Zopp sy (Zpos (fst (shl_align my ey ez)))).
    assert (Hsum : (inject_Z z * pow2 ez
                    == value (S754_finite sx mx ex)
                       + value (S754_finite sy my ey))%Q).
    { unfold z. rewrite inject_Z_plus, Qmult_plus_distr_l.
      rewrite !signed_cond_Zopp, !value_signed.
      pose proof (shl_align_value mx ex ez) as H1.
      pose proof (shl_align_value my ey ez) as H2.
      replace (Z.min ex ez) with ez in H1 by (unfold ez; lia).
      replace (Z.min ey ez) with ez in H2 by (unfold ez; lia).
      destruct sx, sy; cbn [signed]; rewrite H1, H2; reflexivity. }
    rewrite <- Hsum in Hmax.
    destruct (binary_normalize_value z ez Hmax) as (Hrep & Herr).
    split; [exact Hrep|].
    unfold FloatValue.roundingError in *. rewrite <- Hsum. exact Herr.
Qed.

Lemma SFsub_SFadd (x y : spec_float) :
  SFsub prec emax x y = SFadd prec emax x (SFopp y).
Proof.
  destruct x as [sx|sx| |sx mx ex], y as [sy|sy| |sy my ey]; try reflexivity;
    destruct sx, sy; reflexivity.
Qed.

Theorem SFsub_value (x y : spec_float) :
  representable x -> representable y ->
  (Qabs (value x - value y) < pow2 (emax - 1))%Q ->
  representable (SFsub prec emax x y)
  /\ (Qabs (value (SFsub prec emax x y) - (value x - value y))
      <= roundingError (value x - value y))%Q.
Proof.
  intros Hx Hy Hmax. rewrite SFsub_SFadd.
  pose proof (representable_opp prec emax y Hy) as Hy'.
  assert (Hv : (value x + value (SFopp y) == value x - value y)%Q)
    by (rewrite value_opp; ring).
  rewrite <- Hv in Hmax.
  destruct (SFadd_value x (SFopp y) Hx Hy' Hmax) as (Hrep & Herr).
  split; [exact Hrep|].
  unfold FloatValue.roundingError in *. rewrite <- Hv. exact Herr.
Qed.

(** ** The order *)

Lemma Qcompare_Lt (a b : Q) : (a < b)%Q -> (a ?= b)%Q = Lt.
Proof. exact (proj1 (Qlt_alt a b)). Qed.

Lemma Qcompare_Gt (a b : Q) : (b < a)%Q -> (a ?= b)%Q = Gt.
Proof. exact (proj1 (Qgt_alt a b)). Qed.

Lemma Qcompare_Eq (a b : Q) : (a == b)%Q -> (a ?= b)%Q = Eq.
Proof. exact (proj1 (Qeq_alt a b)). Qed.

Lemma Qcompare_opp (a b : Q) : (- a ?= - b)%Q = (b ?= a)%Q.
Proof.
  destruct (b ?= a)%Q eqn:E.
  - apply (proj2 (Qeq_alt b a)) in E. apply Qcompare_Eq. lra.
  - apply (proj2 (Qlt_alt b a)) in E. apply Qcompare_Lt. lra.
  - apply (proj2 (Qgt_alt b a)) in E. apply Qcompare_Gt. lra.
Qed.

Lemma magnitude_compare (s1 s2 : bool) (m1 m2 : positive) (e1 e2 : Z) :
  representable (S754_finite s1 m1 e1) ->
  representable (S754_finite s2 m2 e2) ->
  (inject_Z (Zpos m1) * pow2 e1 ?= inject_Z (Zpos m2) * pow2 e2)%Q
  = match e1 ?= e2 with
    | Lt => Lt
    | Gt => Gt
    | Eq => Pos.compare_cont Eq m1 m2
    end.
Proof.
  intros H1 H2.
  destruct (representable_canonical prec emax s1 m1 e1 H1) as [Hc1 _].
  destruct (representable_canonical prec emax s2 m2 e2 H2) as [Hc2 _].
  pose proof (digits2_pos_bounds m1) as [Hl1 Hu1].
  pose proof (digits2_pos_bounds m2) as [Hl2 Hu2].
  assert (Hless : forall (ma mb : positive) (ea eb : Z),
            fexp prec emax (Zpos (digits2_pos ma) + ea) = ea ->
            fexp prec emax (Zpos (digits2_pos mb) + eb) = eb ->
            ea < eb ->
            (inject_Z (Zpos ma) * pow2 ea < inject_Z (Zpos mb) * pow2 eb)%Q).
  { intros ma mb ea eb Ha Hb Hlt.
    pose proof (digits2_pos_bounds ma) as [_ Hua].
    pose proof (digits2_pos_bounds mb) as [Hlb _].
    assert (Hda : Zpos (digits2_pos ma) <= prec) by (unfold fexp in Ha; lia).
    assert (Hdb : Zpos (digits2_pos mb) = prec)
      by (unfold fexp in Ha, Hb; pose proof (fexp_ge_emin prec emax
            (Zpos (digits2_pos ma) + ea)); unfold fexp in *; lia).
    apply Qlt_le_trans with (inject_Z (2 ^ Zpos (digits2_pos ma)) * pow2 ea)%Q;
      [apply scaled_lt; exact Hua|].
    apply Qle_trans
      with (inject_Z (2 ^ (Zpos (digits2_pos mb) - 1)) * pow2 eb)%Q;
      [|apply scaled_le; exact Hlb].
    rewrite <- !pow2_Z, <- !pow2_add by lia. apply pow2_le. lia. }
  destruct (Z.compare_spec e1 e2) as [Heq | Hlt | Hgt].
  - subst e2. change (Pos.compare_cont Eq m1 m2) with (Pos.compare m1 m2).
    destruct (Pos.compare_spec m1 m2) as [Hm | Hm | Hm].
    + subst m2. apply Qcompare_Eq. reflexivity.
    + apply Qcompare_Lt. apply scaled_lt. lia.
    + apply Qcompare_Gt. apply scaled_lt. lia.
  - apply Qcompare_Lt. apply Hless; assumption.
  - apply Qcompare_Gt. apply Hless; assumption.
Qed.

(** On the floats of the format, [SFcompare] is the order of the values. *)
Theorem SFcompare_value (x y : spec_float) :
  representable x -> representable y ->
  SFcompare x y = Some (value x ?= value y)%Q.
Proof.
  intros Hx Hy.
  destruct x as [sx|sx| |sx mx ex]; try (destruct Hx as [Hx _]; discriminate);
  destruct y as [sy|sy| |sy my ey]; try (destruct Hy as [Hy _]; discriminate).
  - reflexivity.
  - pose proof (magnitude_pos sy my ey) as Hp. cbn [magnitude] in Hp.
    cbn [SFcompare value]. f_equal. symmetry.
    destruct sy; [apply Qcompare_Gt | apply Qcompare_Lt]; lra.
  - pose proof (magnitude_pos sx mx ex) as Hp. cbn [magnitude] in Hp.
    cbn [SFcompare value]. f_equal. symmetry.
    destruct sx; [apply Qcompare_Lt | apply Qcompare_Gt]; lra.
  - pose proof (magnitude_pos sx mx ex) as Hpx. cbn [magnitude] in Hpx.
    pose proof (magnitude_pos sy my ey) as Hpy. cbn [magnitude] in Hpy.
    pose proof (magnitude_compare sx sy mx my ex ey Hx Hy) as Hc.
    cbn [SFcompare value]. f_equal.
    destruct sx, sy.
    + rewrite Qcompare_opp, <- Qcompare_antisym, Hc.
      destruct (ex ?= ey); reflexivity.
    + symmetry. apply Qcompare_Lt. lra.
    + symmetry. apply Qcompare_Gt. lra.
    + rewrite Hc. reflexivity.
Qed.

Corollary SFltb_value (x y : spec_float) :
  representable x -> representable y ->
  (value x < value y)%Q -> SFltb x y = true.
Proof.
  intros Hx Hy H. unfold SFltb. rewrite (SFcompare_value x y Hx Hy).
  rewrite (Qcompare_Lt _ _ H). reflexivity.
Qed.

Corollary SFleb_value (x y : spec_float) :
  representable x -> representable y ->
  (value x <= value y)%Q -> SFleb x y = true.
Proof.
  intros Hx Hy H. unfold SFleb. rewrite (SFcompare_value x y Hx Hy).
  destruct (value x ?= value y)%Q eqn:E; try reflexivity.
  apply (proj2 (Qgt_alt _ _)) in E. lra.
Qed.

Corollary SFleb_value_false (x y : spec_float) :
  representable x -> representable y ->
  (value y < value x)%Q -> SFleb x y = false.
Proof.
  intros Hx Hy H. unfold SFleb. rewrite (SFcompare_value x y Hx Hy).
  rewrite (Qcompare_Gt _ _ H). reflexivity.
Qed.

End Format.

End FloatOperations.

(* ===================================================================== *)
(** * Rounding: quotients                                                 *)
(* ===================================================================== *)

Module FloatDivision.


Import IEEE IEEEFacts FloatValue RoundingCases FloatValueFacts FloatOperations.

Lemma shiftl_pow (m s : Z) : 0 <= s -> Z.shiftl m s = m * 2 ^ s.
Proof. intros H. apply Z.shiftl_mul_pow2. exact H. Qed.

Section Format.

Variables prec emax : Z.
Hypothesis Hprec : 0 < prec.
Hypothesis Hemax : prec < emax.

Abbreviation representable := (FloatValue.representable prec emax).
Abbreviation roundingError := (FloatValue.roundingError prec emax).

Lemma roundingError_le (v v' : Q) :
  (Qabs v <= Qabs v')%Q -> (roundingError v <= roundingError v')%Q.
Proof.
  intros H. unfold FloatValue.roundingError.
  pose proof (pow2_pos (1 - prec)) as Hp.
  assert (pow2 (1 - prec) * Qabs v <= pow2 (1 - prec) * Qabs v')%Q
    by (apply Qmult_le_l; assumption).
  lra.
Qed.

(** The quotient of two positive integers scaled by powers of two, as
    [SFdiv_core_binary] computes it: the mantissa [q] at the exponent
    [e'] is the exact quotient rounded down. *)
Lemma SFdiv_core_binary_spec (m1 m2 : positive) (e1 e2 : Z) :
  let '(q, e', l) := SFdiv_core_binary prec emax (Zpos m1) e1 (Zpos m2) e2 in
  let V := (inject_Z (Zpos m1) * pow2 e1 / (inject_Z (Zpos m2) * pow2 e2))%Q in
  let D := Zpos (digits2_pos m1) + e1 - (Zpos (digits2_pos m2) + e2) in
  0 <= q
  /\ e' <= fexp prec emax (Zdigits2 q + e')
  /\ (inject_Z q * pow2 e' <= V)%Q
  /\ (V < inject_Z (q + 1) * pow2 e')%Q
  /\ e' <= fexp prec emax D
  /\ (pow2 (D - 1) <= V)%Q.
Proof.
  unfold SFdiv_core_binary. cbn [Zdigits2].
  set (d1 := Zpos (digits2_pos m1)). set (d2 := Zpos (digits2_pos m2)).
  set (D := d1 + e1 - (d2 + e2)).
  set (e' := Z.min (fexp prec emax D) (e1 - e2)).
  set (s := e1 - e2 - e').
  assert (Hs : 0 <= s) by (unfold s, e'; lia).
  set (m' := match s with Zpos _ => Z.shiftl (Zpos m1) s | 0 => Zpos m1
             | Zneg _ => 0 end).
  assert (Hm' : m' = Zpos m1 * 2 ^ s).
  { unfold m'. destruct s as [|p|p] eqn:E.
    - cbn. lia.
    - apply shiftl_pow. lia.
    - lia. }
  clearbody m'.
  pose proof (Z_div_mod m' (Zpos m2) ltac:(lia)) as Hdm.
  destruct (Z.div_eucl m' (Zpos m2)) as [q r]. destruct Hdm as [Hq Hr].
  assert (Hpow : 0 < 2 ^ s) by (apply Z.pow_pos_nonneg; lia).
  assert (Hm'pos : 0 < m') by (rewrite Hm'; lia).
  assert (Hq0 : 0 <= q) by nia.
  pose proof (digits2_pos_bounds m1) as [Hl1 Hu1]. fold d1 in Hl1, Hu1.
  pose proof (digits2_pos_bounds m2) as [Hl2 Hu2]. fold d2 in Hl2, Hu2.
  assert (Hd1 : 0 < d1) by (unfold d1; lia).
  assert (Hd2 : 0 < d2) by (unfold d2; lia).
  (* the denominator *)
  set (den := (inject_Z (Zpos m2) * pow2 e2)%Q).
  assert (Hden : (0 < den)%Q).
  { unfold den. apply Qmult_lt_0_compat; [|apply pow2_pos].
    change 0%Q with (inject_Z 0). rewrite <- Zlt_Qlt. lia. }
  (* the numerator, at the exponent of the quotient *)
  assert (Hnum : (inject_Z (Zpos m1) * pow2 e1
                  == inject_Z m' * pow2 (e' + e2))%Q).
  { rewrite Hm', scaled_shift by lia. unfold s.
    replace (e' + e2 + (e1 - e2 - e')) with e1 by lia. reflexivity. }
  assert (Hscale : forall k : Z,
            (inject_Z k * pow2 e' * den == inject_Z (k * Zpos m2) * pow2 (e' + e2))%Q).
  { intros k. unfold den. rewrite inject_Z_mult, pow2_add. ring. }
  split; [exact Hq0|].
  split.
  { (* the exponent is not above that of the format *)
    assert (Hdq : D - e' <= Zdigits2 q).
    { destruct (Z_lt_le_dec (d1 - 1 + s - d2) 0) as [Hneg | Hnn].
      - destruct (Z.eq_dec q 0) as [-> | Hne]; [cbn; unfold D, s in *; lia|].
        pose proof (Zdigits2_pos q ltac:(lia)). unfold D, s in *. lia.
      - assert (H2 : 2 ^ (d1 - 1 + s - d2) <= q).
        { assert (Hlow : 2 ^ (d1 - 1 + s - d2) * Zpos m2 < (q + 1) * Zpos m2).
          { apply Z.le_lt_trans with m'; [|lia].
            rewrite Hm'.
            apply Z.le_trans with (2 ^ (d1 - 1 + s - d2) * 2 ^ d2);
              [apply Z.mul_le_mono_nonneg_l;
               [apply Z.pow_nonneg; lia | lia]|].
            rewrite <- Z.pow_add_r by lia.
            replace (d1 - 1 + s - d2 + d2) with (d1 - 1 + s) by lia.
            rewrite Z.pow_add_r by lia.
            apply Z.mul_le_mono_nonneg_r; lia. }
          apply Z.mul_lt_mono_pos_r in Hlow; lia. }
        apply Zdigits2_ge in H2; [|lia]. unfold D, s in *. lia. }
    apply Z.le_trans with (fexp prec emax D); [unfold e'; lia|].
    apply fexp_mono. lia. }
  split.
  { apply Qle_shift_div_l; [exact Hden|].
    rewrite Hscale, Hnum. apply scaled_le. nia. }
  split.
  { apply Qlt_shift_div_r; [exact Hden|].
    rewrite Hscale, Hnum. apply scaled_lt. nia. }
  split; [unfold e'; lia|].
  apply Qle_shift_div_l; [exact Hden|].
  apply Qle_trans with (pow2 (D - 1) * (inject_Z (2 ^ d2) * pow2 e2))%Q.
  - apply Qmult_le_l; [apply pow2_pos|]. unfold den.
    apply scaled_le. lia.
  - rewrite <- pow2_Z, <- !pow2_add by lia.
    apply Qle_trans with (inject_Z (2 ^ (d1 - 1)) * pow2 e1)%Q;
      [|apply scaled_le; exact Hl1].
    rewrite <- pow2_Z, <- pow2_add by lia. apply pow2_le. unfold D. lia.
Qed.

(** ** Division *)

Theorem SFdiv_value (x y : spec_float) :
  representable x -> representable y ->
  ~ (value y == 0)%Q ->
  (Qabs (value x / value y) < pow2 (emax - 1))%Q ->
  representable (SFdiv prec emax x y)
  /\ (Qabs (value (SFdiv prec emax x y) - value x / value y)
      <= roundingError (value x / value y))%Q.
Proof.
  intros Hx Hy Hy0 Hmax.
  destruct y as [sy|sy| |sy my ey]; try (destruct Hy as [Hy _]; discriminate);
    [exfalso; apply Hy0; reflexivity|].
  destruct x as [sx|sx| |sx mx ex]; try (destruct Hx as [Hx _]; discriminate).
  - split; [apply representable_zero|].
    assert (H0 : (value (SFdiv prec emax (S754_zero sx) (S754_finite sy my ey))
                  - value (S754_zero sx) / value (S754_finite sy my ey) == 0)%Q).
    { cbn [SFdiv value]. unfold Qdiv. ring. }
    rewrite H0. cbn [Qabs]. apply Qlt_le_weak, roundingError_pos.
  - cbn [SFdiv].
    pose proof (SFdiv_core_binary_spec mx my ex ey) as Hcore.
    destruct (SFdiv_core_binary prec emax (Zpos mx) ex (Zpos my) ey)
      as [[q e'] l].
    cbn zeta in Hcore.
    set (V := (inject_Z (Zpos mx) * pow2 ex / (inject_Z (Zpos my) * pow2 ey))%Q)
      in *.
    set (D := Zpos (digits2_pos mx) + ex - (Zpos (digits2_pos my) + ey)) in *.
    destruct Hcore as (Hq & HE & Hlo & Hhi & He' & HD).
    pose proof (magnitude_pos sx mx ex) as Hpx. cbn [magnitude] in Hpx.
    pose proof (magnitude_pos sy my ey) as Hpy. cbn [magnitude] in Hpy.
    assert (HVpos : (0 < V)%Q).
    { unfold V. apply Qlt_shift_div_l; [exact Hpy|].
      rewrite Qmult_0_l. exact Hpx. }
    assert (Hquot : (value (S754_finite sx mx ex) / value (S754_finite sy my ey)
                     == signed (xorb sx sy) V)%Q).
    { rewrite !value_signed. unfold V.
      set (a := (inject_Z (Zpos mx) * pow2 ex)%Q) in *.
      set (b := (inject_Z (Zpos my) * pow2 ey)%Q) in *.
      destruct sx, sy; cbn [signed xorb]; field; lra. }
    rewrite Hquot, Qabs_signed in Hmax by lra.
    (* no overflow *)
    assert (Hfit : (inject_Z (q + 1) * pow2 e' <= pow2 (emax - 1))%Q).
    { destruct (Z.eq_dec q 0) as [-> | Hne].
      - cbn [Z.add]. change (inject_Z 1) with 1%Q. rewrite Qmult_1_l.
        apply pow2_le.
        assert (HDmax : D < emax).
        { destruct (Z_lt_le_dec D emax) as [|Hge]; [assumption|]. exfalso.
          assert (pow2 (emax - 1) <= pow2 (D - 1))%Q by (apply pow2_le; lia).
          lra. }
        unfold fexp, emin in He'. lia.
      - apply scaled_succ_le; [lia | lra]. }
    destruct (binary_round_aux_value prec emax Hprec Hemax (xorb sx sy) q e' l
                Hq HE Hfit)
      as (Hrep & Hval & Hrlo & Hrhi & Hgap & _).
    split; [exact Hrep|].
    set (r := binary_round_aux prec emax (xorb sx sy) q e' l) in *.
    set (E := fexp prec emax (Zdigits2 q + e')) in *.
    assert (Hr : (value r == signed (xorb sx sy) (magnitude r))%Q)
      by (rewrite Hval; destruct (xorb sx sy); reflexivity).
    assert (Hqpos : (0 <= inject_Z q * pow2 e')%Q).
    { apply Qmult_le_0_compat; [|apply Qlt_le_weak, pow2_pos].
      change 0%Q with (inject_Z 0). rewrite <- Zle_Qle. exact Hq. }
    assert (Hgap' : (pow2 E <= roundingError V)%Q).
    { apply Qle_trans with (roundingError (inject_Z q * pow2 e')); [exact Hgap|].
      apply roundingError_le. rewrite !Qabs_pos by lra. exact Hlo. }
    assert (HeV : (roundingError (signed (xorb sx sy) V) == roundingError V)%Q).
    { unfold FloatValue.roundingError. rewrite Qabs_signed by lra.
      rewrite (Qabs_pos V) by lra. reflexivity. }
    unfold FloatValue.roundingError in *.
    rewrite Hquot, Hr, signed_diff, Qabs_signed by lra.
    rewrite (Qabs_pos V) in Hgap' by lra.
    apply Qle_trans with (pow2 E); [|exact Hgap'].
    apply Qabs_Qle_condition. split; lra.
Qed.

End Format.

End FloatDivision.

(* ===================================================================== *)
(** * EyeGeometry: the outer corners in binary32                          *)
(* ===================================================================== *)

Module OuterCornerProps.


Import IEEE IEEEFacts TensorFlowProcessor GazeVocabulary FrameSamples.
Import FloatValue FloatValueFacts FloatOperations.

Abbreviation float32 := Binary32.float32.
Abbreviation finite32 := (representable Binary32.prec Binary32.emax).

Lemma roundingError_binary32 (v : Q) :
  (roundingError Binary32.prec Binary32.emax v == u * Qabs v + eta)%Q.
Proof.
  unfold roundingError.
  assert (H1 : (pow2 (1 - Binary32.prec) == u)%Q) by (vm_compute; reflexivity).
  assert (H2 : (pow2 (emin Binary32.prec Binary32.emax) == eta)%Q)
    by (vm_compute; reflexivity).
  rewrite H1, H2. reflexivity.
Qed.

Lemma pow2_127 :
  (pow2 (Binary32.emax - 1) == 170141183460469231731687303715884105728 # 1)%Q.
Proof. vm_compute; reflexivity. Qed.

(** One rounded operation whose exact result [V] is within [-B, B]: the
    result is within [u * B + eta] of [V]. *)
Lemma rounded_within (r V V' B : Q) :
  (Qabs (r - V) <= roundingError Binary32.prec Binary32.emax V)%Q ->
  (V == V')%Q -> (- B <= V' <= B)%Q ->
  (V' - (u * B + eta) <= r <= V' + (u * B + eta))%Q.
Proof.
  intros H HV HB. rewrite roundingError_binary32 in H.
  assert (Habs : (Qabs V <= B)%Q).
  { apply Qabs_Qle_condition. rewrite HV. exact HB. }
  apply Qabs_Qle_condition in H.
  assert (Hu : (u * Qabs V <= u * B)%Q).
  { apply Qmult_le_l; [reflexivity | exact Habs]. }
  rewrite <- HV. split; lra.
Qed.

Lemma below_overflow (V V' B : Q) :
  (V == V')%Q -> (- B <= V' <= B)%Q ->
  (B < 170141183460469231731687303715884105728 # 1)%Q ->
  (Qabs V < pow2 (Binary32.emax - 1))%Q.
Proof.
  intros HV HB Hmax. rewrite pow2_127.
  apply Qle_lt_trans with B; [|lra].
  apply Qabs_Qle_condition. rewrite HV. exact HB.
Qed.

Section Operations.

Variables x y : float32.
Hypothesis Hx : finite32 x.
Hypothesis Hy : finite32 y.
Variables V B : Q.
Hypothesis HB : (- B <= V <= B)%Q.
Hypothesis Hmax : (B < 170141183460469231731687303715884105728 # 1)%Q.

Lemma plus_within :
  (value x + value y == V)%Q ->
  finite32 (x + y)%flt
  /\ (V - (u * B + eta) <= value (x + y)%flt <= V + (u * B + eta))%Q.
Proof.
  intros HV. cbn [plus Float32].
  destruct (SFadd_value Binary32.prec Binary32.emax eq_refl eq_refl x y Hx Hy
              (below_overflow _ _ _ HV HB Hmax)) as [Hrep Herr].
  split; [exact Hrep|]. exact (rounded_within _ _ _ _ Herr HV HB).
Qed.

Lemma minus_within :
  (value x - value y == V)%Q ->
  finite32 (x - y)%flt
  /\ (V - (u * B + eta) <= value (x - y)%flt <= V + (u * B + eta))%Q.
Proof.
  intros HV. cbn [minus Float32].
  destruct (SFsub_value Binary32.prec Binary32.emax eq_refl eq_refl x y Hx Hy
              (below_overflow _ _ _ HV HB Hmax)) as [Hrep Herr].
  split; [exact Hrep|]. exact (rounded_within _ _ _ _ Herr HV HB).
Qed.

Lemma times_within :
  (value x * value y == V)%Q ->
  finite32 (x * y)%flt
  /\ (V - (u * B + eta) <= value (x * y)%flt <= V + (u * B + eta))%Q.
Proof.
  intros HV. cbn [times Float32].
  destruct (SFmul_value Binary32.prec Binary32.emax eq_refl eq_refl x y Hx Hy
              (below_overflow _ _ _ HV HB Hmax)) as [Hrep Herr].
  split; [exact Hrep|]. exact (rounded_within _ _ _ _ Herr HV HB).
Qed.

End Operations.

(** ** [Math.min] and [Math.max] on finite floats *)

Lemma min_max_value (a b : float32) :
  finite32 a -> finite32 b ->
  (value a <= value b)%Q ->
  finite32 (IEEE.min a b) /\ finite32 (IEEE.max a b)
  /\ (value (IEEE.min a b) == value a)%Q
  /\ (value (IEEE.max a b) == value b)%Q.
Proof.
  intros Ha Hb Hle.
  assert (Hna : isNaN a = false) by (destruct a, Ha as [Hf _]; cbn in *; congruence).
  unfold IEEE.min, IEEE.max. rewrite Hna.
  destruct (isZero a && isZero b) eqn:Hz.
  - apply andb_true_iff in Hz. destruct Hz as [Hza Hzb].
    assert (Hva : (value a == 0)%Q) by (destruct a; try discriminate; reflexivity).
    assert (Hvb : (value b == 0)%Q) by (destruct b; try discriminate; reflexivity).
    cbn [andb].
    rewrite (SFleb_value _ _ a b Ha Hb Hle).
    assert (Hba : SFleb b a = true)
      by (apply (SFleb_value _ _ b a Hb Ha); lra).
    rewrite Hba.
    destruct (isNegativeZero b), (isNegativeZero a);
      repeat split; try apply Ha; try apply Hb; lra.
  - cbn [andb].
    rewrite (SFleb_value _ _ a b Ha Hb Hle).
    destruct (Qlt_le_dec (value a) (value b)) as [Hlt | Hge].
    + rewrite (SFleb_value_false _ _ b a Hb Ha Hlt).
      repeat split; try apply Ha; try apply Hb; lra.
    + rewrite (SFleb_value _ _ b a Hb Ha Hge).
      repeat split; try apply Ha; try apply Hb; lra.
Qed.

Lemma min_max_of_lt (a b : float32) :
  finite32 a -> finite32 b ->
  (value a < value b)%Q ->
  IEEE.min a b = a /\ IEEE.max a b = b.
Proof.
  intros Ha Hb Hlt.
  assert (Hna : isNaN a = false) by (destruct a, Ha as [Hf _]; cbn in *; congruence).
  unfold IEEE.min, IEEE.max. rewrite Hna.
  assert (Hz : isZero a && isZero b = false).
  { destruct a; try reflexivity. destruct b; try reflexivity.
    cbn in Hlt. lra. }
  rewrite Hz. cbn [andb].
  rewrite (SFleb_value _ _ a b Ha Hb (Qlt_le_weak _ _ Hlt)).
  rewrite (SFleb_value_false _ _ b a Hb Ha Hlt).
  split; reflexivity.
Qed.

Lemma min_max_swap (a b : float32) :
  finite32 a -> finite32 b ->
  (value b <= value a)%Q ->
  finite32 (IEEE.min a b) /\ finite32 (IEEE.max a b)
  /\ (value (IEEE.min a b) == value b)%Q
  /\ (value (IEEE.max a b) == value a)%Q.
Proof.
  intros Ha Hb Hle.
  assert (Hna : isNaN a = false) by (destruct a, Ha as [Hf _]; cbn in *; congruence).
  unfold IEEE.min, IEEE.max. rewrite Hna.
  destruct (isZero a && isZero b) eqn:Hz.
  - apply andb_true_iff in Hz. destruct Hz as [Hza Hzb].
    assert (Hva : (value a == 0)%Q) by (destruct a; try discriminate; reflexivity).
    assert (Hvb : (value b == 0)%Q) by (destruct b; try discriminate; reflexivity).
    cbn [andb].
    rewrite (SFleb_value _ _ b a Hb Ha Hle).
    assert (Hab : SFleb a b = true)
      by (apply (SFleb_value _ _ a b Ha Hb); lra).
    rewrite Hab.
    destruct (isNegativeZero b), (isNegativeZero a);
      repeat split; try apply Ha; try apply Hb; lra.
  - cbn [andb].
    rewrite (SFleb_value _ _ b a Hb Ha Hle).
    destruct (Qlt_le_dec (value b) (value a)) as [Hlt | Hge].
    + rewrite (SFleb_value_false _ _ a b Ha Hb Hlt).
      repeat split; try apply Ha; try apply Hb; lra.
    + rewrite (SFleb_value _ _ a b Ha Hb Hge).
      repeat split; try apply Ha; try apply Hb; lra.
Qed.

(** ** The literals *)

Lemma literal_3_10 :
  finite32 (decimal 3 10)
  /\ (value (decimal 3 10 : float32) == 5033165 # 16777216)%Q.
Proof. split; [split; reflexivity | vm_compute; reflexivity]. Qed.

Lemma literal_7_10 :
  finite32 (decimal 7 10)
  /\ (value (decimal 7 10 : float32) == 11744051 # 16777216)%Q.
Proof. split; [split; reflexivity | vm_compute; reflexivity]. Qed.

Lemma literal_8_100 :
  finite32 (decimal 8 100)
  /\ (value (decimal 8 100 : float32) == 10737418 # 134217728)%Q.
Proof. split; [split; reflexivity | vm_compute; reflexivity]. Qed.

Lemma literal_1_1000 :
  finite32 (decimal 1 1000)
  /\ (value (decimal 1 1000 : float32) == 8589935 # 8589934592)%Q.
Proof. split; [split; reflexivity | vm_compute; reflexivity]. Qed.

Section Corners.

Variable box : FaceBox (F := float32).

Hypothesis HfaceLeft : finite32 (faceLeft box).
Hypothesis HfaceWidth : finite32 (faceWidth box).

Let L : Q := value (faceLeft box).
Let w : Q := value (faceWidth box).
Let l : Q := Qabs L.
Let a : Q := Qabs w.

Hypothesis Hmax : (l + a <= 85070591730234615865843651857942052864 # 1)%Q.

Let leftEyeX : float32 := (faceLeft box + faceWidth box * decimal 3 10)%flt.
Let rightEyeX : float32 := (faceLeft box + faceWidth box * decimal 7 10)%flt.
Let eyeSpacing : float32 := (faceWidth box * decimal 8 100)%flt.
Let leftEyeOuterX : float32 := (leftEyeX - eyeSpacing)%flt.
Let rightEyeOuterX : float32 := (rightEyeX + eyeSpacing)%flt.

Lemma faceBox_within :
  (- l <= L <= l)%Q /\ (0 <= l)%Q /\ (- a <= w <= a)%Q /\ (0 <= a)%Q.
Proof.
  assert (H : forall q : Q, (- Qabs q <= q <= Qabs q)%Q)
    by (intros q; apply Qabs_Qle_condition, Qle_refl).
  unfold l, a.
  split; [apply H|]. split; [apply Qabs_nonneg|].
  split; [apply H | apply Qabs_nonneg].
Qed.

Lemma eyeSpacing_within :
  finite32 eyeSpacing
  /\ ((10737418 # 134217728) * w - (u * ((9 # 100) * a) + eta)
      <= value eyeSpacing
      <= (10737418 # 134217728) * w + (u * ((9 # 100) * a) + eta))%Q.
Proof.
  destruct faceBox_within as (HL & Hl & Hw & Ha).
  apply times_within; try assumption.
  - apply literal_8_100.
  - fold w. lra.
  - fold w. lra.
  - fold w. rewrite (proj2 literal_8_100). ring.
Qed.

Lemma leftEyeX_within :
  finite32 leftEyeX
  /\ (L + (5033165 # 16777216) * w
        - (u * (l + (32 # 100) * a + eta) + u * ((31 # 100) * a) + 2 * eta)
      <= value leftEyeX
      <= L + (5033165 # 16777216) * w
         + (u * (l + (32 # 100) * a + eta) + u * ((31 # 100) * a) + 2 * eta))%Q.
Proof.
  destruct faceBox_within as (HL & Hl & Hw & Ha).
  assert (Hp : finite32 (faceWidth box * decimal 3 10)%flt
               /\ ((5033165 # 16777216) * w - (u * ((31 # 100) * a) + eta)
                   <= value (faceWidth box * decimal 3 10)%flt
                   <= (5033165 # 16777216) * w + (u * ((31 # 100) * a) + eta))%Q).
  { apply times_within; try assumption.
    - apply literal_3_10.
    - fold w. lra.
    - fold w. lra.
    - fold w. rewrite (proj2 literal_3_10). ring. }
  destruct Hp as [Hpf Hpv].
  set (p := value (faceWidth box * decimal 3 10)%flt) in *.
  assert (Hs : finite32 leftEyeX
               /\ (L + p - (u * (l + (32 # 100) * a + eta) + eta)
                   <= value leftEyeX
                   <= L + p + (u * (l + (32 # 100) * a + eta) + eta))%Q).
  { apply plus_within; try assumption.
    - unfold u, eta in *. fold L. lra.
    - unfold u, eta in *. lra.
    - reflexivity. }
  destruct Hs as [Hsf Hsv]. split; [exact Hsf|].
  unfold u, eta in *. lra.
Qed.

Lemma rightEyeX_within :
  finite32 rightEyeX
  /\ (L + (11744051 # 16777216) * w
        - (u * (l + (72 # 100) * a + eta) + u * ((71 # 100) * a) + 2 * eta)
      <= value rightEyeX
      <= L + (11744051 # 16777216) * w
         + (u * (l + (72 # 100) * a + eta) + u * ((71 # 100) * a) + 2 * eta))%Q.
Proof.
  destruct faceBox_within as (HL & Hl & Hw & Ha).
  assert (Hp : finite32 (faceWidth box * decimal 7 10)%flt
               /\ ((11744051 # 16777216) * w - (u * ((71 # 100) * a) + eta)
                   <= value (faceWidth box * decimal 7 10)%flt
                   <= (11744051 # 16777216) * w + (u * ((71 # 100) * a) + eta))%Q).
  { apply times_within; try assumption.
    - apply literal_7_10.
    - fold w. lra.
    - fold w. lra.
    - fold w. rewrite (proj2 literal_7_10). ring. }
  destruct Hp as [Hpf Hpv].
  set (p := value (faceWidth box * decimal 7 10)%flt) in *.
  assert (Hs : finite32 rightEyeX
               /\ (L + p - (u * (l + (72 # 100) * a + eta) + eta)
                   <= value rightEyeX
                   <= L + p + (u * (l + (72 # 100) * a + eta) + eta))%Q).
  { apply plus_within; try assumption.
    - unfold u, eta in *. fold L. lra.
    - unfold u, eta in *. lra.
    - reflexivity. }
  destruct Hs as [Hsf Hsv]. split; [exact Hsf|].
  unfold u, eta in *. lra.
Qed.

(** The left outer corner is within [u (2.02 l + 1.4 |w|) + 5 eta] of
    [faceLeft + 0.22 w], the right one within
    [u (2.02 l + 2.7 |w|) + 5 eta] of [faceLeft + 0.78 w]. *)
Lemma leftEyeOuterX_within :
  finite32 leftEyeOuterX
  /\ (L + (22 # 100) * w - (u * ((202 # 100) * l + (14 # 10) * a) + 5 * eta)
      <= value leftEyeOuterX
      <= L + (22 # 100) * w + (u * ((202 # 100) * l + (14 # 10) * a) + 5 * eta))%Q.
Proof.
  destruct faceBox_within as (HL & Hl & Hw & Ha).
  destruct leftEyeX_within as [Hxf Hxv].
  destruct eyeSpacing_within as [Hsf Hsv].
  set (c := value leftEyeX) in *. set (s := value eyeSpacing) in *.
  assert (Hr : finite32 leftEyeOuterX
               /\ (c - s - (u * ((101 # 100) * l + (1 # 2) * a + 4 * eta) + eta)
                   <= value leftEyeOuterX
                   <= c - s + (u * ((101 # 100) * l + (1 # 2) * a + 4 * eta) + eta))%Q).
  { apply minus_within; try assumption.
    - unfold u, eta in *. lra.
    - unfold u, eta in *. lra.
    - reflexivity. }
  destruct Hr as [Hrf Hrv]. split; [exact Hrf|].
  unfold u, eta in *. lra.
Qed.

Lemma rightEyeOuterX_within :
  finite32 rightEyeOuterX
  /\ (L + (78 # 100) * w - (u * ((202 # 100) * l + (27 # 10) * a) + 5 * eta)
      <= value rightEyeOuterX
      <= L + (78 # 100) * w + (u * ((202 # 100) * l + (27 # 10) * a) + 5 * eta))%Q.
Proof.
  destruct faceBox_within as (HL & Hl & Hw & Ha).
  destruct rightEyeX_within as [Hxf Hxv].
  destruct eyeSpacing_within as [Hsf Hsv].
  set (c := value rightEyeX) in *. set (s := value eyeSpacing) in *.
  assert (Hr : finite32 rightEyeOuterX
               /\ (c + s - (u * ((101 # 100) * l + a + 4 * eta) + eta)
                   <= value rightEyeOuterX
                   <= c + s + (u * ((101 # 100) * l + a + 4 * eta) + eta))%Q).
  { apply plus_within; try assumption.
    - unfold u, eta in *. lra.
    - unfold u, eta in *. lra.
    - reflexivity. }
  destruct Hr as [Hrf Hrv]. split; [exact Hrf|].
  unfold u, eta in *. lra.
Qed.

(** The difference of the corners, before the last rounding. *)
Lemma corner_difference_within :
  ((56 # 100) * w - (u * ((404 # 100) * l + (41 # 10) * a) + 10 * eta)
   <= value rightEyeOuterX - value leftEyeOuterX
   <= (56 # 100) * w + (u * ((404 # 100) * l + (41 # 10) * a) + 10 * eta))%Q.
Proof.
  destruct faceBox_within as (HL & Hl & Hw & Ha).
  destruct leftEyeOuterX_within as [_ Hlo].
  destruct rightEyeOuterX_within as [_ Hro].
  unfold u, eta in *. lra.
Qed.

(** The sorted span is within [u (4.1 l + 4.7 |w|) + 12 eta] of
    [0.56 |w|]. *)
Lemma eyeSpan_within :
  finite32 (eyeSpan leftEyeOuterX rightEyeOuterX)
  /\ ((56 # 100) * a - (u * ((41 # 10) * l + (47 # 10) * a) + 12 * eta)
      <= value (eyeSpan leftEyeOuterX rightEyeOuterX)
      <= (56 # 100) * a + (u * ((41 # 10) * l + (47 # 10) * a) + 12 * eta))%Q.
Proof.
  destruct faceBox_within as (HL & Hl & Hw & Ha).
  destruct leftEyeOuterX_within as [Hlf _].
  destruct rightEyeOuterX_within as [Hrf _].
  pose proof corner_difference_within as Hd.
  assert (Hwa : (w == a \/ w == - a)%Q).
  { unfold a. destruct (Qlt_le_dec w 0) as [Hneg | Hnn].
    - right. rewrite (Qabs_neg w) by lra. ring.
    - left. rewrite (Qabs_pos w Hnn). reflexivity. }
  unfold eyeSpan. cbn [mathMax mathMin Float32].
  set (lo := leftEyeOuterX) in *. set (ro := rightEyeOuterX) in *.
  destruct (Qlt_le_dec (value ro) (value lo)) as [Hlt | Hle].
  - destruct (min_max_swap lo ro Hlf Hrf (Qlt_le_weak _ _ Hlt))
      as (Hmin & Hmax' & Hvmin & Hvmax).
    assert (Hs : finite32 (IEEE.max lo ro - IEEE.min lo ro)%flt
                 /\ (value lo - value ro
                       - (u * ((1 # 100) * l + (6 # 10) * a + 10 * eta) + eta)
                     <= value (IEEE.max lo ro - IEEE.min lo ro)%flt
                     <= value lo - value ro
                        + (u * ((1 # 100) * l + (6 # 10) * a + 10 * eta) + eta))%Q).
    { apply minus_within; try assumption.
      - destruct Hwa as [Hwa | Hwa]; unfold u, eta in *; lra.
      - unfold u, eta in *. lra.
      - rewrite Hvmin, Hvmax. reflexivity. }
    destruct Hs as [Hsf Hsv]. split; [exact Hsf|].
    destruct Hwa as [Hwa | Hwa]; unfold u, eta in *; lra.
  - destruct (min_max_value lo ro Hlf Hrf Hle)
      as (Hmin & Hmax' & Hvmin & Hvmax).
    assert (Hs : finite32 (IEEE.max lo ro - IEEE.min lo ro)%flt
                 /\ (value ro - value lo
                       - (u * ((1 # 100) * l + (6 # 10) * a + 10 * eta) + eta)
                     <= value (IEEE.max lo ro - IEEE.min lo ro)%flt
                     <= value ro - value lo
                        + (u * ((1 # 100) * l + (6 # 10) * a + 10 * eta) + eta))%Q).
    { apply minus_within; try assumption.
      - destruct Hwa as [Hwa | Hwa]; unfold u, eta in *; lra.
      - unfold u, eta in *. lra.
      - rewrite Hvmin, Hvmax. reflexivity. }
    destruct Hs as [Hsf Hsv]. split; [exact Hsf|].
    destruct Hwa as [Hwa | Hwa]; unfold u, eta in *; lra.
Qed.

(** When [0.56 w] exceeds [0.001] by the bound on the rounding errors,
    the corners are in order and the span exceeds [0.001f]. *)
Lemma corners_ordered :
  ((1 # 1000) + (1 # 1048576) * (l + w) <= (56 # 100) * w)%Q ->
  IEEE.min leftEyeOuterX rightEyeOuterX = leftEyeOuterX
  /\ IEEE.max leftEyeOuterX rightEyeOuterX = rightEyeOuterX
  /\ (value leftEyeOuterX < value rightEyeOuterX)%Q
  /\ SFltb (decimal 1 1000) (eyeSpan leftEyeOuterX rightEyeOuterX) = true.
Proof.
  intros H.
  destruct faceBox_within as (HL & Hl & Hw & Ha).
  assert (Hpos : (0 < w)%Q).
  { destruct (Qlt_le_dec 0 w) as [|Hneg]; [assumption|]. exfalso. lra. }
  assert (Hwa : (a == w)%Q) by (unfold a; apply Qabs_pos; lra).
  destruct leftEyeOuterX_within as [Hlf _].
  destruct rightEyeOuterX_within as [Hrf _].
  pose proof corner_difference_within as Hd.
  destruct eyeSpan_within as [Hsf Hsv].
  assert (Hlt : (value leftEyeOuterX < value rightEyeOuterX)%Q)
    by (unfold u, eta in *; lra).
  destruct (min_max_of_lt _ _ Hlf Hrf Hlt) as [Hmin Hmax'].
  repeat split; try assumption.
  apply (SFltb_value Binary32.prec Binary32.emax);
    [apply literal_1_1000 | exact Hsf |].
  rewrite (proj2 literal_1_1000). unfold u, eta in *. lra.
Qed.

End Corners.

Lemma pow2_126 :
  (pow2 126 == 85070591730234615865843651857942052864 # 1)%Q.
Proof. vm_compute; reflexivity. Qed.

Lemma pow2_m20 : (pow2 (-20) == 8 * u)%Q.
Proof. vm_compute; reflexivity. Qed.

Lemma pow2_m21 : (pow2 (-21) == 4 * u)%Q.
Proof. vm_compute; reflexivity. Qed.

Lemma pow2_m145 : (pow2 (-145) == 16 * eta)%Q.
Proof. vm_compute; reflexivity. Qed.

Lemma pow2_m146 : (pow2 (-146) == 8 * eta)%Q.
Proof. vm_compute; reflexivity. Qed.

(** C10.  In binary32, for a face box whose left edge and width [w > 0]
    are finite, with [|faceLeft| + w <= 2^126]: the outer eye corners
    passed to the gaze normalizer are finite and within
    [2^-21 (|faceLeft| + w) + 2^-146] of [faceLeft + 0.22 w] and
    [faceLeft + 0.78 w], and their sorted span is within
    [2^-20 (|faceLeft| + w) + 2^-145] of [0.56 w]; consequently, whenever
    [0.56 w >= 0.001 + 2^-20 (|faceLeft| + w)], the corners are in order,
    the span exceeds [0.001f] and the normalizer applies the division
    formula. *)
Theorem outer_corner_span_within_rounding
    (bitmap : Bitmap) (box : FaceBox (F := float32))
    (bestConfidence : float32) (now nano : Z) :
  let landmarks := eyeLandmarksOfFace bitmap box bestConfidence now nano in
  let leftEyeOuterX := x (outerCorner (leftEye landmarks)) in
  let rightEyeOuterX := x (outerCorner (rightEye landmarks)) in
  let irisX :=
    ((x (iris (leftEye landmarks)) + x (iris (rightEye landmarks)))
     / toFloat 2)%flt in
  let span := eyeSpan leftEyeOuterX rightEyeOuterX in
  let left_ := value (faceLeft box) in
  let w := value (faceWidth box) in
  finite32 (faceLeft box) -> finite32 (faceWidth box) ->
  (0 < w)%Q -> (Qabs left_ + w <= pow2 126)%Q ->
  finite32 leftEyeOuterX /\ finite32 rightEyeOuterX /\ finite32 span
  /\ (Qabs (value leftEyeOuterX - (left_ + (22 # 100) * w))
      <= pow2 (-21) * (Qabs left_ + w) + pow2 (-146))%Q
  /\ (Qabs (value rightEyeOuterX - (left_ + (78 # 100) * w))
      <= pow2 (-21) * (Qabs left_ + w) + pow2 (-146))%Q
  /\ (Qabs (value span - (56 # 100) * w)
      <= pow2 (-20) * (Qabs left_ + w) + pow2 (-145))%Q
  /\ (((1 # 1000) + pow2 (-20) * (Qabs left_ + w) <= (56 # 100) * w)%Q ->
      (value leftEyeOuterX < value rightEyeOuterX)%Q
      /\ span = (rightEyeOuterX - leftEyeOuterX)%flt
      /\ (span > decimal 1 1000)%flt = true
      /\ gazeData landmarks
         = Some {| normalizedGazeX :=
                     (mathMax (- toFloat 1)
                        (mathMin (toFloat 1)
                           (toFloat 2 * ((irisX - leftEyeOuterX) / span)
                            - toFloat 1)))%flt;
                   rawGazeX := irisX;
                   leftEyeX := leftEyeOuterX;
                   rightEyeX := rightEyeOuterX;
                   gazeConfidence := bestConfidence |}).
Proof.
  intros landmarks lo ro irisX span left_ w HL Hw Hpos Hmax.
  rewrite pow2_126 in Hmax.
  assert (Hwa : (Qabs w == w)%Q) by (apply Qabs_pos; lra).
  rewrite <- Hwa in Hmax at 1.
  destruct (faceBox_within box) as (Hl & Hl0 & _ & _). fold left_ in Hl, Hl0.
  destruct (leftEyeOuterX_within box HL Hw Hmax) as [Hlf Hlv].
  destruct (rightEyeOuterX_within box HL Hw Hmax) as [Hrf Hrv].
  destruct (eyeSpan_within box HL Hw Hmax) as [Hsf Hsv].
  change (faceLeft box + faceWidth box * decimal 3 10
          - faceWidth box * decimal 8 100)%flt with lo in *.
  change (faceLeft box + faceWidth box * decimal 7 10
          + faceWidth box * decimal 8 100)%flt with ro in *.
  fold span in Hsf, Hsv. fold left_ w in Hlv, Hrv, Hsv.
  rewrite pow2_m20, pow2_m21, pow2_m145, pow2_m146.
  split; [exact Hlf|]. split; [exact Hrf|]. split; [exact Hsf|].
  split; [apply Qabs_Qle_condition; unfold u, eta in *; lra|].
  split; [apply Qabs_Qle_condition; unfold u, eta in *; lra|].
  split; [apply Qabs_Qle_condition; unfold u, eta in *; lra|].
  intros H.
  assert (H' : ((1 # 1000) + (1 # 1048576) * (Qabs left_ + w)
                <= (56 # 100) * w)%Q) by (unfold u in H; lra).
  destruct (corners_ordered box HL Hw Hmax H')
    as (Hmin & Hmax' & Hlt & Hgt).
  change (faceLeft box + faceWidth box * decimal 3 10
          - faceWidth box * decimal 8 100)%flt with lo in *.
  change (faceLeft box + faceWidth box * decimal 7 10
          + faceWidth box * decimal 8 100)%flt with ro in *.
  fold span in Hgt.
  assert (Hspan : span = (ro - lo)%flt).
  { unfold span, eyeSpan. cbn [mathMax mathMin Float32].
    rewrite Hmin, Hmax'. reflexivity. }
  split; [exact Hlt|]. split; [exact Hspan|]. split; [exact Hgt|].
  unfold landmarks, eyeLandmarksOfFace. cbn [gazeData].
  unfold calculateNormalizedGaze. cbn [mathMax mathMin Float32].
  f_equal.
  change (faceLeft box + faceWidth box * decimal 3 10
          - faceWidth box * decimal 8 100)%flt with lo.
  change (faceLeft box + faceWidth box * decimal 7 10
          + faceWidth box * decimal 8 100)%flt with ro.
  rewrite Hmin, Hmax'. rewrite <- Hspan.
  change (lt (decimal 1 1000) span) with (SFltb (decimal 1 1000) span).
  rewrite Hgt. reflexivity.
Qed.

(** The sample face: 100 wide with its left edge at 170. *)
Lemma outer_corner_span_within_rounding_witness :
  let landmarks := eyeLandmarksOfFace blankBitmap sampleBox (toFloat 1) 7 9 in
  let span := eyeSpan (x (outerCorner (leftEye landmarks)))
                      (x (outerCorner (rightEye landmarks))) in
  finite32 (faceLeft sampleBox) /\ finite32 (faceWidth sampleBox)
  /\ (value (faceWidth sampleBox) == 100 # 1)%Q
  /\ (value (faceLeft sampleBox) == 170 # 1)%Q
  /\ (Qabs (value span - (56 # 1)) <= 1 # 1000)%Q
  /\ (span > decimal 1 1000)%flt = true.
Proof.
  assert (HL : finite32 (faceLeft sampleBox)) by (split; reflexivity).
  assert (Hw : finite32 (faceWidth sampleBox)) by (split; reflexivity).
  assert (Hpos : (0 < value (faceWidth sampleBox))%Q) by reflexivity.
  assert (Hmax : (Qabs (value (faceLeft sampleBox)) + value (faceWidth sampleBox)
                  <= pow2 126)%Q) by (vm_compute; discriminate).
  destruct (outer_corner_span_within_rounding blankBitmap sampleBox
              (toFloat 1) 7 9 HL Hw Hpos Hmax)
    as (_ & _ & _ & _ & _ & Hspan & Hdiv).
  assert (H : ((1 # 1000)
               + pow2 (-20) * (Qabs (value (faceLeft sampleBox))
                               + value (faceWidth sampleBox))
               <= (56 # 100) * value (faceWidth sampleBox))%Q)
    by (vm_compute; discriminate).
  destruct (Hdiv H) as (_ & _ & Hgt & _).
  split; [exact HL|]. split; [exact Hw|].
  split; [vm_compute; reflexivity|]. split; [vm_compute; reflexivity|].
  split; [vm_compute; discriminate | exact Hgt].
Defined.


(** The threshold [0.001/0.56] itself does not do: [thinBox] is at the
    left edge of the image and its width exceeds [0.001/0.56], yet the
    rounded span, [8589934 * 2^-33], is below [0.001f], which is
    [8589935 * 2^-33], and the normalizer takes its degenerate branch. *)
Lemma outer_corner_span_below_epsilon_past_threshold :
  let landmarks := eyeLandmarksOfFace blankBitmap thinBox (toFloat 1) 7 9 in
  let span := eyeSpan (x (outerCorner (leftEye landmarks)))
                      (x (outerCorner (rightEye landmarks))) in
  ((1 # 1000) / (56 # 100) < value (faceWidth thinBox))%Q
  /\ span = S754_finite false 8589934 (-33)
  /\ (span > decimal 1 1000)%flt = false
  /\ option_map normalizedGazeX (gazeData landmarks) = Some (S754_zero false).
Proof. repeat apply conj; vm_compute; reflexivity. Qed.

End OuterCornerProps.

(* ===================================================================== *)
(** * GazeNormalizer in the pipeline: finite arguments                    *)
(* ===================================================================== *)

Module GazePipelineProps.


Import IEEE IEEEFacts TensorFlowProcessor GazeVocabulary FrameSamples.
Import FloatValue FloatValueFacts FloatOperations FloatDivision.
Import OuterCornerProps PipelineVocabulary.

Abbreviation float32 := Binary32.float32.
Abbreviation finite32 := (representable Binary32.prec Binary32.emax).

Lemma fold_left_invariant_in {A B : Type} (P : A -> Prop) (f : A -> B -> A)
    (l : list B) :
  (forall a b, In b l -> P a -> P (f a b)) ->
  forall a, P a -> P (fold_left f l a).
Proof.
  induction l as [|b l IH]; intros H a Ha; cbn [fold_left]; [exact Ha|].
  apply IH.
  - intros a' b' Hin. apply H. right. exact Hin.
  - apply H; [left; reflexivity | exact Ha].
Qed.

(** ** The columns of the image as floats *)

Lemma toFloat_column (px : Z) :
  0 <= px < 2 ^ 31 ->
  finite32 (toFloat px)
  /\ (Qabs (value (toFloat px : float32)) <= 4294967296 # 1)%Q.
Proof.
  intros Hpx. cbn [toFloat Float32]. unfold Binary32.ofInt.
  assert (Hv : (inject_Z px * pow2 0 == inject_Z px)%Q)
    by (change (pow2 0) with 1%Q; ring).
  assert (Hnn : (0 <= inject_Z px <= 2147483648 # 1)%Q).
  { change 0%Q with (inject_Z 0).
    change (2147483648 # 1)%Q with (inject_Z (2 ^ 31)).
    rewrite <- !Zle_Qle. lia. }
  assert (Hmax : (Qabs (inject_Z px * pow2 0) < pow2 (Binary32.emax - 1))%Q).
  { rewrite Hv, Qabs_pos by lra. rewrite pow2_127. lra. }
  destruct (binary_normalize_value Binary32.prec Binary32.emax eq_refl eq_refl px 0 Hmax)
    as [Hrep Herr].
  split; [exact Hrep|].
  rewrite roundingError_binary32 in Herr.
  assert (Hu : (Qabs (inject_Z px * pow2 0) == inject_Z px)%Q)
    by (rewrite Hv; apply Qabs_pos; lra).
  rewrite Hu, Hv in Herr.
  apply Qabs_Qle_condition in Herr. apply Qabs_Qle_condition.
  unfold u, eta in Herr. lra.
Qed.

(** ** The clamp of the movement *)

Lemma clamp_magnitude (m v : float32) :
  finite32 m -> finite32 v ->
  finite32 (IEEE.max (SFopp m) (IEEE.min m v))
  /\ (Qabs (value (IEEE.max (SFopp m) (IEEE.min m v))) <= Qabs (value m))%Q.
Proof.
  intros Hm Hv.
  assert (Hmin : finite32 (IEEE.min m v)
                 /\ (value (IEEE.min m v) <= value m)%Q).
  { destruct (Qlt_le_dec (value v) (value m)) as [Hlt | Hle].
    - destruct (min_max_swap m v Hm Hv (Qlt_le_weak _ _ Hlt))
        as (Hf & _ & Hval & _).
      split; [exact Hf | lra].
    - destruct (min_max_value m v Hm Hv Hle) as (Hf & _ & Hval & _).
      split; [exact Hf | lra]. }
  destruct Hmin as [Htf Htv].
  set (t := IEEE.min m v) in *.
  pose proof (representable_opp _ _ m Hm) as Hom.
  pose proof (value_opp m) as Hov.
  assert (Habs : (- Qabs (value m) <= value m <= Qabs (value m))%Q)
    by (apply Qabs_Qle_condition, Qle_refl).
  destruct (Qlt_le_dec (value t) (value (SFopp m))) as [Hlt | Hle].
  - destruct (min_max_swap (SFopp m) t Hom Htf (Qlt_le_weak _ _ Hlt))
      as (_ & Hf & _ & Hval).
    split; [exact Hf|]. rewrite Hval, Hov, Qabs_opp. apply Qle_refl.
  - destruct (min_max_value (SFopp m) t Hom Htf Hle) as (_ & Hf & _ & Hval).
    split; [exact Hf|]. rewrite Hval. apply Qabs_Qle_condition. lra.
Qed.

(** ** The iris position is finite *)

Section Iris.

Variable bitmap : Bitmap.
Variables eyeCenterX eyeCenterY eyeRegionSize : float32.

Hypothesis Hcenter : finite32 eyeCenterX.
Hypothesis Hsize : finite32 eyeRegionSize.

Let B : Q := (Qabs (value eyeCenterX) + Qabs (value eyeRegionSize))%Q.

Hypothesis Hbound : (B <= 63802943797675961899382738893456539648 # 1)%Q.

Let held (darkestX : float32) : Prop :=
  finite32 darkestX
  /\ (Qabs (value darkestX) <= Qabs (value eyeCenterX) + (4294967296 # 1))%Q.

Lemma scanPixel_held (scanY px : Z) (st : Try (float32 * float32)) :
  0 <= px < 2 ^ 31 ->
  scanHolds held st -> scanHolds held (scanPixel bitmap scanY st px).
Proof.
  intros Hpx. unfold scanPixel.
  destruct st as [[darkestX darkestIntensity]|]; [|intros _; exact I].
  cbn [bindTry scanHolds]. intros H.
  destruct (getPixel bitmap px scanY) as [pixel|]; cbn [bindTry]; [|exact I].
  match goal with |- context [if ?c then _ else _] => destruct c end;
    cbn [scanHolds]; [|exact H].
  destruct (toFloat_column px Hpx) as [Hf Hv]. split; [exact Hf|].
  pose proof (Qabs_nonneg (value eyeCenterX)). lra.
Qed.

Lemma scanLine_held (left_ top_ right_ bottom_ lineSpacing lineIdx : Z)
    (st : Try (float32 * float32)) :
  0 <= left_ -> right_ <= 2 ^ 31 ->
  scanHolds held st ->
  scanHolds held
    (scanLine bitmap left_ top_ right_ bottom_ lineSpacing st lineIdx).
Proof.
  intros Hl Hr H. unfold scanLine.
  match goal with |- context [if ?c then _ else _] => destruct c end;
    [|exact H].
  apply fold_left_invariant_in; [|exact H].
  intros a px Hin. apply EyeGeometryProps.In_until in Hin.
  apply scanPixel_held. lia.
Qed.

Lemma detectIrisInEyeRegion_finite :
  let irisX := detectIrisInEyeRegion bitmap eyeCenterX eyeCenterY eyeRegionSize in
  finite32 irisX /\ (Qabs (value irisX) <= (101 # 100) * B + 1)%Q.
Proof.
  pose proof (Qabs_nonneg (value eyeCenterX)) as Hc0.
  pose proof (Qabs_nonneg (value eyeRegionSize)) as Hs0.
  assert (Hself : finite32 eyeCenterX
                  /\ (Qabs (value eyeCenterX) <= (101 # 100) * B + 1)%Q)
    by (split; [exact Hcenter | unfold B; lra]).
  cbn zeta. unfold detectIrisInEyeRegion, eyeRegionBounds.
  set (left_ := Z.max 0 _). set (top_ := Z.max 0 _).
  set (right_ := Z.min (width bitmap) _).
  set (bottom_ := Z.min (height bitmap) _).
  destruct ((right_ <=? left_) || (bottom_ <=? top_)); [exact Hself|].
  assert (Hl : 0 <= left_) by (unfold left_; lia).
  assert (Hr : right_ <= 2 ^ 31).
  { unfold right_.
    match goal with |- Z.min _ (toInt ?v) <= _ =>
      pose proof (EyeGeometryProps.toInt_range v) as Ht end.
    unfold Int32.MAX_VALUE in Ht. lia. }
  match goal with
  | |- context [fold_left ?f ?lines ?init] =>
      assert (Hheld : scanHolds held (fold_left f lines init))
  end.
  { apply fold_left_invariant_in.
    - intros a lineIdx _. apply scanLine_held; assumption.
    - cbn [scanHolds]. split; [exact Hcenter | lra]. }
  match goal with
  | |- context [fold_left ?f ?lines ?init] =>
      destruct (fold_left f lines init) as [[darkestX darkestIntensity]|]
  end; [|exact Hself].
  cbn [scanHolds] in Hheld. destruct Hheld as [Hdf Hdv].
  (* the movement *)
  assert (Hmove : finite32 (darkestX - eyeCenterX)%flt).
  { apply Qabs_Qle_condition in Hdv.
    assert (Hcc : (- Qabs (value eyeCenterX) <= value eyeCenterX
                   <= Qabs (value eyeCenterX))%Q)
      by (apply Qabs_Qle_condition, Qle_refl).
    refine (proj1 (minus_within darkestX eyeCenterX Hdf Hcenter
                     (value darkestX - value eyeCenterX)
                     (2 * Qabs (value eyeCenterX) + (4294967296 # 1)) _ _ _)).
    - lra.
    - unfold B in Hbound. lra.
    - reflexivity. }
  (* the largest movement *)
  assert (Hhalf : finite32 (decimal 5 10)
                  /\ (value (decimal 5 10 : float32) == 1 # 2)%Q)
    by (split; [split; reflexivity | vm_compute; reflexivity]).
  assert (Hss : (- Qabs (value eyeRegionSize) <= value eyeRegionSize
                 <= Qabs (value eyeRegionSize))%Q)
    by (apply Qabs_Qle_condition, Qle_refl).
  assert (Hmm : finite32 (eyeRegionSize * decimal 5 10)%flt
                /\ ((1 # 2) * value eyeRegionSize
                      - (u * Qabs (value eyeRegionSize) + eta)
                    <= value (eyeRegionSize * decimal 5 10)%flt
                    <= (1 # 2) * value eyeRegionSize
                       + (u * Qabs (value eyeRegionSize) + eta))%Q).
  { apply times_within; try assumption.
    - apply Hhalf.
    - lra.
    - unfold B in Hbound. lra.
    - rewrite (proj2 Hhalf). ring. }
  destruct Hmm as [Hmf Hmv].
  destruct (clamp_magnitude _ _ Hmf Hmove) as [Hcf Hcv].
  cbn [mathMax mathMin unaryMinus Float32].
  set (clamped := IEEE.max (SFopp (eyeRegionSize * decimal 5 10)%flt)
                    (IEEE.min (eyeRegionSize * decimal 5 10)%flt
                       (darkestX - eyeCenterX)%flt)) in *.
  assert (Hmabs : (Qabs (value (eyeRegionSize * decimal 5 10)%flt)
                   <= (1 # 2) * Qabs (value eyeRegionSize)
                      + (u * Qabs (value eyeRegionSize) + eta))%Q)
    by (apply Qabs_Qle_condition; lra).
  assert (Hcc : (- Qabs (value eyeCenterX) <= value eyeCenterX
                 <= Qabs (value eyeCenterX))%Q)
    by (apply Qabs_Qle_condition, Qle_refl).
  apply Qabs_Qle_condition in Hcv.
  destruct (plus_within eyeCenterX clamped Hcenter Hcf
              (value eyeCenterX + value clamped) (B + eta)) as [Hif Hiv].
  - unfold B, u, eta in *. lra.
  - unfold B, u, eta in *. lra.
  - reflexivity.
  - split; [exact Hif|]. apply Qabs_Qle_condition.
    unfold B, u, eta in *. lra.
Qed.

End Iris.

(** ** The four arguments of the normalizer are finite *)

Lemma literal_15_100 :
  finite32 (decimal 15 100)
  /\ (value (decimal 15 100 : float32) == 10066330 # 67108864)%Q.
Proof. split; [split; reflexivity | vm_compute; reflexivity]. Qed.

Lemma half_finite (v : float32) :
  finite32 v ->
  (Qabs (value v) <= 170141183460469231731687303715884105727 # 1)%Q ->
  finite32 (v / toFloat 2)%flt.
Proof.
  intros Hv Hb. cbn [divide Float32].
  assert (H2 : finite32 (toFloat 2)
               /\ (value (toFloat 2 : float32) == 2)%Q)
    by (split; [split; reflexivity | vm_compute; reflexivity]).
  destruct H2 as [H2f H2v].
  refine (proj1 (SFdiv_value Binary32.prec Binary32.emax eq_refl eq_refl
                   v (toFloat 2) Hv H2f _ _)).
  - rewrite H2v. intros E. discriminate E.
  - rewrite H2v, pow2_127. unfold Qdiv. rewrite Qabs_Qmult.
    change (Qabs (/ 2)) with (1 # 2)%Q. lra.
Qed.

Section Pipeline.

Variable bitmap : Bitmap.
Variable box : FaceBox (F := float32).
Variable bestConfidence : float32.
Variables now nano : Z.

Hypothesis HfaceLeft : finite32 (faceLeft box).
Hypothesis HfaceWidth : finite32 (faceWidth box).
Hypothesis Hmax :
  (Qabs (value (faceLeft box)) + Qabs (value (faceWidth box))
   <= 42535295865117307932921825928971026432 # 1)%Q.

Lemma iris_finite (eyeX : float32) :
  finite32 eyeX ->
  (Qabs (value eyeX)
   <= (101 # 100) * Qabs (value (faceLeft box))
      + (8 # 10) * Qabs (value (faceWidth box)) + 1)%Q ->
  let irisX :=
    detectIrisInEyeRegion bitmap eyeX
      (faceTop box + faceHeight box * decimal 35 100)%flt
      (faceWidth box * decimal 15 100)%flt in
  finite32 irisX
  /\ (Qabs (value irisX) <= 44000000000000000000000000000000000000 # 1)%Q.
Proof.
  intros Hx Hxv irisX.
  pose proof (Qabs_nonneg (value (faceLeft box))) as Hl0.
  pose proof (Qabs_nonneg (value (faceWidth box))) as Ha0.
  assert (Hww : (- Qabs (value (faceWidth box)) <= value (faceWidth box)
                 <= Qabs (value (faceWidth box)))%Q)
    by (apply Qabs_Qle_condition, Qle_refl).
  assert (Hs : finite32 (faceWidth box * decimal 15 100)%flt
               /\ ((10066330 # 67108864) * value (faceWidth box)
                     - (u * ((16 # 100) * Qabs (value (faceWidth box))) + eta)
                   <= value (faceWidth box * decimal 15 100)%flt
                   <= (10066330 # 67108864) * value (faceWidth box)
                      + (u * ((16 # 100) * Qabs (value (faceWidth box))) + eta))%Q).
  { apply times_within; try assumption.
    - apply literal_15_100.
    - lra.
    - lra.
    - rewrite (proj2 literal_15_100). ring. }
  destruct Hs as [Hsf Hsv].
  assert (Hsabs : (Qabs (value (faceWidth box * decimal 15 100)%flt)
                   <= (17 # 100) * Qabs (value (faceWidth box)) + 1)%Q)
    by (apply Qabs_Qle_condition; unfold u, eta in *; lra).
  destruct (detectIrisInEyeRegion_finite bitmap eyeX
              (faceTop box + faceHeight box * decimal 35 100)%flt
              (faceWidth box * decimal 15 100)%flt Hx Hsf) as [Hif Hiv].
  - lra.
  - split; [exact Hif|]. fold irisX in Hiv. lra.
Qed.

Lemma eyeLandmarksOfFace_arguments_finite :
  let landmarks := eyeLandmarksOfFace bitmap box bestConfidence now nano in
  let leftEyeOuterX := x (outerCorner (leftEye landmarks)) in
  let rightEyeOuterX := x (outerCorner (rightEye landmarks)) in
  let irisX :=
    ((x (iris (leftEye landmarks)) + x (iris (rightEye landmarks)))
     / toFloat 2)%flt in
  gazeData landmarks
  = Some (calculateNormalizedGaze irisX leftEyeOuterX rightEyeOuterX
            bestConfidence)
  /\ finite32 irisX /\ finite32 leftEyeOuterX /\ finite32 rightEyeOuterX
  /\ finite32 (eyeSpan leftEyeOuterX rightEyeOuterX).
Proof.
  pose proof (Qabs_nonneg (value (faceLeft box))) as Hl0.
  pose proof (Qabs_nonneg (value (faceWidth box))) as Ha0.
  assert (Hmax' : (Qabs (value (faceLeft box)) + Qabs (value (faceWidth box))
                   <= 85070591730234615865843651857942052864 # 1)%Q) by lra.
  assert (Hll : (- Qabs (value (faceLeft box)) <= value (faceLeft box)
                 <= Qabs (value (faceLeft box)))%Q)
    by (apply Qabs_Qle_condition, Qle_refl).
  assert (Hww : (- Qabs (value (faceWidth box)) <= value (faceWidth box)
                 <= Qabs (value (faceWidth box)))%Q)
    by (apply Qabs_Qle_condition, Qle_refl).
  destruct (leftEyeX_within box HfaceLeft HfaceWidth Hmax') as [Hlf Hlv].
  destruct (rightEyeX_within box HfaceLeft HfaceWidth Hmax') as [Hrf Hrv].
  destruct (leftEyeOuterX_within box HfaceLeft HfaceWidth Hmax') as [Hlof _].
  destruct (rightEyeOuterX_within box HfaceLeft HfaceWidth Hmax') as [Hrof _].
  destruct (eyeSpan_within box HfaceLeft HfaceWidth Hmax') as [Hsf _].
  destruct (iris_finite _ Hlf) as [Hlif Hliv].
  { apply Qabs_Qle_condition. unfold u, eta in *. lra. }
  destruct (iris_finite _ Hrf) as [Hrif Hriv].
  { apply Qabs_Qle_condition. unfold u, eta in *. lra. }
  cbn zeta. unfold eyeLandmarksOfFace.
  cbn [gazeData leftEye rightEye iris outerCorner x].
  split; [reflexivity|].
  split; [|split; [exact Hlof | split; [exact Hrof | exact Hsf]]].
  apply Qabs_Qle_condition in Hliv. apply Qabs_Qle_condition in Hriv.
  match goal with
  | |- finite32 ((?li + ?ri) / toFloat 2)%flt =>
      destruct (plus_within li ri Hlif Hrif (value li + value ri)
                  (88000000000000000000000000000000000000 # 1))
        as [Hsumf Hsumv]
  end.
  - lra.
  - lra.
  - reflexivity.
  - apply half_finite; [exact Hsumf|].
    apply Qabs_Qle_condition. unfold u, eta in *. lra.
Qed.

End Pipeline.

Lemma pow2_125 :
  (pow2 125 == 42535295865117307932921825928971026432 # 1)%Q.
Proof. vm_compute; reflexivity. Qed.

(** X25.  In the pipeline, for every face box whose left edge and width
    are finite with [|faceLeft| + |w| <= 2^125], the iris position and the
    outer corners that [processBlazeFaceDetections] passes to
    [calculateNormalizedGaze] are finite, whatever the pixels of the
    bitmap, and so is the sorted span of the corners; hence the
    [normalizedGazeX] of the gaze data lies in [[-1, 1]]. *)
Theorem eyeLandmarksOfFace_gaze_in_range
    (bitmap : Bitmap) (box : FaceBox (F := float32))
    (bestConfidence : float32) (now nano : Z) :
  finite32 (faceLeft box) -> finite32 (faceWidth box) ->
  (Qabs (value (faceLeft box)) + Qabs (value (faceWidth box)) <= pow2 125)%Q ->
  let landmarks := eyeLandmarksOfFace bitmap box bestConfidence now nano in
  let leftEyeOuterX := x (outerCorner (leftEye landmarks)) in
  let rightEyeOuterX := x (outerCorner (rightEye landmarks)) in
  exists gaze : GazeData,
    gazeData landmarks = Some gaze
    /\ isFinite (rawGazeX gaze) = true
    /\ isFinite leftEyeOuterX = true
    /\ isFinite rightEyeOuterX = true
    /\ isFinite (eyeSpan leftEyeOuterX rightEyeOuterX) = true
    /\ SFleb (- toFloat 1)%flt (normalizedGazeX gaze) = true
    /\ SFleb (normalizedGazeX gaze) (toFloat 1) = true.
Proof.
  intros HL Hw Hmax. rewrite pow2_125 in Hmax.
  destruct (eyeLandmarksOfFace_arguments_finite bitmap box bestConfidence
              now nano HL Hw Hmax)
    as (Hgaze & [Hi _] & [Hl _] & [Hr _] & [Hs _]).
  cbn zeta. eexists. split; [exact Hgaze|].
  split; [exact Hi|]. split; [exact Hl|]. split; [exact Hr|].
  split; [exact Hs|].
  exact (GazeNormalizerProps.calculateNormalizedGaze_in_range _ _ _ _
           Hi Hl Hr Hs).
Qed.

(** The sample face on a bitmap with one dark pixel in the left eye
    region. *)
Lemma eyeLandmarksOfFace_gaze_in_range_witness :
  finite32 (faceLeft sampleBox) /\ finite32 (faceWidth sampleBox)
  /\ exists gaze : GazeData,
       gazeData (eyeLandmarksOfFace darkSpotBitmap sampleBox (toFloat 1) 7 9)
       = Some gaze
       /\ SFleb (- toFloat 1)%flt (normalizedGazeX gaze) = true
       /\ SFleb (normalizedGazeX gaze) (toFloat 1) = true.
Proof.
  assert (HL : finite32 (faceLeft sampleBox)) by (split; reflexivity).
  assert (Hw : finite32 (faceWidth sampleBox)) by (split; reflexivity).
  assert (Hmax : (Qabs (value (faceLeft sampleBox))
                  + Qabs (value (faceWidth sampleBox)) <= pow2 125)%Q)
    by (vm_compute; discriminate).
  split; [exact HL|]. split; [exact Hw|].
  destruct (eyeLandmarksOfFace_gaze_in_range darkSpotBitmap sampleBox
              (toFloat 1) 7 9 HL Hw Hmax)
    as (gaze & Hgaze & _ & _ & _ & _ & Hlo & Hhi).
  exists gaze. split; [exact Hgaze|]. split; assumption.
Defined.

End GazePipelineProps.

(* ===================================================================== *)
(** * CalibrationEngine: the closed form on the gaze of the processor     *)
(* ===================================================================== *)

Module RegressionProps.


Import IEEE IEEEFacts Number CalibrationScreen RegressionVocabulary.
Import FloatValue RoundingCases FloatValueFacts FloatOperations FloatDivision.

Abbreviation finite64 := (representable Number.prec Number.emax).

Lemma prec64 : 0 < Number.prec.
Proof. reflexivity. Qed.

Lemma emax64 : Number.prec < Number.emax.
Proof. reflexivity. Qed.

Lemma roundingError_binary64 (v : Q) :
  (roundingError Number.prec Number.emax v <= u64 * Qabs v + tiny)%Q.
Proof.
  unfold roundingError.
  assert (H1 : (pow2 (1 - Number.prec) == u64)%Q) by (vm_compute; reflexivity).
  assert (H2 : (pow2 (emin Number.prec Number.emax) <= tiny)%Q).
  { assert (Ht : (tiny == pow2 (-64))%Q) by (vm_compute; reflexivity).
    rewrite Ht. apply pow2_le. vm_compute. discriminate. }
  rewrite H1. lra.
Qed.

Lemma below_overflow64 (C : Q) :
  (C <= 18446744073709551616 # 1)%Q -> (C < pow2 (Number.emax - 1))%Q.
Proof.
  intros H.
  assert (Ht : ((18446744073709551616 # 1) == pow2 64)%Q)
    by (vm_compute; reflexivity).
  rewrite Ht in H. apply Qle_lt_trans with (pow2 64); [exact H|].
  apply pow2_lt. reflexivity.
Qed.

(** One rounded operation whose exact result [V] has magnitude at most
    [B]. *)
Lemma rounded_boundedBy (r : number) (V B C : Q) :
  finite64 r ->
  (Qabs (value r - V) <= roundingError Number.prec Number.emax V)%Q ->
  (Qabs V <= B)%Q -> (B * (1 + u64) + tiny <= C)%Q ->
  boundedBy C r.
Proof.
  intros Hr Herr HV HC. split; [exact Hr|].
  pose proof (roundingError_binary64 V) as He.
  assert (Hu : (u64 * Qabs V <= u64 * B)%Q)
    by (apply Qmult_le_l; [reflexivity | exact HV]).
  assert (Htri : (Qabs (value r) <= Qabs V + Qabs (value r - V))%Q).
  { setoid_replace (value r) with (V + (value r - V))%Q at 1 by ring.
    apply Qabs_triangle. }
  lra.
Qed.

Section Operations.

Variables x y : number.
Variables A B C : Q.
Hypothesis Hx : boundedBy A x.
Hypothesis Hy : boundedBy B y.
Hypothesis HC : (C <= 18446744073709551616 # 1)%Q.

Lemma add_boundedBy :
  ((A + B) * (1 + u64) + tiny <= C)%Q -> boundedBy C (x + y)%num.
Proof.
  intros H. destruct Hx as [Hxf Hxv], Hy as [Hyf Hyv].
  assert (HV : (Qabs (value x + value y) <= A + B)%Q).
  { apply Qle_trans with (Qabs (value x) + Qabs (value y))%Q;
      [apply Qabs_triangle | lra]. }
  assert (Hmax : (Qabs (value x + value y) < pow2 (Number.emax - 1))%Q).
  { apply Qle_lt_trans with C; [|apply below_overflow64; exact HC].
    unfold u64, tiny in H.
    assert (0 <= A + B)%Q
      by (pose proof (Qabs_nonneg (value x + value y)); lra).
    lra. }
  destruct (SFadd_value _ _ prec64 emax64 x y Hxf Hyf Hmax) as [Hrep Herr].
  exact (rounded_boundedBy _ _ _ _ Hrep Herr HV H).
Qed.

Lemma sub_boundedBy :
  ((A + B) * (1 + u64) + tiny <= C)%Q -> boundedBy C (x - y)%num.
Proof.
  intros H. destruct Hx as [Hxf Hxv], Hy as [Hyf Hyv].
  assert (HV : (Qabs (value x - value y) <= A + B)%Q).
  { apply Qle_trans with (Qabs (value x) + Qabs (- value y))%Q;
      [apply Qabs_triangle | rewrite Qabs_opp; lra]. }
  assert (Hmax : (Qabs (value x - value y) < pow2 (Number.emax - 1))%Q).
  { apply Qle_lt_trans with C; [|apply below_overflow64; exact HC].
    unfold u64, tiny in H.
    assert (0 <= A + B)%Q
      by (pose proof (Qabs_nonneg (value x - value y)); lra).
    lra. }
  destruct (SFsub_value _ _ prec64 emax64 x y Hxf Hyf Hmax) as [Hrep Herr].
  exact (rounded_boundedBy _ _ _ _ Hrep Herr HV H).
Qed.

Lemma mul_boundedBy :
  (A * B * (1 + u64) + tiny <= C)%Q -> boundedBy C (x * y)%num.
Proof.
  intros H. destruct Hx as [Hxf Hxv], Hy as [Hyf Hyv].
  assert (HV : (Qabs (value x * value y) <= A * B)%Q).
  { rewrite Qabs_Qmult.
    pose proof (Qabs_nonneg (value x)). pose proof (Qabs_nonneg (value y)).
    apply Qmult_le_compat_nonneg; split; assumption. }
  assert (Hmax : (Qabs (value x * value y) < pow2 (Number.emax - 1))%Q).
  { apply Qle_lt_trans with C; [|apply below_overflow64; exact HC].
    unfold u64, tiny in H.
    assert (0 <= A * B)%Q
      by (pose proof (Qabs_nonneg (value x * value y)); lra).
    lra. }
  destruct (SFmul_value _ _ prec64 emax64 x y Hxf Hyf Hmax) as [Hrep Herr].
  exact (rounded_boundedBy _ _ _ _ Hrep Herr HV H).
Qed.

End Operations.

(** A quotient whose dividend is at most [K] times the divisor in
    magnitude. *)
Lemma div_boundedBy (x y : number) (K C : Q) :
  finite64 x -> finite64 y ->
  (0 < Qabs (value y))%Q ->
  (Qabs (value x) <= K * Qabs (value y))%Q ->
  (C <= 18446744073709551616 # 1)%Q ->
  (K * (1 + u64) + tiny <= C)%Q ->
  boundedBy C (x / y)%num.
Proof.
  intros Hxf Hyf Hy0 HK HC H.
  assert (Hne : ~ (value y == 0)%Q).
  { intros E. rewrite E in Hy0. cbn in Hy0. lra. }
  assert (HV : (Qabs (value x / value y) <= K)%Q).
  { unfold Qdiv. rewrite Qabs_Qmult, Qabs_Qinv.
    apply Qle_shift_div_r; assumption. }
  assert (Hmax : (Qabs (value x / value y) < pow2 (Number.emax - 1))%Q).
  { apply Qle_lt_trans with C; [|apply below_overflow64; exact HC].
    unfold u64, tiny in H.
    assert (0 <= K)%Q by (pose proof (Qabs_nonneg (value x / value y)); lra).
    lra. }
  destruct (SFdiv_value _ _ prec64 emax64 x y Hxf Hyf Hne Hmax) as [Hrep Herr].
  exact (rounded_boundedBy _ _ _ _ Hrep Herr HV H).
Qed.

Lemma boundedBy_le (x : number) (A B : Q) :
  boundedBy A x -> (A <= B)%Q -> boundedBy B x.
Proof. intros [Hf Hv] H. split; [exact Hf | lra]. Qed.

Lemma boundedBy_finite (x : number) (B : Q) :
  boundedBy B x -> isFinite x = true.
Proof. intros [[Hf _] _]. exact Hf. Qed.

(** ** The order, read on the values *)

Lemma SFleb_value_le (x y : number) :
  finite64 x -> finite64 y -> SFleb x y = true -> (value x <= value y)%Q.
Proof.
  intros Hx Hy. unfold SFleb.
  rewrite (SFcompare_value _ _ x y Hx Hy).
  destruct (value x ?= value y)%Q eqn:E; try discriminate; intros _.
  - apply (proj2 (Qeq_alt _ _)) in E. lra.
  - apply (proj2 (Qlt_alt _ _)) in E. lra.
Qed.

Lemma SFabs_value (x : number) :
  finite64 x ->
  finite64 (SFabs x) /\ (value (SFabs x) == Qabs (value x))%Q.
Proof.
  intros Hx. destruct x as [s|s| |s m e];
    try (destruct Hx as [Hx _]; discriminate).
  - split; [apply representable_zero | reflexivity].
  - split; [destruct Hx as [H1 H2]; split; assumption|].
    rewrite Qabs_value. reflexivity.
Qed.

(** ** Integers *)

Lemma ofZ_small (n : Z) :
  0 <= n < 2 ^ 32 ->
  finite64 (ofZ n)
  /\ (Qabs (value (ofZ n) - inject_Z n) <= u64 * inject_Z n + tiny)%Q.
Proof.
  intros Hn. unfold ofZ.
  assert (Hv : (inject_Z n * pow2 0 == inject_Z n)%Q)
    by (change (pow2 0) with 1%Q; ring).
  assert (Hnn : (0 <= inject_Z n)%Q)
    by (change 0%Q with (inject_Z 0); rewrite <- Zle_Qle; lia).
  assert (Hmax : (Qabs (inject_Z n * pow2 0) < pow2 (Number.emax - 1))%Q).
  { rewrite Hv, (Qabs_pos _ Hnn).
    apply below_overflow64.
    change (18446744073709551616 # 1)%Q with (inject_Z (2 ^ 64)).
    rewrite <- Zle_Qle. lia. }
  destruct (binary_normalize_value _ _ prec64 emax64 n 0 Hmax) as [Hrep Herr].
  split; [exact Hrep|].
  pose proof (roundingError_binary64 (inject_Z n * pow2 0)) as He.
  unfold roundingError in *.
  rewrite Hv in Herr, He. rewrite (Qabs_pos _ Hnn) in Herr, He.
  eapply Qle_trans; [exact Herr | exact He].
Qed.

(** ** The mean of the samples of a point *)

Lemma add_nan_l (y : number) : (S754_nan + y)%num = S754_nan.
Proof. reflexivity. Qed.

Lemma add_nan_r (x : number) : (x + S754_nan)%num = S754_nan.
Proof. destruct x; reflexivity. Qed.

Lemma isNaN_nan (x : number) : isNaN x = true -> x = S754_nan.
Proof. destruct x; try discriminate; reflexivity. Qed.

Lemma sum_cases (samples : list number) :
  Forall normalizedGaze samples ->
  forall (acc : number) (k : Z),
    0 <= k -> k + Z.of_nat (length samples) <= 2 ^ 32 ->
    isNaN acc = true \/ boundedBy (inject_Z (2 * k)) acc ->
    let r := reduce (fun sum val => sum + val)%num samples acc in
    isNaN r = true
    \/ boundedBy (inject_Z (2 * (k + Z.of_nat (length samples)))) r.
Proof.
  unfold reduce.
  induction 1 as [|v samples Hv _ IH]; intros acc k Hk Hlen Hacc;
    cbn [fold_left length] in *.
  - replace (k + Z.of_nat 0) with k by lia. exact Hacc.
  - replace (k + Z.of_nat (S (length samples)))
      with (k + 1 + Z.of_nat (length samples)) by lia.
    apply IH; [lia | lia |].
    destruct Hacc as [Hnan | Hacc].
    { left. rewrite (isNaN_nan _ Hnan). reflexivity. }
    destruct Hv as [Hnan | Hv].
    { left. rewrite (isNaN_nan _ Hnan), add_nan_r. reflexivity. }
    right.
    assert (HK : (inject_Z k <= 4294967296 # 1)%Q).
    { change (4294967296 # 1)%Q with (inject_Z (2 ^ 32)).
      rewrite <- Zle_Qle. lia. }
    assert (HK0 : (0 <= inject_Z k)%Q).
    { change 0%Q with (inject_Z 0). rewrite <- Zle_Qle. lia. }
    assert (E1 : (inject_Z (2 * k) == 2 * inject_Z k)%Q)
      by (rewrite inject_Z_mult; reflexivity).
    assert (E2 : (inject_Z (2 * (k + 1)) == 2 * inject_Z k + 2)%Q).
    { rewrite inject_Z_mult, inject_Z_plus.
      change (inject_Z 2) with 2%Q. change (inject_Z 1) with 1%Q. ring. }
    apply (add_boundedBy acc v (inject_Z (2 * k)) 1); try assumption.
    + rewrite E2. lra.
    + rewrite E1, E2. unfold u64, tiny. lra.
Qed.

Lemma ofZ_0_bounded : boundedBy 0 (ofZ 0).
Proof. split; [split; reflexivity | vm_compute; discriminate]. Qed.

Lemma mean_cases (samples : list number) :
  Forall normalizedGaze samples ->
  Z.of_nat (length samples) < 2 ^ 32 ->
  let m := (reduce (fun sum val => sum + val) samples (ofZ 0)
            / ofZ (Z.of_nat (length samples)))%num in
  isNaN m = true \/ boundedBy 5 m.
Proof.
  intros Hall Hlen m.
  destruct samples as [|v samples]; [left; reflexivity|].
  set (n := Z.of_nat (length (v :: samples))) in *.
  assert (Hn : 1 <= n) by (unfold n; cbn [length]; lia).
  destruct (sum_cases (v :: samples) Hall (ofZ 0) 0 ltac:(lia) ltac:(lia)
              (or_intror ofZ_0_bounded)) as [Hnan | [Hsf Hsv]].
  { left. unfold m. rewrite (isNaN_nan _ Hnan). reflexivity. }
  right. fold n in Hsv.
  destruct (ofZ_small n ltac:(lia)) as [Hnf Hnv].
  assert (HN : (1 <= inject_Z n <= 4294967296 # 1)%Q).
  { change 1%Q with (inject_Z 1).
    change (4294967296 # 1)%Q with (inject_Z (2 ^ 32)).
    rewrite <- !Zle_Qle. lia. }
  assert (E : (inject_Z (2 * (0 + n)) == 2 * inject_Z n)%Q)
    by (rewrite Z.add_0_l, inject_Z_mult; reflexivity).
  rewrite E in Hsv.
  apply Qabs_Qle_condition in Hnv.
  assert (Hlow : ((1 # 2) * inject_Z n <= value (ofZ n))%Q)
    by (unfold u64, tiny in Hnv; lra).
  assert (Habs : (Qabs (value (ofZ n)) == value (ofZ n))%Q)
    by (apply Qabs_pos; lra).
  apply (div_boundedBy _ _ 4); try assumption.
  - rewrite Habs. lra.
  - rewrite Habs. lra.
  - vm_compute; discriminate.
  - vm_compute; discriminate.
Qed.

(** ** The valid triples *)

Lemma targetValueOf_bounded (step : Position) :
  boundedBy 1 (targetValueOf step).
Proof.
  destruct step; (split; [split; reflexivity | vm_compute; discriminate]).
Qed.

Lemma validTriples_bounded (points : list CalibrationPoint) :
  collectedFromProcessor points ->
  Forall (fun avg => boundedBy 1 (target avg) /\ boundedBy 5 (measured avg))
         (validTriples points).
Proof.
  unfold collectedFromProcessor, validTriples, validAveragesOf, averagesOf.
  induction 1 as [|p points (Ht & Hv & Hlen) _ IH]; cbn [map filter].
  - constructor.
  - pose proof (mean_cases (gazeValues p) Hv Hlen) as Hm. cbn zeta in Hm.
    cbn [measured].
    destruct (isNaN _) eqn:Hnan; cbn [negb andb]; [exact IH|].
    destruct (isFinite _) eqn:Hfin; [|exact IH].
    constructor; [|exact IH].
    cbn [target measured]. split.
    + rewrite Ht. apply targetValueOf_bounded.
    + destruct Hm as [Hm | Hm]; [|exact Hm].
      unfold isNaN in Hnan. congruence.
Qed.

Lemma validTriples_length (points : list CalibrationPoint) :
  (length (validTriples points) <= length points)%nat.
Proof.
  unfold validTriples, validAveragesOf, averagesOf.
  etransitivity; [apply filter_length_le|]. rewrite length_map. reflexivity.
Qed.

(** ** Sums over at most three triples *)

Lemma sigma_bounded (f : Average -> number) (B : Q) (valid : list Average) :
  (0 <= B <= 4294967296 # 1)%Q ->
  (length valid <= 3)%nat ->
  Forall (fun p => boundedBy B (f p)) valid ->
  boundedBy (4 * B + 1) (sigma f valid).
Proof.
  intros HB Hlen Hall. unfold sigma, reduce.
  pose proof ofZ_0_bounded as H0.
  destruct valid as [|a [|b [|c [|d valid]]]]; cbn [fold_left];
    try (cbn [length] in Hlen; lia).
  - apply (boundedBy_le _ 0); [exact H0 | lra].
  - inversion Hall as [|? ? Ha _]; subst.
    apply (add_boundedBy _ _ 0 B); try assumption; unfold u64, tiny; lra.
  - inversion Hall as [|? ? Ha Hall1]; subst.
    inversion Hall1 as [|? ? Hb _]; subst.
    assert (H1 : boundedBy (B * (1 + u64) + tiny) (ofZ 0 + f a)%num)
      by (apply (add_boundedBy _ _ 0 B); try assumption; unfold u64, tiny; lra).
    apply (add_boundedBy _ _ (B * (1 + u64) + tiny) B); try assumption;
      unfold u64, tiny; lra.
  - inversion Hall as [|? ? Ha Hall1]; subst.
    inversion Hall1 as [|? ? Hb Hall2]; subst.
    inversion Hall2 as [|? ? Hc _]; subst.
    assert (H1 : boundedBy (B * (1 + u64) + tiny) (ofZ 0 + f a)%num)
      by (apply (add_boundedBy _ _ 0 B); try assumption; unfold u64, tiny; lra).
    assert (H2 : boundedBy (3 * B + (1 # 2)) (ofZ 0 + f a + f b)%num)
      by (apply (add_boundedBy _ _ (B * (1 + u64) + tiny) B); try assumption;
          unfold u64, tiny; lra).
    apply (add_boundedBy _ _ (3 * B + (1 # 2)) B); try assumption;
      unfold u64, tiny; lra.
Qed.

(** ** The closed form is finite *)

Lemma count_cases (valid : list Average) :
  (2 <= length valid <= 3)%nat ->
  finite64 (count valid) /\ (2 <= value (count valid) <= 3)%Q.
Proof.
  intros H. unfold count.
  destruct valid as [|a [|b [|c [|d valid]]]]; cbn [length] in *; try lia;
    (split; [split; reflexivity | split; vm_compute; discriminate]).
Qed.

Lemma epsilon_value :
  finite64 epsilon /\ ((1 # 17179869184) <= value epsilon)%Q.
Proof. split; [split; reflexivity | vm_compute; discriminate]. Qed.

Section ClosedForm.

Variable points : list CalibrationPoint.

Hypothesis Hlength : length points = 3%nat.
Hypothesis Hcollected : collectedFromProcessor points.
Hypothesis Hvalid : (2 <= length (validTriples points))%nat.
Hypothesis Hden :
  SFleb epsilon (Math_abs (regressionDenominator (validTriples points))) = true.

Let valid := validTriples points.

Lemma valid_length : (2 <= length valid <= 3)%nat.
Proof.
  split; [exact Hvalid|]. unfold valid.
  rewrite <- Hlength. apply validTriples_length.
Qed.

Lemma count_bounded :
  boundedBy 3 (count valid) /\ (2 <= Qabs (value (count valid)))%Q.
Proof.
  destruct (count_cases valid valid_length) as [Hf Hv].
  assert (E : (Qabs (value (count valid)) == value (count valid))%Q)
    by (apply Qabs_pos; lra).
  split; [split; [exact Hf | rewrite E; lra] | rewrite E; lra].
Qed.

Lemma sigma_measured_bounded : boundedBy 21 (sigma measured valid).
Proof.
  apply (sigma_bounded measured 5); [lra | apply valid_length |].
  eapply Forall_impl; [|apply (validTriples_bounded points Hcollected)].
  intros avg [_ H]. exact H.
Qed.

Lemma sigma_target_bounded : boundedBy 5 (sigma target valid).
Proof.
  apply (sigma_bounded target 1); [lra | apply valid_length |].
  eapply Forall_impl; [|apply (validTriples_bounded points Hcollected)].
  intros avg [H _]. exact H.
Qed.

Lemma sigma_product_bounded :
  boundedBy 25 (sigma (fun p => measured p * target p)%num valid).
Proof.
  apply (sigma_bounded (fun p => measured p * target p)%num 6);
    [lra | apply valid_length |].
  eapply Forall_impl; [|apply (validTriples_bounded points Hcollected)].
  intros avg [Ht Hm]. cbn beta.
  apply (mul_boundedBy _ _ 5 1); try assumption; unfold u64, tiny; lra.
Qed.

Lemma sigma_square_bounded :
  boundedBy 105 (sigma (fun p => measured p * measured p)%num valid).
Proof.
  apply (sigma_bounded (fun p => measured p * measured p)%num 26);
    [lra | apply valid_length |].
  eapply Forall_impl; [|apply (validTriples_bounded points Hcollected)].
  intros avg [Ht Hm]. cbn beta.
  apply (mul_boundedBy _ _ 5 5); try assumption; unfold u64, tiny; lra.
Qed.

Lemma regressionDenominator_bounded :
  boundedBy 759 (regressionDenominator valid)
  /\ ((1 # 17179869184) <= Qabs (value (regressionDenominator valid)))%Q.
Proof.
  destruct count_bounded as [Hn _].
  pose proof sigma_measured_bounded as Hx.
  pose proof sigma_square_bounded as Hxx.
  assert (H1 : boundedBy 316
                 (count valid * sigma (fun p => measured p * measured p) valid)%num)
    by (apply (mul_boundedBy _ _ 3 105); try assumption; unfold u64, tiny; lra).
  assert (H2 : boundedBy 442 (sigma measured valid * sigma measured valid)%num)
    by (apply (mul_boundedBy _ _ 21 21); try assumption; unfold u64, tiny; lra).
  assert (H : boundedBy 759 (regressionDenominator valid)).
  { unfold regressionDenominator.
    apply (sub_boundedBy _ _ 316 442); try assumption; unfold u64, tiny; lra. }
  split; [exact H|].
  destruct epsilon_value as [Hef Hev].
  destruct (SFabs_value _ (proj1 H)) as [Haf Hav].
  pose proof (SFleb_value_le _ _ Hef Haf Hden) as Hle.
  fold valid in Hle. rewrite Hav in Hle. lra.
Qed.

Lemma regressionSlope_bounded :
  boundedBy (8796093022208 # 1) (regressionSlope valid).
Proof.
  destruct count_bounded as [Hn _].
  pose proof sigma_measured_bounded as Hx.
  pose proof sigma_target_bounded as Hy.
  pose proof sigma_product_bounded as Hxy.
  destruct regressionDenominator_bounded as [[Hdf _] Hdlow].
  assert (H1 : boundedBy 76
                 (count valid * sigma (fun p => measured p * target p) valid)%num)
    by (apply (mul_boundedBy _ _ 3 25); try assumption; unfold u64, tiny; lra).
  assert (H2 : boundedBy 106 (sigma measured valid * sigma target valid)%num)
    by (apply (mul_boundedBy _ _ 21 5); try assumption; unfold u64, tiny; lra).
  assert (H : boundedBy 183
                (count valid * sigma (fun p => measured p * target p) valid
                 - sigma measured valid * sigma target valid)%num)
    by (apply (sub_boundedBy _ _ 76 106); try assumption; unfold u64, tiny; lra).
  destruct H as [Hnf Hnv].
  unfold regressionSlope.
  apply (div_boundedBy _ _ (4398046511104 # 1)); try assumption.
  - lra.
  - lra.
  - vm_compute; discriminate.
  - vm_compute; discriminate.
Qed.

Lemma regressionIntercept_bounded :
  boundedBy (562949953421312 # 1) (regressionIntercept valid).
Proof.
  destruct count_bounded as [[Hnf _] Hnlow].
  pose proof sigma_measured_bounded as Hx.
  pose proof sigma_target_bounded as Hy.
  pose proof regressionSlope_bounded as Hs.
  assert (H1 : boundedBy (281474976710656 # 1)
                 (regressionSlope valid * sigma measured valid)%num)
    by (apply (mul_boundedBy _ _ (8796093022208 # 1) 21); try assumption;
        unfold u64, tiny; lra).
  assert (H : boundedBy (562949953421312 # 1)
                (sigma target valid
                 - regressionSlope valid * sigma measured valid)%num)
    by (apply (sub_boundedBy _ _ 5 (281474976710656 # 1)); try assumption;
        unfold u64, tiny; lra).
  destruct H as [Hf Hv].
  unfold regressionIntercept.
  apply (div_boundedBy _ _ (281474976710656 # 1)); try assumption.
  - lra.
  - lra.
  - vm_compute; discriminate.
  - vm_compute; discriminate.
Qed.

End ClosedForm.

(** C1.  For the three calibration points of a run, collected from the
    native module (gaze values in [[-1, 1]] or NaN, targets -1, 0 and 1),
    with at least 2 valid triples and a regression denominator of
    magnitude at least [1e-10], the transform is the closed-form
    least-squares fit, [slope = (n Sxy - Sx Sy) / (n Sxx - Sx Sx)] and
    [intercept = (Sy - slope Sx) / n], the sums being accumulated in
    binary64 in list order; both are finite, so the replacement of a
    non-finite result by the identity does not apply. *)
Theorem calculateLinearTransform_closed_form (points : list CalibrationPoint) :
  length points = 3%nat ->
  collectedFromProcessor points ->
  (2 <= length (validTriples points))%nat ->
  SFleb epsilon (Math_abs (regressionDenominator (validTriples points))) = true ->
  calculateLinearTransform points
  = {| slope := regressionSlope (validTriples points);
       intercept := regressionIntercept (validTriples points) |}
  /\ isFinite (regressionSlope (validTriples points)) = true
  /\ isFinite (regressionIntercept (validTriples points)) = true.
Proof.
  intros Hlength Hcollected Hvalid Hden.
  pose proof (boundedBy_finite _ _
                (regressionSlope_bounded points Hlength Hcollected Hvalid Hden))
    as Hs.
  pose proof (boundedBy_finite _ _
                (regressionIntercept_bounded points Hlength Hcollected Hvalid
                   Hden)) as Hi.
  split; [|split; assumption].
  rewrite (CalibrationEngineProps.calculateLinearTransform_guarded
             points Hlength Hvalid Hden).
  rewrite Hs, Hi. reflexivity.
Qed.

Lemma calculateLinearTransform_closed_form_witness :
  collectedFromProcessor CalibrationSamples.typicalPoints
  /\ (2 <= length (validTriples CalibrationSamples.typicalPoints))%nat
  /\ SFleb epsilon
       (Math_abs (regressionDenominator
                    (validTriples CalibrationSamples.typicalPoints))) = true
  /\ calculateLinearTransform CalibrationSamples.typicalPoints
     = {| slope := regressionSlope (validTriples CalibrationSamples.typicalPoints);
          intercept :=
            regressionIntercept (validTriples CalibrationSamples.typicalPoints) |}.
Proof.
  assert (Hc : collectedFromProcessor CalibrationSamples.typicalPoints).
  { unfold collectedFromProcessor, CalibrationSamples.typicalPoints.
    repeat (apply Forall_cons;
            [split; [reflexivity|]; split; [|vm_compute; reflexivity];
             repeat (apply Forall_cons;
                     [right; split;
                      [split; reflexivity | vm_compute; discriminate]|]);
             apply Forall_nil|]).
    apply Forall_nil. }
  assert (Hv : (2 <= length (validTriples CalibrationSamples.typicalPoints))%nat)
    by (vm_compute; lia).
  assert (Hd : SFleb epsilon
                 (Math_abs (regressionDenominator
                              (validTriples CalibrationSamples.typicalPoints)))
               = true) by (vm_compute; reflexivity).
  split; [exact Hc|]. split; [exact Hv|]. split; [exact Hd|].
  exact (proj1 (calculateLinearTransform_closed_form
                  CalibrationSamples.typicalPoints eq_refl Hc Hv Hd)).
Defined.

End RegressionProps.

(* ===================================================================== *)
(** * IrisLocalizer: how far [detectIrisInEyeRegion] moves the center     *)
(* ===================================================================== *)

Module IrisSmoothingProps.

Import TensorFlowProcessor IEEE IEEEFacts IEEEOrder.
Import PipelineVocabulary FrameSamples.

Abbreviation float32 := Binary32.float32.

Lemma fold_left_invariant {A B : Type} (P : A -> Prop) (f : A -> B -> A)
    (l : list B) :
  (forall a b, P a -> P (f a b)) -> forall a, P a -> P (fold_left f l a).
Proof.
  intros H. induction l as [|b l IH]; intros a Ha; simpl; [exact Ha|].
  apply IH, H, Ha.
Qed.

Lemma scanPixel_positioned (bitmap : Bitmap) (scanY : Z)
    (st : Try (float32 * float32)) (px : Z) :
  positioned st -> positioned (scanPixel bitmap scanY st px).
Proof.
  unfold scanPixel.
  destruct st as [[darkestX darkestIntensity]|]; [|intros _; exact I].
  cbn [bindTry positioned]. intros H.
  destruct (getPixel bitmap px scanY) as [pixel|]; cbn [bindTry]; [|exact I].
  match goal with |- context [if ?c then _ else _] => destruct c end;
    cbn [positioned]; [|exact H].
  apply binary_normalize_not_nan.
Qed.

Lemma scanLine_positioned (bitmap : Bitmap) (l t r b lineSpacing : Z)
    (st : Try (float32 * float32)) (lineIdx : Z) :
  positioned st -> positioned (scanLine bitmap l t r b lineSpacing st lineIdx).
Proof.
  intros H. unfold scanLine.
  match goal with |- context [if ?c then _ else _] => destruct c end; [|exact H].
  apply fold_left_invariant; [|exact H].
  intros a px. apply scanPixel_positioned.
Qed.

(** For a size that is not negative, [-maxMovement <= maxMovement]. *)
Lemma half_size_nonneg (size : float32) :
  SFleb (toFloat 0) size = true ->
  SFleb (- (size * decimal 5 10))%flt (size * decimal 5 10)%flt = true.
Proof.
  change (toFloat 0) with (S754_zero false).
  change (decimal 5 10) with (S754_finite false 8388608 (-24)).
  cbn [times unaryMinus Float32].
  destruct size as [s|s| |s m e]; try discriminate.
  - intros _. destruct s; reflexivity.
  - destruct s; [discriminate|reflexivity].
  - destruct s; [discriminate|]. intros _.
    apply binary_round_aux_symmetric. lia.
Qed.

(** X1.  For a finite eye center and a region size that is not negative,
    [detectIrisInEyeRegion] returns the center itself (empty window, or a
    pixel read that throws) or the center plus a movement that lies
    between [-eyeRegionSize * 0.5f] and [eyeRegionSize * 0.5f], whatever
    the pixels of the bitmap are. *)
Theorem detectIrisInEyeRegion_bounded_movement
    (bitmap : Bitmap) (eyeCenterX eyeCenterY eyeRegionSize : float32) :
  isFinite eyeCenterX = true ->
  SFleb (toFloat 0) eyeRegionSize = true ->
  let maxMovement := (eyeRegionSize * decimal 5 10)%flt in
  detectIrisInEyeRegion bitmap eyeCenterX eyeCenterY eyeRegionSize = eyeCenterX
  \/ exists movement : float32,
       detectIrisInEyeRegion bitmap eyeCenterX eyeCenterY eyeRegionSize
       = (eyeCenterX + movement)%flt
       /\ SFleb (- maxMovement)%flt movement = true
       /\ SFleb movement maxMovement = true.
Proof.
  intros Hc Hs maxMovement. unfold detectIrisInEyeRegion.
  destruct (eyeRegionBounds bitmap eyeCenterX eyeCenterY eyeRegionSize)
    as [[[l t] r] b].
  destruct ((r <=? l) || (b <=? t)); [left; reflexivity|].
  match goal with
  | |- context [fold_left ?f ?lines ?init] =>
      pose proof (fold_left_invariant positioned f lines
                    (fun a i => scanLine_positioned bitmap l t r b _ a i)
                    init (isFinite_not_nan _ Hc)) as Hpos;
      destruct (fold_left f lines init) as [[darkestX darkestIntensity]|]
  end; [|left; reflexivity].
  right. cbn [positioned] in Hpos.
  eexists. split; [reflexivity|].
  apply clamp_between.
  - apply half_size_nonneg, Hs.
  - apply SFsub_not_nan_finite; assumption.
Qed.

Lemma detectIrisInEyeRegion_bounded_movement_witness :
  let size : float32 := toFloat 15 in
  detectIrisInEyeRegion spottedBitmap (toFloat 12) (toFloat 12) size
  = toFloat 10
  /\ (detectIrisInEyeRegion spottedBitmap (toFloat 12) (toFloat 12) size
      = toFloat 12
      \/ exists movement : float32,
           detectIrisInEyeRegion spottedBitmap (toFloat 12) (toFloat 12) size
           = (toFloat 12 + movement)%flt
           /\ SFleb (- (size * decimal 5 10))%flt movement = true
           /\ SFleb movement (size * decimal 5 10)%flt = true).
Proof.
  split; [vm_compute; reflexivity|].
  apply (detectIrisInEyeRegion_bounded_movement spottedBitmap
           (toFloat 12) (toFloat 12) (toFloat 15)); reflexivity.
Defined.

Lemma toInt_nonpositive (v : float32) :
  (v > toFloat 0)%flt = false -> toInt v <= 0.
Proof.
  change ((v > toFloat 0)%flt) with (SFltb (S754_zero false) v).
  cbn [toInt Float32]. unfold Binary32.toInt.
  destruct v as [s|s| |s m e]; cbn [SFltb SFcompare IEEE.truncate].
  - intros _. vm_compute. discriminate.
  - destruct s; [|discriminate]. intros _. vm_compute. discriminate.
  - intros _. lia.
  - destruct s; [|discriminate]. intros _.
    assert (0 <= Z.shiftl (Z.pos m) e) by (apply Z.shiftl_nonneg; lia).
    unfold Int32.saturate, Int32.MIN_VALUE, Int32.MAX_VALUE.
    change (2 ^ 31) with 2147483648. cbn [cond_Zopp]. lia.
Qed.

(** X2.  When the eye region does not reach into the bitmap, because its
    right or bottom bound is not positive (or NaN) or its left or top
    bound is at or beyond the width or height, [detectIrisInEyeRegion]
    returns the nominal center unchanged. *)
Theorem detectIrisInEyeRegion_region_outside
    (bitmap : Bitmap) (eyeCenterX eyeCenterY eyeRegionSize : float32) :
  let regionHalfSize := (eyeRegionSize / toFloat 2)%flt in
  (eyeCenterX + regionHalfSize > toFloat 0)%flt = false
  \/ (eyeCenterY + regionHalfSize > toFloat 0)%flt = false
  \/ width bitmap <= toInt (eyeCenterX - regionHalfSize)%flt
  \/ height bitmap <= toInt (eyeCenterY - regionHalfSize)%flt ->
  detectIrisInEyeRegion bitmap eyeCenterX eyeCenterY eyeRegionSize = eyeCenterX.
Proof.
  intros regionHalfSize H.
  unfold detectIrisInEyeRegion, eyeRegionBounds.
  fold regionHalfSize.
  match goal with
  | |- context [if ?c then _ else _] => assert (Hc : c = true)
  end.
  { apply orb_true_iff.
    destruct H as [H | [H | [H | H]]];
      try apply toInt_nonpositive in H;
      [left | right | left | right]; apply Z.leb_le; lia. }
  rewrite Hc. reflexivity.
Qed.

Lemma detectIrisInEyeRegion_region_outside_witness :
  detectIrisInEyeRegion spottedBitmap (- toFloat 40)%flt (toFloat 10) (toFloat 15)
  = (- toFloat 40)%flt
  /\ detectIrisInEyeRegion spottedBitmap (toFloat 700) (toFloat 10) (toFloat 15)
     = toFloat 700.
Proof.
  split.
  - apply (detectIrisInEyeRegion_region_outside spottedBitmap
             (- toFloat 40)%flt (toFloat 10) (toFloat 15)).
    left. reflexivity.
  - apply (detectIrisInEyeRegion_region_outside spottedBitmap
             (toFloat 700) (toFloat 10) (toFloat 15)).
    right. right. left. vm_compute. discriminate.
Defined.

End IrisSmoothingProps.

(* ===================================================================== *)
(** * GazeNormalizer: the corners of [calculateNormalizedGaze]            *)
(* ===================================================================== *)

Module GazeSymmetryProps.

Import TensorFlowProcessor IEEE IEEEFacts IEEEOrder.

Abbreviation float32 := Binary32.float32.

(** X3.  [calculateNormalizedGaze] gives the same result when its two
    corner arguments are exchanged. *)
Theorem calculateNormalizedGaze_corner_order
    (irisX leftEyeX rightEyeX confidence : float32) :
  calculateNormalizedGaze irisX leftEyeX rightEyeX confidence
  = calculateNormalizedGaze irisX rightEyeX leftEyeX confidence.
Proof.
  unfold calculateNormalizedGaze. cbn [mathMin mathMax Float32].
  rewrite (min_comm leftEyeX rightEyeX), (max_comm leftEyeX rightEyeX).
  reflexivity.
Qed.

(** [min] and [max] of two floats that are not NaN are these two floats,
    in one order or the other. *)
Lemma min_max_pair (a b : spec_float) :
  isNaN a = false -> isNaN b = false ->
  (min a b = a /\ max a b = b) \/ (min a b = b /\ max a b = a).
Proof.
  intros Na Nb. unfold min, max. rewrite Na.
  destruct (isZero a && isZero b && isNegativeZero b) eqn:Z1;
  destruct (isZero a && isZero b && isNegativeZero a) eqn:Z2;
    try (destruct a as [[]| | |], b as [[]| | |]; try discriminate;
         auto; fail).
  unfold SFleb.
  destruct (SFcompare a b) as [c|] eqn:E;
    [|destruct (SFcompare_None _ _ E); congruence].
  rewrite (SFcompare_antisym _ _ _ E).
  destruct c; cbn [CompOpp]; auto.
  destruct (SFcompare_Eq _ _ E) as [-> | [Za Zb]]; [auto|].
  destruct a as [[]| | |], b as [[]| | |]; try discriminate; auto.
Qed.

(** X4.  For corners that are not NaN, the [leftEyeX] and [rightEyeX] of
    the result are the two corner arguments, each of them once, the
    smaller one first: either in the order given or exchanged. *)
Theorem calculateNormalizedGaze_sorted_corners
    (irisX leftEyeX rightEyeX confidence : float32) :
  isNaN leftEyeX = false -> isNaN rightEyeX = false ->
  let g := calculateNormalizedGaze irisX leftEyeX rightEyeX confidence in
  SFleb (TensorFlowProcessor.leftEyeX g) (TensorFlowProcessor.rightEyeX g) = true
  /\ ((TensorFlowProcessor.leftEyeX g = leftEyeX
       /\ TensorFlowProcessor.rightEyeX g = rightEyeX)
      \/ (TensorFlowProcessor.leftEyeX g = rightEyeX
          /\ TensorFlowProcessor.rightEyeX g = leftEyeX)).
Proof.
  intros Hl Hr g. unfold g, calculateNormalizedGaze.
  cbn [TensorFlowProcessor.leftEyeX TensorFlowProcessor.rightEyeX
       mathMin mathMax Float32].
  split.
  - apply min_le_max; assumption.
  - apply min_max_pair; assumption.
Qed.

Lemma calculateNormalizedGaze_sorted_corners_witness :
  let g := calculateNormalizedGaze (F := float32)
             (toFloat 300) (toFloat 365) (toFloat 275) (toFloat 1) in
  (TensorFlowProcessor.leftEyeX g = toFloat 275
   /\ TensorFlowProcessor.rightEyeX g = toFloat 365)
  /\ SFleb (TensorFlowProcessor.leftEyeX g) (TensorFlowProcessor.rightEyeX g) = true
  /\ ((TensorFlowProcessor.leftEyeX g = toFloat 365
       /\ TensorFlowProcessor.rightEyeX g = toFloat 275)
      \/ (TensorFlowProcessor.leftEyeX g = toFloat 275
          /\ TensorFlowProcessor.rightEyeX g = toFloat 365)).
Proof.
  split; [split; reflexivity|].
  apply (calculateNormalizedGaze_sorted_corners
           (toFloat 300) (toFloat 365) (toFloat 275) (toFloat 1));
    reflexivity.
Defined.

(** X5.  When a corner is NaN, or the two corners are the same finite
    value, [normalizedGazeX] is [0f], whatever the iris position. *)
Theorem calculateNormalizedGaze_degenerate_corners
    (irisX leftEyeX rightEyeX confidence : float32) :
  isNaN leftEyeX = true \/ isNaN rightEyeX = true
  \/ (isFinite leftEyeX = true /\ rightEyeX = leftEyeX) ->
  normalizedGazeX (calculateNormalizedGaze irisX leftEyeX rightEyeX confidence)
  = toFloat 0.
Proof.
  intros H. unfold calculateNormalizedGaze.
  cbn [normalizedGazeX mathMin mathMax minus lt Float32].
  match goal with |- (if ?c then _ else _) = _ => assert (Hc : c = false) end;
    [|rewrite Hc; reflexivity].
  destruct H as [H | [H | [H ->]]].
  - destruct leftEyeX; try discriminate. reflexivity.
  - destruct rightEyeX; try discriminate.
    rewrite (min_comm leftEyeX), (max_comm leftEyeX). reflexivity.
  - assert (Hmin : min leftEyeX leftEyeX = leftEyeX)
      by (destruct (min_cases leftEyeX leftEyeX); assumption).
    assert (Hmax : max leftEyeX leftEyeX = leftEyeX)
      by (destruct (max_cases leftEyeX leftEyeX); assumption).
    rewrite Hmin, Hmax.
    pose proof (SFsub_diag Binary32.prec Binary32.emax leftEyeX H) as Hz.
    destruct (SFsub Binary32.prec Binary32.emax leftEyeX leftEyeX);
      try discriminate. reflexivity.
Qed.

Lemma calculateNormalizedGaze_degenerate_corners_witness :
  normalizedGazeX
    (calculateNormalizedGaze (toFloat 300) (toFloat 275) (toFloat 275) (toFloat 1))
  = (toFloat 0 : float32)
  /\ normalizedGazeX
       (calculateNormalizedGaze (toFloat 300) S754_nan (toFloat 275) (toFloat 1))
     = (toFloat 0 : float32).
Proof.
  split.
  - apply (calculateNormalizedGaze_degenerate_corners
             (toFloat 300) (toFloat 275) (toFloat 275) (toFloat 1)).
    right. right. split; reflexivity.
  - apply (calculateNormalizedGaze_degenerate_corners
             (toFloat 300) S754_nan (toFloat 275) (toFloat 1)).
    left. reflexivity.
Defined.

End GazeSymmetryProps.

(* ===================================================================== *)
(** * DetectionDecoder: what [processBlazeFaceDetections] returns         *)
(* ===================================================================== *)

Module DetectionSafetyProps.

Import TensorFlowProcessor IEEE IEEEFacts IEEEOrder FrameSamples.

Abbreviation float32 := Binary32.float32.

Section Scan.

Variable exp : float32 -> float32.

(** The index found is the one given or the position of a logit seen. *)
Lemma scanDetections_index_range (logits : list float32) :
  forall (i idx : Z) (best : float32),
    fst (scanDetections exp logits i idx best) = idx
    \/ i <= fst (scanDetections exp logits i idx best)
            < i + Z.of_nat (length logits).
Proof.
  induction logits as [|logit rest IH]; intros i idx best; cbn [scanDetections].
  - left. reflexivity.
  - cbn [length]. rewrite Nat2Z.inj_succ.
    match goal with |- context [if ?c then _ else _] => destruct c end.
    + match goal with |- context [if ?c then _ else _] => destruct c end.
      * destruct (IH (i + 1) i (sigmoid exp logit)) as [-> | H]; right; lia.
      * destruct (IH (i + 1) idx (sigmoid exp logit)) as [H | H];
          [left; exact H | right; lia].
    + destruct (IH (i + 1) idx best) as [H | H]; [left; exact H | right; lia].
Qed.

(** Once an index has been accepted, the running maximum is above the
    threshold. *)
Lemma scanDetections_accepts_above_threshold (logits : list float32) :
  forall (i idx : Z) (best : float32),
    idx = -1 \/ (best > confidenceThreshold)%flt = true ->
    fst (scanDetections exp logits i idx best) = -1
    \/ (snd (scanDetections exp logits i idx best) > confidenceThreshold)%flt
       = true.
Proof.
  induction logits as [|logit rest IH]; intros i idx best H;
    cbn [scanDetections].
  - exact H.
  - match goal with |- context [if ?c then _ else _] => destruct c eqn:Hb end.
    + match goal with |- context [if ?c then _ else _] => destruct c eqn:Ht end.
      * apply IH. right. exact Ht.
      * apply IH. destruct H as [H | H]; [left; exact H|].
        cbn [lt Float32] in *.
        rewrite (SFltb_trans _ _ _ H Hb) in Ht. discriminate.
    + apply IH. exact H.
Qed.

End Scan.

(** X6.  On tensors with a row of at least four floats for every logit,
    as the model's outputs of shape 896 x 16 and 896 x 1 are,
    [processBlazeFaceDetections] returns landmarks: no array access is out
    of bounds, for any function in the place of [exp]. *)
Theorem processBlazeFaceDetections_returns
    (exp : float32 -> float32) (regressors : list (list float32))
    (classificators : list float32) (bitmap : Bitmap)
    (imageWidth imageHeight now nano : Z) :
  (length classificators <= length regressors)%nat ->
  Forall (fun coords => (4 <= length coords)%nat) regressors ->
  exists landmarks : EyeLandmarks,
    processBlazeFaceDetections exp regressors classificators bitmap
      imageWidth imageHeight now nano
    = Returns landmarks.
Proof.
  intros Hlen Hrows. unfold processBlazeFaceDetections, detectFace.
  pose proof (scanDetections_index_range exp classificators 0 (-1) (toFloat 0))
    as Hidx.
  destruct (scanDetections exp classificators 0 (-1) (toFloat 0)) as [idx best].
  cbn [fst] in Hidx.
  destruct (idx =? -1) eqn:E; [eexists; reflexivity|].
  apply Z.eqb_neq in E. destruct Hidx as [Hidx | Hidx]; [contradiction|].
  unfold arrayGet at 1.
  replace (idx <? 0) with false by (symmetry; apply Z.ltb_ge; lia).
  destruct (nth_error regressors (Z.to_nat idx)) as [coords|] eqn:Hrow.
  - pose proof (proj1 (Forall_forall _ _) Hrows coords (nth_error_In _ _ Hrow))
      as Hc.
    destruct coords as [|c0 [|c1 [|c2 [|c3 rest]]]]; cbn [length] in Hc; try lia.
    eexists. reflexivity.
  - apply nth_error_None in Hrow. lia.
Qed.

Lemma processBlazeFaceDetections_returns_witness :
  exists landmarks : EyeLandmarks,
    processBlazeFaceDetections JavaMath.exp sampleRows
      [toFloat (-10); toFloat 3; toFloat 1] blankBitmap 640 480 7 9
    = Returns landmarks.
Proof.
  apply (processBlazeFaceDetections_returns JavaMath.exp sampleRows
           [toFloat (-10); toFloat 3; toFloat 1] blankBitmap 640 480 7 9).
  - cbn [length sampleRows]. lia.
  - repeat apply Forall_cons; try apply Forall_nil; cbn [length]; lia.
Defined.

(** X7.  Landmarks returned by [processBlazeFaceDetections] are either the
    result of [createNoFaceResult], or they carry gaze data and a
    confidence above the threshold [0.01f], which is also the confidence of
    the gaze data. *)
Theorem processBlazeFaceDetections_face_or_none
    (exp : float32 -> float32) (regressors : list (list float32))
    (classificators : list float32) (bitmap : Bitmap)
    (imageWidth imageHeight now nano : Z) (landmarks : EyeLandmarks) :
  processBlazeFaceDetections exp regressors classificators bitmap
    imageWidth imageHeight now nano
  = Returns landmarks ->
  landmarks = createNoFaceResult now nano
  \/ (confidence landmarks > confidenceThreshold)%flt = true
     /\ exists gaze : GazeData,
          gazeData landmarks = Some gaze
          /\ gazeConfidence gaze = confidence landmarks.
Proof.
  unfold processBlazeFaceDetections, detectFace.
  pose proof (scanDetections_accepts_above_threshold exp classificators
                0 (-1) (toFloat 0) (or_introl eq_refl)) as Hacc.
  destruct (scanDetections exp classificators 0 (-1) (toFloat 0)) as [idx best].
  cbn [fst snd] in Hacc.
  destruct (idx =? -1) eqn:E.
  - cbn [bindTry]. intros H. inversion H. left. reflexivity.
  - apply Z.eqb_neq in E. destruct Hacc as [Hacc | Hacc]; [contradiction|].
    destruct (arrayGet regressors idx) as [coords|]; cbn [bindTry];
      [|discriminate].
    destruct (decodeFaceBox coords imageWidth imageHeight) as [box|];
      cbn [bindTry]; [|discriminate].
    intros H. inversion H. right. cbn [confidence gazeData].
    split; [exact Hacc|].
    eexists. split; reflexivity.
Qed.

Lemma processBlazeFaceDetections_face_or_none_witness :
  let landmarks :=
    eyeLandmarksOfFace blankBitmap
      {| faceLeft := (toFloat 64 * toFloat 5 - toFloat 32 * toFloat 5 / toFloat 2)%flt;
         faceTop := (toFloat 64 * decimal 375 100
                     - toFloat 32 * decimal 375 100 / toFloat 2)%flt;
         faceWidth := (toFloat 32 * toFloat 5)%flt;
         faceHeight := (toFloat 32 * decimal 375 100)%flt |}
      (sigmoid JavaMath.exp (toFloat 3)) 7 9 in
  processBlazeFaceDetections JavaMath.exp sampleRows
    [toFloat (-10); toFloat 3; toFloat 1] blankBitmap 640 480 7 9
  = Returns landmarks
  /\ (landmarks = createNoFaceResult 7 9
      \/ (confidence landmarks > confidenceThreshold)%flt = true
         /\ exists gaze : GazeData,
              gazeData landmarks = Some gaze
              /\ gazeConfidence gaze = confidence landmarks).
Proof.
  intros landmarks.
  assert (H : processBlazeFaceDetections JavaMath.exp sampleRows
                [toFloat (-10); toFloat 3; toFloat 1] blankBitmap 640 480 7 9
              = Returns landmarks) by (vm_compute; reflexivity).
  split; [exact H|].
  exact (processBlazeFaceDetections_face_or_none JavaMath.exp sampleRows
           [toFloat (-10); toFloat 3; toFloat 1] blankBitmap 640 480 7 9
           landmarks H).
Defined.

End DetectionSafetyProps.

(* ===================================================================== *)
(** * The life cycle of the model                                         *)
(* ===================================================================== *)

Module LifecycleProps.

Import TensorFlowProcessor FrameSamples PipelineSamples.

Abbreviation float32 := Binary32.float32.

(** X8.  In every state that a processor reaches through its constructor,
    [cleanup] and [reinitializeModel], a loaded model has its interpreter
    and its input buffer, so that [runInference] runs the interpreter and
    never fails for want of one. *)
Theorem lifecycle_loaded_has_interpreter
    (this : Processor (F := float32)) :
  Lifecycle this -> isModelLoaded this = true ->
  exists loaded : Interpreter,
    interpreter this = Some loaded
    /\ inputBuffer this = Some tt
    /\ forall bitmap,
         runInference this bitmap = runForMultipleInputsOutputs loaded bitmap.
Proof.
  induction 1 as [created | this closed _ IH | this created _ IH].
  - destruct created as [loaded|]; cbn; [|discriminate].
    intros _. exists loaded. repeat split.
  - unfold cleanup.
    destruct (interpreter this) as [loaded|] eqn:Hi.
    + destruct closed; [cbn; discriminate|]. rewrite <- Hi in IH. exact IH.
    + cbn. discriminate.
  - unfold reinitializeModel.
    destruct (isModelLoaded this) eqn:Hl; cbn [negb].
    + intros _. exact (IH eq_refl).
    + destruct created as [loaded|]; cbn; [|discriminate].
      intros _. exists loaded. repeat split.
Qed.

Lemma lifecycle_loaded_has_interpreter_witness :
  let fresh := constantInterpreter sampleRows [toFloat 3] in
  let this :=
    reinitializeModel
      (cleanup (newTensorFlowProcessor (Returns fresh)) (Returns tt))
      (Returns fresh) in
  isModelLoaded this = true
  /\ exists loaded : Interpreter,
       interpreter this = Some loaded
       /\ inputBuffer this = Some tt
       /\ forall bitmap,
            runInference this bitmap
            = runForMultipleInputsOutputs loaded bitmap.
Proof.
  intros fresh this. split; [reflexivity|].
  apply (lifecycle_loaded_has_interpreter this); [|reflexivity].
  apply Lifecycle_reinitialize, Lifecycle_cleanup, Lifecycle_new.
Defined.

(** X9.  After a [cleanup] whose [close()] returns, every frame is
    skipped; a [reinitializeModel] that follows makes the processor treat
    frames as a newly constructed one does, whether or not the model could
    be loaded; and on a loaded model [reinitializeModel] changes
    nothing. *)
Theorem cleanup_then_reinitializeModel
    (exp : float32 -> float32) (this : Processor) (created : Try Interpreter)
    (image : Image) (now nano : Z) :
  processFrame exp (cleanup this (Returns tt)) image now nano = Returns None
  /\ processFrame exp
       (reinitializeModel (cleanup this (Returns tt)) created) image now nano
     = processFrame exp (newTensorFlowProcessor created) image now nano
  /\ (isModelLoaded this = true -> reinitializeModel this created = this).
Proof.
  split; [|split].
  - unfold cleanup. destruct (interpreter this); reflexivity.
  - unfold cleanup, reinitializeModel, newTensorFlowProcessor.
    destruct (interpreter this), created; reflexivity.
  - intros H. unfold reinitializeModel. rewrite H. reflexivity.
Qed.

Lemma cleanup_then_reinitializeModel_witness :
  isModelLoaded faintFaceProcessor = true
  /\ processFrame JavaMath.exp (cleanup faintFaceProcessor (Returns tt))
       sampleImage 7 9
     = Returns None
  /\ reinitializeModel faintFaceProcessor Throws = faintFaceProcessor.
Proof.
  split; [reflexivity|]. split.
  - exact (proj1 (cleanup_then_reinitializeModel JavaMath.exp
                    faintFaceProcessor Throws sampleImage 7 9)).
  - apply (proj2 (proj2 (cleanup_then_reinitializeModel JavaMath.exp
                           faintFaceProcessor Throws sampleImage 7 9))).
    reflexivity.
Defined.

End LifecycleProps.

(* ===================================================================== *)
(** * The input buffer of the model                                       *)
(* ===================================================================== *)

Module InputBufferProps.

Import TensorFlowProcessor ImageProcessor IEEE IEEEFacts PipelineVocabulary.

Abbreviation float32 := Binary32.float32.

Lemma fold_left_flat_map {A B C : Type} (f : A -> C -> A) (g : B -> list C)
    (l : list B) :
  forall a,
    fold_left (fun acc b => fold_left f (g b) acc) l a
    = fold_left f (flat_map g l) a.
Proof.
  induction l as [|b l IH]; intros a; simpl; [reflexivity|].
  rewrite fold_left_app. apply IH.
Qed.

Lemma setSlot_app (done rest : list float32) (value : float32) :
  setSlot (done ++ rest) (length done) value
  = done ++ match rest with [] => [] | _ :: rest' => value :: rest' end.
Proof.
  induction done as [|d done IH]; simpl.
  - destruct rest; reflexivity.
  - rewrite IH. reflexivity.
Qed.

(** Writing [values] from the end of [done] on. *)
Lemma putFloat_sequence (values : list float32) :
  forall done rest : list float32,
    (length values <= length rest)%nat ->
    fold_left putFloat values
      (Returns {| slots := done ++ rest; position := length done |})
    = Returns {| slots := done ++ values ++ skipn (length values) rest;
                 position := length done + length values |}.
Proof.
  induction values as [|v values IH]; intros done rest Hlen.
  - simpl. rewrite Nat.add_0_r. reflexivity.
  - destruct rest as [|r rest]; [simpl in Hlen; lia|].
    cbn [fold_left]. unfold putFloat at 2. cbn [bindTry slots position].
    replace (length done <? length (done ++ r :: rest))%nat with true
      by (symmetry; apply Nat.ltb_lt; rewrite length_app; simpl; lia).
    rewrite setSlot_app.
    replace (done ++ v :: rest) with ((done ++ [v]) ++ rest)
      by (rewrite <- app_assoc; reflexivity).
    replace (S (length done)) with (length (done ++ [v]))
      by (rewrite length_app; simpl; lia).
    rewrite IH by (simpl in Hlen; lia).
    rewrite <- app_assoc, length_app. cbn [length app skipn].
    f_equal. f_equal. lia.
Qed.

Lemma channel_range (pixelValue shift : Z) :
  0 <= Z.land (Z.shiftr pixelValue shift) 255 < 256.
Proof.
  change 255 with (Z.ones 8). rewrite Z.land_ones by lia.
  apply Z.mod_pos_bound. lia.
Qed.

Lemma channel_normalized (k : Z) :
  0 <= k < 256 -> unitRange (toFloat k / toFloat 255)%flt = true.
Proof.
  intros H.
  assert (Hall : forallb (fun n => unitRange (toFloat (Z.of_nat n) / toFloat 255)%flt)
                   (seq 0 256) = true) by (vm_compute; reflexivity).
  rewrite forallb_forall in Hall.
  specialize (Hall (Z.to_nat k)).
  rewrite Z2Nat.id in Hall by lia.
  apply Hall, in_seq. lia.
Qed.

Lemma channels_normalized (pixelValue : Z) :
  Forall (fun v => unitRange v = true) (channels (F := float32) pixelValue).
Proof.
  unfold channels.
  pose proof (channel_range pixelValue 16) as Hr.
  pose proof (channel_range pixelValue 8) as Hg.
  pose proof (channel_range pixelValue 0) as Hb. rewrite Z.shiftr_0_r in Hb.
  repeat apply Forall_cons; try apply Forall_nil; apply channel_normalized;
    assumption.
Qed.

(** X10.  A buffer with three float slots per pixel is overwritten
    completely by [bitmapToInputBuffer], without overflow: each pixel by
    its red, green and blue channel divided by 255, in this order, every
    value within [[0, 1]]; and the capacity that [loadModel] allocates has
    three slots for each of the 128 x 128 pixels read. *)
Theorem bitmapToInputBuffer_fills_buffer
    (intValues : list Z) (inputBuffer : ByteBuffer (F := float32)) :
  length (slots inputBuffer) = (3 * length intValues)%nat ->
  bitmapToInputBuffer intValues inputBuffer
  = Returns {| slots := flat_map channels intValues;
               position := 3 * length intValues |}
  /\ Forall (fun v => SFleb (toFloat 0) v = true /\ SFleb v (toFloat 1) = true)
            (flat_map (channels (F := float32)) intValues)
  /\ inputBufferCapacity / 4 = 3 * intValuesLength.
Proof.
  intros Hlen.
  assert (Hvalues : length (flat_map (channels (F := float32)) intValues)
                    = (3 * length intValues)%nat).
  { clear Hlen. induction intValues as [|p l IH]; [reflexivity|].
    cbn [flat_map]. rewrite length_app, IH.
    change (length (channels (F := float32) p)) with 3%nat.
    cbn [length]. lia. }
  split; [|split].
  - unfold bitmapToInputBuffer.
    rewrite (fold_left_flat_map putFloat channels intValues).
    pose proof (putFloat_sequence (flat_map channels intValues) []
                  (slots inputBuffer)) as H.
    cbn [app length] in H. unfold rewind. rewrite H by lia.
    rewrite Hvalues, Nat.add_0_l.
    rewrite skipn_all2 by lia. rewrite app_nil_r. reflexivity.
  - apply Forall_flat_map, Forall_forall. intros p _.
    pose proof (channels_normalized p) as H.
    eapply Forall_impl; [|exact H].
    intros v Hv. apply andb_true_iff in Hv. exact Hv.
  - reflexivity.
Qed.

Lemma bitmapToInputBuffer_fills_buffer_witness :
  let intValues := [-1; -16777216; -8355712] in
  let inputBuffer : ByteBuffer (F := float32) := allocateDirect 36 in
  bitmapToInputBuffer intValues inputBuffer
  = Returns {| slots := [toFloat 1; toFloat 1; toFloat 1;
                         toFloat 0; toFloat 0; toFloat 0;
                         decimal 128 255; decimal 128 255; decimal 128 255];
               position := 9 |}.
Proof.
  intros intValues inputBuffer.
  exact (proj1 (bitmapToInputBuffer_fills_buffer intValues inputBuffer eq_refl)).
Defined.

End InputBufferProps.

(* ===================================================================== *)
(** * CalibrationEngine: the data of a run and what is stored             *)
(* ===================================================================== *)

Module CollectionProps.

Import Number CalibrationScreen IEEEFacts RegressionVocabulary CalibrationSamples.
Import CalibrationEngineProps PipelineVocabulary.
Local Open Scope number_scope.

Lemma Position_eqb_refl (p : Position) : Position_eqb p p = true.
Proof. destruct p; reflexivity. Qed.

Lemma Position_eqb_neq (p q : Position) : p <> q -> Position_eqb p q = false.
Proof. destruct p, q; simpl; congruence. Qed.

Lemma find_app_first {A : Type} (f : A -> bool) (l1 l2 : list A) :
  find f (l1 ++ l2)
  = match find f l1 with Some a => Some a | None => find f l2 end.
Proof.
  induction l1 as [|a l1 IH]; simpl; [reflexivity|].
  destruct (f a); [reflexivity | exact IH].
Qed.

Lemma find_map_same_key {A : Type} (key : A -> bool) (g : A -> A) (l : list A) :
  (forall a, key (g a) = key a) ->
  find key (map g l) = option_map g (find key l).
Proof.
  intros H. induction l as [|a l IH]; simpl; [reflexivity|].
  rewrite H. destruct (key a); [reflexivity | exact IH].
Qed.

(** X11.  [addGazeValue] appends the gaze value to the samples of the
    current step, creating the point when it is the first one, and leaves
    the samples of the other steps as they are. *)
Theorem addGazeValue_appends_sample
    (currentStep : Position) (gazeValue : number) (prev : CalibrationData) :
  samplesAt currentStep (addGazeValue currentStep gazeValue prev)
  = samplesAt currentStep prev ++ [gazeValue]
  /\ forall other, other <> currentStep ->
       samplesAt other (addGazeValue currentStep gazeValue prev)
       = samplesAt other prev.
Proof.
  unfold samplesAt, addGazeValue.
  destruct (find (fun p => Position_eqb (position p) currentStep) (points prev))
    as [p|] eqn:E; cbn [points].
  - split.
    + rewrite find_map_same_key, E.
      2:{ intros a. destruct (Position_eqb (position a) currentStep) eqn:Ea;
            cbn [position]; rewrite ?Ea; reflexivity. }
      cbn [option_map]. apply find_some in E. destruct E as [_ E].
      rewrite E. reflexivity.
    + intros other Hother.
      rewrite find_map_same_key.
      2:{ intros a. destruct (Position_eqb (position a) currentStep) eqn:Ea;
            cbn [position]; rewrite ?Ea; reflexivity. }
      destruct (find (fun p => Position_eqb (position p) other) (points prev))
        as [q|] eqn:Eq; [|reflexivity].
      cbn [option_map]. apply find_some in Eq. destruct Eq as [_ Eq].
      apply Position_eqb_eq in Eq.
      rewrite Position_eqb_neq by congruence. reflexivity.
  - split.
    + rewrite find_app_first, E. cbn [find position].
      rewrite Position_eqb_refl. reflexivity.
    + intros other Hother. rewrite find_app_first.
      destruct (find (fun p => Position_eqb (position p) other) (points prev));
        [reflexivity|].
      cbn [find position]. rewrite Position_eqb_neq by congruence. reflexivity.
Qed.

Lemma addGazeValue_appends_sample_witness :
  samplesAt Center (addGazeValue Center (ofZ 1) (stateWith typicalPoints))
  = steady (decimalNumber 1 100) ++ [ofZ 1]
  /\ samplesAt Left (addGazeValue Center (ofZ 1) (stateWith typicalPoints))
     = steady (decimalNumber (-85) 100).
Proof.
  split.
  - exact (proj1 (addGazeValue_appends_sample Center (ofZ 1)
                    (stateWith typicalPoints))).
  - apply (proj2 (addGazeValue_appends_sample Center (ofZ 1)
                    (stateWith typicalPoints)) Left).
    discriminate.
Defined.

(** X12.  The calibration data of a run, that is the initial state
    followed by any frames at any steps, has one point per position and at
    most three points; each point has the target value of its position and
    at least one gaze value; and the data is not marked complete and has no
    transform. *)
Theorem Collected_points_well_formed (data : CalibrationData) :
  Collected data ->
  NoDup (map position (points data))
  /\ (length (points data) <= 3)%nat
  /\ Forall (fun p => targetValue p = targetValueOf (position p)
                      /\ gazeValues p <> [])
            (points data)
  /\ isComplete data = false
  /\ linearTransform data = None.
Proof.
  intros Hc.
  pose proof (Collected_distinct_positions data Hc) as Hnodup.
  split; [exact Hnodup|]. split.
  { rewrite <- (length_map position).
    apply (NoDup_incl_length (l' := [Left; Center; Right]) Hnodup).
    intros [] _; simpl; auto. }
  clear Hnodup.
  induction Hc as [now | step frame data _ IH].
  - repeat split. constructor.
  - unfold onFrame.
    destruct (eyeLandmarks frame) as [landmarks|]; [|exact IH].
    destruct (gazeData landmarks) as [v|]; [|exact IH].
    destruct (confidence landmarks > ofZ 3 / ofZ 10); [|exact IH].
    destruct IH as (Hall & Hcomplete & Htransform).
    unfold addGazeValue.
    destruct (find _ (points data)); cbn [points isComplete linearTransform];
      repeat split; try assumption.
    + apply Forall_map. eapply Forall_impl; [|exact Hall].
      intros p [Ht Hv].
      destruct (Position_eqb (position p) step);
        cbn [targetValue position gazeValues]; split; auto.
      destruct (gazeValues p); discriminate.
    + apply Forall_app. split; [exact Hall|].
      repeat constructor. cbn. discriminate.
Qed.

Lemma Collected_points_well_formed_witness :
  NoDup (map position (points (stateWith nanPoints)))
  /\ (length (points (stateWith nanPoints)) <= 3)%nat
  /\ Forall (fun p => targetValue p = targetValueOf (position p)
                      /\ gazeValues p <> [])
            (points (stateWith nanPoints))
  /\ isComplete (stateWith nanPoints) = false
  /\ linearTransform (stateWith nanPoints) = None.
Proof.
  apply (Collected_points_well_formed (stateWith nanPoints)).
  exact nanRun_collected.
Defined.

(** X13.  [completeCalibration] leaves the storage as it is unless it is
    not already completing, all three positions are present and every
    point has at least five gaze values; what it then stores is the
    collected points, marked complete, stamped with the current time and
    with the transform computed from them, which is also the one the alert
    shows. *)
Theorem completeCalibration_stores_validated_runs_only
    (isCompleting : bool) (calibrationData : CalibrationData) (now : Z)
    (storage : AsyncStorage) :
  snd (completeCalibration isCompleting calibrationData now storage) = storage
  \/ (isCompleting = false
      /\ (forall pos, In pos (map position (points calibrationData)))
      /\ Forall (fun p => (5 <= length (gazeValues p))%nat)
                (points calibrationData)
      /\ completeCalibration isCompleting calibrationData now storage
         = (Some (CalibrationComplete
                    (calculateLinearTransform (points calibrationData))),
            {| gazeCalibration :=
                 Some {| points := points calibrationData;
                         timestamp := now;
                         isComplete := true;
                         linearTransform :=
                           Some (calculateLinearTransform
                                   (points calibrationData)) |};
               failing := false |})).
Proof.
  unfold completeCalibration.
  destruct isCompleting; [left; reflexivity|].
  match goal with |- context [filter ?f requiredPositions] =>
    destruct (filter f requiredPositions) as [|missing rest] eqn:Hmissing
  end; [|left; reflexivity].
  cbn [length]. change (0 <? 0)%nat with false. cbv iota.
  match goal with |- context [filter ?f (points calibrationData)] =>
    destruct (filter f (points calibrationData)) as [|short rest] eqn:Hshort
  end; [|left; reflexivity].
  cbn [length]. change (0 <? 0)%nat with false. cbv iota.
  unfold setItem. destruct (failing storage); [left; reflexivity|].
  right. split; [reflexivity|]. split; [|split; [|reflexivity]].
  - intros pos.
    assert (Hin : In pos requiredPositions) by (destruct pos; simpl; auto).
    destruct (existsb (Position_eqb pos) (map position (points calibrationData)))
      eqn:Hex.
    + apply existsb_exists in Hex. destruct Hex as (q & Hq & Heq).
      apply Position_eqb_eq in Heq. subst q. exact Hq.
    + assert (Hf : In pos (filter
                (fun pos => negb (existsb (Position_eqb pos)
                                    (map position (points calibrationData))))
                requiredPositions)).
      { apply filter_In. split; [exact Hin|]. rewrite Hex. reflexivity. }
      rewrite Hmissing in Hf. destruct Hf.
  - apply Forall_forall. intros p Hp.
    destruct (length (gazeValues p) <? 5)%nat eqn:Hlt.
    + assert (Hf : In p (filter (fun p => (length (gazeValues p) <? 5)%nat)
                           (points calibrationData))).
      { apply filter_In. split; assumption. }
      rewrite Hshort in Hf. destruct Hf.
    + apply Nat.ltb_ge in Hlt. exact Hlt.
Qed.

(** X14.  The slope and the intercept that [calculateLinearTransform]
    returns are finite, except possibly in the range fallback, that is for
    three points with at least two valid means and a regression
    denominator of magnitude below [1e-10]. *)
Theorem calculateLinearTransform_finite_unless_fallback
    (points : list CalibrationPoint) :
  (isFinite (slope (calculateLinearTransform points)) = true
   /\ isFinite (intercept (calculateLinearTransform points)) = true)
  \/ (length points = 3%nat
      /\ (2 <= length (validTriples points))%nat
      /\ (Math_abs (regressionDenominator (validTriples points)) < epsilon)
         = true).
Proof.
  unfold calculateLinearTransform.
  destruct (length points =? 3)%nat eqn:Hlen; cbn [negb];
    [|left; split; reflexivity].
  fold (validTriples points).
  destruct (length (validTriples points) <? 2)%nat eqn:Hvalid;
    [left; split; reflexivity|].
  fold (sigma measured (validTriples points)).
  fold (sigma target (validTriples points)).
  fold (sigma (fun p => measured p * target p) (validTriples points)).
  fold (sigma (fun p => measured p * measured p) (validTriples points)).
  fold (count (validTriples points)).
  fold (regressionDenominator (validTriples points)).
  destruct (Math_abs (regressionDenominator (validTriples points)) < epsilon)
    eqn:Hden.
  - right. apply Nat.eqb_eq in Hlen. apply Nat.ltb_ge in Hvalid. auto.
  - left.
    match goal with |- context [if ?c then _ else _] => destruct c eqn:Hfin end.
    + split; reflexivity.
    + apply orb_false_iff in Hfin. destruct Hfin as [H1 H2].
      apply negb_false_iff in H1. apply negb_false_iff in H2.
      cbn [slope intercept]. split; assumption.
Qed.

End CollectionProps.

(* ===================================================================== *)
(** * The stored calibration                                              *)
(* ===================================================================== *)

Module CalibrationStoreProps.

Import Number CalibrationScreen CalibrationService IEEEFacts.
Import RegressionVocabulary CalibrationSamples CalibrationApplierProps.
Local Open Scope number_scope.

Lemma JSON_entry_finite (v : number) :
  isFinite v = true -> JSON_entry v = unsignedZero v.
Proof. destruct v; try discriminate; reflexivity. Qed.

(** X15.  A calibration that [completeCalibration] has stored with a
    finite transform is, after [reloadCalibration], the one that
    [applyCalibratedGaze] applies, up to the sign of a zero, whatever the
    service held before: the service is calibrated and maps a raw gaze [x]
    to [clamp(slope * x + intercept, -1, 1)] for the slope and intercept
    computed from the collected points, a [-0] among them being read back
    as [+0] from the text in which they are stored. *)
Theorem completeCalibration_then_reloadCalibration
    (calibrationData : CalibrationData) (now : Z) (storage storage' : AsyncStorage)
    (stored : LinearTransform) (this : CalibrationService) :
  completeCalibration false calibrationData now storage
  = (Some (CalibrationComplete stored), storage') ->
  isFinite (slope stored) = true -> isFinite (intercept stored) = true ->
  stored = calculateLinearTransform (points calibrationData)
  /\ snd (reloadCalibration this storage') = true
  /\ isCalibrated (fst (reloadCalibration this storage')) = true
  /\ loadedTransform (fst (reloadCalibration this storage'))
     = Some {| slope := unsignedZero (slope stored);
               intercept := unsignedZero (intercept stored) |}
  /\ forall rawGazeX,
       applyCalibratedGaze (fst (reloadCalibration this storage')) rawGazeX
       = clamp (unsignedZero (slope stored) * rawGazeX
                + unsignedZero (intercept stored))
               (ofZ (-1)) (ofZ 1).
Proof.
  intros H Hslope Hintercept. unfold completeCalibration in H.
  destruct (0 <? length _)%nat in H; [discriminate|].
  destruct (0 <? length _)%nat in H; [discriminate|].
  unfold setItem in H. destruct (failing storage); [discriminate|].
  inversion H; subst; clear H.
  set (stored := calculateLinearTransform (points calibrationData)) in *.
  unfold reloadCalibration, loadCalibration, getItem, applyCalibratedGaze,
    isCalibrated, loadedTransform.
  cbn [gazeCalibration failing fst snd CalibrationService.calibrationData
       isLoaded JSON_parse_stringify isComplete linearTransform option_map
       Bool.eqb andb negb orb slope intercept].
  rewrite (JSON_entry_finite _ Hslope), (JSON_entry_finite _ Hintercept).
  repeat split.
  intros rawGazeX. apply Math_max_min_is_clamp.
Qed.

Lemma completeCalibration_then_reloadCalibration_witness :
  let stored := calculateLinearTransform zeroPoints in
  let storage' :=
    snd (completeCalibration false (stateWith zeroPoints) 1234 emptyStorage) in
  stored = {| slope := ofZ 1; intercept := S754_zero true |}
  /\ isCalibrated (fst (reloadCalibration instance storage')) = true
  /\ loadedTransform (fst (reloadCalibration instance storage'))
     = Some {| slope := ofZ 1; intercept := S754_zero false |}
  /\ applyCalibratedGaze (fst (reloadCalibration instance storage'))
       (S754_zero true)
     = S754_zero false.
Proof.
  intros stored storage'.
  assert (Hstored : stored = {| slope := ofZ 1; intercept := S754_zero true |})
    by (vm_compute; reflexivity).
  split; [exact Hstored|].
  destruct (completeCalibration_then_reloadCalibration (stateWith zeroPoints)
              1234 emptyStorage storage' stored instance)
    as (_ & _ & Hcalibrated & Htransform & Happly).
  - reflexivity.
  - rewrite Hstored. reflexivity.
  - rewrite Hstored. reflexivity.
  - split; [exact Hcalibrated|]. split.
    + rewrite Htransform, Hstored. reflexivity.
    + rewrite Happly, Hstored. reflexivity.
Defined.

(** X16.  After [clearCalibration] nothing is calibrated: raw gaze values
    pass unchanged and a later [loadCalibration] finds nothing and returns
    [false]; [clearCalibration] throws exactly when the storage rejects the
    removal. *)
Theorem clearCalibration_forgets
    (this : CalibrationService) (storage : AsyncStorage) :
  match clearCalibration this storage with
  | Returns (service, storage') =>
      failing storage = false
      /\ isCalibrated service = false
      /\ (forall rawGazeX, applyCalibratedGaze service rawGazeX = rawGazeX)
      /\ forall other, loadCalibration other storage' = (other, false)
  | Throws => failing storage = true
  end.
Proof.
  unfold clearCalibration, removeItem.
  destruct (failing storage); cbn [bindTry]; [reflexivity|].
  repeat split.
Qed.

End CalibrationStoreProps.

(* ===================================================================== *)
(** * The progress display of the calibration screen                      *)
(* ===================================================================== *)

Module ProgressProps.

Import Number CalibrationScreen CalibrationSamples CalibrationEngineProps.
Import PipelineSamples.
Local Open Scope number_scope.

Lemma filter_length_le {A : Type} (f : A -> bool) (l : list A) :
  (length (filter f l) <= length l)%nat.
Proof.
  induction l as [|a l IH]; simpl; [lia|].
  destruct (f a); simpl; lia.
Qed.

(** X17.  During a run the progress text is one of 'Step 1 of 3' to
    'Step 4 of 3', and the progress bar is at most 100 percent wide. *)
Theorem getProgressText_of_collected (data : CalibrationData) :
  Collected data ->
  In (getProgressText data)
     ["Step 1 of 3"; "Step 2 of 3"; "Step 3 of 3"; "Step 4 of 3"]%string
  /\ SFleb (progressWidth data) (ofZ 100) = true.
Proof.
  intros Hc.
  pose proof (Collected_distinct_positions data Hc) as Hnodup.
  assert (Hlen : (length (points data) <= 3)%nat).
  { rewrite <- (length_map position).
    apply (NoDup_incl_length (l' := [Left; Center; Right]) Hnodup).
    intros [] _; simpl; auto. }
  split.
  - unfold getProgressText.
    assert (Hdone : (completedPoints data <= 3)%nat).
    { unfold completedPoints.
      pose proof (filter_length_le
                    (fun p => (FRAMES_PER_POSITION <=? length (gazeValues p))%nat)
                    (points data)).
      lia. }
    destruct (completedPoints data) as [|[|[|[|n]]]]; try lia;
      cbn; auto.
  - unfold progressWidth.
    destruct (length (points data)) as [|[|[|[|n]]]]; try lia;
      vm_compute; reflexivity.
Qed.

Lemma getProgressText_of_collected_witness :
  getProgressText (replay fullRun (initialCalibrationData 0))
  = "Step 4 of 3"%string
  /\ In (getProgressText (replay fullRun (initialCalibrationData 0)))
        ["Step 1 of 3"; "Step 2 of 3"; "Step 3 of 3"; "Step 4 of 3"]%string
  /\ SFleb (progressWidth (replay fullRun (initialCalibrationData 0)))
           (ofZ 100) = true.
Proof.
  split; [vm_compute; reflexivity|].
  apply (getProgressText_of_collected
           (replay fullRun (initialCalibrationData 0))).
  apply Collected_replay. constructor.
Defined.

End ProgressProps.

(* ===================================================================== *)
(** * SessionManager: what a session records                              *)
(* ===================================================================== *)

Module SessionProps.

Import Number CalibrationScreen CalibrationService SessionManager.
Import PipelineVocabulary PipelineSamples.

Lemma numbered_snoc (data : list SessionDataPoint) (point : SessionDataPoint) :
  numbered data ->
  frame_number point = Z.of_nat (length data) + 1 ->
  numbered (data ++ [point]).
Proof.
  unfold numbered. intros H Hp.
  rewrite map_app, length_app, H. cbn [length map].
  rewrite Nat.add_1_r, seq_S, map_app. cbn [map Nat.add].
  rewrite Hp. do 2 f_equal. lia.
Qed.

Lemma uploadDataBatch_keeps_session (this : SessionManager) (online : bool)
    (upload : list (option number * number) -> Try bool) :
  currentSession (fst (uploadDataBatch this online upload)) = currentSession this
  /\ sessionData (fst (uploadDataBatch this online upload)) = sessionData this
  /\ frameCounter (fst (uploadDataBatch this online upload)) = frameCounter this.
Proof.
  unfold uploadDataBatch.
  destruct (negb (cloudSyncEnabled this) || negb online
            || negb (apiSessionCreated this)
            || (length (uploadQueue this) =? 0)%nat); [repeat split|].
  destruct (upload _) as [[]|]; repeat split.
Qed.

Lemma drainUploadQueue_keeps_session (fuel : nat) (online : bool)
    (upload : list (option number * number) -> Try bool) :
  forall (this final : SessionManager) batches,
    drainUploadQueue fuel this online upload = Some (final, batches) ->
    currentSession final = currentSession this
    /\ sessionData final = sessionData this
    /\ frameCounter final = frameCounter this.
Proof.
  induction fuel as [|fuel IH]; intros this final batches; cbn [drainUploadQueue].
  - destruct (length (uploadQueue this) =? 0)%nat; [|discriminate].
    intros H. inversion H. auto.
  - destruct (length (uploadQueue this) =? 0)%nat;
      [intros H; inversion H; auto|].
    pose proof (uploadDataBatch_keeps_session this online upload)
      as (H1 & H2 & H3).
    destruct (uploadDataBatch this online upload) as [this' sent].
    cbn [fst] in *.
    destruct (drainUploadQueue fuel this' online upload) as [[f b]|] eqn:E;
      [|discriminate].
    intros H. inversion H; subst.
    destruct (IH _ _ _ E) as (I1 & I2 & I3).
    repeat split; congruence.
Qed.

(** What a [stopSession] that returns has done. *)
Lemma stopSession_result (fuel : nat) (this this' : SessionManager)
    (endTime : Z) (online : bool)
    (upload : list (option number * number) -> Try bool)
    (dataWritten metadataWritten : Try unit) (stopped : StoppedSession) :
  stopSession fuel this endTime online upload dataWritten metadataWritten
  = Returns (Some (this', stopped)) ->
  exists session completed,
    currentSession this = Some session
    /\ currentSession this' = None
    /\ sessionData this' = []
    /\ frameCounter this' = 0
    /\ session_id completed = session_id session
    /\ status completed = Completed
    /\ total_frames completed = frameCounter this
    /\ savedMetadata stopped = stored (Some completed) metadataWritten
    /\ savedData stopped
       = stored match sessionData this with
                | [] => None
                | _ :: _ => Some (session_id session, sessionData this)
                end
                dataWritten.
Proof.
  unfold stopSession, completeSession.
  destruct (currentSession this) as [session|] eqn:Hs; [|discriminate].
  destruct (Status_eqb (status session) Completed) eqn:Hc; [discriminate|].
  cbn [bindTry]. unfold finalizeCloudSync.
  match goal with
  | |- context [if ?c then _ else _] => destruct c
  end.
  - intros H. inversion H; subst; clear H.
    exists session,
      (Build_SessionMetadata (session_id session)
              (start_timestamp session) (Some endTime)
              (Some (endTime - start_timestamp session)) (frameCounter this)
              (calibration_used session) Completed (created_at session)).
    cbn.
    repeat split; try reflexivity.
    unfold saveSessionData. cbn.
    destruct (sessionData this); reflexivity.
  - match goal with
    | |- context [drainUploadQueue ?f ?t ?o ?u] =>
        destruct (drainUploadQueue f t o u) as [[final batches]|] eqn:E
    end; [|discriminate].
    intros H. inversion H; subst; clear H.
    destruct (drainUploadQueue_keeps_session _ _ _ _ _ _ E) as (I1 & I2 & I3).
    cbn in I1, I2, I3.
    exists session,
      (Build_SessionMetadata (session_id session)
              (start_timestamp session) (Some endTime)
              (Some (endTime - start_timestamp session)) (frameCounter this)
              (calibration_used session) Completed (created_at session)).
    cbn.
    unfold saveSessionMetadata, saveSessionData. rewrite I1, I2.
    repeat split; try reflexivity.
    destruct (sessionData this); reflexivity.
Qed.

Lemma recordedTwice_reachable : Reachable recordedTwice.
Proof.
  apply Reachable_addDataPoint, Reachable_addDataPoint.
  exact (@Reachable_startSession CalibrationService.instance instance
           startedManager "session-1"%string
           "2024-01-01T00:00:00.000Z"%string 1000 true
           Reachable_instance eq_refl).
Qed.

(** X18.  In every state that the manager reaches through
    [startSession], [pauseSession], [resumeSession], [addDataPoint],
    [uploadDataBatch], [setCloudSyncEnabled] and [stopSession], its record
    of the frames is consistent: the frame counter is the number of data
    points held, the points are numbered 1, 2, ... in the order recorded
    and carry the id of the current session, and without a session there
    are no points. *)
Theorem reachable_sessions_consistent (this : SessionManager) :
  Reachable this -> consistent this.
Proof.
  unfold consistent.
  induction 1 as
    [ | service this this' sessionId createdAt startTime cloud _ IH Hstart
      | this this' _ IH Hpause
      | this this' _ IH Hresume
      | service this eyeLandmarks _ IH
      | this online upload _ IH
      | this enabled _ IH
      | fuel this this' endTime online upload dataWritten metadataWritten
          stopped _ IH Hstop ].
  - repeat split; try reflexivity. constructor.
  - unfold startSession in Hstart.
    destruct (isRecording this); [discriminate|].
    inversion Hstart; subst; clear Hstart.
    repeat split; try reflexivity; try discriminate. constructor.
  - unfold pauseSession in Hpause.
    destruct (currentSession this) as [session|] eqn:Hs; [|discriminate].
    destruct (Status_eqb (status session) Recording); [|discriminate].
    inversion Hpause; subst; clear Hpause. cbn.
    destruct IH as (I1 & I2 & I3 & I4).
    repeat split; try assumption; try discriminate.
  - unfold resumeSession in Hresume.
    destruct (currentSession this) as [session|] eqn:Hs; [|discriminate].
    destruct (Status_eqb (status session) Paused); [|discriminate].
    inversion Hresume; subst; clear Hresume. cbn.
    destruct IH as (I1 & I2 & I3 & I4).
    repeat split; try assumption; try discriminate.
  - unfold addDataPoint.
    destruct (currentSession this) as [session|] eqn:Hs;
      [|cbn [fst]; rewrite ?Hs; exact IH].
    destruct (negb (Status_eqb (status session) Recording));
      [cbn [fst]; rewrite ?Hs; exact IH|].
    destruct (NativeCameraModule.gazeData eyeLandmarks) as [gaze|];
      [|cbn [fst]; rewrite ?Hs; exact IH].
    destruct IH as (I1 & I2 & I3 & I4). cbn [fst].
    cbn [frameCounter sessionData currentSession].
    repeat split.
    + rewrite I1, length_app. cbn [length]. lia.
    + apply numbered_snoc; [exact I2|]. cbn [frame_number]. lia.
    + discriminate.
    + apply Forall_app. split; [exact I4|].
      repeat constructor.
  - destruct (uploadDataBatch_keeps_session this online upload)
      as (H1 & H2 & H3).
    rewrite H1, H2, H3. exact IH.
  - exact IH.
  - destruct (stopSession_result _ _ _ _ _ _ _ _ _ Hstop)
      as (session & completed & _ & H1 & H2 & H3 & _).
    rewrite H1, H2, H3. repeat split; try reflexivity. constructor.
Qed.

Lemma reachable_sessions_consistent_witness :
  consistent recordedTwice
  /\ frameCounter recordedTwice = 2
  /\ map frame_number (sessionData recordedTwice) = [1; 2].
Proof.
  split; [|split; reflexivity].
  exact (reachable_sessions_consistent recordedTwice recordedTwice_reachable).
Defined.

(** X19.  On a manager whose record of the frames is consistent, a
    [stopSession] that returns leaves the manager without a session,
    without points and with the counter at 0, whatever became of its two
    writes.  The metadata is in the local storage exactly when its write
    resolved, and then with the status completed and a frame count equal
    to the number of data points held.  The points are in the local
    storage exactly when there are any and their write resolved, and then
    under the session's id, numbered 1, 2, ... and all of this session;
    points whose write was rejected are kept nowhere. *)
Theorem stopSession_saves_consistent_session
    (fuel : nat) (this this' : SessionManager) (endTime : Z) (online : bool)
    (upload : list (option number * number) -> Try bool)
    (dataWritten metadataWritten : Try unit) (stopped : StoppedSession) :
  consistent this ->
  stopSession fuel this endTime online upload dataWritten metadataWritten
  = Returns (Some (this', stopped)) ->
  currentSession this' = None
  /\ sessionData this' = []
  /\ frameCounter this' = 0
  /\ match savedMetadata stopped with
     | Some metadata =>
         metadataWritten = Returns tt
         /\ option_map session_id (currentSession this)
            = Some (session_id metadata)
         /\ status metadata = Completed
         /\ total_frames metadata = Z.of_nat (length (sessionData this))
     | None => metadataWritten = Throws
     end
  /\ match savedData stopped with
     | Some (id, data) =>
         dataWritten = Returns tt
         /\ option_map session_id (currentSession this) = Some id
         /\ data = sessionData this
         /\ data <> []
         /\ numbered data
         /\ Forall (fun point => pointSessionId point = id) data
     | None => sessionData this = [] \/ dataWritten = Throws
     end.
Proof.
  intros (I1 & I2 & _ & I4) Hstop.
  destruct (stopSession_result _ _ _ _ _ _ _ _ _ Hstop)
    as (session & completed & Hs & H1 & H2 & H3 & H4 & H5 & H6 & H7 & H8).
  split; [exact H1|]. split; [exact H2|]. split; [exact H3|].
  rewrite H7, H8, Hs. split.
  - destruct metadataWritten as [[]|]; cbn [stored]; [|reflexivity].
    cbn [option_map]. repeat split; congruence.
  - destruct (sessionData this) as [|point data] eqn:Hd;
      [left; reflexivity|].
    destruct dataWritten as [[]|]; cbn [stored]; [|right; reflexivity].
    cbn [option_map]. repeat split; try congruence.
    rewrite Hs in I4. eapply Forall_impl; [|exact I4].
    cbn. intros p Hp. congruence.
Qed.

Lemma stopSession_saves_consistent_session_witness :
  let this' :=
    {| currentSession := None; sessionData := []; frameCounter := 0;
       cloudSyncEnabled := true; uploadQueue := [];
       apiSessionCreated := true |} in
  let completed :=
    {| session_id := "session-1"%string;
       start_timestamp := 1000;
       end_timestamp := Some 5000;
       duration := Some 4000;
       total_frames := 2;
       calibration_used := None;
       status := Completed;
       created_at := "2024-01-01T00:00:00.000Z"%string |} in
  let batches := [map apiPoint (sessionData recordedTwice)] in
  stopSession 1 recordedTwice 5000 true accepting (Returns tt) (Returns tt)
  = Returns (Some (this',
                   {| savedMetadata := Some completed;
                      savedData :=
                        Some ("session-1"%string, sessionData recordedTwice);
                      uploadedBatches := batches |}))
  /\ stopSession 1 recordedTwice 5000 true accepting Throws (Returns tt)
     = Returns (Some (this',
                      {| savedMetadata := Some completed;
                         savedData := None;
                         uploadedBatches := batches |}))
  /\ total_frames completed = Z.of_nat (length (sessionData recordedTwice))
  /\ sessionData this' = [].
Proof.
  intros this' completed batches.
  assert (Hc : consistent recordedTwice).
  { unfold consistent, numbered.
    repeat split; try reflexivity; try discriminate.
    repeat constructor. }
  split; [reflexivity|].
  assert (H : stopSession 1 recordedTwice 5000 true accepting Throws (Returns tt)
              = Returns (Some (this',
                               {| savedMetadata := Some completed;
                                  savedData := None;
                                  uploadedBatches := batches |})))
    by reflexivity.
  split; [exact H|].
  destruct (stopSession_saves_consistent_session 1 recordedTwice this' 5000
              true accepting Throws (Returns tt) _ Hc H)
    as (_ & Hdata & _ & Hmeta & _).
  split; [|exact Hdata].
  cbn [savedMetadata] in Hmeta. apply Hmeta.
Defined.

(** X20.  While a recording session is paused no frame is recorded,
    whatever the frames are, and [resumeSession] gives back the manager
    exactly as it was before [pauseSession]. *)
Theorem pauseSession_drops_frames
    (this : SessionManager)
    (frames : list (CalibrationService * NativeCameraModule.EyeLandmarks)) :
  isRecording this = true ->
  exists paused,
    pauseSession this = Returns paused
    /\ addDataPoints paused frames = paused
    /\ resumeSession (addDataPoints paused frames) = Returns this.
Proof.
  unfold isRecording, pauseSession. intros H.
  destruct this as [[session|] data counter cloud queue created];
    cbn in *; [|discriminate].
  rewrite H. eexists. split; [reflexivity|].
  assert (Hkeep : forall fs,
            addDataPoints
              (withSession
                 {| currentSession := Some session; sessionData := data;
                    frameCounter := counter; cloudSyncEnabled := cloud;
                    uploadQueue := queue; apiSessionCreated := created |}
                 (Some (withStatus session Paused))) fs
            = withSession
                {| currentSession := Some session; sessionData := data;
                   frameCounter := counter; cloudSyncEnabled := cloud;
                   uploadQueue := queue; apiSessionCreated := created |}
                (Some (withStatus session Paused))).
  { induction fs as [|f fs IH]; [reflexivity|].
    unfold addDataPoints in *. cbn [fold_left]. exact IH. }
  rewrite Hkeep. split; [reflexivity|].
  unfold resumeSession. cbn.
  destruct session as [id start stop dur total cal st created_at]. cbn in *.
  destruct st; try discriminate. reflexivity.
Qed.

Lemma pauseSession_drops_frames_witness :
  let frame := (CalibrationService.instance, landmarksOf (ofZ 1) (ofZ 1)) in
  exists paused,
    pauseSession recordedTwice = Returns paused
    /\ addDataPoints paused [frame; frame] = paused
    /\ resumeSession (addDataPoints paused [frame; frame])
       = Returns recordedTwice.
Proof.
  intros frame.
  apply (pauseSession_drops_frames recordedTwice [frame; frame]). reflexivity.
Defined.

(** X21.  When [uploadDataBatch] hands a batch to the API, the batch is
    the first 50 points of the queue, or all of them when there are fewer,
    converted in order; the queue is left without them when the API
    accepts the batch or throws, and as it was when the API refuses it;
    nothing else of the manager changes, and nothing at all when no batch
    is handed over. *)
Theorem uploadDataBatch_takes_first_points
    (this : SessionManager) (online : bool)
    (upload : list (option number * number) -> Try bool) :
  match snd (uploadDataBatch this online upload) with
  | None => fst (uploadDataBatch this online upload) = this
  | Some apiData =>
      exists batch remaining,
        uploadQueue this = batch ++ remaining
        /\ apiData = map apiPoint batch
        /\ length batch = Nat.min uploadBatchSize (length (uploadQueue this))
        /\ (1 <= length batch)%nat
        /\ fst (uploadDataBatch this online upload)
           = match upload apiData with
             | Returns false => this
             | _ => withQueue this remaining
             end
  end.
Proof.
  unfold uploadDataBatch.
  destruct (negb (cloudSyncEnabled this) || negb online
            || negb (apiSessionCreated this)) eqn:Hguard;
    cbn [orb]; [reflexivity|].
  destruct (length (uploadQueue this) =? 0)%nat eqn:Hempty; [reflexivity|].
  apply Nat.eqb_neq in Hempty.
  set (k := Nat.min uploadBatchSize (length (uploadQueue this))).
  assert (Hsent : forall r,
            snd (match r with
                 | Returns true =>
                     (withQueue this (skipn k (uploadQueue this)),
                      Some (map apiPoint (firstn k (uploadQueue this))))
                 | Returns false =>
                     (withQueue this
                        (firstn k (uploadQueue this)
                         ++ skipn k (uploadQueue this)),
                      Some (map apiPoint (firstn k (uploadQueue this))))
                 | Throws =>
                     (withQueue this (skipn k (uploadQueue this)),
                      Some (map apiPoint (firstn k (uploadQueue this))))
                 end)
            = Some (map apiPoint (firstn k (uploadQueue this))))
    by (intros [[]|]; reflexivity).
  rewrite Hsent.
  exists (firstn k (uploadQueue this)), (skipn k (uploadQueue this)).
  split; [symmetry; apply firstn_skipn|].
  split; [reflexivity|].
  split; [apply firstn_length_le; unfold k; lia|].
  split; [rewrite firstn_length_le by (unfold k; lia);
          unfold k, uploadBatchSize; lia|].
  destruct (upload _) as [[]|]; cbn [fst]; try reflexivity.
  rewrite firstn_skipn. destruct this; reflexivity.
Qed.

(** X22.  With cloud sync enabled, the cloud session created, the device
    online and an API that accepts every batch, the upload loop of
    [finalizeCloudSync] ends within one iteration per 50 queued points:
    the queue is then empty, the batches handed over are, one after the
    other, the queued points in order, each batch of 1 to 50 points, and
    the data of the session is untouched. *)
Theorem drainUploadQueue_uploads_queue
    (fuel : nat) (upload : list (option number * number) -> Try bool) :
  (forall batch, upload batch = Returns true) ->
  forall this : SessionManager,
    cloudSyncEnabled this = true ->
    apiSessionCreated this = true ->
    (length (uploadQueue this) <= uploadBatchSize * fuel)%nat ->
    exists final batches,
      drainUploadQueue fuel this true upload = Some (final, batches)
      /\ uploadQueue final = []
      /\ concat batches = map apiPoint (uploadQueue this)
      /\ Forall (fun batch => (1 <= length batch <= uploadBatchSize)%nat)
                batches
      /\ sessionData final = sessionData this.
Proof.
  intros Hup.
  induction fuel as [|fuel IH]; intros this Hcloud Hcreated Hlen;
    cbn [drainUploadQueue].
  - destruct (uploadQueue this) as [|p q] eqn:Hq; [|cbn in Hlen; lia].
    cbn. exists this, []. rewrite Hq. repeat split. constructor.
  - destruct (length (uploadQueue this) =? 0)%nat eqn:Hempty.
    + apply Nat.eqb_eq in Hempty.
      destruct (uploadQueue this) as [|p q] eqn:Hq; [|discriminate].
      exists this, []. rewrite Hq. repeat split. constructor.
    + apply Nat.eqb_neq in Hempty.
      unfold uploadDataBatch. rewrite Hcloud, Hcreated.
      cbn [negb orb].
      replace (length (uploadQueue this) =? 0)%nat with false
        by (symmetry; apply Nat.eqb_neq; exact Hempty).
      rewrite Hup.
      set (k := Nat.min uploadBatchSize (length (uploadQueue this))).
      destruct (IH (withQueue this (skipn k (uploadQueue this))) Hcloud Hcreated)
        as (final & batches & Hd & Hfinal & Hconcat & Hsizes & Hdata).
      { cbn [uploadQueue withQueue]. rewrite length_skipn.
        unfold k, uploadBatchSize in *. lia. }
      rewrite Hd.
      exists final, (map apiPoint (firstn k (uploadQueue this)) :: batches).
      split; [reflexivity|]. split; [exact Hfinal|].
      split.
      { cbn [concat]. rewrite Hconcat. cbn [uploadQueue withQueue].
        rewrite <- map_app, firstn_skipn. reflexivity. }
      split; [|exact Hdata].
      constructor; [|exact Hsizes].
      rewrite length_map, firstn_length_le by (unfold k; lia).
      unfold k, uploadBatchSize. lia.
Qed.

Lemma drainUploadQueue_uploads_queue_witness :
  exists final batches,
    drainUploadQueue 1 recordedTwice true accepting = Some (final, batches)
    /\ uploadQueue final = []
    /\ concat batches = map apiPoint (uploadQueue recordedTwice)
    /\ Forall (fun batch => (1 <= length batch <= uploadBatchSize)%nat)
              batches
    /\ sessionData final = sessionData recordedTwice.
Proof.
  apply (drainUploadQueue_uploads_queue 1 accepting (fun _ => eq_refl)
           recordedTwice); try reflexivity.
  cbn. lia.
Defined.

End SessionProps.

(* ===================================================================== *)
(** * From the camera frame to the two consumers of the frame event       *)
(* ===================================================================== *)

Module FrameEventProps.

Import TensorFlowProcessor IEEE IEEEFacts FrameSamples.
Import DetectionDecoderProps PipelineVocabulary PipelineSamples.

Abbreviation float32 := Binary32.float32.

(** X23.  A frame for which the loaded model gives no confidence above
    the threshold is emitted with landmarks but without gaze data; it adds
    no calibration sample, whatever the step, and changes nothing in the
    session manager, whatever its state. *)
Theorem frame_without_face_changes_nothing
    (exp : float32 -> float32) (processor : Processor) (loaded : Interpreter)
    (image : Image) (bitmap : Bitmap)
    (regressors : list (list float32)) (classificators : list float32)
    (now nano frameNow : Z)
    (step : CalibrationScreen.Position) (data : CalibrationScreen.CalibrationData)
    (service : CalibrationService.CalibrationService)
    (manager : SessionManager.SessionManager) :
  isModelLoaded processor = true ->
  interpreter processor = Some loaded ->
  inputBuffer processor = Some tt ->
  imageToBitmap image = Some bitmap ->
  runForMultipleInputsOutputs loaded bitmap = Returns (regressors, classificators) ->
  Forall (fun logit => SFleb (sigmoid exp logit) confidenceThreshold = true)
         classificators ->
  exists frame landmarks,
    CameraModule.processFrame exp (Some processor) image now nano frameNow
    = Some frame
    /\ NativeCameraModule.eyeLandmarks frame = Some landmarks
    /\ NativeCameraModule.gazeData landmarks = None
    /\ CalibrationScreen.onFrame step (NativeCameraModule.calibrationFrame frame)
         data
       = data
    /\ App.onCameraFrame service manager frame = manager.
Proof.
  intros Hloaded Hinterp Hbuffer Hbitmap Hrun Hall.
  unfold CameraModule.processFrame, TensorFlowProcessor.processFrame.
  rewrite Hloaded, Hinterp, Hbuffer, Hbitmap. cbn [negb orb].
  unfold runInference. rewrite Hinterp, Hrun. cbn [bindTry].
  unfold processBlazeFaceDetections, detectFace.
  pose proof (scanDetections_rejects exp classificators Hall 0 (toFloat 0)) as Hidx.
  destruct (scanDetections exp classificators 0 (-1) (toFloat 0)) as [idx best].
  cbn [fst] in Hidx. subst idx.
  cbn [Z.eqb bindTry catchNull option_map].
  eexists. eexists. split; [reflexivity|].
  cbn [NativeCameraModule.eyeLandmarks]. split; [reflexivity|].
  split; [reflexivity|]. split; [reflexivity|].
  unfold App.onCameraFrame, SessionManager.addDataPoint.
  cbn [NativeCameraModule.eyeLandmarks CameraModule.landmarksMap
       NativeCameraModule.gazeData gazeData createNoFaceResult option_map].
  destruct (SessionManager.currentSession manager) as [session|]; [|reflexivity].
  destruct (negb _); reflexivity.
Qed.

Lemma frame_without_face_changes_nothing_witness :
  exists frame landmarks,
    CameraModule.processFrame JavaMath.exp (Some noFaceProcessor)
      sampleImage 7 9 11
    = Some frame
    /\ NativeCameraModule.eyeLandmarks frame = Some landmarks
    /\ NativeCameraModule.gazeData landmarks = None
    /\ CalibrationScreen.onFrame CalibrationScreen.Left
         (NativeCameraModule.calibrationFrame frame)
         (CalibrationSamples.stateWith CalibrationSamples.typicalPoints)
       = CalibrationSamples.stateWith CalibrationSamples.typicalPoints
    /\ App.onCameraFrame CalibrationService.instance recordedTwice frame
       = recordedTwice.
Proof.
  apply (frame_without_face_changes_nothing JavaMath.exp noFaceProcessor
           (constantInterpreter sampleRows
              [toFloat (-10); toFloat (-20); toFloat (-5)])
           sampleImage blankBitmap sampleRows
           [toFloat (-10); toFloat (-20); toFloat (-5)] 7 9 11
           CalibrationScreen.Left
           (CalibrationSamples.stateWith CalibrationSamples.typicalPoints)
           CalibrationService.instance recordedTwice);
    try reflexivity.
  repeat apply Forall_cons; try apply Forall_nil; vm_compute; reflexivity.
Defined.

(** The emitter holds the listener of the current subscription and no
    other. *)
Lemma Subscribed_listeners {Callback : Type}
    (camera : NativeCameraModule.NativeCameraModule Callback) :
  NativeCameraModule.Subscribed camera ->
  match NativeCameraModule.frameSubscription camera,
        NativeCameraModule.onFrameCallback camera with
  | Some subscription, Some callback =>
      NativeCameraModule.listeners (NativeCameraModule.cameraEventEmitter camera)
      = [(subscription, callback)]
  | None, None =>
      NativeCameraModule.listeners (NativeCameraModule.cameraEventEmitter camera)
      = []
  | _, _ => False
  end.
Proof.
  assert (Hun : forall this : NativeCameraModule.NativeCameraModule Callback,
            match NativeCameraModule.frameSubscription this,
                  NativeCameraModule.onFrameCallback this with
            | Some subscription, Some callback =>
                NativeCameraModule.listeners
                  (NativeCameraModule.cameraEventEmitter this)
                = [(subscription, callback)]
            | None, None =>
                NativeCameraModule.listeners
                  (NativeCameraModule.cameraEventEmitter this)
                = []
            | _, _ => False
            end ->
            NativeCameraModule.listeners
              (NativeCameraModule.cameraEventEmitter
                 (NativeCameraModule.unsubscribeFromFrames this))
            = []).
  { intros this H. unfold NativeCameraModule.unsubscribeFromFrames.
    cbn [NativeCameraModule.cameraEventEmitter].
    destruct (NativeCameraModule.frameSubscription this) as [subscription|],
             (NativeCameraModule.onFrameCallback this) as [callback|];
      try contradiction; [|exact H].
    unfold NativeCameraModule.remove. cbn [NativeCameraModule.listeners].
    rewrite H. cbn [filter fst]. rewrite Nat.eqb_refl. reflexivity. }
  induction 1 as [|this callback _ IH|this _ IH].
  - reflexivity.
  - unfold NativeCameraModule.subscribeToFrames, NativeCameraModule.addListener.
    cbn [NativeCameraModule.frameSubscription NativeCameraModule.onFrameCallback
         NativeCameraModule.cameraEventEmitter NativeCameraModule.listeners].
    rewrite (Hun this IH). reflexivity.
  - pose proof (Hun this IH) as H.
    unfold NativeCameraModule.unsubscribeFromFrames in *.
    cbn [NativeCameraModule.frameSubscription NativeCameraModule.onFrameCallback
         NativeCameraModule.cameraEventEmitter] in *.
    exact H.
Qed.

Lemma subscribeToFrames_called {Callback : Type}
    (camera : NativeCameraModule.NativeCameraModule Callback)
    (callback : Callback) :
  NativeCameraModule.Subscribed camera ->
  NativeCameraModule.called (NativeCameraModule.subscribeToFrames camera callback)
  = [callback].
Proof.
  intros H.
  pose proof (Subscribed_listeners _
                (NativeCameraModule.Subscribed_subscribe callback H)) as L.
  unfold NativeCameraModule.called.
  unfold NativeCameraModule.subscribeToFrames, NativeCameraModule.addListener in *.
  cbn [NativeCameraModule.frameSubscription NativeCameraModule.onFrameCallback
       NativeCameraModule.cameraEventEmitter] in *.
  rewrite L. reflexivity.
Qed.

(** X24.  A frame event is handed to one subscriber at most, the callback
    of the last [subscribeToFrames] unless [unsubscribeFromFrames] came
    after it; subscribing one callback removes the other.  For a frame
    with a detected face: while the calibration callback is subscribed,
    the calibration data takes the gaze value, converted to a [number],
    exactly when the confidence as a [number] exceeds 0.3, and a session
    that is recording records nothing; while the tracker callback is
    subscribed, the calibration data stays as it is and a session that is
    recording gets one more data point, whatever the confidence, with the
    raw gaze, the calibrated gaze exactly when the service is calibrated,
    the confidence, the next frame number and no timestamp; and with no
    subscriber nothing changes. *)
Theorem detected_face_reaches_one_subscriber
    (exp : float32 -> float32) (processor : Processor) (image : Image)
    (now nano frameNow : Z) (landmarks : EyeLandmarks) (gaze : GazeData)
    (step : CalibrationScreen.Position)
    (service : CalibrationService.CalibrationService)
    (camera : NativeCameraModule.NativeCameraModule App.FrameCallback)
    (consumers : App.Consumers) :
  NativeCameraModule.Subscribed camera ->
  TensorFlowProcessor.processFrame exp processor image now nano
  = Returns (Some landmarks) ->
  gazeData landmarks = Some gaze ->
  SessionManager.isRecording (App.sessionManager consumers) = true ->
  let gazeValue := CameraModule.toDouble (normalizedGazeX gaze) in
  let calibrating :=
    NativeCameraModule.subscribeToFrames camera (App.CalibrationCallback step) in
  let tracking :=
    NativeCameraModule.subscribeToFrames camera App.TrackerCallback in
  exists frame point,
    CameraModule.processFrame exp (Some processor) image now nano frameNow
    = Some frame
    /\ NativeCameraModule.called camera
       = match NativeCameraModule.onFrameCallback camera with
         | Some callback => [callback]
         | None => []
         end
    /\ NativeCameraModule.called calibrating = [App.CalibrationCallback step]
    /\ NativeCameraModule.called tracking = [App.TrackerCallback]
    /\ App.emitFrame calibrating service frame consumers
       = {| App.calibrationData :=
              if (CameraModule.toDouble (confidence landmarks)
                  > Number.ofZ 3 / Number.ofZ 10)%num
              then CalibrationScreen.addGazeValue step gazeValue
                     (App.calibrationData consumers)
              else App.calibrationData consumers;
            App.sessionManager := App.sessionManager consumers |}
    /\ App.calibrationData (App.emitFrame tracking service frame consumers)
       = App.calibrationData consumers
    /\ SessionManager.sessionData
         (App.sessionManager (App.emitFrame tracking service frame consumers))
       = SessionManager.sessionData (App.sessionManager consumers) ++ [point]
    /\ SessionManager.gaze_raw point = gazeValue
    /\ SessionManager.gaze_calibrated point
       = (if CalibrationService.isCalibrated service
          then Some (CalibrationService.applyCalibratedGaze service gazeValue)
          else None)
    /\ SessionManager.pointConfidence point
       = CameraModule.toDouble (confidence landmarks)
    /\ SessionManager.frame_number point
       = SessionManager.frameCounter (App.sessionManager consumers) + 1
    /\ SessionManager.timestamp point = None
    /\ App.emitFrame (NativeCameraModule.unsubscribeFromFrames camera)
         service frame consumers
       = consumers.
Proof.
  intros Hcamera Hframe Hgaze Hrec gazeValue calibrating tracking.
  destruct consumers as [data manager]. cbn [App.sessionManager] in *.
  unfold SessionManager.isRecording in Hrec.
  destruct (SessionManager.currentSession manager) as [session|] eqn:Hsession;
    [|discriminate].
  unfold CameraModule.processFrame. rewrite Hframe. cbn [option_map].
  eexists. eexists. split; [reflexivity|].
  split.
  { pose proof (Subscribed_listeners camera Hcamera) as L.
    unfold NativeCameraModule.called.
    destruct (NativeCameraModule.frameSubscription camera),
             (NativeCameraModule.onFrameCallback camera);
      try contradiction; rewrite L; reflexivity. }
  split; [apply subscribeToFrames_called, Hcamera|].
  split; [apply subscribeToFrames_called, Hcamera|].
  unfold App.emitFrame.
  unfold calibrating, tracking.
  rewrite !(subscribeToFrames_called _ _ Hcamera).
  pose proof (Subscribed_listeners _
                (NativeCameraModule.Subscribed_unsubscribe Hcamera)) as Lnone.
  unfold NativeCameraModule.called.
  cbn [NativeCameraModule.unsubscribeFromFrames
       NativeCameraModule.frameSubscription
       NativeCameraModule.onFrameCallback] in Lnone.
  rewrite Lnone.
  cbn [fold_left map App.call App.calibrationData App.sessionManager].
  split.
  { unfold CalibrationScreen.onFrame, NativeCameraModule.calibrationFrame.
    cbn [NativeCameraModule.eyeLandmarks CalibrationScreen.eyeLandmarks
         option_map CalibrationScreen.gazeData CalibrationScreen.confidence
         CameraModule.landmarksMap NativeCameraModule.gazeData
         NativeCameraModule.confidence].
    rewrite Hgaze.
    cbn [option_map CameraModule.gazeMap NativeCameraModule.normalizedGazeX].
    fold gazeValue.
    destruct (_ > _)%num; reflexivity. }
  split; [reflexivity|].
  unfold App.onCameraFrame, SessionManager.addDataPoint.
  cbn [NativeCameraModule.eyeLandmarks].
  rewrite Hsession, Hrec. cbn [negb].
  cbn [CameraModule.landmarksMap NativeCameraModule.gazeData].
  rewrite Hgaze. cbn [option_map fst SessionManager.sessionData].
  split; [reflexivity|].
  cbn [SessionManager.gaze_raw SessionManager.gaze_calibrated
       SessionManager.pointConfidence SessionManager.frame_number
       SessionManager.timestamp CameraModule.gazeMap
       NativeCameraModule.normalizedGazeX NativeCameraModule.confidence].
  repeat split.
Qed.

Lemma detected_face_reaches_one_subscriber_witness :
  let consumers :=
    {| App.calibrationData :=
         CalibrationSamples.stateWith CalibrationSamples.typicalPoints;
       App.sessionManager := recordedTwice |} in
  let tracking :=
    NativeCameraModule.subscribeToFrames NativeCameraModule.nativeCameraModule
      App.TrackerCallback in
  let calibrating :=
    NativeCameraModule.subscribeToFrames tracking
      (App.CalibrationCallback CalibrationScreen.Left) in
  (confidence faintFaceLandmarks > confidenceThreshold)%flt = true
  /\ (CameraModule.toDouble (confidence faintFaceLandmarks)
      > Number.ofZ 3 / Number.ofZ 10)%num = false
  /\ NativeCameraModule.called calibrating
     = [App.CalibrationCallback CalibrationScreen.Left]
  /\ exists frame point,
       CameraModule.processFrame JavaMath.exp (Some faintFaceProcessor)
         sampleImage 7 9 11
       = Some frame
       /\ App.emitFrame calibrating CalibrationService.instance frame consumers
          = consumers
       /\ SessionManager.sessionData
            (App.sessionManager
               (App.emitFrame
                  (NativeCameraModule.subscribeToFrames tracking
                     App.TrackerCallback)
                  CalibrationService.instance frame consumers))
          = SessionManager.sessionData recordedTwice ++ [point]
       /\ SessionManager.frame_number point = 3.
Proof.
  intros consumers tracking calibrating.
  split; [vm_compute; reflexivity|].
  assert (Hlow : (CameraModule.toDouble (confidence faintFaceLandmarks)
                  > Number.ofZ 3 / Number.ofZ 10)%num = false)
    by (vm_compute; reflexivity).
  split; [exact Hlow|].
  split; [reflexivity|].
  assert (Hframe : TensorFlowProcessor.processFrame JavaMath.exp
                     faintFaceProcessor sampleImage 7 9
                   = Returns (Some faintFaceLandmarks))
    by (vm_compute; reflexivity).
  assert (Hcamera : NativeCameraModule.Subscribed tracking)
    by (repeat constructor).
  destruct (detected_face_reaches_one_subscriber JavaMath.exp
              faintFaceProcessor sampleImage 7 9 11 faintFaceLandmarks
              (calculateNormalizedGaze
                 ((x (iris (leftEye faintFaceLandmarks))
                   + x (iris (rightEye faintFaceLandmarks))) / toFloat 2)%flt
                 (x (outerCorner (leftEye faintFaceLandmarks)))
                 (x (outerCorner (rightEye faintFaceLandmarks)))
                 (confidence faintFaceLandmarks))
              CalibrationScreen.Left CalibrationService.instance
              tracking consumers Hcamera Hframe eq_refl eq_refl)
    as (frame & point & H1 & _ & _ & _ & H5 & _ & H7 & _ & _ & _ & H11 & _).
  exists frame, point.
  split; [exact H1|].
  split.
  - fold calibrating in H5. rewrite H5, Hlow. reflexivity.
  - split; [exact H7 | exact H11].
Defined.

End FrameEventProps.
